(* ===== verification/_CoqProject ===== *)
-Q . S2P
Prelude.v
Text.v
Url.v
Flags.v
Config.v
NetAddr.v
Bencode.v
Codec.v
RoutingTable.v
Requests.v
Frontend.v
Transport.v
Protocol.v
Indexing.v
Sink.v
Filters.v
Client.v
Connection.v
Cluster.v
Cache.v
Repo.v
Ingest.v
Retention.v
Gorm.v
Distribution.v
Downloader.v
Manager.v
Crawler.v
Crawl.v
Metrics.v
Startup.v
I18n.v
Web.v
Server.v
Worker.v
Serve.v
Pages.v
