(* ===== verification/Prelude.v ===== *)
(** * lazy-dhtc: a verification library

    dhtc is a DHT crawler and torrent search engine written in Go (with a few
    browser and tool scripts). A crawl asks the BitTorrent DHT for info hashes and
    for peers that have them, downloads the metadata of each info hash from its
    peers, filters and stores it; workers can crawl for a master. This library
    models it from datagrams to stored records, and from there to the pages and
    the services that use them, and proves what each part promises to the next.

    ** How the parts meet

    UDP datagrams -> Transport -> Protocol (dispatch, validation) -> Indexing
    service (one per IP family: routing table, pending get_peers requests) ->
    Manager (channel of results, wiring of the two families) -> Crawl (the loop
    that consumes results; info hash Cache) -> Sink (one download per info hash)
    -> Client (metadata exchange with one peer) -> back through Sink and Crawl to
    Ingest or, on a worker, to Cluster (queue, acknowledgement, master) and from
    the master to Ingest. Ingest hands a torrent to the repository (Repo, on the
    Filters), checks the watches, calls the notifiers and writes to the web
    sockets. Web, Pages and Server are the handlers that search the repository,
    send links to a Downloader, save the settings and control the crawlers. Startup
    is what puts the parts together from the Config that the command line gives.

    ** The files

    - Prelude: integers of Go with their wrap-around, bytes, big-endian numbers,
      slices with their bounds check ([None] or [Panic] where Go panics), results
      ([go]: value, error or panic), time as nanoseconds since the zero Time,
      reachability [star], and the lemmas shared by the rest.
    - Text: the functions of packages strings, encoding/hex and bufio that the code
      uses; Url: the query strings of net/url; Flags: package flag.
    - NetAddr: netip.Addr and AddrPort.
    - Bencode, Codec (dhtc-client/codec.go, util.go): messages, compact encodings.
      The bencode package is a class with laws; the (un)marshallers written in
      the repository are definitions.
    - RoutingTable (routing_table.go): the buckets, Add, Prune, Closest.
    - Requests (indexingService.go): the table of pending get_peers transactions,
      apart from the rest because its invariant stands alone.
    - Transport (transport.go), Protocol (protocol.go), Indexing
      (indexingService.go), Manager (managers.go, and crawlerEndpoints of
      ui/crawler.go).
    - Sink (sink.go), Client (client.go): downloads; Connection: the socket of one, from
      connect to closeConn, around the protocol of Client.
    - Cache (cache/cache.go); Config (config/configuration.go): the record of all
      settings and [ParseArguments] over flags, environment and YAML file.
    - Crawler (ui/crawler.go): the daily schedule and the crawler manager; Crawl
      (ui/crawler.go): the loop, over the models of cache, sink and manager. Metrics
      (ui/crawler.go, Stats of cluster/transport.go, logWorkerMetrics of
      cmd/dhtc/main.go): a [Board] is the world of crawls, the DHT managers of all of
      them and the totals they leave behind; Status and the log line read it.
    - Cluster (cluster/transport.go): worker queue, handlers, master.
    - Filters (db/helper.go, categorizer.go, chinese_filter.go,
      blacklist_helper.go): what is kept, how it is classified and matched.
    - Repo (db/clover.go, types.go, db.go): the repository over CloverDB, which is
      the class [Clover] with the laws [CloverLaws]; Module Memory is a database in
      memory that has them.
    - Gorm (db/gorm.go, OpenRepository): the repository over SQL. Queries are terms
      over the class [Gorm]; [GormLaws] is what SQL promises, and Module SqlMemory a
      database in memory that has them.
    - Retention: what both repositories promise about the torrents they keep, the
      class [Retains], and what follows for batches. Distribution: the distribution of
      categories over both.
    - Ingest (db/repository.go, db/watch.go, notifier/, ui/hub.go, IngestMetadata
      of ui/crawler.go, the flush route of ui/ui.go): written against the class
      [Repository], of which Repo's and Gorm's functions are instances.
    - Downloader (downloader/downloader.go, ui/downloader.go): four clients, in a
      state monad over a remote service and the log of its exchanges.
    - I18n (ui/i18n.go), Web (ui/helpers.go, api.go, mcp.go, watch.go,
      blacklist.go, saved.go), Server (ui/settings.go, ui/workers.go, sendControl
      of cluster/transport.go, the control route of cmd/dhtc/main.go), Pages
      (ui/ui.go, search.go, discover.go, dashboard.go, workers.go,
      crawler_controls.go, languageURL of ui/i18n.go): pages, forms and routes.
    - Startup (cmd/dhtc/main.go): list files, [main] and [runWorker].
    - Worker (runWorker of cmd/dhtc/main.go): a worker as the composition of Crawl,
      Cache and Cluster. Serve: its HTTP server (queue, health and control routes) over
      the board and the queue, from the first request to the shutdown.
    - Frontend: the JavaScript of the repository,
      ui/static/js/lazycat-notifications.src.js, scripts/screenshot.js and
      tailwind.config.js.

    Record fields and definitions carry the names of the code; a name that Rocq
    or another file already uses has a suffix or a prefix ([Sink_], [Crawler_Start]).

    ** State and concurrency

    A critical section of a mutex is one function on the state, and a handler is
    one step. Interleavings are sequences of such steps: an inductive step
    relation, or a type of events with an executable [exec], closed under [star].
    Goroutines that matter are part of the state (downloads in Sink, timers and
    crawl runs in Crawler and Crawl). Fields marked as logs are not in the code:
    they record calls, so that theorems can count them.

    ** What the theorems show

    - Invariants over every interleaving: [routing_table_invariant],
      [requests_invariant], [service_invariant], [transport_fifo],
      [manager_invariant], [sink_invariant], [crawler_manager_invariant],
      [notify_invariant], [status_counts] (the status is the sum over all crawls).
    - Refinement: [hub_is_per_connection] (the hub is one small machine for each
      connection), [Add_refines_lru], [batch_keeps_newest] (any repository that keeps
      the newest torrents after one insertion does so after a batch).
    - Storage: [InsertMetadata_keeps_newest], [torrents_well_typed] (what is stored
      is what is read), [stats_buckets], [ingest_effects]; over SQL [sql_insert],
      [sql_search], [sql_row_roundtrip]; and both agree: [stats_backends_agree],
      [categories_agree].
    - Start-up: [ParseArguments_spec] (which of command line, environment and file
      decides a setting), [blacklist_files_apply], [restart_keeps_known],
      [runWorker_spec], [worker_restart_keeps_queue]; a worker that serves:
      [worker_server_guarded], [worker_life_ends], [log_lines_add_up].
    - The web part: [mcp_bounded] and [pagination_bounds] (limits and overflow),
      [pages_cover], [date_search], [language_chosen], [settings_all_or_nothing],
      [control_agrees], [magnet_needs_login], [transmission_retries_once],
      [search_form_roundtrip], [language_link], [web_server_guarded],
      [templates_are_scanned].
    - End to end: [crawl_once] (no info hash is downloaded twice, across all runs
      of a process), [worker_once] (on a worker it is on its way at most once),
      [client_success_sound] (what a download reports hashes to the info hash),
      [download_releases_socket] (it ends, with one callback and its socket closed),
      [at_least_once] (no record is lost between worker and master).
    - Reference definitions: [Add_refines_lru], [Closest_nearest],
      [xorBucketIndex_log2], [scheduleState_spec].
    - Round trips: compact nodes and peers, handshakes, the routing cache on disk.
    - Branch by branch: [reserve_spec], [handler_serves], [pullAll_round],
      [requestPeers_query], [get_peers_answered], [cache_ttl].
    - Where the code falls short: [stopped_downloads_are_lost],
      [stop_can_deadlock], [drainFlush_ends] (no master: never),
      [piece_index_panics], [wait_runs_forever_iff],
      [UnmarshalCompactPeers_only_ipv4], [auto_stop_effect], [watch_fires_iff],
      [refused_batch_is_acknowledged], [flush_needs_open_server],
      [token_sent_anywhere], [negative_limits_panic], [midnight_is_lost],
      [restored_queue_is_crawled_again], [translations_complete],
      [file_schedule_is_dead], [file_schedule_never_crawls], [config_file_read],
      [sql_date_watch_always_fires], [overlapping_crawl_forgotten].

    ** Bounds and fuel

    Loops over data are structural. [Client.Do] runs with one unit of fuel more
    than there are bytes to come, and every message takes at least four of them:
    [download_releases_socket] shows that it never runs out. [drainFlush] takes fuel
    because it need not end; [drainFlush_ends] says when it does. The wait loop of
    the screenshot script is a relation between attempts and its theorem states
    exactly when it goes on forever. [trim_left] has the length of its string.

    ** What is taken from outside

    Sockets, files, HTTP, the clock and random numbers appear as arguments or as
    the outcomes of a step. Bencode, SHA-1 and SHA-256, url.Parse, the text form
    of addresses and the resolver are parameters; laws are assumed only where a
    theorem names them ([PeerLaws], [AddrTextLaws], [CloverLaws] and the like), and
    witnesses instantiate them. Regular expressions, Unicode's Han script, JSON and
    the form binding of gin are arguments too; remote HTTP services are functions
    of a state of their own. Time zones have a fixed offset. strings.ToLower is an
    argument outside ASCII.

    ** Not modelled

    What a full text index of an SQL engine finds: a function of the class [Gorm], on
    which nothing is proved. The delivery of signals and the reading and writing of HTTP
    by the library, of which the handlers get the decoded request; log output other
    than the metrics of a worker; opening and closing databases, beyond the choice of
    the dialect. The HTML of the templates, of which Pages has the data. The bundled script lazycat-notifications.js, which esbuild writes
    from its source, and third-party scripts. The counters of the statistics are Z
    without bound where the code has an int64 that only counts rows. *)

From Stdlib Require Import ZArith Lia.
From Stdlib Require Export Init.Byte.
From stdpp Require Export base list gmap sets strings countable sorting.

Open Scope Z_scope.

(** ** Automation shared by the development *)

Create HintDb dhtc discriminated.
Create Rewrite HintDb dhtc_rw.
#[export] Hint Constants Opaque : dhtc.

(** Split conjunctions in hypotheses and goal, then finish. *)
Ltac crush := repeat (done || lia || congruence || (progress simplify_eq/=) || case_match || split).

(** Refute the membership [H] of a constructor in an explicit list. *)
Ltac not_in_list H := exfalso; apply list_elem_of_In in H; cbn in H; intuition discriminate.

(** Reduce a [let '(a, b) := f x in ...] by naming the result of [f x]. *)
Ltac name_pair e := let E := fresh "E" in destruct e eqn:E.

(** ** Fixed-width integers of Go, as [Z] with the wrap-around written out *)

Definition u8 (z : Z) : Z := z mod 2 ^ 8.
Definition u16 (z : Z) : Z := z mod 2 ^ 16.
Definition u32 (z : Z) : Z := z mod 2 ^ 32.
Definition u64 (z : Z) : Z := z mod 2 ^ 64.
(** [int] and [int64]: two's complement on 64 bits. *)
Definition i64 (z : Z) : Z := (z + 2 ^ 63) mod 2 ^ 64 - 2 ^ 63.

Lemma u16_range z : 0 <= u16 z < 65536.
Proof. unfold u16. apply Z.mod_pos_bound. lia. Qed.

Lemma u16_small z : 0 <= z < 65536 -> u16 z = z.
Proof. intros. unfold u16. apply Z.mod_small. lia. Qed.

Lemma u64_small z : 0 <= z < 2 ^ 64 -> u64 z = z.
Proof. intros. unfold u64. apply Z.mod_small. lia. Qed.

Lemma i64_small z : - 2 ^ 63 <= z < 2 ^ 63 -> i64 z = z.
Proof. intros. unfold i64. rewrite Z.mod_small; lia. Qed.

Lemma i64_range z : - 2 ^ 63 <= i64 z < 2 ^ 63.
Proof. unfold i64. pose proof (Z.mod_pos_bound (z + 2 ^ 63) (2 ^ 64)). lia. Qed.

(** ** Bytes *)

Definition b2z (b : byte) : Z := Z.of_N (Byte.to_N b).
Definition z2b (z : Z) : byte := default x00 (Byte.of_N (Z.to_N (z mod 256))).

Lemma b2z_range b : 0 <= b2z b < 256.
Proof. unfold b2z. destruct b; cbv; split; congruence. Qed.

Lemma b2z_z2b z : b2z (z2b z) = z mod 256.
Proof.
  unfold b2z, z2b. pose proof (Z.mod_pos_bound z 256 ltac:(lia)) as Hb.
  destruct (Byte.of_N (Z.to_N (z mod 256))) as [b|] eqn:E; simpl.
  - apply Byte.to_of_N in E. rewrite E. lia.
  - apply Byte.of_N_None_iff in E. lia.
Qed.

Lemma z2b_b2z b : z2b (b2z b) = b.
Proof. unfold b2z, z2b. by destruct b. Qed.

Lemma b2z_inj a b : b2z a = b2z b -> a = b.
Proof. intros H. rewrite <- (z2b_b2z a), <- (z2b_b2z b). by f_equal. Qed.

#[export] Instance byte_eq_dec : EqDecision byte := Byte.byte_eq_dec.
#[export] Program Instance byte_countable : Countable byte :=
  inj_countable Byte.to_N Byte.of_N _.
Next Obligation. intros b. by destruct b. Qed.

(** The bytes of a string literal. *)
Definition bytes_of (s : string) : list byte := Stdlib.Strings.String.list_byte_of_string s.

Definition bxor (a b : byte) : byte := z2b (Z.lxor (b2z a) (b2z b)).

Lemma lxor_range_pow2 a b n :
  0 <= n -> 0 <= a < 2 ^ n -> 0 <= b < 2 ^ n -> 0 <= Z.lxor a b < 2 ^ n.
Proof.
  intros Hn Ha Hb. assert (0 <= Z.lxor a b) as Hp by (apply Z.lxor_nonneg; lia).
  split; [done|]. assert (Z.lxor a b / 2 ^ n = 0) as Hq; [|apply Z.div_small_iff in Hq; lia].
  rewrite <- Z.shiftr_div_pow2, Z.shiftr_lxor, !Z.shiftr_div_pow2, !Z.div_small by done. done.
Qed.

Lemma b2z_bxor a b : b2z (bxor a b) = Z.lxor (b2z a) (b2z b).
Proof.
  unfold bxor. rewrite b2z_z2b. apply Z.mod_small, (lxor_range_pow2 _ _ 8); try apply b2z_range. lia.
Qed.

(** ** Big-endian integers ([encoding/binary.BigEndian]) *)

Fixpoint be_decode (l : list byte) : Z :=
  match l with
  | [] => 0
  | b :: l' => b2z b * 256 ^ Z.of_nat (length l') + be_decode l'
  end.

Fixpoint be_encode (n : nat) (v : Z) : list byte :=
  match n with
  | O => []
  | S n' => z2b (v / 256 ^ Z.of_nat n') :: be_encode n' v
  end.

Lemma be_encode_length n v : length (be_encode n v) = n.
Proof. induction n as [|n IH]; simpl; congruence. Qed.

Lemma pow256_pos n : 0 < 256 ^ Z.of_nat n.
Proof. apply Z.pow_pos_nonneg; lia. Qed.
#[export] Hint Resolve pow256_pos : dhtc.

Lemma be_decode_range l : 0 <= be_decode l < 256 ^ Z.of_nat (length l).
Proof.
  induction l as [|b l IH]; [simpl; lia|]. cbn [be_decode length].
  rewrite Nat2Z.inj_succ, Z.pow_succ_r by lia.
  pose proof (b2z_range b). pose proof (pow256_pos (length l)). nia.
Qed.

Lemma be_decode_app l k :
  be_decode (l ++ k) = be_decode l * 256 ^ Z.of_nat (length k) + be_decode k.
Proof.
  induction l as [|b l IH]; [done|]. cbn [be_decode app]. rewrite IH, length_app.
  rewrite Nat2Z.inj_add, Z.pow_add_r by lia. ring.
Qed.

Lemma be_decode_encode n v : be_decode (be_encode n v) = v mod 256 ^ Z.of_nat n.
Proof.
  induction n as [|n IH]; [by rewrite Z.mod_1_r|]. cbn [be_decode be_encode].
  rewrite IH, be_encode_length, b2z_z2b, Nat2Z.inj_succ, Z.pow_succ_r by lia.
  pose proof (pow256_pos n) as Hp. set (p := 256 ^ Z.of_nat n) in *.
  rewrite (Z.mul_comm 256 p), Z.rem_mul_r by lia. ring.
Qed.

Lemma be_decode_inj l k : length l = length k -> be_decode l = be_decode k -> l = k.
Proof.
  revert k; induction l as [|a l IH]; intros [|b k] Hl Hd; try done.
  injection Hl as Hl. cbn [be_decode] in Hd. rewrite Hl in Hd.
  pose proof (be_decode_range l) as Hrl. pose proof (be_decode_range k) as Hrk.
  rewrite Hl in Hrl. pose proof (b2z_range a). pose proof (b2z_range b).
  set (p := 256 ^ Z.of_nat (length k)) in *.
  assert (b2z a = b2z b) as Hab by nia.
  f_equal; [by apply b2z_inj|]. apply IH; [done|]. nia.
Qed.

Lemma be_encode_decode l : be_encode (length l) (be_decode l) = l.
Proof.
  apply be_decode_inj; [apply be_encode_length|].
  rewrite be_decode_encode. apply Z.mod_small, be_decode_range.
Qed.

Lemma be_decode_encode_small n v :
  0 <= v < 256 ^ Z.of_nat n -> be_decode (be_encode n v) = v.
Proof. intros. rewrite be_decode_encode. by apply Z.mod_small. Qed.

(** The exclusive or of two byte strings of one length is that of their values. *)
Lemma testbit_high y n i : 0 <= y < 2 ^ n -> n <= i -> Z.testbit y i = false.
Proof.
  intros Hy Hi. destruct (Z.eq_dec y 0) as [->|]; [apply Z.bits_0|].
  apply Z.bits_above_log2; [lia|]. enough (Z.log2 y < n) by lia. apply Z.log2_lt_pow2; lia.
Qed.

Lemma shift_add_lor x y n :
  0 <= n -> 0 <= y < 2 ^ n -> x * 2 ^ n + y = Z.lor (Z.shiftl x n) y.
Proof.
  intros Hn Hy. rewrite <- Z.shiftl_mul_pow2 by done.
  rewrite <- Z.lxor_lor, Z.add_nocarry_lxor; try done.
  all: apply Z.bits_inj'; intros i Hi; rewrite Z.land_spec, Z.bits_0.
  all: destruct (Z.lt_ge_cases i n).
  1, 3: by rewrite Z.shiftl_spec_low by lia.
  all: by rewrite (testbit_high y n i), andb_false_r by done.
Qed.

Lemma lxor_split p q a b n :
  0 <= n -> 0 <= a < 2 ^ n -> 0 <= b < 2 ^ n ->
  Z.lxor (p * 2 ^ n + a) (q * 2 ^ n + b) = Z.lxor p q * 2 ^ n + Z.lxor a b.
Proof.
  intros Hn Ha Hb.
  rewrite !(shift_add_lor _ _ n) by eauto using lxor_range_pow2.
  apply Z.bits_inj'; intros i Hi.
  rewrite !Z.lxor_spec, !Z.lor_spec, !Z.shiftl_spec, !Z.lxor_spec by done.
  destruct (Z.lt_ge_cases i n).
  - by rewrite !(Z.testbit_neg_r _ (i - n)) by lia.
  - by rewrite (testbit_high a n i), (testbit_high b n i), !orb_false_r by done.
Qed.

Definition bxors (l k : list byte) : list byte := zip_with bxor l k.

Lemma be_decode_bxors l k :
  length l = length k -> be_decode (bxors l k) = Z.lxor (be_decode l) (be_decode k).
Proof.
  revert k; induction l as [|a l IH]; intros [|b k] Hl; try done.
  injection Hl as Hl. unfold bxors in *. cbn [be_decode zip_with].
  rewrite IH, b2z_bxor, length_zip_with, <- Hl, Nat.min_id by done.
  pose proof (be_decode_range l) as Rl. pose proof (be_decode_range k) as Rk. rewrite <- Hl in Rk.
  change 256 with (2 ^ 8) in *. rewrite <- Z.pow_mul_r in * by lia.
  symmetry. apply lxor_split; lia.
Qed.

(** ** Slices

    [sub l i j] is the slice expression [l[i:j]] inside its bounds; [slice]
    has the bounds check of the language, [None] standing for the panic.
    [go_copy dst src] is [dst] after [copy(dst, src)]. *)

Definition sub {A} (l : list A) (i j : nat) : list A := take (j - i) (drop i l).

Definition slice {A} (l : list A) (i j : Z) : option (list A) :=
  if (0 <=? i) && (i <=? j) && (j <=? Z.of_nat (length l))
  then Some (sub l (Z.to_nat i) (Z.to_nat j)) else None.

Definition go_copy {A} (dst src : list A) : list A :=
  take (length dst) src ++ drop (length src) dst.

Lemma length_sub {A} (l : list A) i j :
  (i <= j)%nat -> (j <= length l)%nat -> length (sub l i j) = (j - i)%nat.
Proof. intros. unfold sub. rewrite length_take, length_drop. lia. Qed.

Lemma length_go_copy {A} (dst src : list A) : length (go_copy dst src) = length dst.
Proof. unfold go_copy. rewrite length_app, length_take, length_drop. lia. Qed.
#[export] Hint Rewrite @length_go_copy : dhtc_rw.

Lemma go_copy_same {A} (dst src : list A) :
  length src = length dst -> go_copy dst src = src.
Proof. intros H. unfold go_copy. by rewrite <- H, firstn_all, H, drop_all, app_nil_r. Qed.

(** [chunks n l]: the blocks [l[0:n]], [l[n:2n]], ... of a list whose length
    is a multiple of [n], in the order the decoding loops visit them. *)
Definition chunks {A} (n : nat) (l : list A) : list (list A) :=
  (fun i => sub l (i * n) ((i + 1) * n)) <$> seq 0 (length l / n).

Lemma chunks_nil {A} n : @chunks A n [] = [].
Proof. unfold chunks. simpl. by destruct n. Qed.

Lemma chunks_app {A} n (b l : list A) :
  (0 < n)%nat -> length b = n -> chunks n (b ++ l) = b :: chunks n l.
Proof.
  intros Hn Hb. unfold chunks.
  rewrite length_app, Hb, (Nat.add_comm n), <- (Nat.mul_1_l n) at 1.
  rewrite Nat.div_add by lia. rewrite Nat.add_1_r. cbn [seq fmap list_fmap].
  f_equal.
  - unfold sub. simpl. by rewrite Nat.add_0_r, Nat.sub_0_r, drop_0, <- Hb, take_app_length.
  - rewrite <- seq_shift, <- list_fmap_compose. apply list_fmap_ext. intros i x _. unfold compose, sub.
    replace ((S x + 1) * n - S x * n)%nat with ((x + 1) * n - x * n)%nat by lia.
    f_equal. replace (S x * n)%nat with (n + x * n)%nat by lia.
    by rewrite <- drop_drop, <- Hb, drop_app_length.
Qed.

Lemma chunks_concat {A} n (bs : list (list A)) :
  (0 < n)%nat -> Forall (fun b => length b = n) bs -> chunks n (concat bs) = bs.
Proof.
  intros Hn. induction 1 as [|b bs Hb _ IH]; simpl; [apply chunks_nil|].
  by rewrite chunks_app, IH.
Qed.

Lemma chunks_length {A} n (l : list A) : length (chunks n l) = (length l / n)%nat.
Proof. unfold chunks. by rewrite length_fmap, length_seq. Qed.

Lemma chunks_each {A} n (l : list A) :
  (0 < n)%nat -> Forall (fun b => length b = n) (chunks n l).
Proof.
  intros Hn. unfold chunks. apply Forall_fmap, Forall_forall. intros i Hi.
  apply elem_of_seq in Hi. simpl. rewrite length_sub; [lia..|].
  transitivity (length l / n * n)%nat; [nia|]. rewrite Nat.mul_comm. by apply Nat.Div0.mul_div_le.
Qed.

(** ** Results: a value, an [error], or a panic *)

Inductive go (E A : Type) : Type :=
  | Ret (a : A)
  | Err (e : E)
  | Panic.
Arguments Ret {E A} a.
Arguments Err {E A} e.
Arguments Panic {E A}.

#[export] Instance go_ret E : MRet (go E) := fun A a => Ret a.
#[export] Instance go_bind E : MBind (go E) := fun A B f m =>
  match m with Ret a => f a | Err e => Err e | Panic => Panic end.
#[export] Instance go_fmap E : FMap (go E) := fun A B f m =>
  match m with Ret a => Ret (f a) | Err e => Err e | Panic => Panic end.

Lemma bind_Ret {E A B} (f : A -> go E B) (a : A) : (Ret a ≫= f) = f a.
Proof. reflexivity. Qed.

(** The first error of a list of results, or all the values. *)
Fixpoint go_seq {E A} (l : list (go E A)) : go E (list A) :=
  match l with
  | [] => Ret []
  | m :: l' => a ← m; r ← go_seq l'; Ret (a :: r)
  end.

Lemma go_seq_ret {E A} (l : list (go E A)) (k : list A) :
  go_seq l = Ret k <-> l = Ret <$> k.
Proof.
  revert k; induction l as [|m l IH]; intros k; simpl.
  - split; [by intros [= <-]|]. by destruct k.
  - destruct m as [a|e|]; simpl; [|by destruct k..].
    destruct (go_seq l) as [r|e|] eqn:Hq; simpl.
    + split; [|destruct k; [done|]; simpl; intros [= -> Hk]; apply IH in Hk; congruence].
      intros [= <-]. simpl. f_equal. by apply IH.
    + split; [done|]. destruct k; [done|]. intros [= -> Hk]. apply IH in Hk. done.
    + split; [done|]. destruct k; [done|]. intros [= -> Hk]. apply IH in Hk. done.
Qed.

(** ** Time

    [time.Time] is the number of nanoseconds since the zero Time (January 1,
    year 1, UTC), so that [IsZero] is equality with 0; [time.Duration] is a
    number of nanoseconds. *)

Abbreviation time := Z (only parsing).
Abbreviation duration := Z (only parsing).
Definition nanosecond : duration := 1.
Definition millisecond : duration := 1000000.
Definition second : duration := 1000000000.
Definition minute : duration := 60 * second.
Definition hour : duration := 60 * minute.
Definition day : duration := 24 * hour.
Definition IsZero (t : time) : bool := t =? 0.

(** ** Reachability of a step relation *)

Section Star.
  Context {S : Type} (step : S -> S -> Prop).

Inductive star : S -> S -> Prop :=
  | star_refl s : star s s
  | star_step s t u : step s t -> star t u -> star s u.

Lemma star_inv (P : S -> Prop) :
  (forall s t, P s -> step s t -> P t) -> forall s t, star s t -> P s -> P t.
Proof. intros Hp s t; induction 1; eauto. Qed.

Lemma star_trans s t u : star s t -> star t u -> star s u.
Proof. induction 1; eauto using star_step. Qed.
End Star.

(** ** Loops over a list *)

Lemma foldl_inv {S A} (P : S -> Prop) (f : S -> A -> S) (l : list A) s :
  (forall s x, x ∈ l -> P s -> P (f s x)) -> P s -> P (foldl f s l).
Proof.
  revert s; induction l as [|x l IH]; intros s Hf Hs; [done|]. cbn. apply IH.
  - intros s' y Hy. apply Hf. by right.
  - apply Hf; [by left|done].
Qed.

(** ** Filters *)

Lemma filter_all {A} (P : A -> Prop) `{forall x, Decision (P x)} (l : list A) : (forall x, x ∈ l -> P x) -> filter P l = l.
Proof.
  induction l as [|x l IH]; [done|]. intros Hl. rewrite filter_cons, decide_True by (apply Hl; left).
  f_equal. apply IH. intros y Hy. apply Hl. by right.
Qed.

Lemma filter_none {A} (P : A -> Prop) `{forall x, Decision (P x)} (l : list A) : (forall x, x ∈ l -> ~ P x) -> filter P l = [].
Proof.
  induction l as [|x l IH]; [done|]. intros Hl. rewrite filter_cons, decide_False by (apply Hl; left).
  apply IH. intros y Hy. apply Hl. by right.
Qed.

Lemma filter_length_iff {A} (P Q : A -> Prop) `{forall x, Decision (P x)} `{forall x, Decision (Q x)} (l : list A) :
  (forall x, x ∈ l -> P x <-> Q x) -> length (filter P l) = length (filter Q l).
Proof.
  induction l as [|x l IH]; [done|]. intros Hl. rewrite !filter_cons.
  assert (length (filter P l) = length (filter Q l)) as E by (apply IH; intros y Hy; apply Hl; by right).
  pose proof (Hl x ltac:(left)). do 2 case_decide; cbn [length]; tauto || lia.
Qed.

Lemma map_to_list_filter `{Countable K} {A} (P : K * A -> Prop) `{forall x, Decision (P x)} (m : gmap K A) :
  map_to_list (filter P m) ≡ₚ filter P (map_to_list m).
Proof.
  apply NoDup_Permutation.
  - apply NoDup_map_to_list.
  - apply NoDup_filter, NoDup_map_to_list.
  - intros [k v]. rewrite list_elem_of_filter, !elem_of_map_to_list, map_lookup_filter_Some. tauto.
Qed.

Lemma NoDup_fmap_filter {A B} (f : A -> B) (P : A -> Prop) `{forall x, Decision (P x)} (l : list A) :
  NoDup (f <$> l) -> NoDup (f <$> filter P l).
Proof.
  induction l as [|x l IH]; [done|]. cbn [fmap list_fmap]. intros [Hx Hl]%NoDup_cons. rewrite filter_cons. case_decide; [|by apply IH].
  cbn [fmap list_fmap]. apply NoDup_cons. split; [|by apply IH]. intros (y & E & Hy)%list_elem_of_fmap.
  apply list_elem_of_filter in Hy as [_ Hy]. apply Hx. rewrite E. by apply list_elem_of_fmap_2.
Qed.

Lemma length_filter_fmap {A B} (f : A -> B) (P : B -> Prop) `{forall x, Decision (P x)} (l : list A) :
  length (filter (fun x => P (f x)) l) = length (filter P (f <$> l)).
Proof.
  induction l as [|x l IH]; [done|]. cbn [fmap list_fmap]. rewrite !filter_cons.
  destruct (decide (P (f x))); cbn [length]; by rewrite IH.
Qed.

Lemma length_filter_all {A} (P : A -> Prop) `{forall x, Decision (P x)} (l : list A) :
  length (filter P l) = length l -> forall x, x ∈ l -> P x.
Proof.
  intros Hl x Hx. induction l as [|y l IH]; [by apply not_elem_of_nil in Hx|]. rewrite filter_cons in Hl.
  pose proof (length_filter P l). destruct (decide (P y)); cbn [length] in Hl; [|lia].
  apply elem_of_cons in Hx as [->|Hx]; [done|]. apply IH; [lia|done].
Qed.

(** ** Lists of buckets *)

Lemma length_concat_insert {A} (ls : list (list A)) i b b' :
  ls !! i = Some b ->
  (length (concat (<[i:=b']> ls)) + length b = length (concat ls) + length b')%nat.
Proof.
  revert i; induction ls as [|l ls IH]; intros [|i] H; simplify_eq/=; rewrite !length_app; [lia|].
  specialize (IH i H). lia.
Qed.

Lemma elem_of_concat {A} (ls : list (list A)) x :
  x ∈ concat ls <-> exists i l, ls !! i = Some l /\ x ∈ l.
Proof.
  split.
  - induction ls as [|l ls IH]; simpl; [by intros ?%not_elem_of_nil|].
    intros [Hx|Hx]%elem_of_app; [by exists 0%nat, l|].
    destruct (IH Hx) as (i & k & ? & ?). by exists (S i), k.
  - intros (i & l & Hl & Hx). apply list_elem_of_In, in_concat. exists l.
    split; [|by apply list_elem_of_In]. apply list_elem_of_In. by eapply list_elem_of_lookup_2.
Qed.

(** Lists whose elements carry the index of their list do not share elements. *)
Lemma NoDup_fmap_concat {A B} (f : A -> B) (g : B -> Z) (k : Z) (ls : list (list A)) :
  (forall i l, ls !! i = Some l ->
     NoDup (f <$> l) /\ Forall (fun x => g (f x) = k + Z.of_nat i) l) ->
  NoDup (f <$> concat ls).
Proof.
  revert k; induction ls as [|l ls IH]; intros k H; simpl; [constructor|].
  destruct (H 0%nat l eq_refl) as [Hl Hg]. rewrite fmap_app. apply NoDup_app. split; [done|].
  split.
  - intros x (y & -> & Hy)%list_elem_of_fmap (z & Hz & Hin)%list_elem_of_fmap.
    apply elem_of_concat in Hin as (i & m & Hm & Hin).
    destruct (H (S i) m Hm) as [_ Hg']. rewrite Forall_forall in Hg, Hg'.
    specialize (Hg y Hy). specialize (Hg' z Hin). rewrite Hz in Hg. lia.
  - apply (IH (k + 1)). intros i m Hm. destruct (H (S i) m Hm) as [? Hf].
    split; [done|]. eapply Forall_impl; [exact Hf|]. simpl. intros. lia.
Qed.
