(* ===== verification/Text.v ===== *)
(** * Go strings (package strings)

    A Go string is a sequence of bytes, here a [string]. [TrimSpace] removes the
    UTF-8 encodings of the characters of Unicode's White_Space from both ends.
    [ToLower] is written out for strings of ASCII bytes; on others the case map of
    Unicode is an argument. *)

From S2P Require Import Prelude.
From Stdlib Require Import Ascii String.
Open Scope Z_scope.

Definition ascii_of_Z (z : Z) : ascii := ascii_of_nat (Z.to_nat z).
Definition string_of_bytes (l : list Z) : string := string_of_list_ascii (ascii_of_Z <$> l).

(** U+0009-U+000D, U+0020, U+0085, U+00A0, U+1680, U+2000-U+200A, U+2028, U+2029,
    U+202F, U+205F, U+3000. *)
Definition spaces : list string :=
  string_of_bytes <$>
  [[9]; [10]; [11]; [12]; [13]; [32]; [194; 133]; [194; 160]; [225; 154; 128];
   [226; 128; 128]; [226; 128; 129]; [226; 128; 130]; [226; 128; 131]; [226; 128; 132]; [226; 128; 133];
   [226; 128; 134]; [226; 128; 135]; [226; 128; 136]; [226; 128; 137]; [226; 128; 138];
   [226; 128; 168]; [226; 128; 169]; [226; 128; 175]; [226; 129; 159]; [227; 128; 128]].

Definition string_rev (s : string) : string := string_of_list_ascii (rev (list_ascii_of_string s)).

Definition HasPrefix (s p : string) : bool := String.prefix p s.
Definition HasSuffix (s p : string) : bool := String.prefix (string_rev p) (string_rev s).
Definition TrimPrefix (s p : string) : string :=
  if HasPrefix s p then substring (String.length p) (String.length s - String.length p) s else s.

(** Removing leading words of [ws]; a string of length [fuel] holds no more of them. *)
Fixpoint trim_left (ws : list string) (fuel : nat) (s : string) : string :=
  match fuel with
  | O => s
  | S fuel' =>
      match List.find (fun w => HasPrefix s w) ws with
      | Some w => trim_left ws fuel' (TrimPrefix s w)
      | None => s
      end
  end.

Definition TrimSpace (s : string) : string :=
  let s := trim_left spaces (String.length s) s in
  string_rev (trim_left (string_rev <$> spaces) (String.length s) (string_rev s)).

(** [strings.TrimRight(s, "/")] *)
Fixpoint TrimRight_slash (s : string) : string :=
  match s with
  | EmptyString => EmptyString
  | String c s' =>
      match TrimRight_slash s' with
      | EmptyString => if Ascii.eqb c (ascii_of_nat 47) then EmptyString else String c EmptyString
      | t => String c t
      end
  end.

Fixpoint Contains (s p : string) : bool :=
  HasPrefix s p || match s with String _ s' => Contains s' p | EmptyString => false end.

(** [strings.Split] and [strings.FieldsFunc], for separators that are ASCII bytes. *)
Fixpoint split_on (sep : ascii -> bool) (s : string) : list string :=
  match s with
  | EmptyString => [EmptyString]
  | String c s' =>
      if sep c then EmptyString :: split_on sep s'
      else match split_on sep s' with
      | word :: rest => String c word :: rest
      | [] => []
      end
  end.
Definition Split (sep : ascii) (s : string) : list string := split_on (fun c => Ascii.eqb c sep) s.
Definition FieldsFunc (sep : ascii -> bool) (s : string) : list string :=
  filter (fun w => w <> EmptyString) (split_on sep s).

Fixpoint Join (sep : string) (l : list string) : string :=
  match l with
  | [] => EmptyString
  | [w] => w
  | w :: l' => (w ++ sep ++ Join sep l')%string
  end.

Definition is_ascii (a : ascii) : bool := (nat_of_ascii a <? 128)%nat.
Definition lower_ascii (a : ascii) : ascii :=
  let n := nat_of_ascii a in
  if (65 <=? n)%nat && (n <=? 90)%nat then ascii_of_nat (n + 32) else a.

Definition ToLower (unicode_lower : string -> string) (s : string) : string :=
  if forallb is_ascii (list_ascii_of_string s)
  then string_of_list_ascii (lower_ascii <$> list_ascii_of_string s)
  else unicode_lower s.

(** ** Lemmas *)

Lemma prefix_app p s : String.prefix p s = true -> exists r, s = (p ++ r)%string.
Proof.
  revert s; induction p as [|a p IH]; intros s; cbn [String.prefix]; [intros _; by exists s|].
  destruct s as [|b s]; [intros [=]|]. cbn. destruct (ascii_dec a b) as [<-|]; [intros H|intros [=]].
  destruct (IH s H) as [r ->]. by exists r.
Qed.

Lemma app_prefix p r : String.prefix p (p ++ r)%string = true.
Proof. induction p as [|a p IH]; [by destruct r|].
  change (String a p ++ r)%string with (String a (p ++ r)). cbn. destruct (ascii_dec a a); [exact IH|congruence]. Qed.

Lemma substring_full s : substring 0 (String.length s) s = s.
Proof. induction s as [|a s IH]; [done|]. cbn. by rewrite IH. Qed.
Lemma length_string_app a b : String.length (a ++ b)%string = (String.length a + String.length b)%nat.
Proof. induction a as [|c a IH]; [done|]. cbn. by rewrite <- IH. Qed.
Lemma substring_skip p r n : substring (String.length p) n (p ++ r)%string = substring 0 n r.
Proof. induction p as [|a p IH]; [done|]. exact IH. Qed.
Lemma substring_after_prefix p r :
  substring (String.length p) (String.length (p ++ r)%string - String.length p) (p ++ r)%string = r.
Proof.
  rewrite substring_skip, length_string_app.
  replace (String.length p + String.length r - String.length p)%nat with (String.length r) by lia. apply substring_full.
Qed.

Lemma lower_idem_char a : lower_ascii (lower_ascii a) = lower_ascii a.
Proof. by destruct a as [[] [] [] [] [] [] [] []]. Qed.

Lemma lower_is_ascii a : is_ascii a = true -> is_ascii (lower_ascii a) = true.
Proof. by destruct a as [[] [] [] [] [] [] [] []]. Qed.

Lemma ToLower_idem u s :
  forallb is_ascii (list_ascii_of_string s) = true -> ToLower u (ToLower u s) = ToLower u s.
Proof.
  intros H. unfold ToLower at 2 3. rewrite H. unfold ToLower. rewrite list_ascii_of_string_of_list_ascii.
  assert (forallb is_ascii (lower_ascii <$> list_ascii_of_string s) = true) as ->.
  { induction (list_ascii_of_string s) as [|a l IH]; [done|].
    cbn [forallb fmap list_fmap] in *. apply andb_true_iff in H as [Ha Hl].
    by rewrite (lower_is_ascii a Ha), IH. }
  f_equal. rewrite <- list_fmap_compose. apply list_fmap_ext. intros i a _. apply lower_idem_char.
Qed.

Example trim_both : TrimSpace (string_of_bytes [32; 194; 160; 65; 32; 66; 9; 227; 128; 128]) = "A B".
Proof. reflexivity. Qed.

(** No word holds a separator, and joining the words gives the string back. *)
Fixpoint no_char (sep : ascii -> bool) (s : string) : bool :=
  match s with EmptyString => true | String c s' => negb (sep c) && no_char sep s' end.

Lemma split_on_cons sep s : exists w rest, split_on sep s = w :: rest.
Proof.
  induction s as [|c s (w & rest & IH)]; cbn [split_on]; [by eexists _, _|].
  rewrite IH. destruct (sep c); by eexists _, _.
Qed.

Lemma split_on_no_sep sep s : Forall (fun w => no_char sep w = true) (split_on sep s).
Proof.
  induction s as [|c s IH]; cbn [split_on]; [by constructor|].
  destruct (sep c) eqn:E; [by constructor|]. destruct (split_on sep s) as [|w rest]; [done|].
  apply Forall_cons in IH as [Hw Hr]. constructor; [|done]. cbn. by rewrite E, Hw.
Qed.

Lemma split_on_word sep s : no_char sep s = true -> split_on sep s = [s].
Proof.
  induction s as [|c s IH]; cbn [split_on no_char]; [done|].
  intros [Hc Hs]%andb_true_iff. apply negb_true_iff in Hc. by rewrite Hc, IH.
Qed.

Lemma split_on_app sep w c s :
  no_char sep w = true -> sep c = true -> split_on sep (w ++ String c s)%string = w :: split_on sep s.
Proof.
  intros Hw Hc. induction w as [|a w IH].
  - change (EmptyString ++ String c s)%string with (String c s). cbn [split_on]. by rewrite Hc.
  - cbn [no_char] in Hw. apply andb_true_iff in Hw as [Ha Hw]. apply negb_true_iff in Ha.
    change (String a w ++ String c s)%string with (String a (w ++ String c s)). cbn [split_on].
    by rewrite Ha, IH.
Qed.

Lemma string_app_assoc (a b c : string) : (a ++ (b ++ c))%string = ((a ++ b) ++ c)%string.
Proof.
  induction a as [|x a IH]; [done|].
  change (String x a ++ (b ++ c))%string with (String x (a ++ (b ++ c))%string). rewrite IH. reflexivity.
Qed.

Lemma list_ascii_app (a b : string) :
  list_ascii_of_string (a ++ b)%string = list_ascii_of_string a ++ list_ascii_of_string b.
Proof.
  induction a as [|x a IH]; [done|]. change (String x a ++ b)%string with (String x (a ++ b)%string).
  cbn [list_ascii_of_string app]. by rewrite IH.
Qed.

(** Splitting undoes joining. *)
Lemma Split_Join (sep : ascii) (l : list string) :
  l <> [] -> Forall (fun w => no_char (fun c => Ascii.eqb c sep) w = true) l -> Split sep (Join (String sep "") l) = l.
Proof.
  intros Hne Hl. induction Hl as [|w l Hw Hl IH]; [done|]. unfold Split in *. destruct l as [|w' l].
  - cbn [Join]. by rewrite split_on_word.
  - change (Join (String sep "") (w :: w' :: l)) with (w ++ String sep (Join (String sep "") (w' :: l)))%string.
    rewrite split_on_app; [|done|apply Ascii.eqb_refl]. by rewrite IH.
Qed.

(** ** Package encoding/hex *)

Definition hex_digit (n : Z) : ascii := default "0"%char (String.get (Z.to_nat n) "0123456789abcdef").
Fixpoint EncodeToString (l : list byte) : string :=
  match l with
  | [] => EmptyString
  | b :: l => String (hex_digit (b2z b / 16)) (String (hex_digit (b2z b mod 16)) (EncodeToString l))
  end.

Definition fromHexChar (a : ascii) : option Z :=
  let n := Z.of_nat (nat_of_ascii a) in
  if (48 <=? n) && (n <=? 57) then Some (n - 48)
  else if (97 <=? n) && (n <=? 102) then Some (n - 87)
  else if (65 <=? n) && (n <=? 70) then Some (n - 55)
  else None.
(** [None] is an error: a character that is no digit, or an odd length. *)
Fixpoint DecodeString (s : string) : option (list byte) :=
  match s with
  | EmptyString => Some []
  | String a (String b s) => x ← fromHexChar a; y ← fromHexChar b; l ← DecodeString s; Some (z2b (x * 16 + y) :: l)
  | String _ EmptyString => None
  end.

Lemma hex_byte b :
  fromHexChar (hex_digit (b2z b / 16)) = Some (b2z b / 16) /\
  fromHexChar (hex_digit (b2z b mod 16)) = Some (b2z b mod 16).
Proof. by destruct b. Qed.

Lemma decode_encode_hex l : DecodeString (EncodeToString l) = Some l.
Proof.
  induction l as [|b l IH]; [done|]. cbn [EncodeToString DecodeString]. destruct (hex_byte b) as [-> ->].
  cbn [mbind option_bind]. rewrite IH. cbn [mbind option_bind]. do 2 f_equal.
  rewrite (Z.mul_comm (b2z b / 16)), <- Z_div_mod_eq_full. apply z2b_b2z.
Qed.

(** ** [bufio.Scanner] over lines, with its default buffer

    A line ends at a newline, loses one carriage return, and the last one needs none. A
    line that does not fit the buffer of 64 KiB with its newline ends the scan. *)

Definition MaxScanTokenSize : Z := 65536.
Definition dropCR (line : string) : string :=
  if HasSuffix line (String (ascii_of_nat 13) EmptyString) then substring 0 (String.length line - 1) line else line.
Fixpoint scan_lines (pieces : list string) : list string :=
  match pieces with
  | [] => []
  | [last] => if decide (last = EmptyString) then [] else if Z.of_nat (String.length last) <? MaxScanTokenSize then [dropCR last] else []
  | line :: rest => if Z.of_nat (String.length line) <? MaxScanTokenSize then dropCR line :: scan_lines rest else []
  end.
Definition ScanLines (data : string) : list string := scan_lines (Split (ascii_of_nat 10) data).

(** [strings.ReplaceAll], for a single ASCII byte. *)
Fixpoint ReplaceAll (s : string) (old : ascii) (new : string) : string :=
  match s with
  | EmptyString => EmptyString
  | String a s => if Ascii.eqb a old then (new ++ ReplaceAll s old new)%string else String a (ReplaceAll s old new)
  end.
