(* ===== verification/Url.v ===== *)
(** * Query strings (package net/url, as ui/ uses it)

    [QueryEscape], [QueryUnescape], [Values.Encode] and [ParseQuery]. A string is a
    sequence of bytes; [Values] maps a key to its values in order. Encoding writes the
    keys in ascending order. *)

From S2P Require Import Prelude Text.
From stdpp Require Import sorting.
From Stdlib Require Import Ascii.
Open Scope Z_scope.

(** ** Escaping *)

(** Letters, digits, minus, underscore, dot and tilde stand for themselves. *)
Definition shouldEscape (a : ascii) : bool :=
  let n := Z.of_nat (nat_of_ascii a) in
  negb ((97 <=? n) && (n <=? 122) || (65 <=? n) && (n <=? 90) || (48 <=? n) && (n <=? 57) ||
        existsb (Ascii.eqb a) ["-"; "_"; "."; "~"]%char).
Definition upperhex (n : Z) : ascii := default "0"%char (String.get (Z.to_nat n) "0123456789ABCDEF").
Definition escape_char (a : ascii) : string :=
  let n := Z.of_nat (nat_of_ascii a) in
  if Ascii.eqb a " " then "+"
  else if shouldEscape a then String "%" (String (upperhex (n / 16)) (String (upperhex (n mod 16)) ""))
  else String a "".
Fixpoint QueryEscape (s : string) : string :=
  match s with EmptyString => "" | String a s => (escape_char a ++ QueryEscape s)%string end.

(** [None] is an error. *)
Fixpoint QueryUnescape (s : string) : option string :=
  match s with
  | EmptyString => Some ""%string
  | String c rest =>
      if Ascii.eqb c "%" then
        match rest with
        | String a (String b s) =>
            x ← fromHexChar a; y ← fromHexChar b; r ← QueryUnescape s; Some (String (ascii_of_Z (x * 16 + y)) r)
        | _ => None
        end
      else r ← QueryUnescape rest; Some (String (if Ascii.eqb c "+" then " "%char else c) r)
  end.

(** ** Values *)

Abbreviation Values := (gmap string (list string)).

(** [strings.Cut] at the first separator; the second part is empty when there is none. *)
Fixpoint Cut (sep : ascii) (s : string) : string * string :=
  match s with
  | EmptyString => (""%string, ""%string)
  | String a s => if Ascii.eqb a sep then (""%string, s) else let '(x, y) := Cut sep s in (String a x, y)
  end.

Definition add_value (k x : string) (m : Values) : Values := <[k := default [] (m !! k) ++ [x]]> m.

(** One piece between ampersands; one with a semicolon or a bad escape is skipped. *)
Definition parse_piece (m : Values) (piece : string) : Values :=
  if negb (no_char (Ascii.eqb ";") piece) then m
  else if decide (piece = ""%string) then m
  else
    let '(key, value) := Cut "=" piece in
    match QueryUnescape key, QueryUnescape value with
    | Some key, Some value => add_value key value m
    | _, _ => m
    end.
Definition ParseQuery (query : string) : Values := foldl parse_piece ∅ (Split "&" query).

Definition string_le (a b : string) : Prop := String.leb a b = true.
#[export] Instance string_le_dec a b : Decision (string_le a b) := bool_eq_dec (String.leb a b) true.
Definition sorted_keys (v : Values) : list string := merge_sort string_le (elements (dom v)).
Definition pairs (v : Values) : list (string * string) :=
  sorted_keys v ≫= (fun k => pair k <$> default [] (v !! k)).
Definition encode_pair (p : string * string) : string := (QueryEscape p.1 ++ "=" ++ QueryEscape p.2)%string.
Definition Encode (v : Values) : string := Text.Join "&" (encode_pair <$> pairs v).

(** [Values.Get], and the first value of a key, if it has one. *)
Definition first_value (v : Values) (k : string) : option string := v !! k ≫= head.
Definition Set_ (k x : string) (v : Values) : Values := <[k := [x]]> v.

(** ** What is escaped is read back *)

Lemma hex_char (a : ascii) :
  let n := Z.of_nat (nat_of_ascii a) in
  fromHexChar (upperhex (n / 16)) = Some (n / 16) /\ fromHexChar (upperhex (n mod 16)) = Some (n mod 16) /\
  ascii_of_Z (n / 16 * 16 + n mod 16) = a.
Proof. destruct a as [[] [] [] [] [] [] [] []]; by vm_compute. Qed.

Lemma unescape_char (a : ascii) (s r : string) : QueryUnescape s = Some r ->
  QueryUnescape (escape_char a ++ s)%string = Some (String a r).
Proof.
  intros Hs. unfold escape_char. destruct (Ascii.eqb_spec a " ") as [->|Hsp].
  { change ("+" ++ s)%string with (String "+" s). cbn [QueryUnescape]. by rewrite Hs. }
  destruct (shouldEscape a) eqn:E.
  - set (x := upperhex _). set (y := upperhex (_ mod _)).
    change (String "%" (String x (String y "")) ++ s)%string with (String "%" (String x (String y s))).
    cbn [QueryUnescape]. rewrite Ascii.eqb_refl. destruct (hex_char a) as (Hx & Hy & Ha). unfold x, y. rewrite Hx, Hy.
    cbn [mbind option_bind]. rewrite Hs. cbn [mbind option_bind]. by rewrite Ha.
  - change (String a "" ++ s)%string with (String a s). cbn [QueryUnescape]. rewrite Hs.
    destruct (Ascii.eqb_spec a "%") as [->|_]; [done|]. by destruct (Ascii.eqb_spec a "+") as [->|_].
Qed.

Lemma unescape_escape (s : string) : QueryUnescape (QueryEscape s) = Some s.
Proof. induction s as [|a s IH]; [done|]. cbn [QueryEscape]. by apply unescape_char. Qed.

Lemma no_char_app sep (a b : string) : no_char sep (a ++ b)%string = no_char sep a && no_char sep b.
Proof.
  induction a as [|x a IH]; [done|]. change (String x a ++ b)%string with (String x (a ++ b)%string).
  cbn [no_char]. by rewrite IH, andb_assoc.
Qed.

(** No character that has a meaning in a query is left. *)
Definition special (a : ascii) : bool := existsb (Ascii.eqb a) ["&"; "="; ";"]%char.
Lemma escape_no_special s : no_char special (QueryEscape s) = true.
Proof.
  induction s as [|a s IH]; [done|]. cbn [QueryEscape]. rewrite no_char_app, IH, andb_true_r.
  by destruct a as [[] [] [] [] [] [] [] []].
Qed.
Lemma no_char_weaken (p q : ascii -> bool) s : (forall a, p a = true -> q a = true) -> no_char q s = true -> no_char p s = true.
Proof.
  intros Hpq. induction s as [|a s IH]; [done|]. cbn [no_char]. intros [Ha Hs]%andb_true_iff. apply andb_true_iff. split; [|by apply IH].
  destruct (p a) eqn:E; [|done]. by rewrite (Hpq a E) in Ha.
Qed.

Lemma Cut_word sep w s : no_char (Ascii.eqb sep) w = true -> Cut sep (w ++ String sep s)%string = (w, s).
Proof.
  induction w as [|a w IH].
  - intros _. change ("" ++ String sep s)%string with (String sep s). cbn [Cut]. by rewrite Ascii.eqb_refl.
  - cbn [no_char]. intros [Ha Hw]%andb_true_iff. change (String a w ++ String sep s)%string with (String a (w ++ String sep s)%string).
    cbn [Cut]. rewrite Ascii.eqb_sym in Ha. apply negb_true_iff in Ha. by rewrite Ha, IH.
Qed.

Lemma encode_pair_no (c : ascii) p : c ∈ ["&"; ";"]%char -> no_char (Ascii.eqb c) (encode_pair p) = true.
Proof.
  intros Hc. assert (c = "&" \/ c = ";")%char as Hcs.
  { apply elem_of_cons in Hc as [->|Hc]; [by left|]. apply list_elem_of_singleton in Hc as ->. by right. }
  unfold encode_pair. rewrite !no_char_app.
  assert (forall a, Ascii.eqb c a = true -> special a = true) as Hs.
  { intros a <-%Ascii.eqb_eq. by destruct Hcs as [->| ->]. }
  rewrite !(no_char_weaken _ _ (QueryEscape _) Hs) by apply escape_no_special.
  by destruct Hcs as [->| ->].
Qed.

Lemma parse_encoded m p : parse_piece m (encode_pair p) = add_value p.1 p.2 m.
Proof.
  unfold parse_piece. rewrite encode_pair_no by (right; left). cbn [negb].
  rewrite decide_False by (unfold encode_pair; by destruct (QueryEscape p.1)).
  unfold encode_pair. change ("=" ++ QueryEscape p.2)%string with (String "=" (QueryEscape p.2)).
  rewrite Cut_word, !unescape_escape; [done|]. eapply no_char_weaken; [|apply escape_no_special].
  by intros a <-%Ascii.eqb_eq.
Qed.

Lemma parse_all l m : foldl parse_piece m (encode_pair <$> l) = foldl (fun m p => add_value p.1 p.2 m) m l.
Proof. revert m. induction l as [|q l IH]; intros m; [done|]. cbn [fmap list_fmap foldl]. by rewrite parse_encoded, IH. Qed.

(** The values that a list of pairs gives a key. *)
Lemma values_of_pairs l m k :
  default [] (foldl (fun m p => add_value p.1 p.2 m) m l !! k) = default [] (m !! k) ++ (filter (fun p => p.1 = k) l).*2.
Proof.
  revert m. induction l as [|[k' x] l IH]; intros m; [by rewrite app_nil_r|]. cbn [foldl fst snd]. rewrite IH, filter_cons. unfold add_value.
  cbn [fst]. destruct (decide (k' = k)) as [->|Hk].
  - rewrite lookup_insert_eq. cbn [default from_option fmap list_fmap snd]. unfold id. by rewrite <- app_assoc.
  - by rewrite lookup_insert_ne.
Qed.

Lemma pairs_of_key (v : Values) ks k : NoDup ks ->
  (filter (fun p => p.1 = k) (ks ≫= (fun k => pair k <$> default [] (v !! k)))).*2 = if decide (k ∈ ks) then default [] (v !! k) else [].
Proof.
  induction 1 as [|k' ks Hk Hks IH]; [by rewrite decide_False by apply not_elem_of_nil|].
  cbn [mbind list_bind]. rewrite filter_app, fmap_app, IH. destruct (decide (k' = k)) as [->|Hne].
  - rewrite filter_all by (by intros p (x & -> & _)%list_elem_of_fmap).
    rewrite (decide_False (P := k ∈ ks)), (decide_True (P := k ∈ k :: ks)), app_nil_r by (done || left).
    rewrite <- list_fmap_compose. apply list_fmap_id.
  - rewrite filter_none by (by intros p (x & -> & _)%list_elem_of_fmap). cbn [fmap list_fmap app].
    destruct (decide (k ∈ ks)) as [Hin|Hin]; [rewrite decide_True by (by right)|rewrite decide_False by (intros [?|?]%elem_of_cons; congruence)]; done.
Qed.

(** A map in which no key has an empty list of values. *)
Definition proper (v : Values) : Prop := forall k, v !! k <> Some [].

Lemma proper_eq (v w : Values) : proper v -> proper w -> (forall k, default [] (v !! k) = default [] (w !! k)) -> v = w.
Proof.
  intros Hv Hw Hd. apply map_eq. intros k. specialize (Hd k). specialize (Hv k). specialize (Hw k).
  destruct (v !! k) as [x|], (w !! k) as [y|]; cbn in Hd; unfold id in Hd; congruence.
Qed.

Lemma add_proper k x m : proper m -> proper (add_value k x m).
Proof.
  intros Hm k'. unfold add_value. destruct (decide (k = k')) as [->|Hne]; [|by rewrite lookup_insert_ne].
  rewrite lookup_insert_eq. by destruct (default [] _).
Qed.

(** A query that is written and read again is the same. *)
Lemma parse_encode (v : Values) : proper v -> ParseQuery (Encode v) = v.
Proof.
  intros Hv. assert (NoDup (sorted_keys v)) as Hnd.
  { unfold sorted_keys. rewrite merge_sort_Permutation. apply NoDup_elements. }
  assert (ParseQuery (Encode v) = foldl (fun m p => add_value p.1 p.2 m) ∅ (pairs v)) as ->.
  { unfold ParseQuery, Encode. destruct (pairs v) as [|p l]; [reflexivity|]. rewrite Split_Join; [|done|].
    - apply parse_all.
    - apply Forall_fmap, Forall_forall. intros q _. cbn [compose]. apply (no_char_weaken _ (Ascii.eqb "&")); [|apply encode_pair_no; left].
      intros a. by rewrite Ascii.eqb_sym. }
  apply proper_eq; [|done|].
  - generalize (pairs v). intros l. assert (proper (∅ : Values)) as Hm by (intros k; by rewrite lookup_empty).
    revert Hm. generalize (∅ : Values). induction l as [|p l IH]; intros m Hm; [done|]. cbn [foldl]. by apply IH, add_proper.
  - intros k. rewrite values_of_pairs, lookup_empty. unfold pairs. rewrite pairs_of_key by done. cbn [default from_option app].
    destruct (decide (k ∈ sorted_keys v)) as [|Hk]; [done|]. unfold sorted_keys in Hk.
    rewrite merge_sort_Permutation, elem_of_elements, not_elem_of_dom in Hk. by rewrite Hk.
Qed.
