(* ===== verification/Flags.v ===== *)
(** * Command line flags (packages flag and strconv)

    What config/configuration.go uses of Go's standard library: [flag.FlagSet.parseOne]
    and its loop, over a target record that the flags write into, and the parsing of
    the values. [tokens] is the same walk over the arguments without the target: the
    list of assignments that the command line makes. *)

From S2P Require Import Prelude Text.
From Stdlib Require Import Ascii.
Open Scope Z_scope.

(** ** Values *)

(** [strconv.ParseBool] *)
Definition ParseBool (s : string) : option bool :=
  if decide (s ∈ ["1"; "t"; "T"; "TRUE"; "true"; "True"]%string) then Some true
  else if decide (s ∈ ["0"; "f"; "F"; "FALSE"; "false"; "False"]%string) then Some false
  else None.

(** The value of a digit, letters counting on from ten. *)
Definition digit_value (a : ascii) : option Z :=
  let n := Z.of_nat (nat_of_ascii (lower_ascii a)) in
  if (48 <=? n) && (n <=? 57) then Some (n - 48)
  else if (97 <=? n) && (n <=? 122) then Some (n - 87)
  else None.

(** The loop of [ParseUint]; underscores are looked at by [underscoreOK]. *)
Fixpoint uint_loop (base : Z) (s : string) (n : Z) : option Z :=
  match s with
  | EmptyString => Some n
  | String "_" s => uint_loop base s n
  | String a s =>
      d ← digit_value a;
      if base <=? d then None
      else let n := n * base + d in if 2 ^ 64 <=? n then None else uint_loop base s n
  end.

(** The prefix of a literal: its base and the rest. *)
Definition base_prefix (s : string) : Z * string :=
  match s with
  | String "0" s1 =>
      match s1 with
      | String c (String _ _ as rest) =>
          let c := lower_ascii c in
          if Ascii.eqb c "b" then (2, rest)
          else if Ascii.eqb c "o" then (8, rest)
          else if Ascii.eqb c "x" then (16, rest)
          else (8, s1)
      | _ => (8, s1)
      end
  | _ => (10, s)
  end.

(** What the last character was: the beginning, a digit, an underscore, anything else. *)
Inductive seen : Type := Start_ | Digit_ | Under | Other.
Definition is_digit_of (hex : bool) (a : ascii) : bool :=
  match digit_value a with Some d => (d <? 10) || (hex && (d <? 16)) | None => false end.
Fixpoint underscore_loop (hex : bool) (i : seen) (s : string) : bool :=
  match s with
  | EmptyString => match i with Under => false | _ => true end
  | String a s =>
      if is_digit_of hex a then underscore_loop hex Digit_ s
      else if Ascii.eqb a "_" then match i with Digit_ => underscore_loop hex Under s | _ => false end
      else match i with Under => false | _ => underscore_loop hex Other s end
  end.
(** [underscoreOK], of a number without a sign: a prefix counts as a digit. *)
Definition underscoreOK (s : string) : bool :=
  match s with
  | String "0" (String c rest) =>
      let c := lower_ascii c in
      if Ascii.eqb c "x" then underscore_loop true Digit_ rest
      else if Ascii.eqb c "b" || Ascii.eqb c "o" then underscore_loop false Digit_ rest
      else underscore_loop false Start_ s
  | _ => underscore_loop false Start_ s
  end.

Fixpoint has_underscore (s : string) : bool :=
  match s with EmptyString => false | String a s => Ascii.eqb a "_" || has_underscore s end.

(** [ParseUint(s, 0, 64)]; [None] is an error. *)
Definition ParseUint0 (s : string) : option Z :=
  if decide (s = ""%string) then None
  else
    let '(base, rest) := base_prefix s in
    n ← uint_loop base rest 0;
    if has_underscore rest && negb (underscoreOK s) then None else Some n.

(** [ParseInt(s, 0, 64)] *)
Definition ParseInt0 (s : string) : option Z :=
  let '(neg, body) :=
    match s with String "+" s' => (false, s') | String "-" s' => (true, s') | _ => (false, s) end in
  un ← ParseUint0 body;
  if neg then (if 2 ^ 63 <? un then None else Some (- un))
  else (if 2 ^ 63 <=? un then None else Some un).

(** ** A set of flags *)

Section FlagSet.
  Context {R : Type}.

(** A flag: its name, whether it is a boolean (and needs no value), and what setting it
    does to the target; [None] is a value it cannot read. *)
Record Flag : Type := mkFlag { Name : string; IsBoolFlag : bool; Set_ : string -> R -> option R }.
Record FlagSet : Type := mkFlagSet { target : R; formal : list Flag }.

Definition lookup_flag (fs : list Flag) (name : string) : option Flag :=
  List.find (fun f => String.eqb (Name f) name) fs.

(** [FlagSet.Var] after the default value was put into the target; a second flag of
    one name panics. *)
Definition Var (f : Flag) (init : R -> R) (fs : FlagSet) : go Z FlagSet :=
  match lookup_flag (formal fs) (Name f) with
  | Some _ => Panic
  | None => Ret (mkFlagSet (init (target fs)) (formal fs ++ [f]))
  end.

(** What an argument is. *)
Inductive scanned : Type :=
  | NoFlag                                        (* the flags end before it *)
  | Terminator                                    (* "--" *)
  | BadSyntax
  | Named (name : string) (value : option string).

(** At the first equals sign. *)
Fixpoint cut_eq (s : string) : string * option string :=
  match s with
  | EmptyString => (EmptyString, None)
  | String a s => if Ascii.eqb a "=" then (EmptyString, Some s) else let '(n, v) := cut_eq s in (String a n, v)
  end.
Definition scan_name (name : string) : scanned :=
  match name with
  | EmptyString | String "-" _ | String "=" _ => BadSyntax
  | _ => let '(n, v) := cut_eq name in Named n v
  end.
Definition scan (s : string) : scanned :=
  match s with
  | String "-" EmptyString => NoFlag
  | String "-" (String "-" EmptyString) => Terminator
  | String "-" (String "-" name) => scan_name name
  | String "-" name => scan_name name
  | _ => NoFlag
  end.

(** The exit codes of [flag.ExitOnError]: help was asked for, or an error. *)
Definition exit_of_unknown (name : string) : Z := if decide (name ∈ ["help"; "h"]%string) then 0 else 2.

(** [Parse]: an assignment after the other until the flags end. *)
Fixpoint Parse (fs : list Flag) (args : list string) (r : R) : go Z R :=
  match args with
  | [] => Ret r
  | s :: args =>
      match scan s with
      | NoFlag | Terminator => Ret r
      | BadSyntax => Err 2
      | Named name value =>
          match lookup_flag fs name with
          | None => Err (exit_of_unknown name)
          | Some f =>
              if IsBoolFlag f then
                match Set_ f (default "true"%string value) r with Some r => Parse fs args r | None => Err 2 end
              else
                match value, args with
                | Some v, _ => match Set_ f v r with Some r => Parse fs args r | None => Err 2 end
                | None, v :: args => match Set_ f v r with Some r => Parse fs args r | None => Err 2 end
                | None, [] => Err 2
                end
          end
      end
  end.

(** ** The command line as a list of assignments *)

Fixpoint tokens (fs : list Flag) (args : list string) : option (list (string * string)) :=
  match args with
  | [] => Some []
  | s :: args =>
      match scan s with
      | NoFlag | Terminator => Some []
      | BadSyntax => None
      | Named name value =>
          f ← lookup_flag fs name;
          if IsBoolFlag f then toks ← tokens fs args; Some ((name, default "true"%string value) :: toks)
          else
            match value, args with
            | Some v, _ => toks ← tokens fs args; Some ((name, v) :: toks)
            | None, v :: args => toks ← tokens fs args; Some ((name, v) :: toks)
            | None, [] => None
            end
      end
  end.

(** Making the assignments in turn. *)
Fixpoint assign (fs : list Flag) (toks : list (string * string)) (r : R) : option R :=
  match toks with
  | [] => Some r
  | (name, v) :: toks => f ← lookup_flag fs name; r ← Set_ f v r; assign fs toks r
  end.

(** The value given last to a flag. *)
Definition last_value (name : string) (toks : list (string * string)) : option string :=
  snd <$> last (filter (fun t => t.1 = name) toks).

(** Parsing is reading the assignments and making them. *)
Lemma Parse_tokens fs args r r' :
  Parse fs args r = Ret r' <-> exists toks, tokens fs args = Some toks /\ assign fs toks r = Some r'.
Proof.
  remember (length args) as n eqn:Hn. revert args Hn r.
  induction (lt_wf n) as [n _ IH]; intros [|s args] Hn r.
  - cbn. split; [intros [= ->]; by exists []|intros (toks & [= <-] & [= ->]); done].
  - cbn [Parse tokens]. cbn [length] in Hn.
    assert (forall name v f rest, lookup_flag fs name = Some f -> (length rest < n)%nat ->
      match Set_ f v r with Some r0 => Parse fs rest r0 | None => Err 2 end = Ret r' <->
      exists toks, (toks ← tokens fs rest; Some ((name, v) :: toks)) = Some toks /\ assign fs toks r = Some r') as Hstep.
    { intros name v f rest Hf Hlen. destruct (tokens fs rest) as [toks|] eqn:Et; cbn [mbind option_bind].
      - destruct (Set_ f v r) as [r0|] eqn:Es.
        + rewrite (IH (length rest) Hlen rest eq_refl r0), Et. split.
          * intros (t & [= <-] & Ha). exists ((name, v) :: toks). cbn. by rewrite Hf; cbn; rewrite Es.
          * intros (t & [= <-] & Ha). exists toks. split; [done|]. cbn in Ha. rewrite Hf in Ha. cbn in Ha. by rewrite Es in Ha.
        + split; [discriminate|]. intros (t & [= <-] & Ha). cbn in Ha. rewrite Hf in Ha. cbn in Ha. by rewrite Es in Ha.
      - split; [|by intros (t & [=] & _)]. destruct (Set_ f v r) as [r0|]; [|discriminate].
        intros (t & Ht & _)%(IH (length rest) Hlen rest eq_refl r0). congruence. }
    destruct (scan s) as [| | |name value].
    1, 2: split; [intros [= ->]; by exists []|intros (toks & [= <-] & [= ->]); done].
    1: split; [discriminate|by intros (? & [=] & _)].
    destruct (lookup_flag fs name) as [f|] eqn:Hf; [|split; [discriminate|by intros (? & [=] & _)]].
    cbn [mbind option_bind]. destruct (IsBoolFlag f); [apply Hstep; [done|lia]|].
    destruct value as [v|]; [apply Hstep; [done|lia]|]. destruct args as [|v args].
    + split; [discriminate|by intros (? & [=] & _)].
    + apply Hstep; [done|cbn in Hn; lia].
Qed.

(** Parsing ends with the target or with the exit of the process. *)
Lemma Parse_outcome fs args r :
  (exists r', Parse fs args r = Ret r') \/ Parse fs args r = Err 0 \/ Parse fs args r = Err 2.
Proof.
  remember (length args) as n eqn:Hn. revert args Hn r.
  induction (lt_wf n) as [n _ IH]; intros [|s args] Hn r; [left; by eexists|]. cbn [Parse length] in *.
  assert (forall rest o, (length rest < n)%nat ->
    let res := match o with Some r => Parse fs rest r | None => Err 2 end in
    (exists r', res = Ret r') \/ res = Err 0 \/ res = Err 2) as Hstep.
  { intros rest [r0|] Hlen; [by apply (IH (length rest))|by right; right]. }
  destruct (scan s) as [| | |name value]; [left; by eexists|left; by eexists|by right; right|].
  destruct (lookup_flag fs name) as [f|]; [|unfold exit_of_unknown; case_decide; auto].
  destruct (IsBoolFlag f); [apply Hstep; lia|]. destruct value as [v|]; [apply Hstep; lia|].
  destruct args as [|v args]; [by right; right|]. apply Hstep. cbn in Hn. lia.
Qed.

Lemma last_value_cons name n v toks :
  last_value name ((n, v) :: toks) =
    match last_value name toks with Some w => Some w | None => if decide (n = name) then Some v else None end.
Proof.
  unfold last_value. rewrite filter_cons. cbn [fst]. destruct (decide (n = name)).
  - rewrite last_cons. by destruct (last _).
  - by destruct (last _).
Qed.
End FlagSet.
Arguments Flag : clear implicits.
Arguments FlagSet : clear implicits.

(** ** Checks of the values against Go *)

Example ParseInt0_bases :
  ParseInt0 <$> ["0"; "-12"; "0x1F"; "0b101"; "0o17"; "017"; "1_000"; "0x_ff"]%string =
  Some <$> [0; -12; 31; 5; 15; 15; 1000; 255].
Proof. reflexivity. Qed.
Example ParseInt0_errors :
  ParseInt0 <$> [""; "-"; "0x"; "08"; "1__0"; "_1"; "1_"; "0b2"; "9223372036854775808"; "12 "; "1.5"]%string =
  replicate 11 None.
Proof. reflexivity. Qed.
Example scan_arguments :
  scan <$> ["-a=b=c"; "--a"; "-"; "--"; "---a"; "-=x"; "a"; "--a="]%string =
  [Named "a" (Some "b=c"%string); Named "a" None; NoFlag; Terminator; BadSyntax; BadSyntax; NoFlag; Named "a" (Some ""%string)].
Proof. reflexivity. Qed.
