(* ===== verification/Config.v ===== *)
(** * Configuration (config/configuration.go)

    The configuration of a node and how the command line, the environment and the YAML
    file make it: [ParseArguments] with package flag from Flags.v; the YAML decoder is a
    parameter. Fields are written with [c <| field := value |>]. *)

From S2P Require Import Prelude Text Flags.
From Stdlib Require Import Ascii.
Open Scope Z_scope.

Definition NetworkModeIPv4 : string := "ipv4".
Definition NetworkModeDual : string := "dual".

Record Configuration : Type := mkConfiguration {
  NodeRole : string;
  WorkerURLs : string;
  ClusterToken : string;
  WorkerID : string;
  WorkerQueue : Z;
  WorkerBatch : Z;
  WorkerCacheDir : string;
  MasterURL : string;
  DbName : string;
  DatabaseType : string;
  DatabaseUrl : string;
  Address : string;
  MaxNeighbors : Z;
  MaxLeeches : Z;
  DrainTimeout : duration;
  TelegramToken : string;
  TelegramUsername : string;
  DiscordWebhook : string;
  SlackWebhook : string;
  GotifyURL : string;
  GotifyToken : string;
  SafeMode : bool;
  CrawlerThreads : Z;
  MaxConcurrentDownloads : Z;
  RateLimit : Z;
  CrawlerAutoStopMinutes : Z;
  CrawlerStartOnLaunch : bool;
  CrawlerScheduleEnabled : bool;
  CrawlerScheduleStart : string;
  CrawlerScheduleEnd : string;
  MaxSavedTorrents : Z;
  NetworkMode : string;
  ListenIPv4 : string;
  ListenIPv6 : string;
  RoutingTableCacheIPv4 : string;
  RoutingTableCacheIPv6 : string;
  BootstrapIPv4 : list string;
  ConfigFile : string;
  EnableBlacklist : bool;
  NameBlacklist : string;
  FileBlacklist : string;
  OnlyChineseContent : bool;
  Statistics : bool;
  BootstrapNodeFile : string;
  OnlyWebServer : bool;
  AuthUser : string;
  AuthPass : string;
  SessionSecret : string;
  TransmissionURL : string;
  TransmissionUser : string;
  TransmissionPass : string;
  Aria2URL : string;
  Aria2Token : string;
  DelugeURL : string;
  DelugePass : string;
  QBittorrentURL : string;
  QBittorrentUser : string;
  QBittorrentPass : string
}.

(** ** Writing a field *)

(** A record, written with all its fields. *)
Definition eta (c : Configuration) : Configuration :=
  mkConfiguration
    (NodeRole c) (WorkerURLs c) (ClusterToken c) (WorkerID c) (WorkerQueue c) (WorkerBatch c)
    (WorkerCacheDir c) (MasterURL c) (DbName c) (DatabaseType c) (DatabaseUrl c) (Address c) (MaxNeighbors c)
    (MaxLeeches c) (DrainTimeout c) (TelegramToken c) (TelegramUsername c) (DiscordWebhook c)
    (SlackWebhook c) (GotifyURL c) (GotifyToken c) (SafeMode c) (CrawlerThreads c) (MaxConcurrentDownloads c)
    (RateLimit c) (CrawlerAutoStopMinutes c) (CrawlerStartOnLaunch c) (CrawlerScheduleEnabled c)
    (CrawlerScheduleStart c) (CrawlerScheduleEnd c) (MaxSavedTorrents c) (NetworkMode c) (ListenIPv4 c)
    (ListenIPv6 c) (RoutingTableCacheIPv4 c) (RoutingTableCacheIPv6 c) (BootstrapIPv4 c) (ConfigFile c)
    (EnableBlacklist c) (NameBlacklist c) (FileBlacklist c) (OnlyChineseContent c) (Statistics c)
    (BootstrapNodeFile c) (OnlyWebServer c) (AuthUser c) (AuthPass c) (SessionSecret c) (TransmissionURL c)
    (TransmissionUser c) (TransmissionPass c) (Aria2URL c) (Aria2Token c) (DelugeURL c) (DelugePass c)
    (QBittorrentURL c) (QBittorrentUser c) (QBittorrentPass c).

(** [put f v c] is [c] after [c.f = v]. *)
Class Field {A : Type} (f : Configuration -> A) : Type := put : A -> Configuration -> Configuration.
Arguments put {A} f {Field} v c.
Ltac build_field f :=
  let v := fresh "v" in let c := fresh "c" in
  intros v c; let t := eval unfold eta in (eta c) in
  let p := eval pattern (f c) in t in
  match p with ?g _ => let r := eval cbv beta in (g v) in exact r end.
#[export] Hint Extern 0 (Field ?f) => unfold Field; build_field f : typeclass_instances.
Notation "c <| f := v |>" := (put f v c) (at level 1, left associativity, f at level 10, v at level 99).

Section Lower.
  Context (unicode_lower : string -> string).

Definition NormalizeNodeRole (role : string) : string :=
  let r := ToLower unicode_lower (TrimSpace role) in
  if decide (r = "master") then "master"
  else if decide (r = "worker") then "worker"
  else "standalone".

Definition NormalizeNetworkMode (mode : string) : string :=
  let m := ToLower unicode_lower (TrimSpace mode) in
  if decide (m = NetworkModeDual) then NetworkModeDual
  else if decide (m = "ipv6") then NetworkModeDual
  else NetworkModeIPv4.
End Lower.

(** [argumentValue], over [os.Args]; [os.Args[i+2]] panics out of range. The loop
    is over [os.Args[1:]], whose element [i] is [os.Args[i+1]]. *)
Fixpoint argumentValue_loop (name : string) (osArgs rest : list string) (i : nat) : go Z string :=
  match rest with
  | [] => Ret ""
  | arg :: rest' =>
      let prefix := ("-" +:+ name +:+ "=")%string in
      if HasPrefix arg prefix then Ret (TrimPrefix arg prefix)
      else if bool_decide (arg = ("-" +:+ name)%string) && (i + 2 <=? length (drop 1 osArgs))%nat
      then match osArgs !! (i + 2)%nat with Some v => Ret v | None => Panic end
      else argumentValue_loop name osArgs rest' (S i)
  end.

(** [os.Args[1:]] of no arguments at all panics. *)
Definition argumentValue (name : string) (osArgs : list string) : go Z string :=
  match osArgs with
  | [] => Panic
  | _ => argumentValue_loop name osArgs (drop 1 osArgs) 0
  end.

(** ** The flags *)

(** A call of [flag.StringVar] and the like on a field: the name and the default,
    which may look at the configuration read so far. *)
Inductive flag : Type :=
  | StringVar (f : Configuration -> string) `{!Field f} (name : string) (value : Configuration -> string)
  | BoolVar (f : Configuration -> bool) `{!Field f} (name : string) (value : Configuration -> bool)
  | IntVar (f : Configuration -> Z) `{!Field f} (name : string) (value : Configuration -> Z)
  | UintVar (f : Configuration -> Z) `{!Field f} (name : string) (value : Configuration -> Z)
  | DurationVar (f : Configuration -> duration) `{!Field f} (name : string) (value : Configuration -> duration).

Definition name_of (fl : flag) : string :=
  match fl with
  | StringVar _ name _ | BoolVar _ name _ | IntVar _ name _ | UintVar _ name _ | DurationVar _ name _ => name
  end.
Definition is_bool (fl : flag) : bool := match fl with BoolVar _ _ _ => true | _ => false end.

(** A value of any of the fields' types. *)
Inductive fvalue : Type := FString (s : string) | FBool (b : bool) | FNum (z : Z) | FStrings (l : list string).

Definition get (fl : flag) (c : Configuration) : fvalue :=
  match fl with
  | StringVar f _ _ => FString (f c)
  | BoolVar f _ _ => FBool (f c)
  | IntVar f _ _ | UintVar f _ _ | DurationVar f _ _ => FNum (f c)
  end.
Definition store (fl : flag) (v : fvalue) (c : Configuration) : Configuration :=
  match fl, v with
  | StringVar f _ _, FString s => c <| f := s |>
  | BoolVar f _ _, FBool b => c <| f := b |>
  | IntVar f _ _, FNum z | UintVar f _ _, FNum z | DurationVar f _ _, FNum z => c <| f := z |>
  | _, _ => c
  end.
Definition default_of (fl : flag) (c : Configuration) : fvalue :=
  match fl with
  | StringVar _ _ d => FString (d c)
  | BoolVar _ _ d => FBool (d c)
  | IntVar _ _ d | UintVar _ _ d | DurationVar _ _ d => FNum (d c)
  end.

(** The anonymous struct that the YAML file is read into. *)
Record fileConfig : Type := mkFileConfig {
  Network_Mode : string; Listen_IPv4 : string; Listen_IPv6 : string; Bootstrap_IPv4 : list string;
  RoutingCache_IPv4 : string; RoutingCache_IPv6 : string;
  Schedule_Enabled : bool; Schedule_Start : string; Schedule_End : string
}.

Definition load (fileConfig : fileConfig) (config : Configuration) : Configuration :=
  config <| NetworkMode := Network_Mode fileConfig |>
         <| ListenIPv4 := Listen_IPv4 fileConfig |>
         <| ListenIPv6 := Listen_IPv6 fileConfig |>
         <| BootstrapIPv4 := Bootstrap_IPv4 fileConfig |>
         <| RoutingTableCacheIPv4 := RoutingCache_IPv4 fileConfig |>
         <| RoutingTableCacheIPv6 := RoutingCache_IPv6 fileConfig |>
         <| CrawlerScheduleEnabled := Schedule_Enabled fileConfig |>
         <| CrawlerScheduleStart := Schedule_Start fileConfig |>
         <| CrawlerScheduleEnd := Schedule_End fileConfig |>.

Definition defaultString (value fallback : string) : string := if decide (value <> ""%string) then value else fallback.

(** The zero value. *)
Definition zero : Configuration :=
  mkConfiguration
    "" "" "" "" 0 0 "" "" "" "" "" "" 0 0 0 "" "" "" "" "" "" false 0 0 0 0 false false "" "" 0 "" "" "" ""
    "" [] "" false "" "" false false "" false "" "" "" "" "" "" "" "" "" "" "" "" "".

(** [filepath.Base] *)
Definition Base (path : string) : string :=
  if decide (path = ""%string) then "."%string
  else
    match last (Split "/" (TrimRight_slash path)) with
    | Some EmptyString | None => "/"%string
    | Some name => name
    end.

Section ParseArguments.
  Context (unicode_lower : string -> string).
  (** The environment, the file system and the decoder of package yaml. *)
  Context (Getenv : string -> string) (ReadFile : string -> option string) (Unmarshal : string -> option fileConfig).
  (** [time.ParseDuration] *)
  Context (ParseDuration : string -> option duration).

(** What the file says, over the zero configuration; a file that cannot be read or
    decoded says nothing. *)
Definition file_config (configFile : string) : Configuration :=
  if decide (configFile <> ""%string) then
    match ReadFile configFile with
    | Some data => match Unmarshal data with Some fileConfig => load fileConfig zero | None => zero end
    | None => zero
    end
  else zero.

Definition default_role (args0 : string) : string :=
  if Contains (ToLower unicode_lower (Base args0)) "dhtc-worker" then "worker" else "standalone".

Section Flags.
  Context (defaultRole configFile : string).
#[local] Open Scope string_scope.
Definition flags : list flag :=
  [StringVar NodeRole "node-role" (fun _ => defaultRole);
   StringVar WorkerURLs "worker-urls" (fun _ => "");
   StringVar ClusterToken "cluster-token" (fun _ => Getenv "DHTC_CLUSTER_TOKEN");
   StringVar WorkerID "worker-id" (fun _ => Getenv "DHTC_WORKER_ID");
   IntVar WorkerQueue "worker-queue" (fun _ => 256);
   IntVar WorkerBatch "worker-batch" (fun _ => 16);
   StringVar WorkerCacheDir "worker-cache-dir" (fun _ => "");
   StringVar MasterURL "master-url" (fun _ => "");
   StringVar DbName "database" (fun _ => "dhtdb");
   StringVar DatabaseType "database-type" (fun _ => "clover");
   StringVar DatabaseUrl "database-url" (fun _ => "");
   StringVar Address "address" (fun _ => ":4200");
   UintVar MaxNeighbors "MaxNeighbors" (fun _ => 500);
   IntVar MaxLeeches "MaxLeeches" (fun _ => 128);
   DurationVar DrainTimeout "DrainTimeout" (fun _ => (5 * second)%Z);
   StringVar TelegramToken "TelegramToken" (fun _ => "");
   StringVar TelegramUsername "TelegramUsername" (fun _ => "");
   StringVar DiscordWebhook "DiscordWebhook" (fun _ => "");
   StringVar SlackWebhook "SlackWebhook" (fun _ => "");
   StringVar GotifyURL "GotifyURL" (fun _ => "");
   StringVar GotifyToken "GotifyToken" (fun _ => "");
   BoolVar SafeMode "SafeMode" (fun _ => false);
   IntVar CrawlerThreads "CrawlerThreads" (fun _ => 2);
   IntVar MaxConcurrentDownloads "MaxConcurrentDownloads" (fun _ => 10);
   IntVar RateLimit "RateLimit" (fun _ => 100);
   IntVar CrawlerAutoStopMinutes "CrawlerAutoStopMinutes" (fun _ => 0);
   BoolVar CrawlerStartOnLaunch "CrawlerStartOnLaunch" (fun _ => false);
   BoolVar CrawlerScheduleEnabled "CrawlerScheduleEnabled" (fun _ => false);
   StringVar CrawlerScheduleStart "CrawlerScheduleStart"
     (fun config => defaultString (CrawlerScheduleStart config) "22:00");
   StringVar CrawlerScheduleEnd "CrawlerScheduleEnd"
     (fun config => defaultString (CrawlerScheduleEnd config) "07:00");
   IntVar MaxSavedTorrents "MaxSavedTorrents" (fun _ => 20000);
   StringVar ConfigFile "config" (fun _ => configFile);
   StringVar NetworkMode "NetworkMode" (fun config => defaultString (NetworkMode config) "dual");
   StringVar ListenIPv4 "ListenIPv4" (fun config => defaultString (ListenIPv4 config) "0.0.0.0:0");
   StringVar ListenIPv6 "ListenIPv6" (fun config => defaultString (ListenIPv6 config) "[::]:0");
   StringVar RoutingTableCacheIPv4 "RoutingTableCacheIPv4"
     (fun config => defaultString (RoutingTableCacheIPv4 config) "routing-table-v4.json");
   StringVar RoutingTableCacheIPv6 "RoutingTableCacheIPv6"
     (fun config => defaultString (RoutingTableCacheIPv6 config) "routing-table-v6.json");
   BoolVar EnableBlacklist "EnableBlacklist" (fun _ => false);
   StringVar NameBlacklist "NameBlacklist" (fun _ => "");
   StringVar FileBlacklist "FileBlacklist" (fun _ => "");
   BoolVar OnlyChineseContent "OnlyChineseContent" (fun _ => false);
   BoolVar Statistics "Statistics" (fun _ => false);
   StringVar BootstrapNodeFile "BootstrapNodeFile" (fun _ => "bootstrap-nodes.txt");
   BoolVar OnlyWebServer "OnlyWebServer" (fun _ => false);
   StringVar AuthUser "auth-user" (fun _ => "");
   StringVar AuthPass "auth-pass" (fun _ => "");
   StringVar SessionSecret "session-secret" (fun _ => "dhtc-secret");
   StringVar TransmissionURL "transmission-url" (fun _ => "");
   StringVar TransmissionUser "transmission-user" (fun _ => "");
   StringVar TransmissionPass "transmission-pass" (fun _ => "");
   StringVar Aria2URL "aria2-url" (fun _ => "");
   StringVar Aria2Token "aria2-token" (fun _ => "");
   StringVar DelugeURL "deluge-url" (fun _ => "");
   StringVar DelugePass "deluge-pass" (fun _ => "");
   StringVar QBittorrentURL "qbittorrent-url" (fun _ => "");
   StringVar QBittorrentUser "qbittorrent-user" (fun _ => "");
   StringVar QBittorrentPass "qbittorrent-pass" (fun _ => "")].
End Flags.

(** The [Set] of the flag's type. *)
Definition parse (fl : flag) (s : string) : option fvalue :=
  match fl with
  | StringVar _ _ _ => Some (FString s)
  | BoolVar _ _ _ => FBool <$> ParseBool s
  | IntVar _ _ _ => FNum <$> ParseInt0 s
  | UintVar _ _ _ => FNum <$> ParseUint0 s
  | DurationVar _ _ _ => FNum <$> ParseDuration s
  end.
Definition flag_of (fl : flag) : Flag Configuration :=
  mkFlag (name_of fl) (is_bool fl) (fun s c => v ← parse fl s; Some (store fl v c)).

(** The calls of [flag.StringVar] and the like, in turn. *)
Fixpoint declare (l : list flag) (fs : FlagSet Configuration) : go Z (FlagSet Configuration) :=
  match l with
  | [] => Ret fs
  | fl :: l => fs ← Var (flag_of fl) (fun c => store fl (default_of fl c) c) fs; declare l fs
  end.

Definition normalised (config : Configuration) : Configuration :=
  config <| NetworkMode := NormalizeNetworkMode unicode_lower (NetworkMode config) |>
         <| NodeRole := NormalizeNodeRole unicode_lower (NodeRole config) |>.

(** [Err code] is the exit of the process with that code. *)
Definition ParseArguments (osArgs : list string) : go Z Configuration :=
  configFile ← argumentValue "config" osArgs;
  args0 ← match osArgs with a :: _ => Ret a | [] => Panic end;
  fs ← declare (flags (default_role args0) configFile) (mkFlagSet (file_config configFile) []);
  config ← Parse (formal fs) (drop 1 osArgs) (target fs);
  Ret (normalised config).
End ParseArguments.

(** The look-up never panics. *)
Lemma argumentValue_loop_ret name osArgs rest i :
  exists v, argumentValue_loop name osArgs rest i = Ret v.
Proof.
  revert i; induction rest as [|arg rest IH]; intros i; cbn [argumentValue_loop]; [by eexists|].
  destruct (HasPrefix arg _); [by eexists|]. destruct (bool_decide _ && _) eqn:E; [|apply IH].
  apply andb_true_iff in E as [_ E%Nat.leb_le]. rewrite length_drop in E.
  destruct (lookup_lt_is_Some_2 osArgs (i + 2)) as [v ->]; [lia|by eexists].
Qed.

Lemma NormalizeNetworkMode_cases u mode :
  NormalizeNetworkMode u mode = NetworkModeIPv4 \/ NormalizeNetworkMode u mode = NetworkModeDual.
Proof. unfold NormalizeNetworkMode. repeat case_decide; tauto. Qed.

(** A normalised mode is its own normal form, and so is a normalised role. *)
Theorem normal_forms (u : string -> string) (s : string) :
  NormalizeNetworkMode u (NormalizeNetworkMode u s) = NormalizeNetworkMode u s /\
  NormalizeNodeRole u (NormalizeNodeRole u s) = NormalizeNodeRole u s /\
  (NormalizeNetworkMode u s = NetworkModeDual <->
   ToLower u (TrimSpace s) = NetworkModeDual \/ ToLower u (TrimSpace s) = "ipv6") /\
  NormalizeNodeRole u s ∈ ["master"; "worker"; "standalone"].
Proof.
  split; [by destruct (NormalizeNetworkMode_cases u s) as [-> | ->]|].
  split; [unfold NormalizeNodeRole at 2 3; repeat case_decide; reflexivity|].
  split; [|unfold NormalizeNodeRole; repeat case_decide; repeat (by left) || right; by left].
  unfold NormalizeNetworkMode. repeat case_decide; split; try tauto. done.
Qed.

(** ** A configuration as the vector of its fields

    Each flag writes one slot and reads it, so that flags of different names do not
    meet. *)

Definition vec (c : Configuration) : list fvalue :=
  [FString (NodeRole c); FString (WorkerURLs c); FString (ClusterToken c); FString (WorkerID c);
   FNum (WorkerQueue c); FNum (WorkerBatch c); FString (WorkerCacheDir c); FString (MasterURL c);
   FString (DbName c); FString (DatabaseType c); FString (DatabaseUrl c); FString (Address c);
   FNum (MaxNeighbors c); FNum (MaxLeeches c); FNum (DrainTimeout c); FString (TelegramToken c);
   FString (TelegramUsername c); FString (DiscordWebhook c); FString (SlackWebhook c); FString (GotifyURL c);
   FString (GotifyToken c); FBool (SafeMode c); FNum (CrawlerThreads c); FNum (MaxConcurrentDownloads c);
   FNum (RateLimit c); FNum (CrawlerAutoStopMinutes c); FBool (CrawlerStartOnLaunch c);
   FBool (CrawlerScheduleEnabled c); FString (CrawlerScheduleStart c); FString (CrawlerScheduleEnd c);
   FNum (MaxSavedTorrents c); FString (NetworkMode c); FString (ListenIPv4 c); FString (ListenIPv6 c);
   FString (RoutingTableCacheIPv4 c); FString (RoutingTableCacheIPv6 c); FStrings (BootstrapIPv4 c);
   FString (ConfigFile c); FBool (EnableBlacklist c); FString (NameBlacklist c); FString (FileBlacklist c);
   FBool (OnlyChineseContent c); FBool (Statistics c); FString (BootstrapNodeFile c);
   FBool (OnlyWebServer c); FString (AuthUser c); FString (AuthPass c); FString (SessionSecret c);
   FString (TransmissionURL c); FString (TransmissionUser c); FString (TransmissionPass c);
   FString (Aria2URL c); FString (Aria2Token c); FString (DelugeURL c); FString (DelugePass c);
   FString (QBittorrentURL c); FString (QBittorrentUser c); FString (QBittorrentPass c)].

(** The names of the flags in the order of the fields; [BootstrapIPv4] has none. *)
Definition slot_names : list string :=
  ["node-role"; "worker-urls"; "cluster-token"; "worker-id"; "worker-queue"; "worker-batch";
   "worker-cache-dir"; "master-url"; "database"; "database-type"; "database-url"; "address"; "MaxNeighbors";
   "MaxLeeches"; "DrainTimeout"; "TelegramToken"; "TelegramUsername"; "DiscordWebhook"; "SlackWebhook";
   "GotifyURL"; "GotifyToken"; "SafeMode"; "CrawlerThreads"; "MaxConcurrentDownloads"; "RateLimit";
   "CrawlerAutoStopMinutes"; "CrawlerStartOnLaunch"; "CrawlerScheduleEnabled"; "CrawlerScheduleStart";
   "CrawlerScheduleEnd"; "MaxSavedTorrents"; "NetworkMode"; "ListenIPv4"; "ListenIPv6";
   "RoutingTableCacheIPv4"; "RoutingTableCacheIPv6"; ""; "config"; "EnableBlacklist"; "NameBlacklist";
   "FileBlacklist"; "OnlyChineseContent"; "Statistics"; "BootstrapNodeFile"; "OnlyWebServer"; "auth-user";
   "auth-pass"; "session-secret"; "transmission-url"; "transmission-user"; "transmission-pass"; "aria2-url";
   "aria2-token"; "deluge-url"; "deluge-pass"; "qbittorrent-url"; "qbittorrent-user"; "qbittorrent-pass"]%string.

Definition slot (fl : flag) : nat := default 0%nat (fst <$> list_find (fun n => n = name_of fl) slot_names).

(** A value of the flag's type. *)
Definition fits (fl : flag) (v : fvalue) : Prop :=
  match fl, v with
  | StringVar _ _ _, FString _ | BoolVar _ _ _, FBool _ => True
  | IntVar _ _ _, FNum _ | UintVar _ _ _, FNum _ | DurationVar _ _ _, FNum _ => True
  | _, _ => False
  end.

Record lens (fl : flag) : Prop := {
  lens_get : forall c, vec c !! slot fl = Some (get fl c);
  lens_store : forall v c, fits fl v -> vec (store fl v c) = <[slot fl := v]> (vec c);
  lens_default : forall c c', get fl c = get fl c' -> default_of fl c = default_of fl c'
}.

Lemma vec_inj c c' : vec c = vec c' -> c = c'.
Proof. destruct c, c'. unfold vec. cbn. by intros [= -> -> -> -> -> -> -> -> -> -> -> -> -> -> -> -> -> -> -> -> -> -> -> -> -> -> -> -> -> -> -> -> -> -> -> -> -> -> -> -> -> -> -> -> -> -> -> -> -> -> -> -> -> -> -> -> -> ->]. Qed.

Lemma fits_default fl c : fits fl (default_of fl c).
Proof. by destruct fl. Qed.
Lemma fits_parse d fl s v : parse d fl s = Some v -> fits fl v.
Proof. destruct fl; cbn; intros H; repeat (apply fmap_Some in H as (? & ? & ->)); by simplify_eq/=. Qed.

Section Lenses.
  Context (defaultRole configFile : string) (Getenv : string -> string).
  Abbreviation flags := (flags Getenv defaultRole configFile).

Lemma flags_lens fl : fl ∈ flags -> lens fl.
Proof.
  assert (Forall lens flags) as Hl; [|by rewrite Forall_forall in Hl; apply Hl].
  unfold flags. repeat (apply Forall_cons; split; [|]); [..|by constructor].
  all: constructor; [intros c; reflexivity|intros [] c Hf; try done; reflexivity|].
  all: intros c c'; cbn; congruence.
Qed.

Lemma flags_slots : NoDup (slot <$> flags).
Proof. apply (bool_decide_unpack _). vm_compute. exact I. Qed.
Lemma flags_names : NoDup (name_of <$> flags).
Proof. apply (bool_decide_unpack _). vm_compute. exact I. Qed.
End Lenses.

(** ** Reading and writing through the flags *)

Lemma get_store_same fl v c : lens fl -> fits fl v -> get fl (store fl v c) = v.
Proof.
  intros [Hg Hs _] Hv. specialize (Hs v c Hv). pose proof (Hg (store fl v c)) as H. rewrite Hs in H.
  rewrite list_lookup_insert_eq in H; [congruence|]. apply lookup_lt_Some with (get fl c), Hg.
Qed.
Lemma get_store_other a b v c : lens a -> lens b -> fits b v -> slot a <> slot b -> get a (store b v c) = get a c.
Proof.
  intros Ha Hb Hv Hne. pose proof (lens_get _ Ha (store b v c)) as H. rewrite (lens_store _ Hb v c Hv) in H.
  rewrite list_lookup_insert_ne in H by done. rewrite (lens_get _ Ha) in H. congruence.
Qed.

(** The slot of the one field without a flag. *)
Definition bootstrap_slot : nat := 36.
Lemma bootstrap_lookup c : vec c !! bootstrap_slot = Some (FStrings (BootstrapIPv4 c)).
Proof. reflexivity. Qed.
Lemma bootstrap_store fl v c : lens fl -> fits fl v -> BootstrapIPv4 (store fl v c) = BootstrapIPv4 c.
Proof.
  intros Hl Hv. pose proof (bootstrap_lookup (store fl v c)) as H. rewrite (lens_store _ Hl v c Hv) in H.
  rewrite list_lookup_insert_ne in H; [rewrite bootstrap_lookup in H; congruence|].
  intros Hs. pose proof (lens_get _ Hl c) as Hg. rewrite Hs, bootstrap_lookup in Hg. by destruct fl.
Qed.

(** The configuration after the flags [k] have put their defaults into it. *)
Definition with_defaults (k : list flag) (c : Configuration) : Configuration :=
  foldl (fun c fl => store fl (default_of fl c) c) c k.

Lemma with_defaults_spec k c : (forall fl, fl ∈ k -> lens fl) -> NoDup (slot <$> k) ->
  (forall fl, fl ∈ k -> get fl (with_defaults k c) = default_of fl c) /\
  (forall fl, lens fl -> slot fl ∉ slot <$> k -> get fl (with_defaults k c) = get fl c) /\
  BootstrapIPv4 (with_defaults k c) = BootstrapIPv4 c.
Proof.
  revert c; induction k as [|b k IH]; intros c Hl Hn; [by split; [intros fl Hf; apply not_elem_of_nil in Hf|]|].
  cbn [fmap list_fmap] in *. apply NoDup_cons in Hn as [Hb Hn]. set (c1 := store b (default_of b c) c).
  assert (lens b) as Lb by (apply Hl; left). pose proof (fits_default b c) as Fb.
  destruct (IH c1 ltac:(intros; apply Hl; by right) Hn) as (H1 & H2 & H3).
  change (with_defaults (b :: k) c) with (with_defaults k c1). split; [|split].
  - intros fl [->|Hin]%elem_of_cons; [rewrite H2 by done; by apply get_store_same|].
    rewrite H1 by done. apply lens_default; [apply Hl; by right|]. apply get_store_other; [apply Hl; by right|done..|].
    intros He. apply Hb. rewrite <- He. by apply list_elem_of_fmap_2.
  - intros fl Lf [Hne Hnin]%not_elem_of_cons. rewrite H2 by done. by apply get_store_other.
  - rewrite H3. by apply bootstrap_store.
Qed.

Section Spec.
  Context (ParseDuration : string -> option duration).
  Abbreviation parse := (parse ParseDuration).
  Abbreviation flag_of := (flag_of ParseDuration).

Lemma lookup_flag_Some l name f : lookup_flag (flag_of <$> l) name = Some f ->
  exists fl, fl ∈ l /\ name_of fl = name /\ f = flag_of fl.
Proof.
  unfold lookup_flag. intros [Hin Hn%String.eqb_eq]%find_some.
  apply list_elem_of_In, list_elem_of_fmap in Hin as (fl & -> & Hin). by exists fl.
Qed.
Lemma lookup_flag_elem l fl : NoDup (name_of <$> l) -> fl ∈ l -> lookup_flag (flag_of <$> l) (name_of fl) = Some (flag_of fl).
Proof.
  unfold lookup_flag. induction l as [|b l IH]; intros Hn Hin; [by apply not_elem_of_nil in Hin|].
  cbn [fmap list_fmap List.find] in *. apply NoDup_cons in Hn as [Hb Hn]. apply elem_of_cons in Hin as [->|Hin].
  - cbn. by rewrite String.eqb_refl.
  - cbn. destruct (String.eqb_spec (name_of b) (name_of fl)) as [He|_]; [|by apply IH].
    exfalso. apply Hb. rewrite He. by apply list_elem_of_fmap_2.
Qed.
Lemma lookup_flag_fresh l name : name ∉ name_of <$> l -> lookup_flag (flag_of <$> l) name = None.
Proof.
  intros Hn. destruct (lookup_flag _ _) eqn:E; [|done]. apply lookup_flag_Some in E as (fl & Hin & <- & _).
  exfalso. apply Hn. by apply list_elem_of_fmap_2.
Qed.

Lemma declare_ok k l c : NoDup (name_of <$> l ++ k) ->
  declare ParseDuration k (mkFlagSet c (flag_of <$> l)) = Ret (mkFlagSet (with_defaults k c) (flag_of <$> l ++ k)).
Proof.
  revert l c; induction k as [|b k IH]; intros l c Hn; [by rewrite app_nil_r|]. cbn [declare].
  assert (name_of b ∉ name_of <$> l) as Hb.
  { rewrite fmap_app in Hn. apply NoDup_app in Hn as (_ & Hd & _). intros Hin. apply (Hd _ Hin). left. }
  unfold Var. cbn [formal target Name flag_of]. change (Name (flag_of b)) with (name_of b). rewrite lookup_flag_fresh by done. cbn [mbind go_bind].
  change ([flag_of b]) with (flag_of <$> [b]). rewrite <- fmap_app.
  rewrite (IH (l ++ [b])); rewrite <- app_assoc; done.
Qed.

(** Every assignment is to a flag that can read its value. *)
Definition readable (l : list flag) (toks : list (string * string)) : Prop :=
  Forall (fun t => exists fl, fl ∈ l /\ name_of fl = t.1 /\ is_Some (parse fl t.2)) toks.
(** The value of a flag: the one given last, or else [v]. *)
Definition given (fl : flag) (toks : list (string * string)) (v : fvalue) : option fvalue :=
  match last_value (name_of fl) toks with Some s => parse fl s | None => Some v end.

Section List.
  Context (l : list flag) (Hl : forall fl, fl ∈ l -> lens fl) (Hs : NoDup (slot <$> l)) (Hn : NoDup (name_of <$> l)).

Lemma name_slot a b : a ∈ l -> b ∈ l -> name_of a = name_of b -> a = b.
Proof.
  intros Ha Hb He. pose proof (lookup_flag_elem l a Hn Ha) as H1. clear Hs Hl.
  induction l as [|x k IH]; [by apply not_elem_of_nil in Ha|]. cbn [fmap list_fmap] in Hn.
  apply NoDup_cons in Hn as [Hx Hn']. apply elem_of_cons in Ha as [->|Ha], Hb as [->|Hb]; [done| | |].
  - exfalso. apply Hx. rewrite He. by apply list_elem_of_fmap_2.
  - exfalso. apply Hx. rewrite <- He. by apply list_elem_of_fmap_2.
  - apply IH; try done. by apply lookup_flag_elem.
Qed.
Lemma slot_name a b : a ∈ l -> b ∈ l -> name_of a <> name_of b -> slot a <> slot b.
Proof.
  intros [i Hi]%list_elem_of_lookup [j Hj]%list_elem_of_lookup Hne He.
  assert (i = j) as ->; [|congruence].
  eapply (NoDup_lookup (slot <$> l)); [done| |]; rewrite list_lookup_fmap_Some; eauto.
Qed.

Lemma assign_sound toks c c' : assign (flag_of <$> l) toks c = Some c' ->
  readable l toks /\ (forall fl, fl ∈ l -> given fl toks (get fl c) = Some (get fl c')) /\
  BootstrapIPv4 c' = BootstrapIPv4 c.
Proof.
  revert c; induction toks as [|[n s] toks IH]; intros c.
  - cbn. intros [= <-]. split; [by constructor|]. done.
  - cbn [assign]. destruct (lookup_flag _ n) as [f|] eqn:Ef; [|discriminate].
    apply lookup_flag_Some in Ef as (b & Hb & <- & ->). cbn [mbind option_bind flag_of Set_].
    destruct (parse b s) as [v|] eqn:Ep; [|discriminate]. cbn [mbind option_bind].
    intros (Hr & Hg & Hboot)%IH. pose proof (fits_parse _ _ _ _ Ep) as Fv. pose proof (Hl b Hb) as Lb. split; [|split].
    + constructor; [|done]. exists b. cbn [fst snd]. by rewrite Ep.
    + intros fl Hf. specialize (Hg fl Hf). unfold given in *. rewrite last_value_cons.
      destruct (last_value (name_of fl) toks); [done|]. rewrite <- Hg. destruct (decide (name_of b = name_of fl)) as [He|Hne].
      * apply name_slot in He as ->; [|done..]. by rewrite Ep, get_store_same.
      * rewrite get_store_other; [done|by apply Hl|done..|]. by apply slot_name.
    + rewrite Hboot. by apply bootstrap_store.
Qed.
Lemma assign_total toks c : readable l toks -> exists c', assign (flag_of <$> l) toks c = Some c'.
Proof.
  intros H. revert c. induction H as [|[n s] toks (fl & Hf & Hname & v & Hv) _ IH]; intros c; [by eexists|].
  cbn [fst snd] in *. cbn [assign]. subst n. rewrite lookup_flag_elem by done. cbn [mbind option_bind flag_of Set_].
  rewrite Hv. cbn [mbind option_bind]. apply IH.
Qed.
End List.
End Spec.

(** ** What the arguments mean *)

Lemma normalised_bootstrap u c : BootstrapIPv4 (normalised u c) = BootstrapIPv4 c.
Proof. reflexivity. Qed.
Lemma normalised_ConfigFile u c : ConfigFile (normalised u c) = ConfigFile c.
Proof. reflexivity. Qed.

Section Meaning.
  Context (unicode_lower : string -> string) (Getenv : string -> string) (ReadFile : string -> option string)
    (Unmarshal : string -> option fileConfig) (ParseDuration : string -> option duration).

(** The flags and the file decide every field. *)
Lemma fields_covered role path c c' :
  (forall fl, fl ∈ flags Getenv role path -> get fl c = get fl c') -> BootstrapIPv4 c = BootstrapIPv4 c' -> c = c'.
Proof.
  intros Hg Hb. apply vec_inj, list_eq. intros i. destruct (decide (i < 58)%nat) as [Hi|Hi].
  - assert (Forall (fun i => i = bootstrap_slot \/ i ∈ slot <$> flags Getenv role path) (seq 0 58)) as Hc.
    { apply (bool_decide_unpack _). vm_compute. exact I. }
    rewrite Forall_forall in Hc. destruct (Hc i ltac:(apply elem_of_seq; lia)) as [->|Hin].
    + by rewrite !bootstrap_lookup, Hb.
    + apply list_elem_of_fmap in Hin as (fl & -> & Hin). pose proof (flags_lens role path Getenv fl Hin) as L.
      by rewrite !(lens_get _ L), Hg.
  - by rewrite !lookup_ge_None_2 by (cbn; lia).
Qed.

(** Declaring flags and parsing the command line, whatever the flags are. *)
Lemma parse_flags_spec (l : list flag) (file : Configuration) (args : list string) :
  (forall fl, fl ∈ l -> lens fl) -> NoDup (slot <$> l) -> NoDup (name_of <$> l) ->
  (forall c c', (forall fl, fl ∈ l -> get fl c = get fl c') -> BootstrapIPv4 c = BootstrapIPv4 c' -> c = c') ->
  let run := (fs ← declare ParseDuration l (mkFlagSet file []);
              config ← Parse (formal fs) args (target fs); Ret (normalised unicode_lower config)) in
  (forall cfg, run = Ret cfg <->
     exists toks config, tokens (flag_of ParseDuration <$> l) args = Some toks /\ readable ParseDuration l toks /\
       (forall fl, fl ∈ l -> given ParseDuration fl toks (default_of fl file) = Some (get fl config)) /\
       BootstrapIPv4 config = BootstrapIPv4 file /\ cfg = normalised unicode_lower config) /\
  ((exists cfg, run = Ret cfg) \/ run = Err 0 \/ run = Err 2).
Proof.
  intros Hl Hs Hn Hcover. cbn zeta. destruct (with_defaults_spec l file Hl Hs) as (Hd & _ & Hdb).
  pose proof (declare_ok ParseDuration l [] file Hn) as Hdecl. cbn [fmap list_fmap app] in Hdecl. rewrite Hdecl.
  cbn [mbind go_bind formal target]. split.
  - intros cfg. split.
    + destruct (Parse _ _ _) as [config| |] eqn:E; [|discriminate|discriminate]. cbn [mbind go_bind]. intros [= <-].
      apply Parse_tokens in E as (toks & Ht & Ha). apply assign_sound in Ha as (Hr & Hg & Hb); [|done..].
      exists toks, config. split; [done|]. split; [done|]. split; [|by rewrite Hb].
      intros fl Hf. rewrite <- Hd by done. by apply Hg.
    + intros (toks & config & Ht & Hr & Hg & Hb & ->).
      destruct (assign_total ParseDuration l Hn toks (with_defaults l file) Hr) as [c' Ha].
      rewrite (proj2 (Parse_tokens _ args (with_defaults l file) c') ltac:(by exists toks)). cbn [mbind go_bind].
      apply assign_sound in Ha as (_ & Hg' & Hb'); [|done..]. f_equal. f_equal.
      apply Hcover; [|by rewrite Hb', Hdb].
      intros fl Hf. specialize (Hg' fl Hf). rewrite Hd, Hg in Hg' by done. congruence.
  - destruct (Parse_outcome (flag_of ParseDuration <$> l) args (with_defaults l file)) as [[r ->]|[-> | ->]]; cbn; eauto.
Qed.

Lemma ParseArguments_unfold (args0 : string) (args : list string) (path : string) :
  argumentValue "config" (args0 :: args) = Ret path ->
  ParseArguments unicode_lower Getenv ReadFile Unmarshal ParseDuration (args0 :: args) =
    (fs ← declare ParseDuration (flags Getenv (default_role unicode_lower args0) path)
            (mkFlagSet (file_config ReadFile Unmarshal path) []);
     config ← Parse (formal fs) args (target fs); Ret (normalised unicode_lower config)).
Proof. intros Hp. unfold ParseArguments. by rewrite Hp, !bind_Ret. Qed.

(** C15: What the command line, the environment and the file make of the configuration:
    ParseArguments ends with one exactly when the command line is a list of
    assignments to known flags with values they can read, and then every flag has the
    value assigned last, or else its default, which for the network mode, the listen
    addresses, the caches and the ends of the schedule is what the file says; the
    bootstrap nodes are those of the file, and role and mode are normalised. Otherwise
    the process exits with code 0 (help) or 2; it never panics. *)
Theorem ParseArguments_spec (args0 : string) (args : list string) :
  exists path, argumentValue "config" (args0 :: args) = Ret path /\
  let l := flags Getenv (default_role unicode_lower args0) path in
  let file := file_config ReadFile Unmarshal path in
  let run := ParseArguments unicode_lower Getenv ReadFile Unmarshal ParseDuration (args0 :: args) in
  (forall cfg, run = Ret cfg <->
     exists toks config, tokens (flag_of ParseDuration <$> l) args = Some toks /\ readable ParseDuration l toks /\
       (forall fl, fl ∈ l -> given ParseDuration fl toks (default_of fl file) = Some (get fl config)) /\
       BootstrapIPv4 config = BootstrapIPv4 file /\ cfg = normalised unicode_lower config) /\
  ((exists cfg, run = Ret cfg) \/ run = Err 0 \/ run = Err 2).
Proof.
  destruct (argumentValue_loop_ret "config" (args0 :: args) args 0) as [path Hp].
  exists path. split; [exact Hp|]. cbn zeta. rewrite (ParseArguments_unfold args0 args path Hp).
  exact (parse_flags_spec (flags Getenv (default_role unicode_lower args0) path) (file_config ReadFile Unmarshal path) args
    (flags_lens _ _ _) (flags_slots _ _ _) (flags_names _ _ _) (fields_covered _ _)).
Qed.

(** *** The file that is read *)

(** The argument names a file for the early look-up. *)
Definition names_config (a : string) : Prop := a = "-config"%string \/ HasPrefix a "-config=" = true.
#[export] Instance names_config_dec a : Decision (names_config a) := _.

Lemma loop_pass osArgs rest i a : ~ names_config a ->
  argumentValue_loop "config" osArgs (a :: rest) i = argumentValue_loop "config" osArgs rest (S i).
Proof.
  intros Hn. cbn [argumentValue_loop]. change ("-" +:+ "config" +:+ "=")%string with "-config="%string.
  change ("-" +:+ "config")%string with "-config"%string.
  destruct (HasPrefix a "-config=") eqn:E; [by destruct Hn; right|].
  by rewrite bool_decide_eq_false_2 by (intros ->; destruct Hn; by left).
Qed.
Lemma loop_skip osArgs pre rest i : Forall (fun a => ~ names_config a) pre ->
  argumentValue_loop "config" osArgs (pre ++ rest) i = argumentValue_loop "config" osArgs rest (length pre + i).
Proof.
  intros Hp. revert i. induction Hp as [|a pre Ha Hp IH]; intros i; [done|].
  cbn [app]. rewrite loop_pass by done. rewrite IH. f_equal. cbn. lia.
Qed.

Lemma argumentValue_cons args0 args :
  argumentValue "config" (args0 :: args) = argumentValue_loop "config" (args0 :: args) args 0.
Proof. reflexivity. Qed.
Lemma loop_here args0 args rest i p : args !! S i = Some p ->
  argumentValue_loop "config" (args0 :: args) ("-config" :: rest)%string i = Ret p.
Proof.
  intros Hp. pose proof (lookup_lt_Some _ _ _ Hp) as Hlt. cbn [argumentValue_loop].
  change (HasPrefix "-config" ("-" +:+ "config" +:+ "=")) with false. change (drop 1 (args0 :: args)) with args.
  rewrite bool_decide_eq_true_2, (proj2 (Nat.leb_le _ _)) by (done || lia). cbn [andb].
  rewrite Nat.add_comm. cbn [Nat.add]. change ((args0 :: args) !! S (S i)) with (args !! S i). by rewrite Hp.
Qed.
Lemma argumentValue_split args0 pre p post : Forall (fun a => ~ names_config a) pre ->
  argumentValue "config" (args0 :: pre ++ "-config" :: p :: post)%string = Ret p.
Proof.
  intros Hp. rewrite argumentValue_cons, loop_skip, Nat.add_0_r by done. apply loop_here.
  rewrite lookup_app_r by lia. by replace (S (length pre) - length pre)%nat with 1%nat by lia.
Qed.
Lemma argumentValue_equals args0 pre p post : Forall (fun a => ~ names_config a) pre ->
  argumentValue "config" (args0 :: pre ++ ("-config=" +:+ p)%string :: post) = Ret p.
Proof.
  intros Hp. rewrite argumentValue_cons, loop_skip by done. cbn [argumentValue_loop].
  change ("-" +:+ "config" +:+ "=")%string with "-config="%string. unfold TrimPrefix, HasPrefix. rewrite app_prefix.
  f_equal. apply substring_after_prefix.
Qed.
Lemma argumentValue_none args0 args : Forall (fun a => ~ names_config a) args ->
  argumentValue "config" (args0 :: args) = Ret ""%string.
Proof.
  intros Hp. pose proof (loop_skip (args0 :: args) args [] 0 Hp) as Hl. by rewrite app_nil_r in Hl.
Qed.
End Meaning.

(** Which file is read: the one that follows the first argument -config, or that is
    written behind the first -config=, wherever it stands on the command line. With no
    such argument no file is read, although package flag also takes --config: the
    configuration then has the file's name and nothing of what the file says. *)
Theorem config_file_read (unicode_lower Getenv : string -> string) (ParseDuration : string -> option duration)
    (args0 p : string) (pre post args : list string) :
  Forall (fun a => ~ names_config a) pre -> Forall (fun a => ~ names_config a) args ->
  argumentValue "config" (args0 :: pre ++ "-config" :: p :: post)%string = Ret p /\
  argumentValue "config" (args0 :: pre ++ ("-config=" +:+ p)%string :: post) = Ret p /\
  (forall ReadFile Unmarshal ReadFile' Unmarshal',
     ParseArguments unicode_lower Getenv ReadFile Unmarshal ParseDuration (args0 :: args) =
     ParseArguments unicode_lower Getenv ReadFile' Unmarshal' ParseDuration (args0 :: args)) /\
  (~ names_config p -> forall ReadFile Unmarshal, exists cfg,
     ParseArguments unicode_lower Getenv ReadFile Unmarshal ParseDuration [args0; "--config"; p]%string = Ret cfg /\
     ConfigFile cfg = p /\ BootstrapIPv4 cfg = []).
Proof.
  intros Hpre Hargs. split; [by apply argumentValue_split|]. split; [by apply argumentValue_equals|]. split.
  - intros RF U RF' U'. by rewrite !(ParseArguments_unfold _ _ _ _ _ args0 args "" (argumentValue_none args0 args Hargs)).
  - intros Hnp RF U.
    rewrite (ParseArguments_unfold _ _ _ _ _ args0 _ "") by (apply argumentValue_none; repeat constructor; [|done]; by intros [|]).
    set (role := default_role _ _).
    pose proof (declare_ok ParseDuration (flags Getenv role "") [] (file_config RF U "") (flags_names _ _ _)) as Hd.
    cbn [fmap list_fmap app] in Hd. rewrite Hd, bind_Ret. clear Hd. cbn [formal target].
    destruct (with_defaults_spec (flags Getenv role "") (file_config RF U "") (flags_lens _ _ _) (flags_slots _ _ _)) as (_ & _ & Hb).
    set (c := with_defaults _ _) in *. set (fl := StringVar ConfigFile "config" (fun _ => ""%string)).
    assert (fl ∈ flags Getenv role "") as Hfl by (unfold flags; do 31 right; left).
    exists (normalised unicode_lower (store fl (FString p) c)). split; [|split; [by rewrite normalised_ConfigFile|]].
    + cbn [Parse]. change (scan "--config") with (Named "config" None). cbn match.
      change "config"%string with (name_of fl). rewrite (lookup_flag_elem ParseDuration _ fl (flags_names _ _ _) Hfl). done.
    + rewrite normalised_bootstrap, bootstrap_store, Hb; [done|by apply (flags_lens role "" Getenv)|done].
Qed.

(** *** The schedule in the file *)

Definition switch (on : bool) (f : fileConfig) : fileConfig :=
  mkFileConfig (Network_Mode f) (Listen_IPv4 f) (Listen_IPv6 f) (Bootstrap_IPv4 f) (RoutingCache_IPv4 f)
    (RoutingCache_IPv6 f) on (Schedule_Start f) (Schedule_End f).

(** No default looks at the switch. *)
Lemma default_of_switch Getenv role path fl on c : fl ∈ flags Getenv role path ->
  default_of fl (c <| CrawlerScheduleEnabled := on |>) = default_of fl c.
Proof.
  revert fl. assert (Forall (fun fl => default_of fl (c <| CrawlerScheduleEnabled := on |>) = default_of fl c) (flags Getenv role path)) as Hf.
  { unfold flags. repeat (apply Forall_cons; split; [reflexivity|]). by constructor. }
  by rewrite Forall_forall in Hf.
Qed.
Lemma with_defaults_switch Getenv role path on c :
  with_defaults (flags Getenv role path) (c <| CrawlerScheduleEnabled := on |>) = with_defaults (flags Getenv role path) c.
Proof.
  destruct (with_defaults_spec (flags Getenv role path) (c <| CrawlerScheduleEnabled := on |>) (flags_lens _ _ _) (flags_slots _ _ _)) as (H1 & _ & B1).
  destruct (with_defaults_spec (flags Getenv role path) c (flags_lens _ _ _) (flags_slots _ _ _)) as (H2 & _ & B2).
  apply (fields_covered Getenv role path); [|by rewrite B1, B2].
  intros fl Hf. rewrite H1, H2 by done. by apply default_of_switch with Getenv role path.
Qed.
Lemma load_switch on f : load (switch on f) zero = (load f zero) <| CrawlerScheduleEnabled := on |>.
Proof. reflexivity. Qed.

Section Schedule.
  Context (unicode_lower Getenv : string -> string) (ReadFile : string -> option string)
    (Unmarshal : string -> option fileConfig) (ParseDuration : string -> option duration).
  Abbreviation run := (ParseArguments unicode_lower Getenv ReadFile Unmarshal ParseDuration).

Lemma file_config_switch on path :
  file_config ReadFile (fun data => switch on <$> Unmarshal data) path = file_config ReadFile Unmarshal path \/
  file_config ReadFile (fun data => switch on <$> Unmarshal data) path =
    (file_config ReadFile Unmarshal path) <| CrawlerScheduleEnabled := on |>.
Proof.
  unfold file_config. destruct (decide (path <> ""%string)); [|by left]. destruct (ReadFile path) as [data|]; [|by left].
  destruct (Unmarshal data) as [f|]; [right; apply load_switch|by left].
Qed.

(** A flag that the command line does not set has its default, over what the file says. *)
Lemma flag_not_given args0 args path toks cfg :
  argumentValue "config" (args0 :: args) = Ret path ->
  tokens (flag_of ParseDuration <$> flags Getenv (default_role unicode_lower args0) path) args = Some toks ->
  run (args0 :: args) = Ret cfg ->
  exists config, cfg = normalised unicode_lower config /\
    forall fl, fl ∈ flags Getenv (default_role unicode_lower args0) path -> last_value (name_of fl) toks = None ->
      get fl config = default_of fl (file_config ReadFile Unmarshal path).
Proof.
  intros Hp Ht Hr. rewrite (ParseArguments_unfold _ _ _ _ _ args0 args path Hp) in Hr.
  destruct (parse_flags_spec unicode_lower ParseDuration (flags Getenv (default_role unicode_lower args0) path)
    (file_config ReadFile Unmarshal path) args
    (flags_lens _ _ _) (flags_slots _ _ _) (flags_names _ _ _) (fields_covered _ _ _)) as [Hspec _].
  apply Hspec in Hr as (toks' & config & Ht' & _ & Hg & _ & ->). rewrite Ht in Ht'. injection Ht' as <-.
  exists config. split; [done|]. intros fl Hf Hn. specialize (Hg fl Hf). unfold given in Hg. rewrite Hn in Hg. congruence.
Qed.
Lemma switches_not_given args0 args path toks cfg :
  argumentValue "config" (args0 :: args) = Ret path ->
  tokens (flag_of ParseDuration <$> flags Getenv (default_role unicode_lower args0) path) args = Some toks ->
  run (args0 :: args) = Ret cfg ->
  (last_value "CrawlerScheduleEnabled" toks = None -> CrawlerScheduleEnabled cfg = false) /\
  (last_value "CrawlerStartOnLaunch" toks = None -> CrawlerStartOnLaunch cfg = false).
Proof.
  intros Hp Ht Hr. destruct (flag_not_given _ _ _ _ _ Hp Ht Hr) as (config & -> & Hd). split; intros Hn.
  - specialize (Hd (BoolVar CrawlerScheduleEnabled "CrawlerScheduleEnabled" (fun _ => false)) ltac:(unfold flags; do 27 right; left) Hn).
    injection Hd as Hd. exact Hd.
  - specialize (Hd (BoolVar CrawlerStartOnLaunch "CrawlerStartOnLaunch" (fun _ => false)) ltac:(unfold flags; do 26 right; left) Hn).
    injection Hd as Hd. exact Hd.
Qed.

(** The switch of the schedule in the file is dead: whatever the file says under
    crawler.schedule.enabled, ParseArguments gives the same configuration, in which the
    schedule is off unless the command line turns it on; the beginning of the window,
    in contrast, is the file's. *)
Theorem file_schedule_is_dead (args0 : string) (args : list string) (on : bool) :
  ParseArguments unicode_lower Getenv ReadFile (fun data => switch on <$> Unmarshal data) ParseDuration (args0 :: args) =
    run (args0 :: args) /\
  (forall path toks cfg, argumentValue "config" (args0 :: args) = Ret path ->
     tokens (flag_of ParseDuration <$> flags Getenv (default_role unicode_lower args0) path) args = Some toks ->
     run (args0 :: args) = Ret cfg ->
     (last_value "CrawlerScheduleEnabled" toks = None -> CrawlerScheduleEnabled cfg = false) /\
     (last_value "CrawlerScheduleStart" toks = None ->
        CrawlerScheduleStart cfg = defaultString (CrawlerScheduleStart (file_config ReadFile Unmarshal path)) "22:00")).
Proof.
  split.
  - destruct (argumentValue_loop_ret "config" (args0 :: args) args 0) as [path Hp]. rewrite <- argumentValue_cons in Hp.
    rewrite !(ParseArguments_unfold _ _ _ _ _ args0 args path Hp).
    pose proof (fun c => declare_ok ParseDuration (flags Getenv (default_role unicode_lower args0) path) [] c (flags_names _ _ _)) as Hd.
    cbn [fmap list_fmap app] in Hd. rewrite !Hd.
    destruct (file_config_switch on path) as [-> | ->]; [done|by rewrite with_defaults_switch].
  - intros path toks cfg Hp Ht Hr. split; [apply (switches_not_given _ _ _ _ _ Hp Ht Hr)|].
    destruct (flag_not_given _ _ _ _ _ Hp Ht Hr) as (config & -> & Hd). intros Hn.
    specialize (Hd (StringVar CrawlerScheduleStart "CrawlerScheduleStart" (fun config => defaultString (CrawlerScheduleStart config) "22:00"))
      ltac:(unfold flags; do 28 right; left) Hn). injection Hd as Hd. exact Hd.
Qed.
End Schedule.

(** ** Witnesses *)

Module ConfigDemo.
#[local] Open Scope string_scope.
(** A file like the one in the README. *)
Definition yaml (data : string) : option fileConfig :=
  Some (mkFileConfig "dual" "0.0.0.0:6881" "[::]:6881" ["router.bittorrent.com:6881"] "v4.json" "v6.json" true "23:00" "07:00").
Abbreviation node := (ParseArguments id (fun _ => "") (fun _ => Some "") yaml (fun _ => None)).
(** The configuration of a node that is started without arguments. *)
Definition defaults : Configuration :=
  Eval vm_compute in match node ["dhtc"] with Ret c => c | _ => zero end.

Theorem file_schedule_is_dead_witness : exists cfg,
  node ["dhtc"; "-config"; "dhtc.yml"] = Ret cfg /\ CrawlerScheduleEnabled cfg = false /\ CrawlerScheduleStart cfg = "23:00".
Proof.
  assert (exists cfg, node ["dhtc"; "-config"; "dhtc.yml"] = Ret cfg) as [cfg E] by (eexists; vm_compute; reflexivity).
  exists cfg. split; [done|].
  destruct (file_schedule_is_dead id (fun _ => "") (fun _ => Some "") yaml (fun _ => None) "dhtc" ["-config"; "dhtc.yml"] true) as [_ H].
  destruct (H "dhtc.yml" [("config", "dhtc.yml")] cfg) as [H1 H2]; [reflexivity|vm_compute; reflexivity|exact E|].
  split; [by apply H1|]. rewrite (H2 eq_refl). reflexivity.
Defined.

Theorem config_file_read_witness : exists cfg, node ["dhtc"; "--config"; "dhtc.yml"] = Ret cfg /\
  ConfigFile cfg = "dhtc.yml" /\ BootstrapIPv4 cfg = [].
Proof.
  destruct (config_file_read id (fun _ => "") (fun _ => None) "dhtc" "dhtc.yml" [] [] []) as (_ & _ & _ & H);
    [by constructor|by constructor|]. apply H. by intros [|].
Defined.
End ConfigDemo.
