(* ===== verification/NetAddr.v ===== *)
(** * IP addresses

    The part of Go's [net/netip] that the DHT client computes with: an address
    is invalid (the zero Addr), IPv4 or IPv6 with a zone; a pair with a port is
    an [AddrPort]. [AsSlice] and [AddrFromSlice] are the byte forms that the
    compact encodings of the protocol are built from. *)

From S2P Require Import Prelude.

Inductive Addr : Type :=
  | AddrZero
  | Addr4 (v : Z)
  | Addr6 (v : Z) (zone : string).

Record AddrPort : Type := AddrPortFrom { ap_addr : Addr; ap_port : Z }.

#[export] Instance Addr_eq_dec : EqDecision Addr.
Proof. solve_decision. Defined.
#[export] Instance AddrPort_eq_dec : EqDecision AddrPort.
Proof. solve_decision. Defined.

Definition addr_to_sum (a : Addr) : unit + (Z + Z * string) :=
  match a with
  | AddrZero => inl ()
  | Addr4 v => inr (inl v)
  | Addr6 v z => inr (inr (v, z))
  end.
Definition addr_of_sum (s : unit + (Z + Z * string)) : Addr :=
  match s with
  | inl _ => AddrZero
  | inr (inl v) => Addr4 v
  | inr (inr (v, z)) => Addr6 v z
  end.
#[export] Program Instance Addr_countable : Countable Addr :=
  inj_countable' addr_to_sum addr_of_sum _.
Next Obligation. by intros []. Qed.
#[export] Program Instance AddrPort_countable : Countable AddrPort :=
  inj_countable' (fun p => (ap_addr p, ap_port p)) (fun q => AddrPortFrom q.1 q.2) _.
Next Obligation. by intros []. Qed.

Definition AddrFromSlice (l : list byte) : option Addr :=
  if decide (length l = 4%nat) then Some (Addr4 (be_decode l))
  else if decide (length l = 16%nat) then Some (Addr6 (be_decode l) "")
  else None.

Definition AsSlice (a : Addr) : list byte :=
  match a with
  | AddrZero => []
  | Addr4 v => be_encode 4 v
  | Addr6 v _ => be_encode 16 v
  end.

(** ::ffff:a.b.c.d becomes a.b.c.d; every other address is unchanged. *)
Definition Unmap (a : Addr) : Addr :=
  match a with
  | Addr6 v _ => if v / 2 ^ 32 =? 0xffff then Addr4 (v mod 2 ^ 32) else a
  | _ => a
  end.

Definition Is4 (a : Addr) : bool := match a with Addr4 _ => true | _ => false end.
Definition Is6 (a : Addr) : bool := match a with Addr6 _ _ => true | _ => false end.
Definition addr_IsValid (a : Addr) : bool := match a with AddrZero => false | _ => true end.
Definition IsValid (p : AddrPort) : bool := addr_IsValid (ap_addr p).

(** The values a netip.Addr can hold. *)
Definition addr_wf (a : Addr) : Prop :=
  match a with
  | AddrZero => True
  | Addr4 v => 0 <= v < 2 ^ 32
  | Addr6 v _ => 0 <= v < 2 ^ 128
  end.
Definition ap_wf (p : AddrPort) : Prop := addr_wf (ap_addr p) /\ 0 <= ap_port p < 65536.

(** An address that the compact encodings carry without loss: valid, no zone,
    and not an IPv4 address written as IPv6. *)
Definition compact_addr (a : Addr) : Prop :=
  addr_wf a /\ addr_IsValid a /\ Unmap a = a /\
  match a with Addr6 _ z => z = ""%string | _ => True end.
Definition compact_ap (p : AddrPort) : Prop :=
  compact_addr (ap_addr p) /\ 0 <= ap_port p < 65536.

Lemma AsSlice_length a :
  length (AsSlice a) = if Is4 a then 4%nat else if Is6 a then 16%nat else 0%nat.
Proof. destruct a; [done| |]; apply be_encode_length. Qed.

Lemma AddrFromSlice_AsSlice a :
  compact_addr a -> AddrFromSlice (AsSlice a) = Some a.
Proof.
  intros (Hwf & Hv & _ & Hz). unfold AddrFromSlice. rewrite AsSlice_length.
  destruct a as [|v|v z]; cbn [AsSlice Is4 Is6 addr_wf] in *; [done| |subst z].
  - rewrite decide_True, be_decode_encode_small by (done || simpl; lia). done.
  - rewrite decide_False, decide_True, be_decode_encode_small by (done || simpl; lia). done.
Qed.

Lemma AddrFromSlice_Some l :
  is_Some (AddrFromSlice l) <-> length l = 4%nat \/ length l = 16%nat.
Proof.
  unfold AddrFromSlice. unfold is_Some.
  destruct (decide (length l = 4%nat)), (decide (length l = 16%nat));
    (split; intros HH; [tauto || (by destruct HH)|eauto || tauto]).
Qed.

Lemma AddrFromSlice_wf l a : AddrFromSlice l = Some a -> addr_wf a /\ addr_IsValid a.
Proof.
  unfold AddrFromSlice. pose proof (be_decode_range l) as Hr.
  destruct (decide (length l = 4%nat)) as [Hl|].
  { intros [= <-]. rewrite Hl in Hr. split; [simpl in *; lia|done]. }
  destruct (decide (length l = 16%nat)) as [Hl|]; [|done].
  intros [= <-]. rewrite Hl in Hr. split; [simpl in *; lia|done].
Qed.

Lemma Unmap_wf a : addr_wf a -> addr_wf (Unmap a).
Proof.
  destruct a as [| |v z]; simpl; try done. intros H. case_match; [|done].
  simpl. apply Z.mod_pos_bound. lia.
Qed.

Lemma Unmap_idemp a : Unmap (Unmap a) = Unmap a.
Proof. destruct a as [| |v z]; simpl; try done. case_match eqn:E; [done|]. simpl. by rewrite E. Qed.

Lemma AddrFromSlice_Unmap_compact l a :
  AddrFromSlice l = Some a -> compact_addr (Unmap a).
Proof.
  intros H. destruct (AddrFromSlice_wf _ _ H) as [Hw Hv].
  split; [by apply Unmap_wf|]. split; [|split; [apply Unmap_idemp|]].
  - destruct a as [| |v z]; simpl in *; try done. by case_match.
  - unfold AddrFromSlice in H.
    destruct (decide (length l = 4%nat)); [by simplify_eq|].
    destruct (decide (length l = 16%nat)); [|done]. simplify_eq. unfold Unmap.
    by destruct (_ =? _).
Qed.
