(* ===== verification/Bencode.v ===== *)
(** * Interface to the bencode library

    The KRPC codec and the metadata client call [bencode.Marshal] and
    [bencode.Unmarshal] of a third-party package. The development never looks
    inside: what it relies on is this class, one operation per Go type that the
    program passes, and the documented behaviour that decoding what was encoded
    gives the value back and that a string is not a list.

    [simple_bencode] is a small concrete instance: the wire format for strings
    and lists of strings (with the length written in unary instead of decimal),
    so that every theorem proved against the class has an instance. *)

From S2P Require Import Prelude.

(** The Go values that decoding into an [any] gives, as far as the program
    distinguishes them. *)
Inductive any : Type :=
  | AInt64 (z : Z)
  | AString (s : list byte)
  | ABytes (b : list byte)
  | AList (l : list any)
  | AOther.

Class Bencode : Type := {
  Marshal_bytes : list byte -> list byte;
  Marshal_list : list (list byte) -> list byte;
  Marshal_code_message : Z -> list byte -> list byte;
  Unmarshal_bytes : list byte -> option (list byte);
  Unmarshal_list : list byte -> option (list (list byte));
  Unmarshal_any : list byte -> option any
}.

Class BencodeLaws `(Bencode) : Prop := {
  bytes_roundtrip b : Unmarshal_bytes (Marshal_bytes b) = Some b;
  list_roundtrip l : Unmarshal_list (Marshal_list l) = Some l;
  bytes_not_list b : Unmarshal_list (Marshal_bytes b) = None;
  empty_string : Unmarshal_bytes (bytes_of "0:") = Some [];
  code_message_roundtrip c m :
    - 2 ^ 63 <= c < 2 ^ 63 ->
    Unmarshal_any (Marshal_code_message c m) = Some (AList [AInt64 c; AString m])
}.

(** ** A concrete instance *)

Definition tick : byte := x31.

(** [1...1:payload] with as many ticks as the payload has bytes; [0:] is the
    empty string. *)
Definition enc_str (b : list byte) : list byte :=
  match b with
  | [] => [x30; x3a]
  | _ => replicate (length b) tick ++ x3a :: b
  end.

Fixpoint dec_ticks (n : nat) (l : list byte) : option (nat * list byte) :=
  match l with
  | x :: l' => if decide (x = tick) then dec_ticks (S n) l'
               else if decide (x = x3a) then Some (n, l') else None
  | [] => None
  end.

(** One string from the front, and what follows it. *)
Definition dec_str (l : list byte) : option (list byte * list byte) :=
  if decide (take 2 l = [x30; x3a]) then Some ([], drop 2 l)
  else '(n, r) ← dec_ticks 0 l;
       if decide (n <= length r)%nat then Some (take n r, drop n r) else None.

Fixpoint dec_strs (fuel : nat) (l : list byte) : option (list (list byte)) :=
  match fuel with
  | S fuel' =>
      if decide (l = [x65]) then Some []
      else '(s, r) ← dec_str l; ss ← dec_strs fuel' r; Some (s :: ss)
  | O => None
  end.

(** What follows the letter that opens a list. *)
Definition opened (l : list byte) : option (list byte) :=
  match l with x :: r => if decide (x = x6c) then Some r else None | [] => None end.

Definition enc_list (l : list (list byte)) : list byte :=
  x6c :: concat (enc_str <$> l) ++ [x65].

Lemma dec_ticks_replicate n m l :
  dec_ticks m (replicate n tick ++ x3a :: l) = Some ((m + n)%nat, l).
Proof.
  revert m; induction n as [|n IH]; intros m; cbn [dec_ticks replicate app].
  - by rewrite Nat.add_0_r.
  - rewrite decide_True by done. by rewrite IH, Nat.add_succ_comm.
Qed.

Lemma dec_enc_str b l : dec_str (enc_str b ++ l) = Some (b, l).
Proof.
  destruct b as [|x b]; [done|].
  unfold enc_str. rewrite <- app_assoc. cbn [app].
  unfold dec_str. rewrite decide_False by (intros E; apply (f_equal head) in E; discriminate E).
  change (x3a :: (x :: b) ++ l) with (x3a :: x :: b ++ l). rewrite dec_ticks_replicate. cbn [mbind option_bind Nat.add].
  change (x :: b ++ l) with ((x :: b) ++ l).
  rewrite decide_True by (rewrite length_app; lia).
  by rewrite take_app_length, drop_app_length.
Qed.

Lemma enc_str_not_end b l : exists x r, enc_str b ++ l = x :: r /\ x <> x65.
Proof. destruct b as [|x b]; eexists _, _; split; done. Qed.

Lemma dec_enc_strs fuel l :
  (length l < fuel)%nat -> dec_strs fuel (concat (enc_str <$> l) ++ [x65]) = Some l.
Proof.
  revert fuel; induction l as [|s l IH]; intros [|fuel] Hf; csimpl in *; try lia; [done|].
  rewrite <- app_assoc. set (rest := concat (enc_str <$> l) ++ [x65]).
  transitivity ('(s', r) ← dec_str (enc_str s ++ rest); ss ← dec_strs fuel r; Some (s' :: ss)).
  - cbn [dec_strs]. destruct (enc_str_not_end s rest) as (x & r & -> & Hx).
    rewrite decide_False by congruence. done.
  - rewrite dec_enc_str. cbn [mbind option_bind]. by rewrite IH by lia.
Qed.

Lemma opened_letter r : opened (x6c :: r) = Some r.
Proof. reflexivity. Qed.

#[export] Instance simple_bencode : Bencode := {
  Marshal_bytes := enc_str;
  Marshal_list := enc_list;
  Marshal_code_message c m := enc_list [be_encode 8 (u64 c); m];
  Unmarshal_bytes l := '(b, r) ← dec_str l; if decide (r = []) then Some b else None;
  Unmarshal_list l := r ← opened l; dec_strs (S (length r)) r;
  Unmarshal_any l :=
    r ← opened l;
    match dec_strs (S (length r)) r with
    | Some [c; m] => Some (AList [AInt64 (i64 (be_decode c)); AString m])
    | _ => None
    end
}.

Lemma enc_strs_length l : (length l <= length (concat (enc_str <$> l) ++ [x65]))%nat.
Proof.
  induction l as [|s l IH]; csimpl; [lia|]. rewrite <- app_assoc, length_app.
  enough (1 <= length (enc_str s))%nat by lia. destruct s; simpl; lia.
Qed.

#[export] Instance simple_bencode_laws : BencodeLaws simple_bencode.
Proof.
  split; cbn [Marshal_bytes Marshal_list Marshal_code_message Unmarshal_bytes Unmarshal_list
              Unmarshal_any simple_bencode].
  - intros b. rewrite <- (app_nil_r (enc_str b)), dec_enc_str. done.
  - intros l. unfold enc_list. rewrite opened_letter. cbn [mbind option_bind].
    apply dec_enc_strs. pose proof (enc_strs_length l). lia.
  - by intros [|x b].
  - done.
  - intros c m Hc. unfold enc_list. rewrite opened_letter. cbn [mbind option_bind]. rewrite dec_enc_strs.
    + do 4 f_equal. rewrite be_decode_encode_small.
      * unfold i64, u64. rewrite Zplus_mod_idemp_l, Z.mod_small; lia.
      * unfold u64. apply Z.mod_pos_bound. lia.
    + pose proof (enc_strs_length [be_encode 8 (u64 c); m]). lia.
Qed.
