(* ===== verification/Codec.v ===== *)
(** * The KRPC wire data (dhtc-client/codec.go, dhtc-client/util.go)

    Message types and the compact encodings of peers and nodes. A Go slice of
    bytes is a byte list, an [error] result the [Err] of [go]; where the code
    hands bytes to the bencode package the definitions take it as a class
    argument. The two Bloom filter fields of BEP 33 ([BFsd], [BFpe]) hold values
    of a third-party type that the program never reads: they are left out. *)

From S2P Require Import Prelude NetAddr Bencode.

(** ** Messages *)

Record CompactNodeInfo : Type := mkNodeInfo { ci_ID : list byte; ci_Addr : AddrPort }.
#[export] Instance CompactNodeInfo_eq_dec : EqDecision CompactNodeInfo.
Proof. solve_decision. Defined.

Record Error : Type := mkError { e_Code : Z; e_Message : list byte }.

Record QueryArguments : Type := mkArgs {
  a_ID : list byte;
  a_InfoHash : list byte;
  a_Target : list byte;
  a_Token : list byte;
  a_Port : Z;
  a_ImpliedPort : Z;
  a_Seed : Z;
  a_NoSeed : Z;
  a_Scrape : Z;
  a_Want : list string
}.

Record ResponseValues : Type := mkResp {
  r_ID : list byte;
  r_Nodes : list CompactNodeInfo;
  r_Nodes6 : list CompactNodeInfo;
  r_Token : list byte;
  r_Values : list AddrPort;
  r_Interval : Z;
  r_Num : Z;
  r_Samples : list byte;
  r_Samples2 : list (list byte)
}.

Record Message : Type := mkMessage {
  m_Q : string;
  m_A : QueryArguments;
  m_T : list byte;
  m_Y : string;
  m_R : ResponseValues;
  m_E : Error
}.

(** The zero values of the two argument dictionaries. *)
Definition noArgs : QueryArguments := mkArgs [] [] [] [] 0 0 0 0 0 [].
Definition noResp : ResponseValues := mkResp [] [] [] [] [] 0 0 [] [].
Definition noError : Error := mkError 0 [].

(** ** Errors of the decoders *)

Inductive codec_error : Type :=
  | BadCompactPeer
  | InvalidPeerAddress
  | BadPeersLength
  | BadNodeLength
  | InvalidNodeAddress
  | BadNodesLength
  | BencodeError
  | BadErrorValue.

(** ** Peers *)

Definition BigEndian_Uint16 (b : list byte) : Z := be_decode (take 2 b).

(** [CompactPeer.MarshalBinary]; a peer is its [Addr] field. *)
Definition CompactPeer_MarshalBinary (cp : AddrPort) : list byte :=
  if negb (IsValid cp) then []
  else AsSlice (ap_addr cp) ++ be_encode 2 (ap_port cp).

Definition CompactPeer_UnmarshalBinary (b : list byte) : go codec_error AddrPort :=
  let decode (n : nat) :=
    match AddrFromSlice (take n b) with
    | None => Err InvalidPeerAddress
    | Some ip => Ret (AddrPortFrom (Unmap ip) (BigEndian_Uint16 (drop (length b - 2) b)))
    end in
  if (length b =? 18)%nat then decode 16%nat
  else if (length b =? 6)%nat then decode 4%nat
  else Err BadCompactPeer.

Definition UnmarshalCompactPeers (b : list byte) : go codec_error (list AddrPort) :=
  if (length b =? 0)%nat then Ret []
  else if (length b mod 6 =? 0)%nat
  then go_seq (CompactPeer_UnmarshalBinary <$> chunks 6 b)
  else if (length b mod 18 =? 0)%nat
  then go_seq (CompactPeer_UnmarshalBinary <$> chunks 18 b)
  else Err BadPeersLength.

Definition CompactPeers_MarshalBencode `{Bencode} (cps : list AddrPort) : list byte :=
  Marshal_list (CompactPeer_MarshalBinary <$> cps).

Definition CompactPeers_UnmarshalBencode `{Bencode} (b : list byte) : go codec_error (list AddrPort) :=
  match Unmarshal_list b with
  | Some list => go_seq (CompactPeer_UnmarshalBinary <$> list)
  | None =>
      match Unmarshal_bytes b with
      | None => Err BencodeError
      | Some bb => UnmarshalCompactPeers bb
      end
  end.

(** ** Nodes *)

(** [CompactNodeInfo.MarshalBinary] *)
Definition CompactNodeInfo_MarshalBinary (cni : CompactNodeInfo) : list byte :=
  let ret := go_copy (replicate 20 x00) (ci_ID cni) in
  if negb (IsValid (ci_Addr cni)) then []
  else ret ++ AsSlice (ap_addr (ci_Addr cni)) ++ be_encode 2 (ap_port (ci_Addr cni)).

Definition CompactNodeInfo_UnmarshalBinary (b : list byte) : go codec_error CompactNodeInfo :=
  if negb (length b =? 26)%nat && negb (length b =? 38)%nat then Err BadNodeLength
  else
    let id := take 20 b in
    let b := drop 20 b in
    let ipLen := if (length b =? 6)%nat then 4%nat else 16%nat in
    match AddrFromSlice (take ipLen b) with
    | None => Err InvalidNodeAddress
    | Some ip => Ret (mkNodeInfo id (AddrPortFrom (Unmap ip) (BigEndian_Uint16 (drop ipLen b))))
    end.

Definition UnmarshalCompactNodeInfos (b : list byte) : go codec_error (list CompactNodeInfo) :=
  if (length b =? 0)%nat then Ret []
  else if (length b mod 26 =? 0)%nat
  then go_seq (CompactNodeInfo_UnmarshalBinary <$> chunks 26 b)
  else if (length b mod 38 =? 0)%nat
  then go_seq (CompactNodeInfo_UnmarshalBinary <$> chunks 38 b)
  else Err BadNodesLength.

Definition CompactNodeInfos_UnmarshalBencode `{Bencode} (b : list byte)
    : go codec_error (list CompactNodeInfo) :=
  match Unmarshal_bytes b with
  | None => Err BencodeError
  | Some bb => UnmarshalCompactNodeInfos bb
  end.

Definition unmarshalCompactNodeInfosBencode `{Bencode} (b : list byte) (nodeSize : nat)
    : go codec_error (list CompactNodeInfo) :=
  match Unmarshal_bytes b with
  | None => Err BencodeError
  | Some raw =>
      if negb (length raw mod nodeSize =? 0)%nat then Err BadNodesLength
      else go_seq (CompactNodeInfo_UnmarshalBinary <$> chunks nodeSize raw)
  end.

Definition CompactNodeInfos4_UnmarshalBencode `{Bencode} (b : list byte) :=
  unmarshalCompactNodeInfosBencode b 26.
Definition CompactNodeInfos6_UnmarshalBencode `{Bencode} (b : list byte) :=
  unmarshalCompactNodeInfosBencode b 38.

Definition CompactNodeInfos_MarshalBencode `{Bencode} (cnis : list CompactNodeInfo) : list byte :=
  match cnis with
  | [] => bytes_of "0:"
  | _ => Marshal_bytes (concat (CompactNodeInfo_MarshalBinary <$> cnis))
  end.

(** ** KRPC errors *)

Definition Error_MarshalBencode `{Bencode} (e : Error) : list byte :=
  Marshal_code_message (e_Code e) (e_Message e).

Definition Error_UnmarshalBencode `{Bencode} (b : list byte) : go codec_error Error :=
  match Unmarshal_any b with
  | None => Err BencodeError
  | Some (AList (c :: m :: _)) =>
      match c with
      | AInt64 code =>
          match m with
          | ABytes v => Ret (mkError code v)
          | AString v => Ret (mkError code v)
          | _ => Err BadErrorValue
          end
      | _ => Err BadErrorValue
      end
  | Some _ => Err BadErrorValue
  end.

(** ** Peer exchange and peer ids (util.go) *)

(** [randomDigit], with the value [r] that [rand.Intn(high - low)] returned. *)
Definition randomDigit (r : Z) : byte :=
  let high := b2z x39 in
  let low := b2z x30 in
  z2b (r mod (high - low) + low).

(** [randomID], with the twelve values drawn. *)
Definition randomID (draws : list Z) : list byte :=
  let prefix := bytes_of "-MC0008-" in
  prefix ++ (randomDigit <$> take (20 - length prefix) draws).

Definition parsePeer (ipLen : nat) (norm : Addr -> Addr) (c : list byte) : option AddrPort :=
  ip ← AddrFromSlice (take ipLen c);
  Some (AddrPortFrom (norm ip) (BigEndian_Uint16 (drop ipLen c))).

Definition parsePeers (s : list byte) : list AddrPort :=
  omap (parsePeer 4 Unmap) (chunks 6 s).

Definition parsePeers6 (s : list byte) : list AddrPort :=
  omap (parsePeer 16 id) (chunks 18 s).

(** ** Peers and nodes round trip *)

Lemma be16_roundtrip l p :
  0 <= p < 65536 -> BigEndian_Uint16 (drop (length l) (l ++ be_encode 2 p)) = p.
Proof.
  intros Hp. rewrite drop_app_length. unfold BigEndian_Uint16.
  rewrite (take_ge (be_encode 2 p)) by (by rewrite be_encode_length).
  apply be_decode_encode_small. simpl. lia.
Qed.

(** The length of an encoded valid address: 4 or 16 bytes. *)
Definition ip_len (a : Addr) : nat := if Is4 a then 4%nat else 16%nat.

Lemma AsSlice_ip_len a : addr_IsValid a -> length (AsSlice a) = ip_len a.
Proof. rewrite AsSlice_length. by destruct a. Qed.

Lemma CompactPeer_roundtrip cp :
  compact_ap cp ->
  length (CompactPeer_MarshalBinary cp) = (ip_len (ap_addr cp) + 2)%nat /\
  CompactPeer_UnmarshalBinary (CompactPeer_MarshalBinary cp) = Ret cp.
Proof.
  intros [Ha Hp]. destruct Ha as (Hw & Hv & Hu & Hz).
  unfold CompactPeer_MarshalBinary, IsValid. rewrite (Is_true_true_1 _ Hv). cbn [negb].
  pose proof (AsSlice_ip_len _ Hv) as Hl.
  assert (length (AsSlice (ap_addr cp) ++ be_encode 2 (ap_port cp)) = (ip_len (ap_addr cp) + 2)%nat) as Hlen
    by (by rewrite length_app, Hl, be_encode_length).
  split; [done|]. unfold CompactPeer_UnmarshalBinary. rewrite Hlen.
  assert (forall n, n = ip_len (ap_addr cp) ->
    match AddrFromSlice (take n (AsSlice (ap_addr cp) ++ be_encode 2 (ap_port cp))) with
    | None => Err InvalidPeerAddress
    | Some ip => Ret (AddrPortFrom (Unmap ip) (BigEndian_Uint16
        (drop (ip_len (ap_addr cp) + 2 - 2) (AsSlice (ap_addr cp) ++ be_encode 2 (ap_port cp)))))
    end = Ret cp) as Hd.
  { intros n ->. rewrite Nat.add_sub, <- Hl, take_app_length, be16_roundtrip by done.
    rewrite AddrFromSlice_AsSlice by done. rewrite Hu. by destruct cp. }
  unfold ip_len in *. destruct (Is4 (ap_addr cp)); cbn [Nat.add Nat.eqb] in *; by apply Hd.
Qed.

Lemma CompactNodeInfo_roundtrip cni :
  length (ci_ID cni) = 20%nat -> compact_ap (ci_Addr cni) ->
  length (CompactNodeInfo_MarshalBinary cni) = (22 + ip_len (ap_addr (ci_Addr cni)))%nat /\
  CompactNodeInfo_UnmarshalBinary (CompactNodeInfo_MarshalBinary cni) = Ret cni.
Proof.
  intros Hid [Ha Hp]. destruct Ha as (Hw & Hv & Hu & Hz).
  unfold CompactNodeInfo_MarshalBinary, IsValid. rewrite (Is_true_true_1 _ Hv). cbn [negb].
  rewrite go_copy_same by (by rewrite length_replicate).
  pose proof (AsSlice_ip_len _ Hv) as Hl. set (a := ap_addr (ci_Addr cni)) in *.
  set (tail := AsSlice a ++ be_encode 2 (ap_port (ci_Addr cni))).
  assert (length tail = (ip_len a + 2)%nat) as Ht by (unfold tail; by rewrite length_app, Hl, be_encode_length).
  assert (length (ci_ID cni ++ tail) = (22 + ip_len a)%nat) as Hlen by (rewrite length_app; lia).
  split; [done|]. unfold CompactNodeInfo_UnmarshalBinary. rewrite Hlen.
  rewrite (take_app_length' _ _ 20), (drop_app_length' _ _ 20), Ht by done.
  replace (negb _ && negb _) with false by (unfold ip_len; by destruct (Is4 a)).
  replace (if (ip_len a + 2 =? 6)%nat then 4%nat else 16%nat) with (ip_len a)
    by (unfold ip_len; by destruct (Is4 a)).
  unfold tail. rewrite <- Hl, take_app_length, be16_roundtrip, AddrFromSlice_AsSlice by done.
  rewrite Hu. unfold a. by destruct cni as [? []].
Qed.

Lemma go_seq_roundtrip {A} (enc : A -> list byte) (dec : list byte -> go codec_error A) n l :
  (0 < n)%nat -> Forall (fun x => length (enc x) = n /\ dec (enc x) = Ret x) l ->
  length (concat (enc <$> l)) = (n * length l)%nat /\
  go_seq (dec <$> chunks n (concat (enc <$> l))) = Ret l.
Proof.
  intros Hn Hf. rewrite chunks_concat; [|done|].
  2: { apply Forall_fmap. eapply Forall_impl; [exact Hf|]. by intros x []. }
  split.
  - induction Hf as [|x l [Hx _] _ IH]; csimpl; [lia|]. rewrite length_app. lia.
  - apply go_seq_ret. rewrite <- list_fmap_compose. apply list_fmap_ext. intros i x Hx.
    rewrite Forall_forall in Hf. apply Hf. by eapply list_elem_of_lookup_2.
Qed.

(** A node that the compact encoding of its family carries without loss. *)
Definition node_wf (sz : nat) (n : CompactNodeInfo) : Prop :=
  length (ci_ID n) = 20%nat /\ compact_ap (ci_Addr n) /\
  sz = (22 + ip_len (ap_addr (ci_Addr n)))%nat.

(** C23: a list of nodes of one address family survives the [nodes] (26 bytes
    per node) and [nodes6] (38 bytes per node) encodings of a KRPC message. *)
Theorem nodes_roundtrip `{BencodeLaws} (sz : nat) (l : list CompactNodeInfo) :
  sz = 26%nat \/ sz = 38%nat -> Forall (node_wf sz) l ->
  unmarshalCompactNodeInfosBencode (CompactNodeInfos_MarshalBencode l) sz = Ret l.
Proof.
  intros Hsz Hf.
  destruct (go_seq_roundtrip CompactNodeInfo_MarshalBinary CompactNodeInfo_UnmarshalBinary sz l)
    as [Hl Hs]; [lia| |].
  { eapply Forall_impl; [exact Hf|]. intros n (Hid & Ha & ->). by apply CompactNodeInfo_roundtrip. }
  unfold unmarshalCompactNodeInfosBencode, CompactNodeInfos_MarshalBencode.
  destruct l as [|n l].
  - rewrite empty_string. by destruct Hsz as [-> | ->].
  - rewrite bytes_roundtrip, Hl, Nat.mul_comm, Nat.Div0.mod_mul. exact Hs.
Qed.

(** a list of peers, of mixed address families, survives the [values]
    encoding of a get_peers response. *)
Theorem peers_roundtrip `{BencodeLaws} (l : list AddrPort) :
  Forall compact_ap l ->
  CompactPeers_UnmarshalBencode (CompactPeers_MarshalBencode l) = Ret l.
Proof.
  intros Hf. unfold CompactPeers_UnmarshalBencode, CompactPeers_MarshalBencode.
  rewrite list_roundtrip. apply go_seq_ret. rewrite <- list_fmap_compose.
  apply list_fmap_ext. intros i x Hx. rewrite Forall_forall in Hf.
  apply CompactPeer_roundtrip, Hf. by eapply list_elem_of_lookup_2.
Qed.

Lemma CompactPeer_UnmarshalBinary_6 b :
  length b = 6%nat ->
  exists cp, CompactPeer_UnmarshalBinary b = Ret cp /\ Is4 (ap_addr cp) /\ compact_ap cp.
Proof.
  intros Hb. unfold CompactPeer_UnmarshalBinary. rewrite Hb. cbn [Nat.eqb].
  assert (length (take 4 b) = 4%nat) as H4 by (rewrite length_take; lia).
  destruct (AddrFromSlice (take 4 b)) as [a|] eqn:Ha.
  2: { pose proof (proj2 (AddrFromSlice_Some (take 4 b)) (or_introl H4)) as [? ?]. congruence. }
  eexists. split; [done|]. cbn [ap_addr].
  assert (Is4 (Unmap a)).
  { unfold AddrFromSlice in Ha. rewrite decide_True in Ha by done. by injection Ha as <-. }
  split; [done|]. split; [by eapply AddrFromSlice_Unmap_compact|].
  cbn [ap_port]. unfold BigEndian_Uint16. change (6 - 2)%nat with 4%nat.
  rewrite take_ge by (rewrite length_drop; lia).
  pose proof (be_decode_range (drop 4 b)) as Hr.
  replace (length (drop 4 b)) with 2%nat in Hr by (rewrite length_drop; lia). exact Hr.
Qed.

Lemma go_seq_total {A B E} (f : A -> go E B) (P : B -> Prop) l :
  Forall (fun x => exists y, f x = Ret y /\ P y) l ->
  exists k, go_seq (f <$> l) = Ret k /\ length k = length l /\ Forall P k.
Proof.
  induction 1 as [|x l (y & Hy & Hp) _ (k & Hk & Hl & Hf)]; [by exists []|].
  exists (y :: k). csimpl. rewrite Hy. cbn [mbind go_bind]. rewrite Hk. cbn.
  split; [done|]. split; [congruence|by constructor].
Qed.

(** decoding a compact peer string succeeds exactly when its length is a
    multiple of 6, and then every peer is an IPv4 address: the 18-byte branch
    of the code, meant for IPv6 peers, is never taken, because a multiple of 18
    is a multiple of 6. *)
Theorem UnmarshalCompactPeers_only_ipv4 (b : list byte) :
  (length b mod 6 = 0)%nat ->
  (exists l, UnmarshalCompactPeers b = Ret l /\ length l = (length b / 6)%nat /\
     Forall (fun p => Is4 (ap_addr p) /\ compact_ap p) l) /\
  (forall b', (length b' mod 6 <> 0)%nat -> UnmarshalCompactPeers b' = Err BadPeersLength).
Proof.
  intros Hb. split.
  - unfold UnmarshalCompactPeers. destruct (Nat.eqb_spec (length b) 0) as [E|E].
    { exists []. rewrite E. split; [done|]. split; [done|constructor]. }
    rewrite Hb. cbn [Nat.eqb].
    destruct (go_seq_total CompactPeer_UnmarshalBinary
      (fun p => Is4 (ap_addr p) /\ compact_ap p) (chunks 6 b)) as (l & Hl & Hlen & Hf).
    + eapply Forall_impl; [apply chunks_each; lia|]. apply CompactPeer_UnmarshalBinary_6.
    + exists l. by rewrite Hl, Hlen, chunks_length.
  - intros b' Hb'. unfold UnmarshalCompactPeers.
    destruct (Nat.eqb_spec (length b') 0) as [E|_]; [by rewrite E in Hb'|].
    destruct (Nat.eqb_spec (length b' mod 6) 0); [done|].
    destruct (Nat.eqb_spec (length b' mod 18) 0) as [E|]; [|done].
    destruct Hb'. apply Nat.Div0.mod_divides in E as [c ->].
    replace (18 * c)%nat with (3 * c * 6)%nat by lia. apply Nat.Div0.mod_mul.
Qed.

Lemma CompactNodeInfo_UnmarshalBinary_ok b :
  length b = 26%nat \/ length b = 38%nat ->
  exists n, CompactNodeInfo_UnmarshalBinary b = Ret n /\
    (length (ci_ID n) = 20%nat /\ compact_addr (ap_addr (ci_Addr n))).
Proof.
  intros Hb. unfold CompactNodeInfo_UnmarshalBinary.
  replace (negb _ && negb _) with false by (by destruct Hb as [-> | ->]).
  rewrite length_drop. set (n := if (_ =? _)%nat then 4%nat else 16%nat).
  assert (length (take n (drop 20 b)) = n) as Hn.
  { unfold n. rewrite length_take, length_drop. by destruct Hb as [-> | ->]. }
  destruct (AddrFromSlice (take n (drop 20 b))) as [a|] eqn:Ha.
  - eexists. split; [done|]. cbn [ci_ID ci_Addr ap_addr]. split; [rewrite length_take; lia|].
    by eapply AddrFromSlice_Unmap_compact.
  - destruct (proj2 (AddrFromSlice_Some (take n (drop 20 b)))); [|congruence].
    rewrite Hn. unfold n. destruct Hb as [-> | ->]; auto.
Qed.

(** decoding a compact node string never panics: it fails exactly on a
    length that is a multiple of neither 26 nor 38, and otherwise gives one
    node with a 20-byte id and a normalised address per block, 26-byte blocks
    having precedence. *)
Theorem UnmarshalCompactNodeInfos_total (b : list byte) :
  let sz := if (length b mod 26 =? 0)%nat then 26%nat else 38%nat in
  if (length b mod 26 =? 0)%nat || (length b mod 38 =? 0)%nat
  then exists l, UnmarshalCompactNodeInfos b = Ret l /\ length l = (length b / sz)%nat /\
         Forall (fun n => length (ci_ID n) = 20%nat /\ compact_addr (ap_addr (ci_Addr n))) l
  else UnmarshalCompactNodeInfos b = Err BadNodesLength.
Proof.
  intros sz. unfold UnmarshalCompactNodeInfos.
  destruct (Nat.eqb_spec (length b) 0) as [E|E].
  { rewrite E. cbn. exists []. unfold sz. rewrite E. split; [done|]. split; [done|constructor]. }
  assert (forall n, n = 26%nat \/ n = 38%nat -> exists l,
    go_seq (CompactNodeInfo_UnmarshalBinary <$> chunks n b) = Ret l /\ length l = (length b / n)%nat /\
    Forall (fun n => length (ci_ID n) = 20%nat /\ compact_addr (ap_addr (ci_Addr n))) l) as Hd.
  { intros n Hn. destruct (go_seq_total CompactNodeInfo_UnmarshalBinary
      (fun n => length (ci_ID n) = 20%nat /\ compact_addr (ap_addr (ci_Addr n))) (chunks n b))
      as (l & Hl & Hlen & Hf).
    - eapply Forall_impl; [apply chunks_each; lia|]. intros c Hc.
      apply CompactNodeInfo_UnmarshalBinary_ok. rewrite Hc. lia.
    - exists l. by rewrite Hl, Hlen, chunks_length. }
  subst sz. destruct (length b mod 26 =? 0)%nat; cbn [orb]; [apply Hd; auto|].
  destruct (length b mod 38 =? 0)%nat; [apply Hd; auto|done].
Qed.

(** a KRPC error with a 64-bit code survives its encoding; whatever the
    decoder of the library returns for other bytes, decoding is an error value
    and never a panic. *)
Theorem error_roundtrip `{BencodeLaws} (e : Error) :
  - 2 ^ 63 <= e_Code e < 2 ^ 63 ->
  Error_UnmarshalBencode (Error_MarshalBencode e) = Ret e /\
  (forall b, Error_UnmarshalBencode b <> Panic).
Proof.
  intros Hc. split.
  - unfold Error_UnmarshalBencode, Error_MarshalBencode.
    rewrite code_message_roundtrip by done. by destruct e.
  - intros b. unfold Error_UnmarshalBencode.
    destruct (Unmarshal_any b) as [[| | |[|[] [|[] ?]]|]|]; done.
Qed.

Lemma parsePeer_6 c :
  length c = 6%nat -> exists p, parsePeer 4 Unmap c = Some p /\ CompactPeer_UnmarshalBinary c = Ret p.
Proof.
  intros Hc. destruct (CompactPeer_UnmarshalBinary_6 c Hc) as (p & Hp & _).
  exists p. split; [|done]. unfold CompactPeer_UnmarshalBinary, parsePeer in *. rewrite Hc in Hp.
  cbn [Nat.eqb Nat.sub] in Hp. destruct (AddrFromSlice (take 4 c)); by simplify_eq/=.
Qed.

(** the two parsers of a peer exchange message read one peer from every
    complete 6-byte (18-byte) block and ignore what is left over; on IPv4 peers
    they invert [CompactPeer.MarshalBinary]. *)
Theorem parsePeers_complete (s rest : list byte) (l : list AddrPort) :
  Forall (fun p => compact_ap p /\ Is4 (ap_addr p)) l -> (length rest < 6)%nat ->
  length (parsePeers s) = (length s / 6)%nat /\
  length (parsePeers6 s) = (length s / 18)%nat /\
  parsePeers (concat (CompactPeer_MarshalBinary <$> l) ++ rest) = l.
Proof.
  intros Hl Hr.
  assert (forall (f : list byte -> option AddrPort) cs, Forall (fun c => is_Some (f c)) cs ->
            length (omap f cs) = length cs) as Homap.
  { intros f cs. induction 1 as [|c cs [p Hp] _ IH]; [done|]. simpl. rewrite Hp. simpl. f_equal. exact IH. }
  split; [|split].
  - unfold parsePeers. rewrite Homap, chunks_length; [done|].
    eapply Forall_impl; [apply chunks_each; lia|]. intros c Hc.
    destruct (parsePeer_6 c Hc) as (p & -> & _). by eexists.
  - unfold parsePeers6. rewrite Homap, chunks_length; [done|].
    eapply Forall_impl; [apply chunks_each; lia|]. intros c Hc. unfold parsePeer.
    destruct (proj2 (AddrFromSlice_Some (take 16 c))) as [a ->]; [|by eexists].
    right. rewrite length_take, Hc. done.
  - unfold parsePeers. induction Hl as [|p l [Hc H4] _ IH]; csimpl.
    + unfold chunks. rewrite Nat.div_small by done. done.
    + destruct (CompactPeer_roundtrip p Hc) as [Hlen Hd].
      unfold ip_len in Hlen. rewrite (Is_true_true_1 _ H4) in Hlen.
      rewrite <- app_assoc, chunks_app by (lia || done). cbn [omap list_omap].
      destruct (parsePeer_6 _ Hlen) as (q & -> & Hq). f_equal; [congruence|exact IH].
Qed.

(** a peer id is 20 bytes: the client prefix, then twelve digits of which
    none is a 9 ([rand.Intn(high-low)] excludes its bound). *)
Theorem randomID_shape (draws : list Z) :
  length draws = 12%nat ->
  length (randomID draws) = 20%nat /\ take 8 (randomID draws) = bytes_of "-MC0008-" /\
  Forall (fun b => b2z x30 <= b2z b < b2z x39) (drop 8 (randomID draws)).
Proof.
  intros Hd. unfold randomID. change (20 - length (bytes_of "-MC0008-"))%nat with 12%nat.
  rewrite take_ge by lia. split; [by rewrite length_app, length_fmap, Hd|].
  split; [by rewrite (take_app_length' _ _ 8)|]. rewrite (drop_app_length' _ _ 8) by done.
  apply Forall_fmap, Forall_forall. intros r _. cbn. unfold randomDigit.
  change (b2z x39) with 57. change (b2z x30) with 48. change (57 - 48) with 9.
  rewrite b2z_z2b. pose proof (Z.mod_pos_bound r 9 ltac:(lia)). rewrite Z.mod_small; lia.
Qed.

(** ** Concrete data *)

Definition peer4 : AddrPort := AddrPortFrom (Addr4 16909060) 6881.
Definition peer6 : AddrPort := AddrPortFrom (Addr6 42540766411282592856903984951653826561 "") 6881.

Lemma peer4_compact : compact_ap peer4.
Proof. repeat split; by vm_compute. Qed.
Lemma peer6_compact : compact_ap peer6.
Proof. repeat split; by vm_compute. Qed.

Lemma nodes_roundtrip_witness :
  unmarshalCompactNodeInfosBencode
    (CompactNodeInfos_MarshalBencode [mkNodeInfo (be_encode 20 7) peer6]) 38
  = Ret [mkNodeInfo (be_encode 20 7) peer6].
Proof.
  apply (nodes_roundtrip 38 [mkNodeInfo (be_encode 20 7) peer6]); [by right|].
  constructor; [|constructor]. split; [done|]. split; [apply peer6_compact|done].
Defined.

Lemma peers_roundtrip_witness :
  CompactPeers_UnmarshalBencode (CompactPeers_MarshalBencode [peer4; peer6]) = Ret [peer4; peer6].
Proof.
  apply (peers_roundtrip [peer4; peer6]). repeat constructor; apply peer4_compact || apply peer6_compact.
Defined.

Lemma UnmarshalCompactPeers_only_ipv4_witness :
  exists l, UnmarshalCompactPeers (CompactPeer_MarshalBinary peer6) = Ret l /\ length l = 3%nat.
Proof.
  destruct (UnmarshalCompactPeers_only_ipv4 (CompactPeer_MarshalBinary peer6) eq_refl)
    as [(l & H & Hl & _) _].
  exists l. split; [exact H|]. rewrite Hl. by vm_compute.
Defined.

Lemma error_roundtrip_witness :
  Error_UnmarshalBencode (Error_MarshalBencode (mkError 201 (bytes_of "Generic Error")))
  = Ret (mkError 201 (bytes_of "Generic Error")).
Proof. apply (error_roundtrip (mkError 201 (bytes_of "Generic Error"))). cbn. lia. Defined.

Lemma parsePeers_complete_witness :
  parsePeers (concat (CompactPeer_MarshalBinary <$> [peer4]) ++ [x00]) = [peer4].
Proof.
  apply (parsePeers_complete [] [x00] [peer4]); [|simpl; lia].
  constructor; [|constructor]. split; [apply peer4_compact|done].
Defined.

Lemma randomID_shape_witness : length (randomID (replicate 12 5)) = 20%nat.
Proof. apply (randomID_shape (replicate 12 5)). reflexivity. Defined.
