(* ===== verification/RoutingTable.v ===== *)
(** * The Kademlia routing table (dhtc-client/routing_table.go)

    160 buckets of at most 8 nodes, most recently seen first, indexed by the
    logarithm of the XOR distance to the local node id. Node ids are 20-byte
    arrays, kept as byte lists of length 20; the table's mutex makes every
    operation one atomic step, so each is a function of the table. *)

From S2P Require Import Prelude NetAddr.

Definition kBucketSize : nat := 8.

Record routingNode : Type := mkNode {
  rn_ID : list byte;
  rn_Addr : AddrPort;
  rn_LastSeen : time
}.

Record RoutingTable : Type := mkTable {
  rt_localID : list byte;
  rt_buckets : list (list routingNode);
  rt_maxNodes : Z;
  rt_size : Z
}.

#[export] Instance routingNode_eq_dec : EqDecision routingNode.
Proof. solve_decision. Defined.

Definition zeroID : list byte := replicate 20 x00.

Definition NewRoutingTable (localID : list byte) (maxNodes : Z) : RoutingTable :=
  let m := i64 maxNodes in
  {| rt_localID := go_copy zeroID localID;
     rt_buckets := replicate 160 [];
     rt_maxNodes := if m <? Z.of_nat kBucketSize then Z.of_nat kBucketSize else m;
     rt_size := 0 |}.

(** [bits.Len8] *)
Definition Len8 (x : Z) : Z := if x =? 0 then 0 else Z.log2 x + 1.

(** The loop of [xorBucketIndex] from index [i], on what is left of the arrays. *)
Fixpoint xorBucketIndex_loop (i : Z) (local remote : list byte) : Z :=
  match local, remote with
  | l :: local', r :: remote' =>
      let x := b2z (bxor l r) in
      if negb (x =? 0) then (20 - 1 - i) * 8 + Len8 x - 1
      else xorBucketIndex_loop (i + 1) local' remote'
  | _, _ => -1
  end.

Definition xorBucketIndex (local remote : list byte) : Z :=
  xorBucketIndex_loop 0 local remote.

Fixpoint xorLess (a b target : list byte) : bool :=
  match a, b, target with
  | x :: a', y :: b', t :: target' =>
      let da := b2z (bxor x t) in
      let db := b2z (bxor y t) in
      if negb (da =? db) then da <? db else xorLess a' b' target'
  | _, _, _ => false
  end.

Definition bucket_at (t : RoutingTable) (i : nat) : list routingNode :=
  default [] (rt_buckets t !! i).

Definition set_bucket (t : RoutingTable) (i : nat) (b : list routingNode) (size : Z) : RoutingTable :=
  {| rt_localID := rt_localID t; rt_buckets := <[i:=b]> (rt_buckets t);
     rt_maxNodes := rt_maxNodes t; rt_size := size |}.

(** [Add]: the boolean is true when a new node was stored. *)
Definition Add (t : RoutingTable) (id : list byte) (addr : AddrPort) (seen : time)
    : bool * RoutingTable :=
  if negb (length id =? 20)%nat || negb (IsValid addr) || (ap_port addr =? 0) then (false, t)
  else
    let nodeID := go_copy zeroID id in
    let bucketIndex := xorBucketIndex (rt_localID t) nodeID in
    if bucketIndex <? 0 then (false, t)
    else
      let bi := Z.to_nat bucketIndex in
      let bucket := bucket_at t bi in
      let node := mkNode nodeID addr seen in
      match list_find (fun n => rn_ID n = nodeID) bucket with
      | Some (i, _) =>
          (false, set_bucket t bi (node :: take i bucket ++ drop (S i) bucket) (rt_size t))
      | None =>
          if (kBucketSize <=? length bucket)%nat
          then (true, set_bucket t bi (node :: take (kBucketSize - 1) bucket) (rt_size t))
          else if rt_maxNodes t <=? rt_size t then (false, t)
          else (true, set_bucket t bi (node :: bucket) (rt_size t + 1))
      end.

Definition Len (t : RoutingTable) : Z := rt_size t.

Definition Snapshot (t : RoutingTable) : list routingNode := concat (rt_buckets t).

(** [sort.Slice] by [xorLess]: some permutation of the nodes in which no
    later element is smaller. [Closest_unique] shows that every such
    permutation is this one. *)
Definition closer_eq (target : list byte) (m n : routingNode) : Prop :=
  xorLess (rn_ID n) (rn_ID m) target = false.
#[export] Instance closer_eq_dec target : RelDecision (closer_eq target).
Proof. intros m n. unfold closer_eq. apply _. Defined.

(** [Closest]; [None] is the panic of [nodes[:limit]] with a negative limit. *)
Definition Closest (t : RoutingTable) (target : list byte) (limit : Z)
    : option (list routingNode) :=
  let targetID := go_copy zeroID target in
  let nodes := merge_sort (closer_eq targetID) (Snapshot t) in
  if limit <? Z.of_nat (length nodes) then slice nodes 0 limit else Some nodes.

Definition ContainsAddr (t : RoutingTable) (addr : AddrPort) : bool :=
  existsb (fun n => bool_decide (rn_Addr n = addr)) (Snapshot t).

(** One bucket of [Prune], with the number of removed nodes subtracted. *)
Definition prune_bucket (before : time) (bucket : list routingNode) : list routingNode :=
  filter (fun n => before < rn_LastSeen n) bucket.

Definition Prune (t : RoutingTable) (before : time) : RoutingTable :=
  {| rt_localID := rt_localID t;
     rt_buckets := prune_bucket before <$> rt_buckets t;
     rt_maxNodes := rt_maxNodes t;
     rt_size := foldl (fun s b => s - Z.of_nat (length b - length (prune_bucket before b)))
                  (rt_size t) (rt_buckets t) |}.

(** ** XOR distance *)

Definition distance (a b : list byte) : Z := Z.lxor (be_decode a) (be_decode b).

Lemma distance_cons x y a b :
  length a = length b ->
  distance (x :: a) (y :: b) = b2z (bxor x y) * 2 ^ (8 * Z.of_nat (length a)) + distance a b
  /\ 0 <= distance a b < 2 ^ (8 * Z.of_nat (length a)).
Proof.
  intros Hl. unfold distance. rewrite <- !be_decode_bxors by (simpl; congruence).
  pose proof (be_decode_range (bxors a b)) as Hr. unfold bxors in *.
  rewrite length_zip_with, <- Hl, Nat.min_id in Hr. cbn [zip_with be_decode].
  rewrite length_zip_with, <- Hl, Nat.min_id. change 256 with (2 ^ 8) in *.
  rewrite <- Z.pow_mul_r in * by lia. split; [done|lia].
Qed.

Lemma log2_split x y n : 0 < x -> 0 <= n -> 0 <= y < 2 ^ n -> Z.log2 (x * 2 ^ n + y) = Z.log2 x + n.
Proof.
  intros Hx Hn Hy. pose proof (Z.log2_nonneg x) as Hl.
  pose proof (Z.log2_spec x Hx) as [H1 H2]. rewrite Z.pow_succ_r in H2 by lia.
  apply (Z.log2_unique' _ _ (y + (x - 2 ^ Z.log2 x) * 2 ^ n)); [lia|..];
    rewrite Z.pow_add_r by lia; nia.
Qed.

Lemma xorBucketIndex_loop_spec i a b :
  length a = length b -> i = 20 - Z.of_nat (length a) ->
  xorBucketIndex_loop i a b = if decide (a = b) then -1 else Z.log2 (distance a b).
Proof.
  revert i b; induction a as [|x a IH]; intros i [|y b] Hl Hi; try done.
  injection Hl as Hl. cbn [xorBucketIndex_loop]. destruct (distance_cons x y a b Hl) as [-> Hd].
  pose proof (b2z_range (bxor x y)) as Hx. cbn [length] in Hi.
  destruct (Z.eqb_spec (b2z (bxor x y)) 0) as [E|E]; simpl.
  - assert (x = y) as <-.
    { rewrite b2z_bxor in E. apply b2z_inj. by apply Z.lxor_eq. }
    rewrite E, Z.mul_0_l, Z.add_0_l, IH by lia.
    repeat case_decide; congruence.
  - rewrite decide_False.
    + unfold Len8. rewrite (proj2 (Z.eqb_neq _ _)), log2_split by lia. lia.
    + intros [= <- <-]. apply E. by rewrite b2z_bxor, Z.lxor_nilpotent.
Qed.

Lemma distance_zero a b : length a = length b -> distance a b = 0 <-> a = b.
Proof.
  intros Hl. split.
  - intros H. apply be_decode_inj; [done|]. by apply Z.lxor_eq.
  - intros ->. apply Z.lxor_nilpotent.
Qed.

(** [xorBucketIndex] is the index of the highest bit in which the two ids
    differ, i.e. the floor of the base-2 logarithm of their XOR distance read
    as big-endian integers, and -1 exactly for equal ids. *)
Theorem xorBucketIndex_log2 (a b : list byte) :
  length a = 20%nat -> length b = 20%nat ->
  xorBucketIndex a b = (if decide (a = b) then -1 else Z.log2 (distance a b))
  /\ -1 <= xorBucketIndex a b < 160.
Proof.
  intros Ha Hb. unfold xorBucketIndex. rewrite xorBucketIndex_loop_spec by (rewrite ?Ha; lia).
  split; [done|]. case_decide as Hab; [lia|].
  assert (0 <= distance a b < 2 ^ 160) as Hd.
  { apply lxor_range_pow2; [lia|..].
    - pose proof (be_decode_range a) as Hr. by rewrite Ha in Hr.
    - pose proof (be_decode_range b) as Hr. by rewrite Hb in Hr. }
  assert (distance a b <> 0) by (rewrite distance_zero; congruence).
  split; [pose proof (Z.log2_nonneg (distance a b)); lia|]. apply Z.log2_lt_pow2; lia.
Qed.

(** ** Invariant *)

Definition node_ok (local : list byte) (i : nat) (n : routingNode) : Prop :=
  length (rn_ID n) = 20%nat /\ xorBucketIndex local (rn_ID n) = Z.of_nat i /\
  IsValid (rn_Addr n) /\ ap_port (rn_Addr n) <> 0.

Definition bucket_ok (local : list byte) (i : nat) (b : list routingNode) : Prop :=
  (length b <= kBucketSize)%nat /\ Forall (node_ok local i) b /\ NoDup (rn_ID <$> b).

Record rt_inv (t : RoutingTable) : Prop := {
  inv_local : length (rt_localID t) = 20%nat;
  inv_len : length (rt_buckets t) = 160%nat;
  inv_buckets : forall i b, rt_buckets t !! i = Some b -> bucket_ok (rt_localID t) i b;
  inv_size : rt_size t = Z.of_nat (length (Snapshot t));
  inv_max : 8 <= rt_maxNodes t;
  inv_bound : rt_size t <= rt_maxNodes t
}.

(** The operations that change the table, as steps. *)
Inductive rt_step (t : RoutingTable) : RoutingTable -> Prop :=
  | step_Add id addr seen : rt_step t (Add t id addr seen).2
  | step_Prune before : rt_step t (Prune t before).

Lemma rt_inv_new local maxNodes : rt_inv (NewRoutingTable local maxNodes).
Proof.
  split; unfold NewRoutingTable; cbn [rt_localID rt_buckets rt_maxNodes rt_size].
  - by rewrite length_go_copy.
  - by rewrite length_replicate.
  - intros i b Hb. apply (lookup_replicate_1 160 [] b i) in Hb as [-> _].
    repeat split; simpl; [lia|constructor..].
  - done.
  - unfold kBucketSize. destruct (Z.ltb_spec (i64 maxNodes) (Z.of_nat 8)); lia.
  - unfold kBucketSize. destruct (Z.ltb_spec (i64 maxNodes) (Z.of_nat 8)); lia.
Qed.

Lemma bucket_at_lookup t i :
  rt_inv t -> (i < 160)%nat -> rt_buckets t !! i = Some (bucket_at t i).
Proof.
  intros Ht Hi. unfold bucket_at.
  destruct (lookup_lt_is_Some_2 (rt_buckets t) i) as [b ->]; [|done].
  by rewrite (inv_len t Ht).
Qed.

(** Replacing one bucket by a well-formed one, with the size adjusted. *)
Lemma rt_inv_set t i b size :
  rt_inv t -> (i < 160)%nat -> bucket_ok (rt_localID t) i b ->
  size = rt_size t - Z.of_nat (length (bucket_at t i)) + Z.of_nat (length b) ->
  size <= rt_maxNodes t -> rt_inv (set_bucket t i b size).
Proof.
  intros Ht Hi Hb -> Hs. pose proof (bucket_at_lookup t i Ht Hi) as Hl.
  destruct Ht as [H1 H2 H3 H4 H5 H6]. split; simpl; try done.
  - by rewrite length_insert.
  - intros j b' Hj. apply list_lookup_insert_Some in Hj as [(-> & -> & _)|[_ Hj]]; eauto.
  - pose proof (length_concat_insert _ _ _ b Hl). unfold Snapshot in *. simpl. lia.
Qed.

Lemma Snapshot_NoDup t : rt_inv t -> NoDup (rn_ID <$> Snapshot t).
Proof.
  intros Ht. apply (NoDup_fmap_concat rn_ID (xorBucketIndex (rt_localID t)) 0).
  intros i l Hl. destruct (inv_buckets t Ht i l Hl) as (_ & Hf & Hn). split; [done|].
  eapply Forall_impl; [exact Hf|]. intros n (_ & -> & _). lia.
Qed.

Lemma Snapshot_elem t n :
  rt_inv t -> n ∈ Snapshot t ->
  node_ok (rt_localID t) (Z.to_nat (xorBucketIndex (rt_localID t) (rn_ID n))) n /\
  n ∈ bucket_at t (Z.to_nat (xorBucketIndex (rt_localID t) (rn_ID n))).
Proof.
  intros Ht (i & l & Hl & Hn)%elem_of_concat.
  destruct (inv_buckets t Ht i l Hl) as (_ & Hf & _). rewrite Forall_forall in Hf.
  destruct (Hf n Hn) as (? & Hx & ?). rewrite Hx, Nat2Z.id. split; [done|].
  unfold bucket_at. by rewrite Hl.
Qed.

(** The reference definition of a bucket update: the node in front, any older
    entry with its id removed, at most [kBucketSize] entries. *)
Definition lru_insert (n : routingNode) (b : list routingNode) : list routingNode :=
  take kBucketSize (n :: filter (fun m => rn_ID m <> rn_ID n) b).

Lemma filter_ids_absent id (b : list routingNode) :
  Forall (fun m => rn_ID m <> id) b -> filter (fun m => rn_ID m <> id) b = b.
Proof. induction 1; simpl; [done|]. rewrite filter_cons_True by done. congruence. Qed.

Lemma filter_ids_found id (b : list routingNode) i m :
  NoDup (rn_ID <$> b) -> b !! i = Some m -> rn_ID m = id ->
  filter (fun m => rn_ID m <> id) b = take i b ++ drop (S i) b.
Proof.
  revert i; induction b as [|x b IH]; intros i Hn Hi Hm; [done|].
  apply NoDup_cons in Hn as [Hx Hn]. destruct i as [|i]; simplify_eq/=.
  - rewrite filter_cons_False, ?drop_0 by auto. simpl. apply filter_ids_absent.
    apply Forall_forall. intros y Hy E. apply Hx. rewrite <- E. by apply list_elem_of_fmap_2.
  - rewrite filter_cons_True; [by rewrite (IH i)|]. intros E. apply Hx. rewrite E.
    apply list_elem_of_fmap_2. by eapply list_elem_of_lookup_2.
Qed.

(** Which calls of [Add] concern the table at all. *)
Definition acceptable (t : RoutingTable) (id : list byte) (addr : AddrPort) : bool :=
  bool_decide (length id = 20%nat) && IsValid addr && negb (ap_port addr =? 0)
  && bool_decide (id <> rt_localID t).

Definition known (t : RoutingTable) (id : list byte) : bool :=
  bool_decide (id ∈ rn_ID <$> Snapshot t).

Lemma known_spec t id :
  rt_inv t -> length id = 20%nat -> id <> rt_localID t ->
  let i := Z.to_nat (xorBucketIndex (rt_localID t) id) in
  known t id = bool_decide (id ∈ rn_ID <$> bucket_at t i).
Proof.
  intros Ht Hl Hne i. apply bool_decide_ext. split.
  - intros (n & -> & Hn)%list_elem_of_fmap. apply list_elem_of_fmap_2. by apply Snapshot_elem.
  - intros (n & -> & Hn)%list_elem_of_fmap. apply list_elem_of_fmap_2.
    apply elem_of_concat. exists i, (bucket_at t i). split; [|done].
    apply bucket_at_lookup; [done|].
    destruct (xorBucketIndex_log2 (rt_localID t) (rn_ID n) (inv_local t Ht) Hl). lia.
Qed.

Lemma take_lru n b :
  (length (filter (fun m => rn_ID m <> rn_ID n) b) < kBucketSize)%nat ->
  lru_insert n b = n :: filter (fun m => rn_ID m <> rn_ID n) b.
Proof. intros H. unfold lru_insert. rewrite take_ge; [done|simpl; lia]. Qed.

(** [Add], branch by branch, against [lru_insert]. *)
Lemma Add_bucket t id addr seen :
  rt_inv t ->
  let i := Z.to_nat (xorBucketIndex (rt_localID t) id) in
  let full := (kBucketSize <=? length (bucket_at t i))%nat in
  Add t id addr seen =
    if negb (acceptable t id addr) then (false, t)
    else if negb (known t id) && negb full && (rt_maxNodes t <=? rt_size t) then (false, t)
    else (negb (known t id),
          set_bucket t i (lru_insert (mkNode id addr seen) (bucket_at t i))
            (rt_size t + if known t id || full then 0 else 1)).
Proof.
  intros Ht i full. unfold Add, acceptable.
  destruct (Nat.eqb_spec (length id) 20) as [Hl|Hl]; [|by rewrite bool_decide_eq_false_2].
  rewrite (bool_decide_eq_true_2 (length id = 20%nat)) by done.
  destruct (IsValid addr) eqn:Hv; [|done]. destruct (ap_port addr =? 0) eqn:Hp; [done|].
  rewrite go_copy_same by (by rewrite Hl). cbn [negb andb orb].
  destruct (xorBucketIndex_log2 (rt_localID t) id (inv_local t Ht) Hl) as [Hx Hr].
  destruct (decide (rt_localID t = id)) as [->|Hne].
  { rewrite Hx. by rewrite bool_decide_eq_false_2 by (intros HH; by apply HH). }
  rewrite bool_decide_eq_true_2 by done.
  pose proof (Z.log2_nonneg (distance (rt_localID t) id)).
  destruct (Z.ltb_spec (xorBucketIndex (rt_localID t) id) 0); [lia|]. fold i. cbn [negb andb orb].
  assert (i < 160)%nat as Hi by lia.
  destruct (inv_buckets t Ht i _ (bucket_at_lookup t i Ht Hi)) as (Hb & _ & Hn).
  rewrite (known_spec t id Ht Hl) by done. fold i.
  set (b := bucket_at t i) in *. set (n := mkNode id addr seen).
  destruct (list_find _ b) as [[j m]|] eqn:Hf.
  - apply list_find_Some in Hf as (Hj & Hm & _).
    rewrite bool_decide_eq_true_2; [|rewrite <- Hm; apply list_elem_of_fmap_2; by eapply list_elem_of_lookup_2].
    assert (filter (fun k => rn_ID k <> rn_ID n) b = take j b ++ drop (S j) b) as Hfil
      by (by apply (filter_ids_found _ _ _ m)).
    cbn [negb andb orb]. f_equal. f_equal; [|lia]. rewrite take_lru by (rewrite Hfil, length_app, length_take, length_drop;
      apply lookup_lt_Some in Hj; lia). by rewrite Hfil.
  - apply list_find_None in Hf.
    rewrite bool_decide_eq_false_2.
    2: { intros (m & Hm & Hin)%list_elem_of_fmap. rewrite Forall_forall in Hf. by apply (Hf m). }
    cbn [negb andb orb]. unfold lru_insert. rewrite filter_ids_absent by done. fold full.
    destruct full eqn:Hfull; cbn [negb andb orb].
    + by rewrite Z.add_0_r.
    + destruct (rt_maxNodes t <=? rt_size t); [done|]. do 2 f_equal.
      apply Nat.leb_gt in Hfull. unfold kBucketSize in *. rewrite take_ge; [done|simpl; lia].
Qed.

Lemma lru_insert_ok local i n b :
  bucket_ok local i b -> node_ok local i n -> bucket_ok local i (lru_insert n b).
Proof.
  intros (Hl & Hf & Hn) Hok. unfold lru_insert. split; [rewrite length_take; lia|].
  split.
  - apply Forall_take, Forall_cons. split; [done|].
    apply Forall_forall. intros m [_ Hm]%list_elem_of_filter. rewrite Forall_forall in Hf. auto.
  - rewrite fmap_take. eapply sublist_NoDup; [|apply sublist_take].
    simpl. apply NoDup_cons. split.
    + intros (m & Hm & [Hne _]%list_elem_of_filter)%list_elem_of_fmap. done.
    + eapply sublist_NoDup; [exact Hn|]. apply fmap_sublist, sublist_filter.
Qed.

Lemma length_lru n b :
  (length b <= kBucketSize)%nat -> NoDup (rn_ID <$> b) ->
  length (lru_insert n b) =
    if bool_decide (rn_ID n ∈ rn_ID <$> b) || (kBucketSize <=? length b)%nat
    then length b else S (length b).
Proof.
  intros Hl Hn. unfold lru_insert. rewrite length_take. cbn [length].
  case_bool_decide as Hin; cbn [orb].
  - apply list_elem_of_fmap in Hin as (m & Hm & Hin).
    apply list_elem_of_lookup in Hin as [j Hj].
    rewrite (filter_ids_found _ _ j m) by done. rewrite length_app, length_take, length_drop.
    apply lookup_lt_Some in Hj. lia.
  - rewrite filter_ids_absent.
    2: { apply Forall_forall. intros m Hm E. apply Hin. rewrite <- E. by apply list_elem_of_fmap_2. }
    destruct (Nat.leb_spec kBucketSize (length b)); lia.
Qed.

Lemma acceptable_index t id addr :
  rt_inv t -> acceptable t id addr ->
  length id = 20%nat /\ id <> rt_localID t /\ 0 <= xorBucketIndex (rt_localID t) id < 160 /\
  IsValid addr /\ ap_port addr <> 0.
Proof.
  unfold acceptable. intros Ht H. repeat apply andb_prop_elim in H as [H ?].
  apply bool_decide_unpack in H. rename H into Hl.
  match goal with K : Is_true (bool_decide _) |- _ => apply bool_decide_unpack in K as Hne end.
  destruct (xorBucketIndex_log2 (rt_localID t) id (inv_local t Ht) Hl) as [Hx Hr].
  rewrite decide_False in Hx by done. pose proof (Z.log2_nonneg (distance (rt_localID t) id)).
  repeat split; try done; try lia. destruct (Z.eqb_spec (ap_port addr) 0); done.
Qed.

Lemma rt_inv_Add t id addr seen : rt_inv t -> rt_inv (Add t id addr seen).2.
Proof.
  intros Ht. rewrite Add_bucket by done. set (i := Z.to_nat _).
  destruct (acceptable t id addr) eqn:Ha; [|done]. cbn [negb].
  destruct (acceptable_index t id addr Ht) as (Hl & Hne & Hx & Hv & Hp); [by rewrite Ha|].
  assert (i < 160)%nat as Hi by lia.
  destruct (inv_buckets t Ht i _ (bucket_at_lookup t i Ht Hi)) as (Hb & Hf & Hn).
  pose proof (known_spec t id Ht Hl Hne) as Hk. fold i in Hk.
  pose proof (length_lru (mkNode id addr seen) _ Hb Hn) as Hlen. cbn [rn_ID] in Hlen.
  rewrite <- Hk in Hlen. pose proof (inv_bound t Ht).
  set (full := (kBucketSize <=? length (bucket_at t i))%nat) in *.
  destruct (negb (known t id) && negb full && (rt_maxNodes t <=? rt_size t)) eqn:Hg; [done|].
  apply rt_inv_set; try done.
  - apply lru_insert_ok; [done|]. repeat split; simpl; try done. lia.
  - rewrite Hlen. destruct (known t id || full); lia.
  - destruct (known t id), full; simpl in *; lia.
Qed.

(** No node appears in the table that was not there or is not the one added. *)
Lemma Add_Snapshot_sub t id addr seen n :
  rt_inv t -> n ∈ Snapshot (Add t id addr seen).2 -> n ∈ Snapshot t \/ n = mkNode id addr seen.
Proof.
  intros Ht. rewrite (Add_bucket t id addr seen Ht). case_match; [by left|]. case_match; [by left|].
  cbn [snd]. intros (i & b & Hb & Hn)%elem_of_concat. unfold set_bucket in Hb. cbn [rt_buckets] in Hb.
  apply list_lookup_insert_Some in Hb as [(<- & <- & Hlt)|[_ Hb]].
  2: { left. apply elem_of_concat. eauto. }
  unfold lru_insert in Hn. apply (subseteq_take kBucketSize) in Hn.
  apply elem_of_cons in Hn as [->|Hn]; [by right|]. left.
  apply list_elem_of_filter in Hn as [_ Hn]. apply elem_of_concat. eexists _, _. split; [|exact Hn].
  apply bucket_at_lookup; [done|]. by rewrite (inv_len t Ht) in Hlt.
Qed.

Lemma prune_bucket_length before b : (length (prune_bucket before b) <= length b)%nat.
Proof. apply length_filter. Qed.

Lemma Prune_size_fold before s (ls : list (list routingNode)) :
  foldl (fun s b => s - Z.of_nat (length b - length (prune_bucket before b))) s ls
  = s - Z.of_nat (length (concat ls)) + Z.of_nat (length (concat (prune_bucket before <$> ls))).
Proof.
  revert s; induction ls as [|b ls IH]; intros s; csimpl; [lia|].
  rewrite IH, !length_app. pose proof (prune_bucket_length before b). lia.
Qed.

Lemma concat_prune before (ls : list (list routingNode)) :
  concat (prune_bucket before <$> ls) = prune_bucket before (concat ls).
Proof.
  induction ls as [|b ls IH]; csimpl; [done|]. rewrite IH. unfold prune_bucket.
  by rewrite filter_app.
Qed.

Lemma rt_inv_Prune t before : rt_inv t -> rt_inv (Prune t before).
Proof.
  intros Ht. destruct Ht as [H1 H2 H3 H4 H5 H6]. split; simpl; try done.
  - by rewrite length_fmap.
  - intros i b' Hb. rewrite list_lookup_fmap in Hb.
    destruct (rt_buckets t !! i) as [b|] eqn:Hi; simplify_eq/=.
    destruct (H3 i b Hi) as (Hl & Hf & Hn).
    pose proof (prune_bucket_length before b).
    split; [lia|]. split.
    + apply Forall_forall. intros n [_ Hin]%list_elem_of_filter. rewrite Forall_forall in Hf. auto.
    + eapply sublist_NoDup; [exact Hn|]. apply fmap_sublist, sublist_filter.
  - rewrite Prune_size_fold. unfold Snapshot in *. simpl. lia.
  - rewrite Prune_size_fold. unfold Snapshot in *. rewrite concat_prune.
    pose proof (prune_bucket_length before (concat (rt_buckets t))). lia.
Qed.

(** C1: every table reachable from [NewRoutingTable] by any sequence of [Add]
    and [Prune] is well formed: 160 buckets of at most 8 valid nodes, each in
    the bucket of its distance, ids unique over the whole table, [size] equal
    to the number of stored nodes and never above [maxNodes]. *)
Theorem routing_table_invariant (localID : list byte) (maxNodes : Z) (t : RoutingTable) :
  star rt_step (NewRoutingTable localID maxNodes) t ->
  rt_inv t /\ NoDup (rn_ID <$> Snapshot t) /\ Len t = Z.of_nat (length (Snapshot t)).
Proof.
  intros Hs. assert (rt_inv t) as Ht.
  { apply (star_inv rt_step rt_inv) in Hs; [done| |apply rt_inv_new].
    intros s u Hi []; [by apply rt_inv_Add|by apply rt_inv_Prune]. }
  split; [done|]. split; [by apply Snapshot_NoDup|apply inv_size, Ht].
Qed.

(** C35: [Add] implements a bounded most-recently-seen list per bucket: a node
    is stored when the call is acceptable and the id is known, its bucket is
    full or the table is below capacity; then its bucket becomes
    [lru_insert node bucket] (the oldest entry of a full bucket gives way), the
    result says whether the id is new, and every other bucket is untouched.
    Otherwise the table does not change and the result is false. *)
Theorem Add_refines_lru (t : RoutingTable) (id : list byte) (addr : AddrPort) (seen : time) :
  rt_inv t ->
  let i := Z.to_nat (xorBucketIndex (rt_localID t) id) in
  let full := (kBucketSize <=? length (bucket_at t i))%nat in
  let t' := (Add t id addr seen).2 in
  let stored := acceptable t id addr && (known t id || full || (rt_size t <? rt_maxNodes t)) in
  (stored = true ->
     (Add t id addr seen).1 = negb (known t id) /\
     bucket_at t' i = lru_insert (mkNode id addr seen) (bucket_at t i) /\
     (forall j, j <> i -> bucket_at t' j = bucket_at t j)) /\
  (stored = false -> Add t id addr seen = (false, t)).
Proof.
  intros Ht i full t' stored. subst t' stored. rewrite (Add_bucket t id addr seen Ht). fold i full.
  destruct (acceptable t id addr) eqn:Ha; [cbn [negb andb]|done].
  destruct (acceptable_index t id addr Ht) as (Hl & Hne & Hx & _); [by rewrite Ha|].
  rewrite (Z.ltb_antisym (rt_maxNodes t)).
  destruct (known t id), full, (rt_maxNodes t <=? rt_size t); cbn [negb andb orb]; split; try done.
  all: intros _; split; [done|]; unfold bucket_at, set_bucket; cbn [snd rt_buckets]; split.
  all: try (rewrite list_lookup_insert_eq; [done|rewrite (inv_len t Ht); lia]).
  all: intros j Hj; by rewrite list_lookup_insert_ne.
Qed.

(** [Prune] keeps exactly the nodes seen after the cutoff, in their order,
    and counts them. *)
Theorem Prune_keeps_recent (t : RoutingTable) (before : time) :
  rt_inv t ->
  Snapshot (Prune t before) = filter (fun n => before < rn_LastSeen n) (Snapshot t) /\
  Len (Prune t before) = Z.of_nat (length (Snapshot (Prune t before))).
Proof.
  intros Ht. split; [apply concat_prune|]. by apply (inv_size _ (rt_inv_Prune t before Ht)).
Qed.

(** ** Closest *)

Lemma xorLess_distance a b t :
  length a = length t -> length b = length t ->
  xorLess a b t = (distance a t <? distance b t).
Proof.
  revert a b; induction t as [|z t IH]; intros [|x a] [|y b] Ha Hb; try done.
  injection Ha as Ha. injection Hb as Hb. cbn [xorLess].
  destruct (distance_cons x z a t Ha) as [-> Hra]. destruct (distance_cons y z b t Hb) as [-> Hrb].
  rewrite Hb, <- Ha in *. set (p := 2 ^ (8 * Z.of_nat (length a))) in *.
  rewrite IH by congruence.
  destruct (Z.eqb_spec (b2z (bxor x z)) (b2z (bxor y z))) as [->|Hne]; cbn [negb].
  - destruct (Z.ltb_spec (distance a t) (distance b t)); symmetry; [apply Z.ltb_lt|apply Z.ltb_ge]; lia.
  - destruct (Z.ltb_spec (b2z (bxor x z)) (b2z (bxor y z))); symmetry; [apply Z.ltb_lt|apply Z.ltb_ge]; nia.
Qed.

Lemma xorLess_asym a b t : xorLess a b t = true -> xorLess b a t = false.
Proof.
  revert a b; induction t as [|z t IH]; intros [|x a] [|y b] H; try done.
  cbn [xorLess] in *. rewrite (Z.eqb_sym (b2z (bxor y z))).
  destruct (b2z (bxor x z) =? b2z (bxor y z)); cbn [negb] in *; [auto|lia].
Qed.

#[export] Instance closer_eq_total target : Total (closer_eq target).
Proof.
  intros m n. unfold closer_eq. destruct (xorLess (rn_ID n) (rn_ID m) target) eqn:E; [|by left].
  right. by apply xorLess_asym.
Qed.

Definition node_distance (target : list byte) (n : routingNode) : Z := distance (rn_ID n) target.

Lemma sorted_by_distance target l :
  Forall (fun n => length (rn_ID n) = length target) l -> Sorted (closer_eq target) l ->
  StronglySorted (fun m n => node_distance target m <= node_distance target n) l.
Proof.
  intros Hf Hs. apply Sorted_StronglySorted; [intros x y z; lia|].
  induction Hs as [|n l Hs IH Hd]; constructor.
  - apply IH. by inversion Hf.
  - destruct Hd as [|m l Hd]; constructor. unfold closer_eq in Hd.
    apply Forall_cons in Hf as [Hn Hf]. apply Forall_cons in Hf as [Hm _].
    rewrite xorLess_distance in Hd by done. unfold node_distance. lia.
Qed.

Lemma Snapshot_lengths t (target : list byte) :
  rt_inv t -> length target = 20%nat ->
  Forall (fun n => length (rn_ID n) = length target) (Snapshot t).
Proof.
  intros Ht ->. apply Forall_forall. intros n Hn. by destruct (Snapshot_elem t n Ht Hn) as [[]].
Qed.

Lemma node_distance_inj t (target : list byte) m n :
  rt_inv t -> length target = 20%nat -> m ∈ Snapshot t -> n ∈ Snapshot t ->
  node_distance target m = node_distance target n -> m = n.
Proof.
  intros Ht Hl Hm Hn Hd. pose proof (Snapshot_lengths t target Ht Hl) as Hf.
  rewrite Forall_forall in Hf. pose proof (Hf m Hm). pose proof (Hf n Hn).
  assert (rn_ID m = rn_ID n) as Hid.
  { apply be_decode_inj; [congruence|]. unfold node_distance, distance in Hd.
    apply (f_equal (fun z => Z.lxor z (be_decode target))) in Hd.
    by rewrite !Z.lxor_assoc, !Z.lxor_nilpotent, !Z.lxor_0_r in Hd. }
  pose proof (Snapshot_NoDup t Ht) as Hu.
  apply list_elem_of_lookup in Hm as [i Hi]. apply list_elem_of_lookup in Hn as [j Hj].
  assert (i = j) as ->; [|congruence].
  eapply (NoDup_lookup _ _ _ (rn_ID m) Hu); rewrite list_lookup_fmap, ?Hi, ?Hj; simpl; congruence.
Qed.

(** Any result [sort.Slice] may give is the one computed here. *)
Lemma Closest_unique t (target : list byte) nodes :
  rt_inv t -> length target = 20%nat -> nodes ≡ₚ Snapshot t -> Sorted (closer_eq target) nodes ->
  nodes = merge_sort (closer_eq target) (Snapshot t).
Proof.
  intros Ht Hl Hp Hs. pose proof (Snapshot_lengths t target Ht Hl) as Hf.
  pose proof (merge_sort_Permutation (closer_eq target) (Snapshot t)) as Hp'.
  apply (StronglySorted_unique_strong (fun m n => node_distance target m <= node_distance target n)).
  - intros m n Hm Hn ??. apply (node_distance_inj t target); try done; [| |lia].
    + by rewrite <- Hp.
    + by rewrite <- Hp'.
  - apply sorted_by_distance; [by rewrite Hp|done].
  - apply sorted_by_distance; [by rewrite Hp'|]. apply Sorted_merge_sort, _.
  - by rewrite Hp, Hp'.
Qed.

(** C36: [Closest] returns the [limit] nodes nearest to the target by XOR
    distance, nearest first: the result is strictly sorted by distance, every
    node left out is strictly farther than every node returned, and whichever
    permutation [sort.Slice] produces, the answer is the same list. *)
Theorem Closest_nearest (t : RoutingTable) (target : list byte) (limit : Z) :
  rt_inv t -> length target = 20%nat -> 0 <= limit ->
  exists res rest,
    Closest t target limit = Some res /\
    res ++ rest ≡ₚ Snapshot t /\
    Z.of_nat (length res) = Z.min limit (Len t) /\
    StronglySorted (fun m n => node_distance target m < node_distance target n) res /\
    (forall m n, m ∈ res -> n ∈ rest -> node_distance target m < node_distance target n) /\
    (forall nodes, nodes ≡ₚ Snapshot t -> Sorted (closer_eq target) nodes ->
       take (Z.to_nat limit) nodes = res).
Proof.
  intros Ht Hl Hlim. unfold Closest. rewrite go_copy_same by (by rewrite Hl).
  set (nodes := merge_sort (closer_eq target) (Snapshot t)).
  assert (nodes ≡ₚ Snapshot t) as Hp by apply merge_sort_Permutation.
  exists (take (Z.to_nat limit) nodes), (drop (Z.to_nat limit) nodes).
  assert (Len t = Z.of_nat (length nodes)) as Hlen.
  { rewrite Hp. apply (inv_size t Ht). }
  assert (StronglySorted (fun m n => node_distance target m < node_distance target n) nodes) as Hs.
  { pose proof (Snapshot_NoDup t Ht) as Hu. rewrite <- Hp in Hu. apply NoDup_fmap_1 in Hu.
    assert (StronglySorted (fun m n => node_distance target m <= node_distance target n) nodes) as Hw.
    { apply sorted_by_distance; [rewrite Hp; by apply Snapshot_lengths|apply Sorted_merge_sort, _]. }
    assert (forall n, n ∈ nodes -> n ∈ Snapshot t) as Hin by (intros n; by rewrite Hp).
    clear Hp Hlen. clearbody nodes. induction Hw as [|n l Hw IH Hf]; constructor.
    - apply NoDup_cons in Hu as [_ Hu]. apply IH; [done|]. intros m Hm. apply Hin. by right.
    - apply NoDup_cons in Hu as [Hn _]. rewrite Forall_forall in *. intros m Hm.
      specialize (Hf m Hm). simpl in *.
      destruct (Z.eq_dec (node_distance target n) (node_distance target m)); [|lia].
      destruct Hn. replace n with m; [done|].
      apply (node_distance_inj t target); try done; apply Hin; set_solver. }
  split; [|split; [by rewrite take_drop|]].
  { unfold slice, sub. rewrite Z2Nat.inj_0, drop_0, Nat.sub_0_r.
    destruct (Z.ltb_spec limit (Z.of_nat (length nodes))).
    - by rewrite !(proj2 (Z.leb_le _ _)) by lia.
    - by rewrite take_ge by lia. }
  rewrite <- (take_drop (Z.to_nat limit) nodes) in Hs.
  split; [rewrite length_take; lia|]. split; [by eapply StronglySorted_app_1_l|].
  split; [intros m n Hm Hn; pattern m, n; by eapply (StronglySorted_app_1_elem_of _ _ _ m n Hs)|].
  intros nodes' Hp' Hs'. by rewrite (Closest_unique t target nodes') by done.
Qed.

(** ** Concrete tables *)

Definition id_of (z : Z) : list byte := be_encode 20 z.
Definition demo_addr : AddrPort := AddrPortFrom (Addr4 3221225985) 6881.
Definition demo0 : RoutingTable := NewRoutingTable [] 16.
Definition demo1 : RoutingTable := (Add demo0 (id_of 8) demo_addr (8 * second)).2.
Definition demo2 : RoutingTable := (Add demo1 (id_of 2) demo_addr (2 * second)).2.
Definition demo_table : RoutingTable := (Add demo2 (id_of 4) demo_addr (4 * second)).2.

Lemma demo_inv : rt_inv demo_table.
Proof.
  exact (rt_inv_Add demo2 _ _ _ (rt_inv_Add demo1 _ _ _ (rt_inv_Add demo0 _ _ _ (rt_inv_new _ _)))).
Qed.

(** The example of the repository's test of [Closest]. *)
Example closest_example :
  (map (fun n => be_decode (rn_ID n)) <$> Closest demo_table (id_of 3) 3) = Some [2; 4; 8].
Proof. by vm_compute. Qed.

Lemma xorBucketIndex_log2_witness :
  xorBucketIndex (id_of 5) (id_of 9) = 3 /\ -1 <= xorBucketIndex (id_of 5) (id_of 9) < 160.
Proof.
  destruct (xorBucketIndex_log2 (id_of 5) (id_of 9) eq_refl eq_refl) as [-> H].
  split; [by vm_compute|done].
Defined.

Lemma routing_table_invariant_witness :
  rt_inv demo_table /\ NoDup (rn_ID <$> Snapshot demo_table) /\
  Len demo_table = Z.of_nat (length (Snapshot demo_table)).
Proof.
  apply (routing_table_invariant [] 16 demo_table).
  refine (star_step _ demo0 demo1 _ (step_Add demo0 _ _ _) _).
  refine (star_step _ demo1 demo2 _ (step_Add demo1 _ _ _) _).
  refine (star_step _ demo2 demo_table _ (step_Add demo2 _ _ _) _).
  exact (star_refl _ _).
Defined.

Lemma Add_refines_lru_witness :
  (Add demo_table (id_of 1) demo_addr 9).1 = true /\
  bucket_at (Add demo_table (id_of 1) demo_addr 9).2 0 = [mkNode (id_of 1) demo_addr 9].
Proof.
  destruct (Add_refines_lru demo_table (id_of 1) demo_addr 9 demo_inv) as [H _].
  destruct H as (H1 & H2 & _); [by vm_compute|].
  split; [rewrite H1; by vm_compute|].
  transitivity (bucket_at (Add demo_table (id_of 1) demo_addr 9).2
                  (Z.to_nat (xorBucketIndex (rt_localID demo_table) (id_of 1)))).
  - by vm_compute.
  - rewrite H2. by vm_compute.
Defined.

Lemma Prune_keeps_recent_witness :
  Len (Prune demo_table (3 * second)) = 2.
Proof.
  destruct (Prune_keeps_recent demo_table (3 * second) demo_inv) as [_ ->]. by vm_compute.
Defined.

Lemma Closest_nearest_witness :
  exists res, Closest demo_table (id_of 3) 2 = Some res /\ Z.of_nat (length res) = 2.
Proof.
  destruct (Closest_nearest demo_table (id_of 3) 2 demo_inv eq_refl ltac:(lia))
    as (res & rest & H & _ & Hl & _).
  exists res. split; [exact H|]. rewrite Hl. by vm_compute.
Defined.
