(* ===== verification/Requests.v ===== *)
(** * Pending get_peers requests (dhtc-client/indexingService.go)

    The transaction table of an indexing service: the fields of
    [IndexingService] guarded by [requestsMu], and the code that runs while the
    mutex is held. Every definition below is one critical section or a loop of
    one, so that the interleavings of the service's goroutines are sequences of
    [rq_step]. Transaction ids are two bytes; the map from info hash to the
    number of pending requests holds Go [uint8] counts. *)

From S2P Require Import Prelude.

Record getPeersEntry : Type := mkEntry { infoHash : list byte; createdAt : time }.
#[export] Instance getPeersEntry_eq_dec : EqDecision getPeersEntry.
Proof. solve_decision. Defined.

Definition maxPendingGetPeersRequests : Z := 8192.
Definition getPeersRequestTimeout : duration := 15 * second.
Definition maxPendingRequestsPerInfoHash : Z := 2.

Definition txid : Type := byte * byte.
#[export] Instance txid_eq_dec : EqDecision txid := _.
#[export] Instance txid_countable : Countable txid := _.

Record requests : Type := mkRequests {
  counter : Z;
  getPeersRequests : gmap txid getPeersEntry;
  pendingInfoHashes : gmap (list byte) Z;
  nextRequestExpiry : time;
  requestsRejected : Z;
  requestsDeduped : Z;
  requestsSendDropped : Z
}.

Definition newRequests : requests := mkRequests 0 ∅ ∅ 0 0 0 0.

Definition uint16BE (v : Z) : txid := (z2b (v / 2 ^ 8), z2b v).

(** The update functions of the record. *)
Definition with_maps (rq : requests) (m : gmap txid getPeersEntry) (p : gmap (list byte) Z) : requests :=
  mkRequests (counter rq) m p (nextRequestExpiry rq)
    (requestsRejected rq) (requestsDeduped rq) (requestsSendDropped rq).
Definition with_expiry (rq : requests) (t : time) : requests :=
  mkRequests (counter rq) (getPeersRequests rq) (pendingInfoHashes rq) t
    (requestsRejected rq) (requestsDeduped rq) (requestsSendDropped rq).
Definition with_counter (rq : requests) (c : Z) : requests :=
  mkRequests c (getPeersRequests rq) (pendingInfoHashes rq) (nextRequestExpiry rq)
    (requestsRejected rq) (requestsDeduped rq) (requestsSendDropped rq).

Definition removeGetPeersRequestLocked (t : txid) (entry : getPeersEntry) (rq : requests) : requests :=
  let m := delete t (getPeersRequests rq) in
  let hashKey := infoHash entry in
  let count := default 0 (pendingInfoHashes rq !! hashKey) in
  if count <=? 1
  then with_maps rq m (delete hashKey (pendingInfoHashes rq))
  else with_maps rq m (<[hashKey := u8 (count - 1)]> (pendingInfoHashes rq)).

(** The [range] loop of the expiry pass over the entries not yet visited. *)
Fixpoint expire_loop (cutoff : time) (l : list (txid * getPeersEntry)) (rq : requests)
    (nextExpiry : time) : requests :=
  match l with
  | [] => with_expiry rq nextExpiry
  | (t, entry) :: l' =>
      if createdAt entry <=? cutoff
      then expire_loop cutoff l' (removeGetPeersRequestLocked t entry rq) nextExpiry
      else
        let expiresAt := createdAt entry + getPeersRequestTimeout in
        expire_loop cutoff l' rq
          (if IsZero nextExpiry || (expiresAt <? nextExpiry) then expiresAt else nextExpiry)
  end.

Definition expireOldGetPeersRequestsLocked (now : time) (rq : requests) : requests :=
  if negb (IsZero (nextRequestExpiry rq)) && (now <? nextRequestExpiry rq) then rq
  else expire_loop (now - getPeersRequestTimeout) (map_to_list (getPeersRequests rq)) rq 0.

(** The loop that draws a free transaction id: the id and the new counter.
    [None] is running out of fuel; [find_txid_total] shows it does not happen. *)
Fixpoint find_txid (fuel : nat) (now : time) (m : gmap txid getPeersEntry) (c : Z)
    : option (txid * Z) :=
  match fuel with
  | O => None
  | S fuel' =>
      let t := uint16BE c in
      let c' := u16 (c + 1) in
      match m !! t with
      | None => Some (t, c')
      | Some entry =>
          if getPeersRequestTimeout <=? now - createdAt entry then Some (t, c')
          else find_txid fuel' now m c'
      end
  end.

Inductive reservation : Type :=
  | Deduped
  | Rejected
  | Reserved (t : txid)
  | OutOfFuel.

(** The first critical section of [requestPeers]. *)
Definition reserve (now : time) (hashKey : list byte) (rq0 : requests) : reservation * requests :=
  let rq := expireOldGetPeersRequestsLocked now rq0 in
  if maxPendingRequestsPerInfoHash <=? default 0 (pendingInfoHashes rq !! hashKey) then
    (Deduped, mkRequests (counter rq) (getPeersRequests rq) (pendingInfoHashes rq)
       (nextRequestExpiry rq) (requestsRejected rq) (u64 (requestsDeduped rq + 1)) (requestsSendDropped rq))
  else if maxPendingGetPeersRequests <=? Z.of_nat (size (getPeersRequests rq)) then
    (Rejected, mkRequests (counter rq) (getPeersRequests rq) (pendingInfoHashes rq)
       (nextRequestExpiry rq) (u64 (requestsRejected rq + 1)) (requestsDeduped rq) (requestsSendDropped rq))
  else
    match find_txid (Z.to_nat 65536) now (getPeersRequests rq) (counter rq) with
    | None => (OutOfFuel, rq)
    | Some (t, c) =>
        let expiresAt := now + getPeersRequestTimeout in
        let rq1 := with_maps (with_counter rq c)
          (<[t := mkEntry hashKey now]> (getPeersRequests rq))
          (<[hashKey := u8 (default 0 (pendingInfoHashes rq !! hashKey) + 1)]> (pendingInfoHashes rq)) in
        (Reserved t,
         if IsZero (nextRequestExpiry rq) || (expiresAt <? nextRequestExpiry rq)
         then with_expiry rq1 expiresAt else rq1)
    end.

(** Look a transaction up and remove it if it is there: the critical section of
    [onGetPeersResponse]. *)
Definition take_request (t : txid) (rq : requests) : option getPeersEntry * requests :=
  match getPeersRequests rq !! t with
  | Some entry => (Some entry, removeGetPeersRequestLocked t entry rq)
  | None => (None, rq)
  end.

(** The second critical section of [requestPeers], after a failed send. *)
Definition release (t : txid) (rq0 : requests) : requests :=
  let rq := (take_request t rq0).2 in
  mkRequests (counter rq) (getPeersRequests rq) (pendingInfoHashes rq) (nextRequestExpiry rq)
    (requestsRejected rq) (requestsDeduped rq) (u64 (requestsSendDropped rq + 1)).

Definition pendingGetPeersRequests (now : time) (rq : requests) : nat * requests :=
  let rq' := expireOldGetPeersRequestsLocked now rq in
  (size (getPeersRequests rq'), rq').

(** The critical sections of all goroutines that touch the table. *)
Inductive rq_step (rq : requests) : requests -> Prop :=
  | step_reserve now h : 0 <= now -> rq_step rq (reserve now h rq).2
  | step_release t : rq_step rq (release t rq)
  | step_response t : rq_step rq (take_request t rq).2
  | step_expire now : 0 <= now -> rq_step rq (expireOldGetPeersRequestsLocked now rq).

(** ** Invariant *)

Definition entries_of (h : list byte) (m : gmap txid getPeersEntry) : gmap txid getPeersEntry :=
  filter (fun te => infoHash te.2 = h) m.
Definition pending_count (h : list byte) (m : gmap txid getPeersEntry) : Z :=
  Z.of_nat (size (entries_of h m)).

(** The count map agrees with the transaction table. *)
Definition counts_ok (rq : requests) : Prop :=
  forall h, pendingInfoHashes rq !! h =
    if pending_count h (getPeersRequests rq) =? 0 then None
    else Some (pending_count h (getPeersRequests rq)).

Record rq_inv (rq : requests) : Prop := {
  inv_counts : counts_ok rq;
  inv_per_hash : forall h, pending_count h (getPeersRequests rq) <= maxPendingRequestsPerInfoHash;
  inv_size : Z.of_nat (size (getPeersRequests rq)) <= maxPendingGetPeersRequests;
  inv_created : forall t e, getPeersRequests rq !! t = Some e -> 0 <= createdAt e;
  inv_expiry : forall t e, getPeersRequests rq !! t = Some e ->
    nextRequestExpiry rq <> 0 /\ nextRequestExpiry rq <= createdAt e + getPeersRequestTimeout;
  inv_counter : 0 <= counter rq < 65536
}.

(** ** Counting *)

Lemma pending_count_insert h m t e :
  m !! t = None ->
  pending_count h (<[t:=e]> m) = pending_count h m + if decide (infoHash e = h) then 1 else 0.
Proof.
  intros Ht. unfold pending_count, entries_of. case_decide as Hh.
  - rewrite map_filter_insert_True by done. rewrite map_size_insert_None; [lia|].
    by apply map_lookup_filter_None; left.
  - rewrite map_filter_insert_False, delete_id by done. lia.
Qed.

Lemma pending_count_delete h m t e :
  m !! t = Some e ->
  pending_count h (delete t m) = pending_count h m - if decide (infoHash e = h) then 1 else 0.
Proof.
  intros Ht. rewrite <- (insert_delete_id m t e) at 2 by done.
  rewrite pending_count_insert by apply lookup_delete_eq. lia.
Qed.

Lemma pending_count_nonneg h m : 0 <= pending_count h m.
Proof. unfold pending_count. lia. Qed.

Lemma pending_count_pos t e m : m !! t = Some e -> 1 <= pending_count (infoHash e) m.
Proof.
  intros Ht. pose proof (pending_count_delete (infoHash e) m t e Ht) as Hd.
  rewrite decide_True in Hd by done. pose proof (pending_count_nonneg (infoHash e) (delete t m)). lia.
Qed.

Lemma counts_default rq h :
  counts_ok rq -> default 0 (pendingInfoHashes rq !! h) = pending_count h (getPeersRequests rq).
Proof.
  intros Hc. rewrite Hc. pose proof (pending_count_nonneg h (getPeersRequests rq)).
  destruct (Z.eqb_spec (pending_count h (getPeersRequests rq)) 0); simpl; lia.
Qed.

Lemma counts_insert rq t e :
  counts_ok rq -> getPeersRequests rq !! t = None ->
  pending_count (infoHash e) (getPeersRequests rq) < 255 ->
  counts_ok (with_maps rq (<[t:=e]> (getPeersRequests rq))
    (<[infoHash e := u8 (default 0 (pendingInfoHashes rq !! infoHash e) + 1)]> (pendingInfoHashes rq))).
Proof.
  intros Hc Ht Hb h. cbn [getPeersRequests pendingInfoHashes with_maps].
  rewrite pending_count_insert by done. pose proof (pending_count_nonneg h (getPeersRequests rq)).
  destruct (decide (infoHash e = h)) as [<-|Hne].
  - rewrite lookup_insert_eq, counts_default by done.
    rewrite (proj2 (Z.eqb_neq _ _)) by lia. unfold u8. rewrite Z.mod_small; [done|lia].
  - rewrite lookup_insert_ne, Z.add_0_r by done. apply Hc.
Qed.

Lemma counts_remove rq t e :
  counts_ok rq -> getPeersRequests rq !! t = Some e ->
  pending_count (infoHash e) (getPeersRequests rq) <= 255 ->
  counts_ok (removeGetPeersRequestLocked t e rq).
Proof.
  intros Hc Ht Hb h. unfold removeGetPeersRequestLocked. rewrite counts_default by done.
  pose proof (pending_count_pos _ _ _ Ht) as Hpos.
  assert (pending_count h (delete t (getPeersRequests rq)) =
    pending_count h (getPeersRequests rq) - if decide (infoHash e = h) then 1 else 0) as Hd
    by (by apply pending_count_delete).
  destruct (Z.leb_spec (pending_count (infoHash e) (getPeersRequests rq)) 1);
    cbn [getPeersRequests pendingInfoHashes with_maps]; rewrite Hd; case_decide as Hh; try subst h.
  - rewrite lookup_delete_eq. by rewrite (proj2 (Z.eqb_eq _ 0)) by lia.
  - rewrite lookup_delete_ne, Z.sub_0_r by done. apply Hc.
  - rewrite lookup_insert_eq, (proj2 (Z.eqb_neq _ 0)) by lia. unfold u8. rewrite Z.mod_small; [done|lia].
  - rewrite lookup_insert_ne, Z.sub_0_r by done. apply Hc.
Qed.

Lemma remove_requests t e rq :
  getPeersRequests (removeGetPeersRequestLocked t e rq) = delete t (getPeersRequests rq).
Proof. unfold removeGetPeersRequestLocked. by case_match. Qed.

Lemma remove_rest t e rq :
  counter (removeGetPeersRequestLocked t e rq) = counter rq /\
  nextRequestExpiry (removeGetPeersRequestLocked t e rq) = nextRequestExpiry rq.
Proof. unfold removeGetPeersRequestLocked. by case_match. Qed.
#[export] Hint Rewrite remove_requests : dhtc_rw.

(** ** The expiry pass *)

Lemma expire_loop_frame cutoff l rq n :
  counter (expire_loop cutoff l rq n) = counter rq /\
  (forall t, getPeersRequests rq !! t = None -> getPeersRequests (expire_loop cutoff l rq n) !! t = None).
Proof.
  revert rq n; induction l as [|[t e] l IH]; intros rq n; cbn [expire_loop]; [done|].
  case_match; [|apply IH]. destruct (IH (removeGetPeersRequestLocked t e rq) n) as [Hc Hn].
  split; [rewrite Hc; apply remove_rest|]. intros t' Ht'. apply Hn. rewrite remove_requests.
  rewrite lookup_delete_None. by right.
Qed.

(** A list of distinct keys with the entries the table has at them. *)
Definition visits (l : list (txid * getPeersEntry)) (m : gmap txid getPeersEntry) : Prop :=
  NoDup l.*1 /\ Forall (fun te => m !! te.1 = Some te.2) l.

Lemma visits_cons t e l m :
  visits ((t, e) :: l) m ->
  m !! t = Some e /\ visits l m /\ visits l (delete t m) /\ ~ (exists e', (t, e') ∈ l).
Proof.
  intros [Hnd Hf]. apply Forall_cons in Hf as [He Hf]. csimpl in *.
  apply NoDup_cons in Hnd as [Hnin Hnd].
  assert (~ exists e', (t, e') ∈ l) as Hno.
  { intros [e' Hin]. apply Hnin, list_elem_of_fmap. by exists (t, e'). }
  repeat split; try done. apply Forall_forall. intros [t' e'] Hin. rewrite Forall_forall in Hf.
  specialize (Hf _ Hin). cbn [fst snd] in *. rewrite lookup_delete_ne; [done|]. intros ->. eauto.
Qed.

Lemma visits_all m : visits (map_to_list m) m.
Proof.
  split; [apply NoDup_fst_map_to_list|]. apply Forall_forall. intros [t e] H.
  by apply elem_of_map_to_list in H.
Qed.

Lemma expire_loop_lookup cutoff l rq n t :
  visits l (getPeersRequests rq) ->
  getPeersRequests (expire_loop cutoff l rq n) !! t =
    e ← getPeersRequests rq !! t;
    if bool_decide (createdAt e <= cutoff /\ (t, e) ∈ l) then None else Some e.
Proof.
  revert rq n; induction l as [|[t0 e0] l IH]; intros rq n Hv; cbn [expire_loop].
  { cbn. destruct (getPeersRequests rq !! t) as [e|]; cbn; [|done].
    by rewrite bool_decide_false by (intros [_ []%not_elem_of_nil]). }
  apply visits_cons in Hv as (Hl & Hv & Hvd & Hno).
  destruct (Z.leb_spec (createdAt e0) cutoff) as [Hle|Hgt].
  - rewrite IH by (by rewrite remove_requests). rewrite remove_requests.
    destruct (decide (t0 = t)) as [->|Hne].
    + rewrite lookup_delete_eq, Hl. cbn. by rewrite bool_decide_true by (split; [done|left]).
    + rewrite lookup_delete_ne by done. destruct (getPeersRequests rq !! t) as [e|]; cbn; [|done].
      erewrite bool_decide_ext; [done|]. rewrite elem_of_cons. split; [tauto|].
      intros [? [[= -> ->]|?]]; [done|tauto].
  - rewrite IH by done. destruct (getPeersRequests rq !! t) as [e|] eqn:He; cbn; [|done].
    erewrite bool_decide_ext; [done|]. rewrite elem_of_cons. split; [tauto|].
    intros [Hc [[= -> ->]|Hin]]; [lia|done].
Qed.

Lemma expire_loop_counts cutoff l rq n :
  visits l (getPeersRequests rq) -> counts_ok rq ->
  (forall h, pending_count h (getPeersRequests rq) <= 255) ->
  counts_ok (expire_loop cutoff l rq n).
Proof.
  revert rq n; induction l as [|[t0 e0] l IH]; intros rq n Hv Hc Hb; cbn [expire_loop]; [done|].
  apply visits_cons in Hv as (Hl & Hv & Hvd & _). case_match; [|by apply IH].
  apply IH; [by rewrite remove_requests|by apply counts_remove|]. intros h.
  rewrite remove_requests, (pending_count_delete h _ _ _ Hl). specialize (Hb h). case_decide; lia.
Qed.

Lemma expire_loop_next cutoff l rq n :
  (forall te, te ∈ l -> 0 <= createdAt te.2) ->
  let n' := nextRequestExpiry (expire_loop cutoff l rq n) in
  (n <> 0 -> n' <> 0 /\ n' <= n) /\
  (forall te, te ∈ l -> cutoff < createdAt te.2 ->
     n' <> 0 /\ n' <= createdAt te.2 + getPeersRequestTimeout).
Proof.
  revert rq n; induction l as [|[t0 e0] l IH]; intros rq n Hpos n'; subst n'; cbn [expire_loop].
  { split; [cbn; lia|]. intros te []%not_elem_of_nil. }
  pose proof (Hpos (t0, e0) ltac:(left)) as H0. cbn [snd] in H0.
  assert (forall te, te ∈ l -> 0 <= createdAt te.2) as Hpos' by (intros; apply Hpos; by right).
  assert (0 < getPeersRequestTimeout) as Hto by done.
  destruct (Z.leb_spec (createdAt e0) cutoff) as [Hle|Hgt].
  - destruct (IH (removeGetPeersRequestLocked t0 e0 rq) n Hpos') as [Hn Ht].
    split; [done|]. intros te [->|Hin]%elem_of_cons Hc; [cbn in Hc; lia|]. by apply Ht.
  - match goal with |- context [expire_loop cutoff l rq ?x] => set (n1 := x) end.
    destruct (IH rq n1 Hpos') as [Hn Ht].
    assert (n1 <> 0 /\ n1 <= createdAt e0 + getPeersRequestTimeout /\ (n <> 0 -> n1 <= n)) as (H1 & H2 & H3).
    { clear - H0 Hto. subst n1. unfold IsZero. destruct (Z.eqb_spec n 0); cbn [orb]; [lia|].
      destruct (Z.ltb_spec (createdAt e0 + getPeersRequestTimeout) n); lia. }
    destruct (Hn H1) as [Hn1 Hn2]. split; [intros Hn0; specialize (H3 Hn0); lia|].
    intros te [->|Hin]%elem_of_cons Hc; [cbn [snd]; lia|]. by apply Ht.
Qed.

(** What the pass does to the table: exactly the unanswered requests of the
    last [getPeersRequestTimeout] are left. *)
Definition fresh_entries (now : time) (m : gmap txid getPeersEntry) : gmap txid getPeersEntry :=
  filter (fun te => now - getPeersRequestTimeout < createdAt te.2) m.

Lemma expire_table rq now :
  rq_inv rq ->
  getPeersRequests (expireOldGetPeersRequestsLocked now rq) = fresh_entries now (getPeersRequests rq).
Proof.
  intros [_ _ _ _ He _]. unfold expireOldGetPeersRequestsLocked, fresh_entries.
  unfold IsZero in *. destruct (Z.eqb_spec (nextRequestExpiry rq) 0) as [Hz|Hz]; cbn [negb andb];
    [|destruct (Z.ltb_spec now (nextRequestExpiry rq)) as [Hn|Hn]].
  2: { symmetry. apply map_filter_id. intros t e Ht. cbn [snd].
       destruct (He t e Ht). lia. }
  all: apply map_eq; intros t; rewrite expire_loop_lookup by apply visits_all.
  all: rewrite map_lookup_filter; destruct (getPeersRequests rq !! t) as [e|] eqn:Ht; cbn; [|done].
  all: case_guard as Hg; case_bool_decide as Hb; try done; exfalso.
  1, 3: destruct Hb; lia.
  all: apply Hb; split; [lia|by apply elem_of_map_to_list].
Qed.

Lemma pending_count_mono h (m m' : gmap txid getPeersEntry) :
  m' ⊆ m -> pending_count h m' <= pending_count h m.
Proof.
  intros Hs. unfold pending_count, entries_of. apply inj_le, map_subseteq_size.
  by apply map_filter_subseteq_mono.
Qed.

Lemma expire_inv rq now :
  rq_inv rq -> 0 <= now -> rq_inv (expireOldGetPeersRequestsLocked now rq).
Proof.
  intros Hinv Hnow. pose proof (expire_table rq now Hinv) as Ht.
  assert (getPeersRequests (expireOldGetPeersRequestsLocked now rq) ⊆ getPeersRequests rq) as Hsub
    by (rewrite Ht; apply map_filter_subseteq).
  destruct Hinv as [Hc Hph Hsz Hcr Hex Hctr].
  split.
  - unfold expireOldGetPeersRequestsLocked. case_match; [done|].
    apply expire_loop_counts; [apply visits_all|done|]. intros h. specialize (Hph h).
    unfold maxPendingRequestsPerInfoHash in Hph. lia.
  - intros h. etransitivity; [by apply pending_count_mono|done].
  - etransitivity; [|done]. by apply inj_le, map_subseteq_size.
  - intros t e Hte. apply (Hcr t). by eapply lookup_weaken.
  - intros t e Hte. assert (getPeersRequests rq !! t = Some e) as Hte' by (by eapply lookup_weaken).
    revert Hte. unfold expireOldGetPeersRequestsLocked. case_match; intros Hte; [by apply (Hex t)|].
    rewrite expire_loop_lookup, Hte' in Hte by apply visits_all. cbn in Hte.
    case_bool_decide as Hb; [done|].
    apply (expire_loop_next _ (map_to_list (getPeersRequests rq)) rq 0) with (te := (t, e)).
    + intros [t' e'] Hin. apply elem_of_map_to_list in Hin. by apply (Hcr t').
    + by apply elem_of_map_to_list.
    + cbn [snd]. apply elem_of_map_to_list in Hte'. apply Z.nle_gt. tauto.
  - unfold expireOldGetPeersRequestsLocked. case_match; [done|]. by rewrite (proj1 (expire_loop_frame _ _ _ _)).
Qed.

(** ** Drawing a transaction id *)

Lemma uint16BE_inj v w : 0 <= v < 65536 -> 0 <= w < 65536 -> uint16BE v = uint16BE w -> v = w.
Proof.
  unfold uint16BE. intros Hv Hw [= H1 H2]. apply (f_equal b2z) in H1, H2. rewrite !b2z_z2b in *.
  change (2 ^ 8) with 256 in *.
  rewrite !(Z.mod_small (_ / 256)) in H1 by (split; [apply Z.div_pos|apply Z.div_lt_upper_bound]; lia).
  rewrite (Z.div_mod v 256), (Z.div_mod w 256) by lia. congruence.
Qed.

(** The ids tried from [c] on, [n] of them. *)
Definition candidates (n : nat) (c : Z) : list txid :=
  (fun i => uint16BE (u16 (c + Z.of_nat i))) <$> seq 0 n.

Lemma candidates_NoDup n c : Z.of_nat n <= 65536 -> NoDup (candidates n c).
Proof.
  intros Hn. unfold candidates. apply NoDup_fmap_2_strong; [|apply NoDup_seq].
  intros i j Hi Hj Heq. apply elem_of_seq in Hi, Hj.
  apply uint16BE_inj in Heq; [|apply u16_range..]. unfold u16 in Heq.
  pose proof (Z.div_mod (c + Z.of_nat i) 65536). pose proof (Z.div_mod (c + Z.of_nat j) 65536).
  change (2 ^ 16) with 65536 in Heq. lia.
Qed.

Lemma find_txid_none fuel now m c :
  find_txid fuel now m c = None -> 0 <= c < 65536 ->
  Forall (fun t => is_Some (m !! t)) (candidates fuel c).
Proof.
  revert c; induction fuel as [|fuel IH]; intros c Hf Hc; [constructor|].
  cbn [find_txid] in Hf. destruct (m !! uint16BE c) as [e|] eqn:Hm; [|done].
  destruct (getPeersRequestTimeout <=? now - createdAt e); [done|].
  apply IH in Hf; [|apply u16_range].
  unfold candidates. cbn [seq fmap list_fmap]. constructor.
  - rewrite Z.add_0_r, u16_small by done. by rewrite Hm.
  - rewrite <- seq_shift. rewrite Forall_fmap, Forall_fmap. unfold candidates in Hf.
    rewrite Forall_fmap in Hf. eapply Forall_impl; [exact Hf|]. unfold compose. intros i.
    replace (u16 (c + Z.of_nat (S i))) with (u16 (u16 (c + 1) + Z.of_nat i)); [done|].
    unfold u16. rewrite Zplus_mod_idemp_l. f_equal. lia.
Qed.

(** As many draws as there are ids are enough while the table has fewer entries. *)
Lemma find_txid_total fuel now m c :
  0 <= c < 65536 -> Z.of_nat (size m) < Z.of_nat fuel <= 65536 ->
  is_Some (find_txid fuel now m c).
Proof.
  intros Hc Hm. destruct (find_txid _ now m c) as [r|] eqn:Hf; [eauto|exfalso].
  apply find_txid_none in Hf; [|done]. rewrite <- size_dom in Hm.
  assert (list_to_set (candidates fuel c) ⊆ dom m) as Hsub.
  { intros t Ht. apply elem_of_list_to_set in Ht. rewrite Forall_forall in Hf.
    by apply elem_of_dom, Hf. }
  apply subseteq_size in Hsub. rewrite size_list_to_set in Hsub by (apply candidates_NoDup; lia).
  unfold candidates in Hsub. rewrite length_fmap, length_seq in Hsub. lia.
Qed.

Lemma find_txid_some fuel now m c t c' :
  find_txid fuel now m c = Some (t, c') ->
  (0 <= c' < 65536) /\ (m !! t = None \/ exists e, m !! t = Some e /\ getPeersRequestTimeout <= now - createdAt e).
Proof.
  revert c; induction fuel as [|fuel IH]; intros c Hf; cbn [find_txid] in Hf; [done|].
  destruct (m !! uint16BE c) as [e|] eqn:Hm; [|simplify_eq; split; [apply u16_range|by left]].
  destruct (Z.leb_spec getPeersRequestTimeout (now - createdAt e)); [|by eapply IH].
  simplify_eq. split; [apply u16_range|]. right. eauto.
Qed.

(** ** The operations keep the invariant *)

Lemma take_request_inv rq t : rq_inv rq -> rq_inv (take_request t rq).2.
Proof.
  intros Hinv. unfold take_request. destruct (getPeersRequests rq !! t) as [e|] eqn:Ht; cbn; [|done].
  destruct Hinv as [Hc Hph Hsz Hcr Hex Hctr]. destruct (remove_rest t e rq) as [Hr1 Hr2].
  split; rewrite ?remove_requests, ?Hr1, ?Hr2; try done.
  - apply counts_remove; try done. specialize (Hph (infoHash e)).
    unfold maxPendingRequestsPerInfoHash in Hph. lia.
  - intros h. etransitivity; [apply pending_count_mono, delete_subseteq|done].
  - etransitivity; [|done]. apply inj_le, map_subseteq_size, delete_subseteq.
  - intros t' e' H. by apply lookup_delete_Some in H as [_ ?%Hcr].
  - intros t' e' H. by apply lookup_delete_Some in H as [_ ?%Hex].
Qed.

(** The table after an insertion at a free id. *)
Lemma insert_inv rq t h now c n :
  rq_inv rq -> 0 <= now -> 0 <= c < 65536 ->
  getPeersRequests rq !! t = None ->
  pending_count h (getPeersRequests rq) < maxPendingRequestsPerInfoHash ->
  Z.of_nat (size (getPeersRequests rq)) < maxPendingGetPeersRequests ->
  n <> 0 /\ n <= now + getPeersRequestTimeout /\
    (nextRequestExpiry rq <> 0 -> n <= nextRequestExpiry rq) ->
  rq_inv (with_expiry (with_maps (with_counter rq c)
    (<[t := mkEntry h now]> (getPeersRequests rq))
    (<[h := u8 (default 0 (pendingInfoHashes rq !! h) + 1)]> (pendingInfoHashes rq))) n).
Proof.
  intros [Hc Hph Hsz Hcr Hex Hctr] Hnow Hctr' Hnone Hlt Hlen (Hn0 & Hn1 & Hn2).
  unfold maxPendingRequestsPerInfoHash in *.
  split; cbn [getPeersRequests nextRequestExpiry counter with_expiry with_maps with_counter].
  - apply (counts_insert rq t (mkEntry h now) Hc Hnone). cbn [infoHash]. lia.
  - intros h'. rewrite pending_count_insert by done. specialize (Hph h'). cbn [infoHash].
    unfold maxPendingRequestsPerInfoHash. case_decide; [subst h'|]; lia.
  - rewrite map_size_insert_None by done. lia.
  - intros t' e' [[<- <-]|[_ ?%Hcr]]%lookup_insert_Some; done.
  - intros t' e' [[<- <-]|[_ He]]%lookup_insert_Some; [done|]. apply Hex in He. lia.
  - done.
Qed.

Lemma if_with_expiry (b : bool) rq n :
  (if b then with_expiry rq n else rq) = with_expiry rq (if b then n else nextRequestExpiry rq).
Proof. by destruct b, rq. Qed.

(** Everything [reserve] can answer, against the table left by the expiry pass. *)
Lemma reserve_cases rq now h :
  rq_inv rq -> 0 <= now ->
  let m := fresh_entries now (getPeersRequests rq) in
  let '(r, rq') := reserve now h rq in
  match r with
  | Deduped => pending_count h m = maxPendingRequestsPerInfoHash /\ getPeersRequests rq' = m
  | Rejected => pending_count h m < maxPendingRequestsPerInfoHash /\
      Z.of_nat (size m) = maxPendingGetPeersRequests /\ getPeersRequests rq' = m
  | Reserved t => pending_count h m < maxPendingRequestsPerInfoHash /\
      Z.of_nat (size m) < maxPendingGetPeersRequests /\ m !! t = None /\
      getPeersRequests rq' = <[t := mkEntry h now]> m
  | OutOfFuel => False
  end /\ rq_inv rq'.
Proof.
  intros Hinv Hnow m. unfold reserve. pose proof (expire_table rq now Hinv) as Ht. fold m in Ht.
  pose proof (expire_inv rq now Hinv Hnow) as Hinv'.
  set (rq1 := expireOldGetPeersRequestsLocked now rq) in *. clearbody rq1.
  assert (forall t e, m !! t = Some e -> now - getPeersRequestTimeout < createdAt e) as Hfr
    by (intros t e [_ ?]%map_lookup_filter_Some; done).
  clearbody m. subst m.
  rewrite counts_default by apply Hinv'.
  pose proof (inv_per_hash _ Hinv' h) as Hh. pose proof (inv_size _ Hinv') as Hsz.
  destruct (Z.leb_spec maxPendingRequestsPerInfoHash (pending_count h (getPeersRequests rq1))).
  { split; [split; [lia|done]|destruct Hinv'; by split]. }
  destruct (Z.leb_spec maxPendingGetPeersRequests (Z.of_nat (size (getPeersRequests rq1)))).
  { split; [repeat split; [done|lia]|destruct Hinv'; by split]. }
  destruct (find_txid _ now _ _) as [[t c']|] eqn:Hf.
  2: { exfalso. eapply eq_None_not_Some; [exact Hf|]. apply find_txid_total; [apply Hinv'|].
       unfold maxPendingGetPeersRequests in *. rewrite Z2Nat.id; lia. }
  apply find_txid_some in Hf as [Hc' Hfree].
  assert (getPeersRequests rq1 !! t = None) as Hnone.
  { destruct Hfree as [?|(e & He & Hle)]; [done|]. apply Hfr in He. lia. }
  rewrite <- counts_default by apply Hinv'. rewrite if_with_expiry.
  split; [repeat split; (done || by rewrite counts_default by apply Hinv')|].
  apply insert_inv; try done.
  cbn [nextRequestExpiry with_maps with_counter]. clear - Hnow. unfold IsZero.
  assert (0 < getPeersRequestTimeout) as Hto by done.
  destruct (Z.eqb_spec (nextRequestExpiry rq1) 0); cbn [orb]; [lia|].
  destruct (Z.ltb_spec (now + getPeersRequestTimeout) (nextRequestExpiry rq1)); lia.
Qed.

Lemma reserve_inv rq now h : rq_inv rq -> 0 <= now -> rq_inv (reserve now h rq).2.
Proof.
  intros Hinv Hnow. pose proof (reserve_cases rq now h Hinv Hnow) as Hr. cbv zeta in Hr.
  destruct (reserve now h rq). by destruct Hr.
Qed.

Lemma rq_step_inv rq rq' : rq_inv rq -> rq_step rq rq' -> rq_inv rq'.
Proof.
  intros Hinv Hs. destruct Hs.
  - by apply reserve_inv.
  - pose proof (take_request_inv rq t Hinv) as Ht. unfold release.
    destruct Ht. by split.
  - by apply take_request_inv.
  - by apply expire_inv.
Qed.

Lemma newRequests_inv : rq_inv newRequests.
Proof.
  by split.
Qed.

(** ** Properties *)

(** C2: Whatever the order in which the service's goroutines enter their
    critical sections, the two maps agree: the count of every info hash is the
    number of its transactions in the table (and it is absent when there is
    none), no info hash has more than two, the table never holds more than
    8192 transactions, and the time of the next expiry pass is never after the
    first time a transaction is due. *)
Theorem requests_invariant rq : star rq_step newRequests rq -> rq_inv rq.
Proof. intros Hs. eapply star_inv; [exact rq_step_inv|exact Hs|apply newRequests_inv]. Qed.

(** Reserving a transaction first drops every request older than 15 seconds
    and only those; then an info hash that already has two pending requests is
    deduplicated and a full table rejects, both leaving the table as it is;
    in every other case an unused transaction id is found and holds the new
    request. *)
Theorem reserve_spec rq now h :
  rq_inv rq -> 0 <= now ->
  let m := fresh_entries now (getPeersRequests rq) in
  let '(r, rq') := reserve now h rq in
  match r with
  | Deduped => pending_count h m = maxPendingRequestsPerInfoHash /\ getPeersRequests rq' = m
  | Rejected => pending_count h m < maxPendingRequestsPerInfoHash /\
      Z.of_nat (size m) = maxPendingGetPeersRequests /\ getPeersRequests rq' = m
  | Reserved t => pending_count h m < maxPendingRequestsPerInfoHash /\
      Z.of_nat (size m) < maxPendingGetPeersRequests /\ m !! t = None /\
      getPeersRequests rq' = <[t := mkEntry h now]> m
  | OutOfFuel => False
  end.
Proof.
  intros Hinv Hnow. pose proof (reserve_cases rq now h Hinv Hnow) as Hr. cbv zeta in *.
  destruct (reserve now h rq). by destruct Hr.
Qed.

(** A response is matched to its request at most once: the transaction that
    was just reserved is taken with its info hash, a second response with the
    same id finds nothing, and when the query could not be sent the table and
    the count of the info hash are back to what they were after the expiry
    pass. *)
Theorem response_matched_once rq now h t rq' :
  rq_inv rq -> 0 <= now -> reserve now h rq = (Reserved t, rq') ->
  let '(e, rq'') := take_request t rq' in
  e = Some (mkEntry h now) /\
  (take_request t rq'').1 = None /\
  getPeersRequests rq'' = fresh_entries now (getPeersRequests rq) /\
  getPeersRequests (release t rq') = fresh_entries now (getPeersRequests rq) /\
  pendingInfoHashes (release t rq') = pendingInfoHashes (expireOldGetPeersRequestsLocked now rq).
Proof.
  intros Hinv Hnow Hr. pose proof (reserve_cases rq now h Hinv Hnow) as Hc. cbv zeta in Hc.
  rewrite Hr in Hc. destruct Hc as [(_ & _ & Hnone & Htab) Hinv'].
  assert (take_request t rq' = (Some (mkEntry h now), removeGetPeersRequestLocked t (mkEntry h now) rq')) as Htake
    by (unfold take_request; by rewrite Htab, lookup_insert_eq).
  unfold release. rewrite Htake. cbn [fst snd getPeersRequests pendingInfoHashes].
  assert (getPeersRequests (removeGetPeersRequestLocked t (mkEntry h now) rq') =
    fresh_entries now (getPeersRequests rq)) as Htab'.
  { rewrite remove_requests, Htab, delete_insert_id; done. }
  assert (rq_inv (take_request t rq').2) as Hinv'' by (by apply take_request_inv).
  rewrite Htake in Hinv''. cbn [snd] in Hinv''.
  repeat split; try done.
  - unfold take_request. by rewrite Htab', Hnone.
  - apply map_eq. intros h'. rewrite (inv_counts _ Hinv''), Htab'.
    rewrite (inv_counts _ (expire_inv rq now Hinv Hnow)). by rewrite (expire_table rq now Hinv).
Qed.

(** ** Witnesses *)

Definition demo_hash : list byte := repeat x07 20.
Definition demo_time : time := 63900000000 * second.
Definition demo1 : requests := (reserve demo_time demo_hash newRequests).2.
Definition demo2 : requests := (reserve (demo_time + second) demo_hash demo1).2.

Lemma demo_steps : star rq_step newRequests demo2.
Proof.
  eapply star_step; [apply (step_reserve _ demo_time demo_hash); done|].
  eapply star_step; [apply (step_reserve _ (demo_time + second) demo_hash); done|]. apply star_refl.
Qed.

Lemma demo1_reserved : exists rq', reserve demo_time demo_hash newRequests = (Reserved (x00, x00), rq').
Proof. eexists. vm_compute. reflexivity. Qed.

Lemma demo2_inv : rq_inv demo2.
Proof. eapply star_inv; [exact rq_step_inv|exact demo_steps|apply newRequests_inv]. Qed.

Theorem requests_invariant_witness :
  star rq_step newRequests demo2 /\ rq_inv demo2 /\ size (getPeersRequests demo2) = 2%nat.
Proof. split; [exact demo_steps|split; [exact (requests_invariant demo2 demo_steps)|vm_compute; reflexivity]]. Defined.

(** A third request for the same hash is deduplicated until the others expire. *)
Theorem reserve_spec_witness :
  (reserve (demo_time + 2 * second) demo_hash demo2).1 = Deduped /\
  (reserve (demo_time + 17 * second) demo_hash demo2).1 = Reserved (x00, x02) /\
  pending_count demo_hash (fresh_entries (demo_time + 2 * second) (getPeersRequests demo2)) = 2.
Proof.
  pose proof (reserve_spec demo2 (demo_time + 2 * second) demo_hash demo2_inv ltac:(done)) as H.
  split; [vm_compute; reflexivity|split; [vm_compute; reflexivity|]].
  cbv zeta in H. destruct (reserve _ _ _) as [r rq'] eqn:E.
  assert (r = Deduped) as -> by (change r with (r, rq').1; rewrite <- E; vm_compute; reflexivity).
  exact (proj1 H).
Defined.

Theorem response_matched_once_witness :
  (take_request (x00, x00) (take_request (x00, x00) demo1).2).1 = None.
Proof.
  destruct demo1_reserved as [rq' E].
  pose proof (response_matched_once newRequests demo_time demo_hash (x00, x00) rq' newRequests_inv
    ltac:(done) E) as H.
  unfold demo1. rewrite E. cbn [snd]. destruct (take_request (x00, x00) rq') as [e rq''].
  exact (proj1 (proj2 H)).
Defined.
