(* ===== verification/Frontend.v ===== *)
(** * The JavaScript of the repository

    [Notifications]: ui/static/js/lazycat-notifications.src.js, the source of
    the bundled script behind window.dhtcNotifySystem. Its two [async]
    functions share the module variables [currentDevicePromise] and
    [unavailable]; every stretch of code between two [await]s is one step, and
    any number of calls of [notify] may be under way. The gateway and the
    device belong to the SDK: they appear only through what their promises
    settle with, which the events choose.

    [Screenshots]: scripts/screenshot.js, the wait for the server and the
    capture of the pages. What the browser answers is an argument.

    [Tailwind]: tailwind.config.js, the record that it exports. What its glob matches
    is up to the library; Pages.v relates it to the templates that are served. *)

From S2P Require Import Prelude.

Module Notifications.

(** What [device?.notification?.Notify] finds. *)
Inductive notify_member : Type :=
  | NoNotify                (* device, notification or Notify is missing *)
  | NotCallable             (* something truthy that is not a function *)
  | Callable.

(** The property [gateway.currentDevice]: it throws, or is a promise. *)
Inductive getter : Type := GetterThrows | GetterPromise.

Record notify_args : Type := mkNotifyArgs {
  title : option string; body : option string; deeplinkUrl : option string
}.

Record payload : Type := mkPayload { p_title : string; p_body : string; p_deeplinkUrl : string }.

(** [x || d] for a string that may be undefined. *)
Definition js_or (x : option string) (d : string) : string :=
  match x with Some s => if decide (s = ""%string) then d else s | None => d end.

(** [currentDevicePromise]: unset, pending, or resolved (the [catch] turns a
    rejection into a resolution with null). *)
Inductive device_promise : Type := Unset | Pending | Resolved (d : notify_member).

(** Where a call of [notify] stands. *)
Inductive pc : Type :=
  | AwaitNull               (* getCurrentDevice returned null *)
  | AwaitDevice             (* getCurrentDevice returned currentDevicePromise *)
  | AwaitNotify             (* inside the try, Notify called *)
  | Returned (b : bool)
  | Threw.

Record call : Type := mkCall { c_args : option notify_args; c_pc : pc }.

Record state : Type := mkState {
  unavailable : bool;
  currentDevicePromise : device_promise;
  created : nat;                         (* promises obtained from the gateway *)
  calls : list call;
  notified : list (nat * payload)        (* calls of Notify, latest first *)
}.

Definition init : state := mkState false Unset 0 [] [].

(** [getCurrentDevice] up to its promise: where the caller's [await] waits. *)
Definition getCurrentDevice (g : getter) (s : state) : pc * state :=
  if unavailable s then (AwaitNull, s)
  else match currentDevicePromise s with
  | Unset =>
      match g with
      | GetterThrows => (Threw, s)
      | GetterPromise => (AwaitDevice,
          mkState (unavailable s) Pending (S (created s)) (calls s) (notified s))
      end
  | _ => (AwaitDevice, s)
  end.

(** [notify] up to its first [await]; without an argument the destructuring throws. *)
Definition notify_start (a : option notify_args) (g : getter) (s : state) : state :=
  match a with
  | None => mkState (unavailable s) (currentDevicePromise s) (created s)
              (calls s ++ [mkCall a Threw]) (notified s)
  | Some _ =>
      let '(p, s') := getCurrentDevice g s in
      mkState (unavailable s') (currentDevicePromise s') (created s')
        (calls s' ++ [mkCall a p]) (notified s')
  end.

(** The object literal passed to Notify. *)
Definition notify_payload (a : notify_args) (href : string) : payload :=
  mkPayload (js_or (title a) "dhtc") (js_or (body a) "") (js_or (deeplinkUrl a) href).

(** [notify] from the device to the [await] on Notify. *)
Definition notify_device (d : notify_member) : pc :=
  match d with
  | NoNotify => Returned false
  | NotCallable => Returned false
  | Callable => AwaitNotify
  end.

(** What the first [await] of a call resumes with; [None] while it waits. *)
Definition awaited (p : pc) (q : device_promise) : option notify_member :=
  match p, q with
  | AwaitNull, _ => Some NoNotify
  | AwaitDevice, Resolved d => Some d
  | _, _ => None
  end.

Inductive event : Type :=
  | Call (a : option notify_args) (g : getter)
  | GatewaySettles (r : option notify_member)   (* [None]: the promise is rejected *)
  | DeviceArrives (i : nat) (href : string)     (* call i continues after its first await *)
  | NotifySettles (i : nat) (ok : bool).        (* Notify's promise of call i settles *)

Definition set_pc (i : nat) (c : call) (p : pc) (l : list call) : list call :=
  <[i := mkCall (c_args c) p]> l.

Definition js_step (s : state) (e : event) : option state :=
  match e with
  | Call a g => Some (notify_start a g s)
  | GatewaySettles r =>
      match currentDevicePromise s with
      | Pending => Some (match r with
          | Some d => mkState (unavailable s) (Resolved d) (created s) (calls s) (notified s)
          | None => mkState true (Resolved NoNotify) (created s) (calls s) (notified s)
          end)
      | _ => None
      end
  | DeviceArrives i href =>
      c ← calls s !! i;
      a ← c_args c;
      d ← awaited (c_pc c) (currentDevicePromise s);
      let p := notify_device d in
      Some (mkState (unavailable s) (currentDevicePromise s) (created s)
        (set_pc i c p (calls s))
        (match p with AwaitNotify => (i, notify_payload a href) :: notified s | _ => notified s end))
  | NotifySettles i ok =>
      c ← calls s !! i;
      match c_pc c with
      | AwaitNotify => Some (mkState (unavailable s) (currentDevicePromise s) (created s)
          (set_pc i c (Returned ok) (calls s)) (notified s))
      | _ => None
      end
  end.

Definition step (s s' : state) : Prop := exists e, js_step s e = Some s'.

(** ** The invariant of the module *)

Definition notified_by (i : nat) (s : state) : nat :=
  length (filter (fun x => x.1 = i) (notified s)).

Definition call_ok (s : state) (i : nat) (c : call) : Prop :=
  match c_pc c with
  | AwaitNull => unavailable s = true /\ notified_by i s = 0%nat
  | AwaitDevice => currentDevicePromise s <> Unset /\ notified_by i s = 0%nat
  | AwaitNotify => notified_by i s = 1%nat
  | Returned true => notified_by i s = 1%nat
  | Returned false => (notified_by i s <= 1)%nat
  | Threw => notified_by i s = 0%nat
  end /\
  forall p, (i, p) ∈ notified s -> exists a href, c_args c = Some a /\ p = notify_payload a href.

Record inv (s : state) : Prop := {
  inv_created : created s = match currentDevicePromise s with Unset => 0%nat | _ => 1%nat end;
  inv_unavailable : unavailable s = true -> currentDevicePromise s = Resolved NoNotify;
  inv_notified : Forall (fun x => (x.1 < length (calls s))%nat) (notified s);
  inv_calls : forall i c, calls s !! i = Some c -> call_ok s i c;
  inv_args : forall i c, calls s !! i = Some c -> c_args c = None -> c_pc c = Threw
}.

Lemma notified_by_cons i j p l n :
  length (filter (fun x : nat * payload => x.1 = i) l) = n ->
  length (filter (fun x : nat * payload => x.1 = i) ((j, p) :: l)) = if decide (j = i) then S n else n.
Proof. intros <-. rewrite filter_cons. cbn [fst]. by case_decide. Qed.

Lemma notified_by_fresh s : inv s -> notified_by (length (calls s)) s = 0%nat.
Proof.
  intros Hi. pose proof (inv_notified _ Hi) as Hn. unfold notified_by.
  induction Hn as [|[j p] l Hj _ IH]; [done|]. rewrite filter_cons. cbn [fst] in *.
  case_decide; [lia|done].
Qed.

Lemma notified_not_fresh s p : inv s -> (length (calls s), p) ∉ notified s.
Proof.
  intros Hi Hin. pose proof (inv_notified _ Hi) as Hn. rewrite Forall_forall in Hn.
  specialize (Hn _ Hin). cbn in Hn. lia.
Qed.

Lemma init_inv : inv init.
Proof. by split. Qed.

(** A new call leaves the others as they are. *)
Lemma inv_append s s' c :
  inv s ->
  calls s' = calls s ++ [c] -> notified s' = notified s ->
  created s' = match currentDevicePromise s' with Unset => 0%nat | _ => 1%nat end ->
  unavailable s' = unavailable s ->
  (unavailable s' = true -> currentDevicePromise s' = Resolved NoNotify) ->
  (currentDevicePromise s <> Unset -> currentDevicePromise s' <> Unset) ->
  (c_pc c = Threw \/ c_args c <> None /\
     (c_pc c = AwaitNull /\ unavailable s' = true \/ c_pc c = AwaitDevice /\ currentDevicePromise s' <> Unset)) ->
  inv s'.
Proof.
  intros Hi Hc Hn Hcr Hu Hun Hp Hnew. pose proof (notified_by_fresh s Hi) as Hf.
  unfold notified_by in *. split; [done|done|..].
  - rewrite Hc, Hn, length_app. eapply Forall_impl; [apply (inv_notified _ Hi)|]. cbn. lia.
  - intros i c'. rewrite Hc. intros [Hl|[Hl Hs]]%lookup_app_Some.
    + destruct (inv_calls _ Hi i c' Hl) as [H1 H2]. unfold call_ok, notified_by in *. rewrite Hn, Hu.
      split; [|done]. repeat case_match; (done || tauto).
    + destruct (i - length (calls s))%nat eqn:Hx; [|done]. injection Hs as <-.
      assert (i = length (calls s)) as -> by lia. unfold call_ok, notified_by. rewrite Hn.
      split; [|intros p Hin; by apply notified_not_fresh in Hin].
      destruct Hnew as [->|[_ [[-> ?]|[-> ?]]]]; done.
  - intros i c'. rewrite Hc. intros [Hl|[Hl Hs]]%lookup_app_Some; [by apply (inv_args _ Hi i)|].
    destruct (i - length (calls s))%nat; [|done]. injection Hs as <-. tauto.
Qed.

(** One call moves on, calling Notify or not. *)
Lemma inv_move s i c p l :
  inv s -> calls s !! i = Some c ->
  (l = notified s \/ notified_by i s = 0%nat /\
     exists a href, c_args c = Some a /\ l = (i, notify_payload a href) :: notified s) ->
  let s' := mkState (unavailable s) (currentDevicePromise s) (created s) (set_pc i c p (calls s)) l in
  call_ok s' i (mkCall (c_args c) p) -> (c_args c = None -> p = Threw) ->
  inv s'.
Proof.
  intros Hi Hc Hl s' Hok Harg. subst s'. assert (i < length (calls s))%nat as Hlt
    by (by eapply lookup_lt_Some).
  split; cbn [created currentDevicePromise unavailable notified calls]; try apply Hi.
  - unfold set_pc. rewrite length_insert. pose proof (inv_notified _ Hi) as Hn.
    destruct Hl as [->|(_ & a & href & _ & ->)]; [done|]. by constructor.
  - intros j c'. unfold set_pc. intros Hj. destruct (decide (i = j)) as [<-|Hne].
    { rewrite list_lookup_insert_eq in Hj by done. by injection Hj as <-. }
    rewrite list_lookup_insert_ne in Hj by done. destruct (inv_calls _ Hi j c' Hj) as [H1 H2].
    assert (forall q, (j, q) ∈ l -> (j, q) ∈ notified s) as Hin.
    { destruct Hl as [->|(_ & a & href & _ & ->)]; [done|].
      intros q [[= -> _]|Hq]%elem_of_cons; done. }
    assert (length (filter (fun x : nat * payload => x.1 = j) l) = notified_by j s) as Hcount.
    { destruct Hl as [->|(_ & a & href & _ & ->)]; [done|].
      rewrite (notified_by_cons _ _ _ _ _ eq_refl). rewrite decide_False; done. }
    unfold call_ok, notified_by in *. cbn [unavailable currentDevicePromise notified]. rewrite Hcount.
    split; [done|]. intros q Hq. by apply H2, Hin.
  - intros j c'. unfold set_pc. intros Hj. destruct (decide (i = j)) as [<-|Hne].
    { rewrite list_lookup_insert_eq in Hj by done. by injection Hj as <-. }
    rewrite list_lookup_insert_ne in Hj by done. by apply (inv_args _ Hi j).
Qed.

Lemma inv_notify_start s a g : inv s -> inv (notify_start a g s).
Proof.
  intros Hi. pose proof (inv_created _ Hi) as Hcr. pose proof (inv_unavailable _ Hi) as Hu.
  unfold notify_start. destruct a as [a|]; [|by eapply (inv_append s); eauto].
  unfold getCurrentDevice. destruct (unavailable s) eqn:Eu.
  { eapply (inv_append s); eauto. }
  destruct (currentDevicePromise s) eqn:Ep; [destruct g|..].
  all: eapply (inv_append s); cbn; rewrite ?Ep; eauto; congruence.
Qed.

Lemma inv_settles s r s' : inv s -> js_step s (GatewaySettles r) = Some s' -> inv s'.
Proof.
  intros Hi Hs. cbn [js_step] in Hs. destruct (currentDevicePromise s) eqn:Ep; try done.
  pose proof (inv_created _ Hi) as Hcr. rewrite Ep in Hcr.
  assert (unavailable s = false) as Hu.
  { destruct (unavailable s) eqn:E; [|done]. apply (inv_unavailable _ Hi) in E. congruence. }
  assert (forall s'', calls s'' = calls s -> notified s'' = notified s ->
    currentDevicePromise s'' <> Unset -> forall i c, calls s'' !! i = Some c -> call_ok s'' i c) as Hcalls.
  { intros s'' E1 E2 E3 i c Hc. rewrite E1 in Hc. destruct (inv_calls _ Hi i c Hc) as [H1 H2].
    unfold call_ok, notified_by in *. rewrite E2. split; [|done].
    destruct (c_pc c); try done; [destruct H1; congruence|by destruct H1]. }
  injection Hs as <-. destruct r; split; try (by apply Hcalls); cbn; try done; try apply Hi.
  by rewrite Hu.
Qed.

Lemma inv_arrives s i href s' : inv s -> js_step s (DeviceArrives i href) = Some s' -> inv s'.
Proof.
  intros Hi Hs. cbn [js_step] in Hs. destruct (calls s !! i) as [c|] eqn:Hc; [|done]. cbn in Hs.
  destruct (c_args c) as [a|] eqn:Ha; [|done]. cbn in Hs.
  destruct (inv_calls _ Hi i c Hc) as [H1 H2].
  destruct (awaited _ _) as [d|] eqn:Ed; [|done]. injection Hs as <-.
  assert (notified_by i s = 0%nat) as H0 by (destruct (c_pc c) as [| | |[]|]; (done || apply H1)).
  apply inv_move; try done; [| |by rewrite Ha].
  - destruct d; cbn [notify_device]; eauto 10.
  - unfold call_ok, notified_by in *. cbn [notified c_pc c_args]. split.
    + destruct d; cbn [notify_device]; try lia. rewrite (notified_by_cons _ _ _ _ _ H0). by rewrite decide_True.
    + destruct d; cbn [notify_device]; try done. intros p [[= ->]|Hp]%elem_of_cons; [eauto|by apply H2].
Qed.

Lemma inv_step s s' : inv s -> step s s' -> inv s'.
Proof.
  intros Hi [[a g|r|i href|i ok] Hs].
  - injection Hs as <-. by apply inv_notify_start.
  - by eapply inv_settles.
  - by eapply inv_arrives.
  - cbn [js_step] in Hs. destruct (calls s !! i) as [c|] eqn:Hc; [|done]. cbn in Hs.
    destruct (c_pc c) eqn:Ep; try done. injection Hs as <-.
    destruct (inv_calls _ Hi i c Hc) as [H1 H2]. rewrite Ep in H1.
    apply inv_move; try done; [by left| |].
    + split; [|done]. unfold notified_by in *. cbn. destruct ok; lia.
    + intros Hn. pose proof (inv_args _ Hi i c Hc Hn). congruence.
Qed.

(** C33: However many calls of notify overlap and whatever order the promises
    settle in: the device is asked for at most once; once that failed every
    call sees no device; every call runs the device's Notify at most once, with
    its own title, body and link (each replaced by its default when it is
    missing or empty); a call that returned true did call it; and a call that
    has not returned yet is waiting for the device or for its own Notify. *)
Theorem notify_invariant (s : state) : star step init s -> inv s /\ (created s <= 1)%nat.
Proof.
  intros Hs. assert (inv s) as Hi by (eapply star_inv; [exact inv_step|exact Hs|exact init_inv]).
  split; [done|]. rewrite (inv_created _ Hi). case_match; lia.
Qed.

(** The number of events a call still waits for. *)
Definition remaining (p : pc) : nat :=
  match p with AwaitNull => 1 | AwaitDevice => 2 | AwaitNotify => 1 | Returned _ => 0 | Threw => 0 end.

(** No call of notify is stuck and none runs forever: in every reachable
    state in which the device promise is not pending, an unfinished call has an
    event that moves it on, every such event brings it closer to its end, and
    the call of Notify decides the result (a rejection gives false, never an
    exception). *)
Theorem notify_progress (s : state) (i : nat) (c : call) :
  star step init s -> calls s !! i = Some c ->
  (c_pc c <> AwaitNotify -> currentDevicePromise s <> Pending -> (0 < remaining (c_pc c))%nat ->
     forall href, exists s' c', js_step s (DeviceArrives i href) = Some s' /\ calls s' !! i = Some c' /\
       (remaining (c_pc c') < remaining (c_pc c))%nat) /\
  (c_pc c = AwaitNotify -> forall ok, exists s', js_step s (NotifySettles i ok) = Some s' /\
     calls s' !! i = Some (mkCall (c_args c) (Returned ok))).
Proof.
  intros Hs Hc. assert (inv s) as Hi by (eapply star_inv; [exact inv_step|exact Hs|exact init_inv]).
  assert (i < length (calls s))%nat as Hlt by (by eapply lookup_lt_Some).
  destruct (inv_calls _ Hi i c Hc) as [H1 _]. split.
  - intros Hn Hp Hr href. cbn [js_step]. rewrite Hc. cbn.
    destruct (c_args c) as [a|] eqn:Ha; [|rewrite (inv_args _ Hi i c Hc Ha) in Hr; cbn in Hr; lia].
    cbn. destruct (c_pc c) eqn:Ep; cbn in Hr; try lia; try done; cbn.
    + eexists _, _. split; [done|]. cbn. unfold set_pc. rewrite list_lookup_insert_eq by done.
      split; [done|]. cbn. lia.
    + destruct (currentDevicePromise s) as [| |d]; [by destruct H1|done|]. cbn.
      eexists _, _. split; [done|]. cbn. unfold set_pc. rewrite list_lookup_insert_eq by done.
      split; [done|]. destruct d; cbn; lia.
  - intros Ep ok. cbn [js_step]. rewrite Hc. cbn. rewrite Ep. eexists. split; [done|]. cbn.
    unfold set_pc. by rewrite list_lookup_insert_eq.
Qed.

(** ** Two overlapping calls *)

Definition demo_args : notify_args := mkNotifyArgs (Some "found") (Some "") None.
Definition demo : option state :=
  s ← js_step init (Call (Some demo_args) GetterPromise);
  s ← js_step s (Call (Some demo_args) GetterPromise);
  s ← js_step s (GatewaySettles (Some Callable));
  s ← js_step s (DeviceArrives 1 "/trawl");
  js_step s (NotifySettles 1 false).
Definition demo_state : state := default init demo.

Lemma demo_star : star step init demo_state.
Proof.
  eapply star_step; [by exists (Call (Some demo_args) GetterPromise)|].
  eapply star_step; [by exists (Call (Some demo_args) GetterPromise)|].
  eapply star_step; [by exists (GatewaySettles (Some Callable))|].
  eapply star_step; [by exists (DeviceArrives 1 "/trawl")|].
  eapply star_step; [by exists (NotifySettles 1 false)|]. apply star_refl.
Qed.

Theorem notify_invariant_witness :
  created demo_state = 1%nat /\ (created demo_state <= 1)%nat /\
  notified demo_state = [(1%nat, mkPayload "found" "" "/trawl")].
Proof. split; [done|]. split; [exact (proj2 (notify_invariant demo_state demo_star))|done]. Defined.

Theorem notify_progress_witness :
  exists s' c', js_step demo_state (DeviceArrives 0 "/") = Some s' /\ calls s' !! 0%nat = Some c' /\
    (remaining (c_pc c') < 2)%nat.
Proof.
  refine (proj1 (notify_progress demo_state 0 (mkCall (Some demo_args) AwaitDevice) demo_star eq_refl)
    _ _ _ "/"%string); [done|done|cbn; lia].
Defined.

End Notifications.

Module Screenshots.

Inductive action : Type :=
  | Mkdir (dir : string)
  | Goto (url : string)
  | Sleep (ms : Z)
  | Shot (file : string)
  | Log (line : string)
  | LogError (line : string)
  | Close
  | Exit (code : Z).

#[export] Instance action_eq_dec : EqDecision action.
Proof. solve_decision. Defined.

(** What [page.goto] of the health page does at each attempt. *)
Inductive answer : Type := Status (code : Z) | GotoThrows.

Definition baseUrl : string := "http://localhost:4200".

Definition pages : list (string * string) :=
  [("dashboard", "/"); ("search", "/search"); ("discover", "/discover");
   ("watches", "/watches"); ("blacklist", "/blacklist"); ("settings", "/settings");
   ("trawl", "/trawl")]%string.

(** The [while] loop from attempt [k] on: the retries left and what was done.
    [None] is a loop that is still running after [fuel] attempts. *)
Fixpoint wait_for_server (fuel : nat) (health : nat -> answer) (k : nat) (retries : Z)
    : option (Z * list action) :=
  if retries <=? 0 then Some (retries, [])
  else match fuel with
  | O => None
  | S fuel' =>
      let visit := Goto (baseUrl ++ "/health") in
      match health k with
      | Status code =>
          if code =? 200 then Some (retries, [visit; Log "Server is ready"])
          else '(r, tr) ← wait_for_server fuel' health (S k) retries; Some (r, visit :: tr)
      | GotoThrows =>
          '(r, tr) ← wait_for_server fuel' health (S k) (retries - 1);
          Some (r, visit :: Log "Waiting for server..." :: Sleep 1000 :: tr)
      end
  end.

(** Which of the three awaited calls for a page succeed. *)
Record page_result : Type := mkPageResult { goto_ok : bool; timeout_ok : bool; shot_ok : bool }.
Definition page_ok (r : page_result) : bool := goto_ok r && timeout_ok r && shot_ok r.

Definition shot_path (dir name : string) : string := (dir ++ "/" ++ name ++ ".png")%string.

(** The body of the [for] loop. *)
Definition capture (dir : string) (r : page_result) (p : string * string) : list action :=
  [Log ("Capturing " ++ p.1 ++ "..."); Goto (baseUrl ++ p.2)] ++
  (if goto_ok r then
     Sleep 2000 ::
     (if timeout_ok r then
        if shot_ok r then [Shot (shot_path dir p.1)]
        else [LogError ("Failed to capture " ++ p.1 ++ ":")]
      else [LogError ("Failed to capture " ++ p.1 ++ ":")])
   else [LogError ("Failed to capture " ++ p.1 ++ ":")])%string.

Definition main (fuel : nat) (dirExists : bool) (dir : string) (health : nat -> answer)
    (outcome : string -> page_result) : option (list action) :=
  '(retries, tr) ← wait_for_server fuel health 0 30;
  let tr := (if dirExists then [] else [Mkdir dir]) ++ tr in
  if retries =? 0
  then Some (tr ++ [LogError "Server timed out"; Exit 1])
  else Some (tr ++ concat ((fun p => capture dir (outcome p.1) p) <$> pages) ++ [Close]).

(** ** The wait *)

(** The attempts among the first [n] from [k] that threw. *)
Fixpoint throws (health : nat -> answer) (k n : nat) : Z :=
  match n with
  | O => 0
  | S n' => (match health k with GotoThrows => 1 | Status _ => 0 end) + throws health (S k) n'
  end.

Lemma throws_range health k n : 0 <= throws health k n <= Z.of_nat n.
Proof.
  revert k; induction n as [|n IH]; intros k; [done|]. cbn [throws].
  specialize (IH (S k)). case_match; lia.
Qed.

Lemma wait_running fuel health k retries :
  wait_for_server fuel health k retries = None <->
  (forall j, (j < fuel)%nat -> health (k + j)%nat <> Status 200) /\ throws health k fuel < retries.
Proof.
  revert k retries; induction fuel as [|fuel IH]; intros k retries; cbn [wait_for_server throws].
  { destruct (Z.leb_spec retries 0); split; try done; [lia|]. intros _. split; lia. }
  pose proof (throws_range health (S k) fuel) as Hrange.
  assert (forall r, wait_for_server fuel health (S k) r = None <->
    (forall j, (j < fuel)%nat -> health (k + S j)%nat <> Status 200) /\ throws health (S k) fuel < r) as IH'.
  { intros r. rewrite IH. setoid_rewrite <- Nat.add_succ_comm. done. }
  destruct (Z.leb_spec retries 0).
  { split; [done|]. intros [_ Hlt]. case_match; lia. }
  assert (forall P : nat -> Prop, (forall j, (j < S fuel)%nat -> P j) <-> P 0%nat /\ forall j, (j < fuel)%nat -> P (S j)) as Hall.
  { intros P. split; [intros HP; split; intros; apply HP; lia|]. intros [? ?] [|j] ?; auto with lia. }
  rewrite Hall, Nat.add_0_r. destruct (health k) as [code|].
  - destruct (Z.eqb_spec code 200) as [->|Hne]; [split; [done|tauto]|].
    specialize (IH' retries). rewrite Z.add_0_l.
    destruct (wait_for_server fuel health (S k) retries) as [[r tr]|]; cbn.
    + split; [done|]. intros [[_ H1] H2]. discriminate (proj2 IH' (conj H1 H2)).
    + split; [|done]. intros _. destruct (proj1 IH' eq_refl). split; [split; [congruence|done]|done].
  - specialize (IH' (retries - 1)).
    destruct (wait_for_server fuel health (S k) (retries - 1)) as [[r tr]|]; cbn.
    + split; [done|]. intros [[_ H1] H2]. assert (throws health (S k) fuel < retries - 1) as H3 by lia.
      discriminate (proj2 IH' (conj H1 H3)).
    + split; [|done]. intros _. destruct (proj1 IH' eq_refl). split; [split; [congruence|done]|lia].
Qed.

Definition waiting_action (a : action) : Prop :=
  match a with Shot _ | Close | Exit _ | Mkdir _ => False | _ => True end.

Lemma wait_result fuel health k retries r tr :
  wait_for_server fuel health k retries = Some (r, tr) -> 0 <= retries ->
  0 <= r /\ (r <> 0 <-> Log "Server is ready" ∈ tr) /\ Forall waiting_action tr.
Proof.
  revert k retries tr; induction fuel as [|fuel IH]; intros k retries tr; cbn [wait_for_server].
  { destruct (Z.leb_spec retries 0); [|done]. intros [= <- <-] ?. split; [done|].
    split; [|done]. rewrite elem_of_nil. lia. }
  destruct (Z.leb_spec retries 0).
  { intros [= <- <-] ?. split; [done|]. split; [|done]. rewrite elem_of_nil. lia. }
  destruct (health k) as [code|].
  - destruct (code =? 200).
    { intros [= <- <-] ?. split; [lia|]. split; [|by repeat constructor].
      rewrite !elem_of_cons. split; [auto|lia]. }
    destruct (wait_for_server _ _ _ _) as [[r' tr']|] eqn:Hw; [|done]. intros [= <- <-] ?.
    destruct (IH _ _ _ Hw ltac:(lia)) as (Hr0 & Hr1 & Hr2).
    split; [done|]. rewrite Hr1, elem_of_cons. split; [|by constructor]. by split; [right|intros [?|]].
  - destruct (wait_for_server _ _ _ _) as [[r' tr']|] eqn:Hw; [|done]. intros [= <- <-] ?.
    destruct (IH _ _ _ Hw ltac:(lia)) as (Hr0 & Hr1 & Hr2).
    split; [done|]. rewrite Hr1, !elem_of_cons. split; [|by repeat constructor].
    by split; [auto|intros [?|[?|[?|]]]].
Qed.

(** C34: The wait for the server goes on forever exactly when no answer is ever
    200 and fewer than 30 attempts ever throw: an answer other than 200 uses no
    retry, so a server that answers but is not healthy is polled without end
    (and without pause). *)
Theorem wait_runs_forever_iff (health : nat -> answer) :
  (forall fuel, wait_for_server fuel health 0 30 = None) <->
  (forall k, health k <> Status 200) /\ (forall n, throws health 0 n < 30).
Proof.
  split.
  - intros H. split.
    + intros k. by apply (proj1 (wait_running (S k) health 0 30) (H (S k))); lia.
    + intros n. by apply (proj1 (wait_running n health 0 30) (H n)).
  - intros [H1 H2] fuel. apply wait_running. split; [intros; apply H1|apply H2].
Qed.

(** ** The run *)

Definition shots (tr : list action) : list string :=
  omap (fun a => match a with Shot f => Some f | _ => None end) tr.

Lemma omap_none {A B} (f : A -> option B) l : Forall (fun x => f x = None) l -> omap f l = [].
Proof. induction 1 as [|x l Hx _ IH]; [done|]. cbn. by rewrite Hx. Qed.

Lemma shots_capture dir r p :
  shots (capture dir r p) = if page_ok r then [shot_path dir p.1] else [].
Proof. unfold page_ok. destruct r as [[] [] []]; done. Qed.

Lemma shots_app l k : shots (l ++ k) = shots l ++ shots k.
Proof. apply omap_app. Qed.

Lemma shots_pages dir outcome (l : list (string * string)) :
  shots (concat ((fun p => capture dir (outcome p.1) p) <$> l)) =
  (fun p => shot_path dir p.1) <$> filter (fun p => page_ok (outcome p.1)) l.
Proof.
  induction l as [|p l IH]; [done|]. rewrite fmap_cons. cbn [concat].
  rewrite shots_app, shots_capture, IH, filter_cons. destruct (page_ok (outcome p.1)); done.
Qed.

Lemma no_exit dir outcome (l : list (string * string)) c :
  Exit c ∉ concat ((fun p => capture dir (outcome p.1) p) <$> l).
Proof.
  intros (i & k & Hk & Hin)%elem_of_concat. apply list_lookup_fmap_Some in Hk as (p & -> & _).
  unfold capture in Hin. destruct (outcome p.1) as [[] [] []]; not_in_list Hin.
Qed.

(** A run that ends either gave up (after 30 failed attempts: it exits with
    1, captures nothing and leaves the browser open) or found the server and
    captured, in order, exactly the pages whose three steps succeeded: a failing
    page is skipped and does not keep the later ones from being captured, and
    the browser is closed last. *)
Theorem main_captures (fuel : nat) (dirExists : bool) (dir : string) (health : nat -> answer)
    (outcome : string -> page_result) (tr : list action) :
  main fuel dirExists dir health outcome = Some tr ->
  (last tr = Some (Exit 1) /\ shots tr = [] /\ (Close ∉ tr) /\ (Log "Server is ready" ∉ tr)) \/
  (last tr = Some Close /\ (forall c, Exit c ∉ tr) /\ (Log "Server is ready" ∈ tr) /\
   shots tr = ((fun p => shot_path dir p.1) <$> filter (fun p => page_ok (outcome p.1)) pages)).
Proof.
  unfold main. destruct (wait_for_server fuel health 0 30) as [[r w]|] eqn:Hw; [|done]. cbn [mbind option_bind].
  destruct (wait_result _ _ _ _ _ _ Hw ltac:(lia)) as (_ & Hready & Hwait).
  assert (shots w = []) as Hs0 by (apply omap_none; eapply Forall_impl; [exact Hwait|]; by intros []).
  rewrite Forall_forall in Hwait.
  set (pre := if dirExists then [] else [Mkdir dir]).
  assert (shots pre = []) as Hp0 by (by destruct dirExists).
  assert (forall a, a ∈ pre -> a = Mkdir dir) as Hpre by (intros a; subst pre; destruct dirExists; rewrite ?list_elem_of_singleton, ?elem_of_nil; tauto).
  assert (forall a, a ∈ w -> waiting_action a) as Hin by done.
  destruct (Z.eqb_spec r 0) as [->|Hr]; intros <-%(inj Some).
  - left. rewrite ?app_assoc, !shots_app, Hs0, Hp0. repeat split.
    + by rewrite last_app.
    + rewrite !elem_of_app. intros [[Hx|Hx]|Hx]; [by apply Hpre in Hx|by apply Hin in Hx|not_in_list Hx].
    + rewrite !elem_of_app, <- Hready. intros [[Hx|Hx]|Hx]; [by apply Hpre in Hx|done|not_in_list Hx].
  - right. rewrite ?app_assoc, !shots_app, Hs0, Hp0, shots_pages. repeat split.
    + by rewrite last_app.
    + intros c. rewrite !elem_of_app. intros [[[Hx|Hx]|Hx]|Hx].
      * by apply Hpre in Hx.
      * by apply Hin in Hx.
      * by apply no_exit in Hx.
      * not_in_list Hx.
    + rewrite !elem_of_app. left. left. right. by apply Hready.
    + by rewrite app_nil_r.
Qed.

(** ** One page fails, and a server that is never healthy *)

Definition demo_outcome (name : string) : page_result :=
  mkPageResult (negb (bool_decide (name = "search"%string))) true true.
Definition demo_health (k : nat) : answer := if (k <? 2)%nat then GotoThrows else Status 200.

Theorem main_captures_witness :
  exists tr, main 5 false "shots" demo_health demo_outcome = Some tr /\
    last tr = Some Close /\ length (shots tr) = 6%nat.
Proof.
  destruct (main 5 false "shots" demo_health demo_outcome) as [tr|] eqn:E; [|discriminate E].
  exists tr. split; [reflexivity|].
  destruct (main_captures _ _ _ _ _ _ E) as [(H & _ & _ & Hn)|(H & _ & _ & Hs)].
  - exfalso. apply Hn. injection E as <-. do 8 right. left.
  - split; [exact H|]. rewrite Hs. reflexivity.
Defined.

Example unhealthy_forever fuel : wait_for_server fuel (fun _ => Status 503) 0 30 = None.
Proof.
  apply wait_runs_forever_iff. split; [done|]. intros n.
  enough (forall k, throws (fun _ => Status 503) k n = 0) as -> by done.
  induction n as [|n IH]; intros k; [done|]. cbn [throws]. by rewrite IH.
Qed.

End Screenshots.

Module Tailwind.

(** [module.exports]; a plugin is named by the module that is required. *)
Record config : Type := mkConfig {
  content : list string; theme_extend : list (string * string); plugins : list string; daisyui_themes : string
}.
Definition exports : config := mkConfig ["./ui/templates/**/*.html"%string] [] ["daisyui"%string] "all"%string.

End Tailwind.
