(* ===== verification/Transport.v ===== *)
(** * The UDP transport (dhtc-client/transport.go)

    Three bounded queues (get_peers queries, other queries, replies), each
    drained by its own goroutine through its own rate limiter, and the read loop
    with its back-off. A step of the transport is one [WriteMessages], one
    iteration of a send loop, or [Terminate]; a [select] with several ready
    cases takes any of them, which is an argument of the step. The rate
    limiters (golang.org/x/time) answer whether the wait succeeded; the socket
    and the bencode package are reached through what they return. *)

From S2P Require Import Prelude NetAddr Codec.

Record sendRequest : Type := mkSend { sr_msg : Message; sr_addr : AddrPort }.

(** [rate.NewLimiter(limit, burst)] *)
Record Limiter : Type := NewLimiter { l_limit : Z; l_burst : Z }.

(** A buffered channel. *)
Record chan : Type := mkChan { ch_cap : Z; ch_items : list sendRequest }.

Record Transport : Type := mkTransport {
  network : string;
  laddr : string;
  started : bool;
  limiter : option Limiter;
  controlLimiter : option Limiter;
  responseLimiter : option Limiter;
  sendChan : chan;
  controlChan : chan;
  responseChan : chan;
  done : bool                          (* the channel [done] is closed *)
}.

Definition NewTransport (network laddr : string) (rateLimit : Z) : Transport :=
  let controlRate := let r := Z.quot rateLimit 5 in if r <? 1 then 1 else r in
  let getPeersRate := let r := rateLimit - controlRate in if r <? 1 then 1 else r in
  let limited (r : Z) := if 0 <? rateLimit then Some (NewLimiter r r) else None in
  let queueSize := if 0 <? rateLimit then i64 (rateLimit * 3) else 768 in
  let queueSize := if queueSize <? 1 then 1 else queueSize in
  {| network := network; laddr := laddr; started := false;
     limiter := limited getPeersRate;
     controlLimiter := limited controlRate;
     responseLimiter := limited rateLimit;
     sendChan := mkChan queueSize [];
     controlChan := mkChan 256 [];
     responseChan := mkChan 256 [];
     done := false |}.

(** The queue of a message, and the access to it. *)
Inductive queue : Type := SendQueue | ControlQueue | ResponseQueue.
#[export] Instance queue_eq_dec : EqDecision queue.
Proof. solve_decision. Defined.

Definition queue_of (msg : Message) : queue :=
  if negb (bool_decide (m_Y msg = "q"%string)) then ResponseQueue
  else if bool_decide (m_Q msg = "get_peers"%string) then SendQueue
  else ControlQueue.

Definition get_chan (t : Transport) (q : queue) : chan :=
  match q with SendQueue => sendChan t | ControlQueue => controlChan t | ResponseQueue => responseChan t end.

Definition set_chan (t : Transport) (q : queue) (c : chan) : Transport :=
  mkTransport (network t) (laddr t) (started t) (limiter t) (controlLimiter t) (responseLimiter t)
    (if decide (q = SendQueue) then c else sendChan t)
    (if decide (q = ControlQueue) then c else controlChan t)
    (if decide (q = ResponseQueue) then c else responseChan t)
    (done t).

Definition has_room (c : chan) : bool := Z.of_nat (length (ch_items c)) <? ch_cap c.

(** [WriteMessages]; [pick] is the choice of the [select] between the closed
    [done] and a queue with room, when both are ready. *)
Definition WriteMessages (pick : bool) (msg : Message) (addr : AddrPort) (t : Transport)
    : bool * Transport :=
  let q := queue_of msg in
  let c := get_chan t q in
  let enqueued := set_chan t q (mkChan (ch_cap c) (ch_items c ++ [mkSend msg addr])) in
  match done t, has_room c with
  | true, true => if pick then (false, t) else (true, enqueued)
  | true, false => (false, t)
  | false, true => (true, enqueued)
  | false, false => (false, t)
  end.

Definition set_started (t : Transport) : Transport :=
  mkTransport (network t) (laddr t) true (limiter t) (controlLimiter t) (responseLimiter t)
    (sendChan t) (controlChan t) (responseChan t) (done t).

(** [Start]; the panic is a second start. Failing to bind the socket ends the
    process ([log.Fatal]) and is not a result. *)
Definition Start (t : Transport) : go unit Transport :=
  if started t then Panic else Ret (set_started t).

Definition Terminate (t : Transport) : Transport :=
  mkTransport (network t) (laddr t) (started t) (limiter t) (controlLimiter t) (responseLimiter t)
    (sendChan t) (controlChan t) (responseChan t) true.

(** [sendWithLimiter]: the request goes to [writeImmediately], or it is lost.
    [waitErr] is whether [limiter.Wait] returned an error. *)
Definition sendWithLimiter (t : Transport) (l : option Limiter) (waitErr : bool)
    (req : sendRequest) : option sendRequest :=
  if match l with Some _ => waitErr | None => false end then None
  else if done t then None else Some req.

Definition limiter_of (t : Transport) (q : queue) : option Limiter :=
  match q with SendQueue => limiter t | ControlQueue => controlLimiter t | ResponseQueue => responseLimiter t end.

(** One iteration of [sendLoop], [controlLoop] or [responseLoop]: the request
    written to the socket, if any, and the transport. [None]: the loop waits, or
    it returned because [done] is closed. *)
Definition loop_iteration (q : queue) (pick waitErr : bool) (t : Transport)
    : option (option sendRequest * Transport) :=
  let c := get_chan t q in
  match ch_items c with
  | [] => None
  | req :: rest =>
      if done t && pick then None
      else Some (sendWithLimiter t (limiter_of t q) waitErr req,
                 set_chan t q (mkChan (ch_cap c) rest))
  end.

(** ** The runs of a transport *)

(** What is observed: requests accepted, taken by a loop, and written. *)
Inductive observation : Type :=
  | Accepted (q : queue) (r : sendRequest)
  | Taken (q : queue) (r : sendRequest)
  | Written (q : queue) (r : sendRequest).

Record run : Type := mkRun { r_t : Transport; r_obs : list observation }.

Inductive tr_step : run -> run -> Prop :=
  | tr_write t o msg addr pick :
      tr_step (mkRun t o)
        (let '(ok, t') := WriteMessages pick msg addr t in
         mkRun t' (if ok then o ++ [Accepted (queue_of msg) (mkSend msg addr)] else o))
  | tr_loop t o q pick waitErr w t' r rest :
      ch_items (get_chan t q) = r :: rest ->
      loop_iteration q pick waitErr t = Some (w, t') ->
      tr_step (mkRun t o)
        (mkRun t' (o ++ Taken q r :: match w with Some r => [Written q r] | None => [] end))
  | tr_terminate t o : tr_step (mkRun t o) (mkRun (Terminate t) o).

(** The requests of one queue among the observations. *)
Definition accepted (q : queue) (o : list observation) : list sendRequest :=
  omap (fun x => match x with Accepted q' r => if decide (q' = q) then Some r else None | _ => None end) o.
Definition taken (q : queue) (o : list observation) : list sendRequest :=
  omap (fun x => match x with Taken q' r => if decide (q' = q) then Some r else None | _ => None end) o.
Definition written (q : queue) (o : list observation) : list sendRequest :=
  omap (fun x => match x with Written q' r => if decide (q' = q) then Some r else None | _ => None end) o.

Definition tr_inv (s : run) : Prop :=
  forall q,
    Z.of_nat (length (ch_items (get_chan (r_t s) q))) <= ch_cap (get_chan (r_t s) q) /\
    accepted q (r_obs s) = taken q (r_obs s) ++ ch_items (get_chan (r_t s) q) /\
    written q (r_obs s) `sublist_of` taken q (r_obs s).

Lemma get_set_chan t q q' c :
  get_chan (set_chan t q c) q' = if decide (q = q') then c else get_chan t q'.
Proof. by destruct q, q'. Qed.

Definition enqueue (t : Transport) (q : queue) (r : sendRequest) : Transport :=
  set_chan t q (mkChan (ch_cap (get_chan t q)) (ch_items (get_chan t q) ++ [r])).

Lemma WriteMessages_cases pick msg addr t ok t' :
  WriteMessages pick msg addr t = (ok, t') ->
  if ok then has_room (get_chan t (queue_of msg)) = true /\ t' = enqueue t (queue_of msg) (mkSend msg addr)
  else t' = t.
Proof. unfold WriteMessages. intros H. repeat case_match; by simplify_eq. Qed.

Lemma loop_iteration_cases q pick waitErr t w t' :
  loop_iteration q pick waitErr t = Some (w, t') ->
  exists r rest, ch_items (get_chan t q) = r :: rest /\
    t' = set_chan t q (mkChan (ch_cap (get_chan t q)) rest) /\
    (w = None \/ w = Some r /\ done t = false).
Proof.
  unfold loop_iteration, sendWithLimiter. intros H.
  repeat case_match; simplify_eq; eauto 10.
Qed.

Lemma sublist_snoc_r {A} (l k : list A) x : l `sublist_of` k -> l `sublist_of` k ++ [x].
Proof. intros. by apply sublist_inserts_r. Qed.

Lemma tr_inv_step s s' : tr_inv s -> tr_step s s' -> tr_inv s'.
Proof.
  intros Hi Hs q. destruct Hs as [t o msg addr pick|t o q0 pick waitErr w t' r rest Hc Hl|t o].
  - specialize (Hi q) as (H1 & H2 & H3). cbn [r_t r_obs] in *.
    destruct (WriteMessages pick msg addr t) as [ok t'] eqn:Hw. apply WriteMessages_cases in Hw.
    destruct ok; [|by subst t']. destruct Hw as [Hroom ->]. set (q0 := queue_of msg) in *.
    unfold enqueue. cbn [r_t r_obs]. unfold accepted, taken, written in *.
    rewrite get_set_chan, !omap_app. cbn [omap list_omap]. rewrite !app_nil_r.
    destruct (decide (q0 = q)) as [->|]; [|by rewrite app_nil_r].
    unfold has_room in Hroom. cbn [ch_cap ch_items]. rewrite length_app. cbn [length].
    split; [lia|]. split; [|done]. by rewrite H2, app_assoc.
  - specialize (Hi q) as (H1 & H2 & H3). cbn [r_t r_obs] in *.
    apply loop_iteration_cases in Hl as (r' & rest' & Hc' & -> & Hw). rewrite Hc in Hc'.
    injection Hc' as <- <-. unfold accepted, taken, written in *.
    rewrite get_set_chan, !omap_app. cbn [omap list_omap].
    destruct (decide (q0 = q)) as [->|Hne].
    + rewrite Hc in *. cbn [ch_cap ch_items length] in *. split; [lia|].
      destruct Hw as [->|[-> _]]; cbn [omap list_omap]; rewrite ?decide_True, ?app_nil_r by done.
      * split; [by rewrite H2, <- app_assoc|]. by apply sublist_snoc_r.
      * split; [by rewrite H2, <- app_assoc|]. by apply sublist_app.
    + destruct Hw as [->|[-> _]]; cbn [omap list_omap]; rewrite ?decide_False, !app_nil_r by done; done.
  - specialize (Hi q) as (H1 & H2 & H3). by destruct q.
Qed.

Lemma NewTransport_inv network laddr rateLimit :
  tr_inv (mkRun (NewTransport network laddr rateLimit) []).
Proof.
  intros q. destruct q; cbn; (split; [|done]); [|done..]. case_match; lia.
Qed.

(** C22: Per queue, requests are sent in the order they were accepted and never
    twice: what was written is a subsequence of what the loop took (a request is
    lost when its rate-limit wait fails or the transport stops), and what was
    accepted is what was taken followed by what is still queued, which never
    exceeds the capacity of the queue. This holds in every interleaving of
    writers, loops and termination. *)
Theorem transport_fifo (network laddr : string) (rateLimit : Z) (s : run) :
  star tr_step (mkRun (NewTransport network laddr rateLimit) []) s -> tr_inv s.
Proof. intros Hs. eapply star_inv; [exact tr_inv_step|exact Hs|apply NewTransport_inv]. Qed.

(** The queues are isolated. While the transport runs, a message is accepted
    exactly when its own queue has room, whatever the others hold, and a
    get_peers query leaves the queues of the other queries and of the replies
    as they are; once the transport has stopped no loop writes anything. *)
Theorem transport_isolation (pick : bool) (msg : Message) (addr : AddrPort) (t : Transport) :
  let '(ok, t') := WriteMessages pick msg addr t in
  (done t = false -> ok = has_room (get_chan t (queue_of msg))) /\
  (forall q, q <> queue_of msg -> get_chan t' q = get_chan t q) /\
  (m_Y msg = "q"%string -> m_Q msg = "get_peers"%string ->
     controlChan t' = controlChan t /\ responseChan t' = responseChan t) /\
  (forall q p e w t'', loop_iteration q p e (Terminate t') = Some (w, t'') -> w = None).
Proof.
  destruct (WriteMessages pick msg addr t) as [ok t'] eqn:Hw.
  assert (forall q, q <> queue_of msg -> get_chan t' q = get_chan t q) as Hother.
  { pose proof (WriteMessages_cases _ _ _ _ _ _ Hw) as Hc. intros q Hq.
    destruct ok; [|by subst t']. destruct Hc as [_ ->]. unfold enqueue.
    rewrite get_set_chan, decide_False; [done|congruence]. }
  split; [|split; [done|split]].
  - intros Hd. unfold WriteMessages in Hw. rewrite Hd in Hw. by case_match; simplify_eq.
  - intros HY HQ. assert (queue_of msg = SendQueue) as Hq
      by (unfold queue_of; by rewrite HY, HQ).
    rewrite Hq in Hother. split; [apply (Hother ControlQueue)|apply (Hother ResponseQueue)]; done.
  - intros q p e w t'' Hl. apply loop_iteration_cases in Hl as (r & rest & _ & _ & [Hl|[_ Hl]]); done.
Qed.

(** ** The rate split of [NewTransport] *)

Definition rate_of (l : option Limiter) : Z := match l with Some l => l_limit l | None => 0 end.

(** With a positive rate limit the two query limiters share it (a fifth for
    routing maintenance, at least one per second each, never more than the limit
    together unless the limit is 1), replies may use all of it, and the get_peers
    queue holds three seconds of traffic; without a rate limit nothing is limited. *)
Theorem rate_split (network laddr : string) (rateLimit : Z) :
  let t := NewTransport network laddr rateLimit in
  if rateLimit <=? 0
  then limiter t = None /\ controlLimiter t = None /\ responseLimiter t = None /\ ch_cap (sendChan t) = 768
  else
    1 <= rate_of (limiter t) /\ 1 <= rate_of (controlLimiter t) /\
    rate_of (responseLimiter t) = rateLimit /\
    rate_of (limiter t) + rate_of (controlLimiter t) = Z.max 2 rateLimit /\
    (rateLimit < 2 ^ 60 -> ch_cap (sendChan t) = 3 * rateLimit).
Proof.
  intros t. subst t. unfold NewTransport. cbn [limiter controlLimiter responseLimiter sendChan ch_cap].
  destruct (Z.leb_spec rateLimit 0).
  { rewrite (proj2 (Z.ltb_ge _ _)) by lia. done. }
  rewrite (proj2 (Z.ltb_lt _ _)) by lia. cbn [rate_of l_limit].
  rewrite Z.quot_div_nonneg by lia.
  pose proof (Z.div_mod rateLimit 5 ltac:(lia)). pose proof (Z.mod_pos_bound rateLimit 5 ltac:(lia)).
  destruct (Z.ltb_spec (rateLimit / 5) 1).
  - destruct (Z.ltb_spec (rateLimit - 1) 1).
    + repeat split; try lia. intros _. rewrite i64_small by lia. case_match; lia.
    + repeat split; try lia. intros _. rewrite i64_small by lia. case_match; lia.
  - destruct (Z.ltb_spec (rateLimit - rateLimit / 5) 1); [lia|].
    repeat split; try lia. intros ?. rewrite i64_small by lia. case_match; lia.
Qed.

(** ** The read loop *)

(** What one [ReadFrom] gives. *)
Inductive read_event : Type :=
  | ReadError
  | Datagram (data : list byte) (from : option AddrPort).

Section ReadLoop.
  (** [bencode.Unmarshal] into a Message. *)
  Context (Unmarshal : list byte -> option Message).

(** The new retry delay, the wait of the loop, and the call of [onMessage]. *)
Definition read_step (retryDelay : duration) (e : read_event)
    : duration * option duration * option (Message * AddrPort) :=
  match e with
  | ReadError =>
      let d := if retryDelay =? 0 then 10 * millisecond
               else let d := retryDelay * 2 in if second <? d then second else d in
      (d, Some d, None)
  | Datagram data from =>
      if (length data =? 0)%nat then (0, None, None)
      else match Unmarshal data with
      | None => (0, None, None)
      | Some msg => match from with
          | None => (0, None, None)
          | Some addr => (0, None, Some (msg, addr))
          end
      end
  end.

(** [readMessages] over the results of the reads until [done] is closed. *)
Fixpoint readMessages (retryDelay : duration) (es : list read_event)
    : list duration * list (Message * AddrPort) :=
  match es with
  | [] => ([], [])
  | e :: es' =>
      let '(d, w, m) := read_step retryDelay e in
      let '(ws, ms) := readMessages d es' in
      (option_list w ++ ws, option_list m ++ ms)
  end.

(** The delay after [n] errors in a row. *)
Definition backoff (n : nat) : duration := Z.min second (10 * millisecond * 2 ^ Z.of_nat n).

Lemma backoff_next n :
  (let d := backoff n * 2 in if second <? d then second else d) = backoff (S n).
Proof.
  unfold backoff, second, millisecond. rewrite Nat2Z.inj_succ, Z.pow_succ_r by lia. cbv zeta.
  pose proof (Z.pow_pos_nonneg 2 (Z.of_nat n)). case_match; lia.
Qed.

Lemma readMessages_error k es :
  readMessages (backoff k) (ReadError :: es) =
  let '(ws, ms) := readMessages (backoff (S k)) es in (backoff (S k) :: ws, ms).
Proof.
  cbn [readMessages read_step]. pose proof (backoff_next k) as Hn. cbv zeta in *.
  assert (0 < backoff k) by (unfold backoff, second, millisecond; pose proof (Z.pow_pos_nonneg 2 (Z.of_nat k)); lia).
  rewrite (proj2 (Z.eqb_neq _ _)) by lia. rewrite Hn. by destruct (readMessages _ es).
Qed.

Lemma readMessages_first es :
  readMessages 0 (ReadError :: es) =
  let '(ws, ms) := readMessages (backoff 0) es in (backoff 0 :: ws, ms).
Proof. reflexivity. Qed.

(** Read errors never spin: after a successful read the first error waits 10
    milliseconds, every further one twice as long, up to one second; every
    datagram resets the delay, and the messages handed on are the datagrams that
    decode, in the order they arrived, whatever errors come between. *)
Theorem readMessages_backoff (n : nat) (data : list byte) (from : option AddrPort) (es : list read_event) :
  let '(ws, ms) := readMessages 0 (replicate n ReadError ++ Datagram data from :: es) in
  let '(ws', ms') := readMessages 0 es in
  ws = (backoff <$> seq 0 n) ++ ws' /\
  ms = match Unmarshal data, from with
       | Some msg, Some addr => if (length data =? 0)%nat then ms' else (msg, addr) :: ms'
       | _, _ => ms'
       end.
Proof.
  assert (forall d, readMessages d (Datagram data from :: es) =
    let '(ws', ms') := readMessages 0 es in
    (ws', match Unmarshal data, from with
       | Some msg, Some addr => if (length data =? 0)%nat then ms' else (msg, addr) :: ms'
       | _, _ => ms'
       end)) as Hd.
  { intros d. cbn [readMessages]. unfold read_step.
    destruct (length data =? 0)%nat, (Unmarshal data), from; by destruct (readMessages 0 es). }
  set (tl := Datagram data from :: es) in *. clearbody tl.
  assert (forall n k, readMessages (backoff k) (replicate n ReadError ++ tl) =
    let '(ws, ms) := readMessages 0 es in
    ((backoff <$> seq (S k) n) ++ ws, match Unmarshal data, from with
       | Some msg, Some addr => if (length data =? 0)%nat then ms else (msg, addr) :: ms
       | _, _ => ms
       end)) as Hn.
  { clear n. induction n as [|n IH]; intros k; cbn [replicate app seq fmap list_fmap]; [apply Hd|].
    rewrite readMessages_error, IH. by destruct (readMessages 0 es). }
  destruct n as [|n]; cbn [replicate app seq fmap list_fmap].
  { rewrite Hd. by destruct (readMessages 0 es). }
  rewrite (readMessages_first (replicate n ReadError ++ tl)).
  rewrite Hn. by destruct (readMessages 0 es).
Qed.
End ReadLoop.

(** ** Witnesses *)

Definition demo_addr : AddrPort := AddrPortFrom (Addr4 16909060) 6881.
Definition demo_query (q : string) : Message := mkMessage q noArgs [x61; x61] "q" noResp noError.
Definition demo_run : run :=
  mkRun (set_chan (enqueue (NewTransport "udp4" "" 1) SendQueue (mkSend (demo_query "get_peers") demo_addr))
           SendQueue (mkChan 3 []))
    [Accepted SendQueue (mkSend (demo_query "get_peers") demo_addr);
     Taken SendQueue (mkSend (demo_query "get_peers") demo_addr);
     Written SendQueue (mkSend (demo_query "get_peers") demo_addr)].

Lemma transport_demo_star : star tr_step (mkRun (NewTransport "udp4" "" 1) []) demo_run.
Proof.
  eapply star_step; [apply (tr_write _ _ (demo_query "get_peers") demo_addr true)|].
  eapply star_step; [eapply (tr_loop _ _ SendQueue false false); reflexivity|]. apply star_refl.
Qed.

Theorem transport_fifo_witness :
  tr_inv demo_run /\ written SendQueue (r_obs demo_run) = accepted SendQueue (r_obs demo_run).
Proof. split; [exact (transport_fifo _ _ _ _ transport_demo_star)|reflexivity]. Defined.
