(* ===== verification/Protocol.v ===== *)
(** * The KRPC protocol (dhtc-client/protocol.go)

    The dispatch of received messages to the event handlers, with the checks
    that guard it; the messages the client builds; the announce tokens and the
    rotation of their secrets; [SendMessage] on top of the transport. SHA-1 is
    an argument: the theorems hold for any function in its place. *)

From S2P Require Import Prelude NetAddr Codec Transport.

(** ** Validation *)

Definition validatePingQueryMessage (msg : Message) : bool := (length (a_ID (m_A msg)) =? 20)%nat.

Definition validateFindNodeQueryMessage (msg : Message) : bool :=
  (length (a_ID (m_A msg)) =? 20)%nat && (length (a_Target (m_A msg)) =? 20)%nat.

Definition validateGetPeersQueryMessage (msg : Message) : bool :=
  (length (a_ID (m_A msg)) =? 20)%nat &&
  ((length (a_InfoHash (m_A msg)) =? 20)%nat || (length (a_InfoHash (m_A msg)) =? 32)%nat).

Definition validateAnnouncePeerQueryMessage (msg : Message) : bool :=
  (length (a_ID (m_A msg)) =? 20)%nat &&
  ((length (a_InfoHash (m_A msg)) =? 20)%nat || (length (a_InfoHash (m_A msg)) =? 32)%nat) &&
  (0 <? a_Port (m_A msg)) &&
  (0 <? length (a_Token (m_A msg)))%nat.

Definition validateSampleInfohashesQueryMessage (msg : Message) : bool :=
  (length (a_ID (m_A msg)) =? 20)%nat && (length (a_Target (m_A msg)) =? 20)%nat.

Definition validatePingORannouncePeerResponseMessage (msg : Message) : bool :=
  (length (r_ID (m_R msg)) =? 20)%nat.

Definition validateFindNodeResponseMessage (msg : Message) : bool :=
  if negb (length (r_ID (m_R msg)) =? 20)%nat then false
  else (0 <? length (r_Nodes (m_R msg)))%nat || (0 <? length (r_Nodes6 (m_R msg)))%nat.

Definition validateGetPeersResponseMessage (msg : Message) : bool :=
  if negb (length (r_ID (m_R msg)) =? 20)%nat || (length (r_Token (m_R msg)) =? 0)%nat then false
  else (0 <? length (r_Values (m_R msg)))%nat || (0 <? length (r_Nodes (m_R msg)))%nat ||
       (0 <? length (r_Nodes6 (m_R msg)))%nat.

Definition validateSampleInfohashesResponseMessage (msg : Message) : bool :=
  if negb (length (r_ID (m_R msg)) =? 20)%nat || (r_Interval (m_R msg) <? 0) || (r_Num (m_R msg) <? 0) then false
  else if negb (length (r_Samples (m_R msg)) mod 20 =? 0)%nat then false
  else forallb (fun sample => (length sample =? 32)%nat) (r_Samples2 (m_R msg)).

(** ** Dispatch

    A handler acts on the state of its owner; an unset callback is [None]. *)

Definition handler (S : Type) : Type := Message -> AddrPort -> S -> S.

Record ProtocolEventHandlers (S : Type) : Type := mkHandlers {
  OnPingQuery : option (handler S);
  OnFindNodeQuery : option (handler S);
  OnGetPeersQuery : option (handler S);
  OnAnnouncePeerQuery : option (handler S);
  OnGetPeersResponse : option (handler S);
  OnFindNodeResponse : option (handler S);
  OnPingORAnnouncePeerResponse : option (handler S);
  OnSampleInfohashesQuery : option (handler S);
  OnSampleInfohashesResponse : option (handler S)
}.
Arguments mkHandlers {S}.
Arguments OnPingQuery {S}.
Arguments OnFindNodeQuery {S}.
Arguments OnGetPeersQuery {S}.
Arguments OnAnnouncePeerQuery {S}.
Arguments OnGetPeersResponse {S}.
Arguments OnFindNodeResponse {S}.
Arguments OnPingORAnnouncePeerResponse {S}.
Arguments OnSampleInfohashesQuery {S}.
Arguments OnSampleInfohashesResponse {S}.

Definition callback {S} (h : option (handler S)) (msg : Message) (addr : AddrPort) (s : S) : S :=
  match h with Some f => f msg addr s | None => s end.

(** [if !valid { return }; if handler != nil { handler(msg, addr) }] *)
Definition guarded {S} (valid : bool) (h : option (handler S)) (msg : Message) (addr : AddrPort) (s : S) : S :=
  if negb valid then s else callback h msg addr s.

Definition onMessage {S} (h : ProtocolEventHandlers S) (msg : Message) (addr : AddrPort) (s : S) : S :=
  if String.eqb (m_Y msg) "q" then
    if String.eqb (m_Q msg) "ping" then
      guarded (validatePingQueryMessage msg) (OnPingQuery h) msg addr s
    else if String.eqb (m_Q msg) "find_node" then
      guarded (validateFindNodeQueryMessage msg) (OnFindNodeQuery h) msg addr s
    else if String.eqb (m_Q msg) "get_peers" then
      guarded (validateGetPeersQueryMessage msg) (OnGetPeersQuery h) msg addr s
    else if String.eqb (m_Q msg) "announce_peer" then
      guarded (validateAnnouncePeerQueryMessage msg) (OnAnnouncePeerQuery h) msg addr s
    else if String.eqb (m_Q msg) "vote" then s
    else if String.eqb (m_Q msg) "sample_infohashes" then
      guarded (validateSampleInfohashesQueryMessage msg) (OnSampleInfohashesQuery h) msg addr s
    else s
  else if String.eqb (m_Y msg) "r" then
    if negb (length (r_Samples (m_R msg)) =? 0)%nat then
      guarded (validateSampleInfohashesResponseMessage msg) (OnSampleInfohashesResponse h) msg addr s
    else if negb (length (r_Token (m_R msg)) =? 0)%nat then
      guarded (validateGetPeersResponseMessage msg) (OnGetPeersResponse h) msg addr s
    else if negb (length (r_Nodes (m_R msg)) =? 0)%nat || negb (length (r_Nodes6 (m_R msg)) =? 0)%nat then
      guarded (validateFindNodeResponseMessage msg) (OnFindNodeResponse h) msg addr s
    else
      guarded (validatePingORannouncePeerResponseMessage msg) (OnPingORAnnouncePeerResponse h) msg addr s
  else s.

(** ** Messages *)

Definition query (t : list byte) (q : string) (a : QueryArguments) : Message :=
  mkMessage q a t "q" noResp noError.
Definition response (t : list byte) (r : ResponseValues) : Message :=
  mkMessage "" noArgs t "r" r noError.
Definition aa : list byte := bytes_of "aa".

Definition NewFindNodeQuery (id target : list byte) (want : list string) : Message :=
  query aa "find_node" (mkArgs id [] target [] 0 0 0 0 0 want).
Definition NewGetPeersQuery (id infoHash : list byte) (want : list string) : Message :=
  query aa "get_peers" (mkArgs id infoHash [] [] 0 0 0 0 0 want).
Definition NewSampleInfohashesQuery (id t target : list byte) (want : list string) : Message :=
  query t "sample_infohashes" (mkArgs id [] target [] 0 0 0 0 0 want).
Definition NewSampleInfohashesResponse (t id : list byte) (interval : Z)
    (nodes nodes6 : list CompactNodeInfo) (num : Z) (samples : list byte) : Message :=
  response t (mkResp id nodes nodes6 [] [] interval num samples []).
Definition NewNodeResponse (t id : list byte) (nodes nodes6 : list CompactNodeInfo) : Message :=
  response t (mkResp id nodes nodes6 [] [] 0 0 [] []).
Definition NewGetPeersResponse (t id token : list byte) (nodes nodes6 : list CompactNodeInfo) : Message :=
  response t (mkResp id nodes nodes6 token [] 0 0 [] []).
Definition NewBasicResponse (t id : list byte) : Message :=
  response t (mkResp id [] [] [] [] 0 0 [] []).

Definition set_T (t : list byte) (m : Message) : Message :=
  mkMessage (m_Q m) (m_A m) t (m_Y m) (m_R m) (m_E m).

(** ** The protocol object *)

Record Protocol : Type := mkProtocol {
  previousTokenSecret : list byte;
  currentTokenSecret : list byte;
  transport : Transport;
  p_started : bool
}.

(** [random] is what [rand.Read] fills the 20 bytes with. *)
Definition NewProtocol (network laddr : string) (rateLimit : Z) (random : list byte) : Protocol :=
  {| currentTokenSecret := random; previousTokenSecret := random;
     transport := NewTransport network laddr rateLimit; p_started := false |}.

Definition set_transport (p : Protocol) (t : Transport) : Protocol :=
  mkProtocol (previousTokenSecret p) (currentTokenSecret p) t (p_started p).

Definition SendMessage (pick : bool) (msg : Message) (addr : AddrPort) (p : Protocol) : bool * Protocol :=
  if negb (p_started p) then (false, p)
  else let '(ok, t) := WriteMessages pick msg addr (transport p) in (ok, set_transport p t).

Definition Protocol_Start (p : Protocol) : go unit Protocol :=
  if p_started p then Panic
  else t ← Transport.Start (transport p);
       Ret (mkProtocol (previousTokenSecret p) (currentTokenSecret p) t true).

Definition Protocol_Terminate (p : Protocol) : Protocol :=
  if negb (p_started p) then p
  else mkProtocol (previousTokenSecret p) (currentTokenSecret p) (Transport.Terminate (transport p)) false.

(** One tick of [updateTokenSecret]. *)
Definition updateTokenSecret (random : list byte) (p : Protocol) : Protocol :=
  mkProtocol (go_copy (previousTokenSecret p) (currentTokenSecret p)) random (transport p) (p_started p).

Section Tokens.
  Context (sha1 : list byte -> list byte).

Definition CalculateToken (p : Protocol) (address : Addr) : list byte :=
  sha1 (currentTokenSecret p ++ AsSlice address).

Definition VerifyToken (p : Protocol) (address : Addr) (token : list byte) : bool :=
  if bool_decide (sha1 (currentTokenSecret p ++ AsSlice address) = token) then true
  else bool_decide (sha1 (previousTokenSecret p ++ AsSlice address) = token).

(** Protocols whose secrets have 20 bytes, as [NewProtocol] makes them. *)
Definition secrets_ok (p : Protocol) : Prop :=
  length (previousTokenSecret p) = 20%nat /\ length (currentTokenSecret p) = 20%nat.

Definition zero20 : list byte := replicate 20 x00.

Definition rotations (randoms : list (list byte)) (p : Protocol) : Protocol :=
  foldl (fun p r => updateTokenSecret r p) p randoms.

Lemma updateTokenSecret_ok r p :
  secrets_ok p -> length r = 20%nat ->
  secrets_ok (updateTokenSecret r p) /\
  previousTokenSecret (updateTokenSecret r p) = currentTokenSecret p /\
  currentTokenSecret (updateTokenSecret r p) = r.
Proof.
  intros [H1 H2] Hr. unfold updateTokenSecret, secrets_ok. cbn.
  rewrite go_copy_same by congruence. done.
Qed.

Lemma rotations_secrets p rs r1 r2 :
  secrets_ok p -> Forall (fun r => length r = 20%nat) (rs ++ [r1; r2]) ->
  let p' := rotations (rs ++ [r1; r2]) p in
  previousTokenSecret p' = r1 /\ currentTokenSecret p' = r2.
Proof.
  revert p; induction rs as [|r rs IH]; intros p Hp Hf; cbn [app rotations foldl updateTokenSecret previousTokenSecret currentTokenSecret].
  - apply Forall_cons in Hf as [Hr1 Hf]. apply Forall_cons in Hf as [Hr2 _].
    rewrite (go_copy_same _ r1); [done|]. rewrite length_go_copy. destruct Hp. congruence.
  - apply Forall_cons in Hf as [Hr Hf]. apply IH; [|done]. by apply updateTokenSecret_ok.
Qed.

(** C21: A token given to an address is accepted from it until the secret has been
    rotated twice; after that it is accepted only if its hash collides with that
    of one of the two newer secrets. A token of another address is accepted only
    on such a collision as well. *)
Theorem token_lifetime (p : Protocol) (address : Addr) (randoms : list (list byte)) (r1 r2 : list byte) :
  secrets_ok p -> Forall (fun r => length r = 20%nat) (randoms ++ [r1; r2]) ->
  let token := CalculateToken p address in
  VerifyToken p address token = true /\
  VerifyToken (updateTokenSecret r1 p) address token = true /\
  (VerifyToken (rotations (randoms ++ [r1; r2]) p) address token = true <->
     sha1 (r2 ++ AsSlice address) = token \/ sha1 (r1 ++ AsSlice address) = token) /\
  (forall other, VerifyToken p other token = true <->
     sha1 (currentTokenSecret p ++ AsSlice other) = token \/
     sha1 (previousTokenSecret p ++ AsSlice other) = token).
Proof.
  intros Hp Hr token.
  assert (forall q a, VerifyToken q a token = true <->
    sha1 (currentTokenSecret q ++ AsSlice a) = token \/
    sha1 (previousTokenSecret q ++ AsSlice a) = token) as Hv.
  { intros q a. unfold VerifyToken. case_bool_decide; [split; auto|].
    rewrite bool_decide_eq_true. split; [auto|]. by intros []. }
  split; [by apply Hv; left|]. split; [|split; [|done]].
  - apply Hv. right. apply Forall_app in Hr as [_ Hr]. apply Forall_cons in Hr as [Hr _].
    by rewrite (proj1 (proj2 (updateTokenSecret_ok r1 p Hp Hr))).
  - destruct (rotations_secrets p randoms r1 r2 Hp Hr) as [H1 H2]. rewrite Hv, H1, H2. done.
Qed.
End Tokens.

(** ** What reaches a handler *)

Inductive kind : Type :=
  | PingQ | FindNodeQ | GetPeersQ | AnnouncePeerQ | SampleQ
  | PingR | FindNodeR | GetPeersR | SampleR.

Definition handler_of {S} (h : ProtocolEventHandlers S) (k : kind) : option (handler S) :=
  match k with
  | PingQ => OnPingQuery h | FindNodeQ => OnFindNodeQuery h | GetPeersQ => OnGetPeersQuery h
  | AnnouncePeerQ => OnAnnouncePeerQuery h | SampleQ => OnSampleInfohashesQuery h
  | PingR => OnPingORAnnouncePeerResponse h | FindNodeR => OnFindNodeResponse h
  | GetPeersR => OnGetPeersResponse h | SampleR => OnSampleInfohashesResponse h
  end.

(** What every handler preserves, the dispatch preserves. *)
Lemma onMessage_inv {S} (P : S -> Prop) (h : ProtocolEventHandlers S) msg addr s :
  P s -> (forall k f, handler_of h k = Some f -> P (f msg addr s)) -> P (onMessage h msg addr s).
Proof.
  intros Hs Hf.
  assert (forall k v, P (guarded v (handler_of h k) msg addr s)) as Hg.
  { intros k v. unfold guarded, callback. destruct v; [|done]. cbn.
    destruct (handler_of h k) eqn:E; [by eapply Hf|done]. }
  unfold onMessage. repeat case_match; try done.
  1: apply (Hg PingQ). 1: apply (Hg FindNodeQ). 1: apply (Hg GetPeersQ). 1: apply (Hg AnnouncePeerQ).
  1: apply (Hg SampleQ). 1: apply (Hg SampleR). 1: apply (Hg GetPeersR). 1: apply (Hg FindNodeR).
  apply (Hg PingR).
Qed.

Definition id_length (l : list byte) : Prop := length l = 20%nat.
Definition hash_length (l : list byte) : Prop := length l = 20%nat \/ length l = 32%nat.

(** The messages of each kind, by their contents. *)
Definition is_kind (k : kind) (msg : Message) : Prop :=
  let a := m_A msg in
  let r := m_R msg in
  match k with
  | PingQ => m_Y msg = "q"%string /\ m_Q msg = "ping"%string /\ id_length (a_ID a)
  | FindNodeQ => m_Y msg = "q"%string /\ m_Q msg = "find_node"%string /\
      id_length (a_ID a) /\ id_length (a_Target a)
  | GetPeersQ => m_Y msg = "q"%string /\ m_Q msg = "get_peers"%string /\
      id_length (a_ID a) /\ hash_length (a_InfoHash a)
  | AnnouncePeerQ => m_Y msg = "q"%string /\ m_Q msg = "announce_peer"%string /\
      id_length (a_ID a) /\ hash_length (a_InfoHash a) /\ 0 < a_Port a /\ a_Token a <> []
  | SampleQ => m_Y msg = "q"%string /\ m_Q msg = "sample_infohashes"%string /\
      id_length (a_ID a) /\ id_length (a_Target a)
  | SampleR => m_Y msg = "r"%string /\ r_Samples r <> [] /\ id_length (r_ID r) /\
      0 <= r_Interval r /\ 0 <= r_Num r /\ (Nat.divide 20 (length (r_Samples r))) /\
      Forall (fun s => length s = 32%nat) (r_Samples2 r)
  | GetPeersR => m_Y msg = "r"%string /\ r_Samples r = [] /\ r_Token r <> [] /\ id_length (r_ID r) /\
      (r_Values r <> [] \/ r_Nodes r <> [] \/ r_Nodes6 r <> [])
  | FindNodeR => m_Y msg = "r"%string /\ r_Samples r = [] /\ r_Token r = [] /\ id_length (r_ID r) /\
      (r_Nodes r <> [] \/ r_Nodes6 r <> [])
  | PingR => m_Y msg = "r"%string /\ r_Samples r = [] /\ r_Token r = [] /\ id_length (r_ID r) /\
      r_Nodes r = [] /\ r_Nodes6 r = []
  end.

Lemma length_0 {A} (l : list A) : (length l =? 0)%nat = bool_decide (l = []).
Proof. by destruct l. Qed.
Lemma length_pos {A} (l : list A) : (0 <? length l)%nat = negb (bool_decide (l = [])).
Proof. by destruct l. Qed.

Lemma forallb_length (l : list (list byte)) :
  forallb (fun sample => (length sample =? 32)%nat) l = true <->
  Forall (fun s => length s = 32%nat) l.
Proof.
  induction l as [|s l IH]; cbn; [done|].
  rewrite andb_true_iff, IH, Nat.eqb_eq, Forall_cons. done.
Qed.

Lemma divide_mod20 {A} (l : list A) : (length l mod 20 =? 0)%nat = true <-> Nat.divide 20 (length l).
Proof. rewrite Nat.eqb_eq. apply Nat.Lcm0.mod_divide. Qed.

(** [onMessage] as a choice of kind: which guard each kind has. *)
Lemma onMessage_query {S} (h : ProtocolEventHandlers S) msg addr s k :
  is_kind k msg -> m_Y msg = "q"%string -> onMessage h msg addr s = callback (handler_of h k) msg addr s.
Proof.
  intros Hk HY. unfold onMessage. rewrite HY. cbn [String.eqb Ascii.eqb Bool.eqb].
  destruct k; cbn [is_kind] in Hk; destruct Hk as [HY' Hk]; try congruence;
    destruct Hk as [-> Hk]; cbn [String.eqb Ascii.eqb Bool.eqb handler_of];
    unfold guarded, validatePingQueryMessage, validateFindNodeQueryMessage, validateGetPeersQueryMessage,
      validateAnnouncePeerQueryMessage, validateSampleInfohashesQueryMessage, id_length, hash_length in *.
  - by rewrite Hk.
  - destruct Hk as [-> ->]. done.
  - destruct Hk as [-> [-> | ->]]; done.
  - destruct Hk as (-> & Hih & Hp & Ht). rewrite length_pos, bool_decide_false by done.
    rewrite (proj2 (Z.ltb_lt _ _) Hp). destruct Hih as [-> | ->]; done.
  - destruct Hk as [-> ->]. done.
Qed.

Lemma onMessage_response {S} (h : ProtocolEventHandlers S) msg addr s k :
  is_kind k msg -> m_Y msg = "r"%string -> onMessage h msg addr s = callback (handler_of h k) msg addr s.
Proof.
  intros Hk HY. unfold onMessage. rewrite HY. cbn [String.eqb Ascii.eqb Bool.eqb].
  unfold guarded, validatePingORannouncePeerResponseMessage, validateFindNodeResponseMessage,
    validateGetPeersResponseMessage, validateSampleInfohashesResponseMessage, id_length.
  rewrite !length_0, !length_pos.
  destruct k; cbn [is_kind] in Hk; destruct Hk as [HY' Hk]; try congruence; unfold id_length in *;
    cbn [handler_of].
  - destruct Hk as (-> & -> & -> & -> & ->). done.
  - destruct Hk as (-> & -> & -> & Hn). cbn [negb bool_decide].
    destruct (r_Nodes (m_R msg)), (r_Nodes6 (m_R msg)); by destruct Hn.
  - destruct Hk as (-> & Ht & -> & Hn). rewrite (bool_decide_false _ Ht). cbn [negb bool_decide orb].
    destruct (r_Values (m_R msg)), (r_Nodes (m_R msg)), (r_Nodes6 (m_R msg)); by destruct Hn as [|[]].
  - destruct Hk as (Hs & -> & Hi & Hn & Hd & Hf). rewrite (bool_decide_false _ Hs). cbn [negb].
    rewrite (proj2 (Z.ltb_ge _ _) Hi), (proj2 (Z.ltb_ge _ _) Hn), (proj2 (divide_mod20 _) Hd). cbn [negb orb Nat.eqb].
    by rewrite (proj2 (forallb_length _) Hf).
Qed.

(** Conversely, a message that passes the guard of a branch is of its kind. *)
Ltac bool_facts := repeat match goal with
  | H : _ && _ = true |- _ => apply andb_true_iff in H as [? ?]
  | H : _ || _ = true |- _ => apply orb_true_iff in H as [?|?]
  | H : _ || _ = false |- _ => apply orb_false_iff in H as [? ?]
  | H : negb _ = true |- _ => apply negb_true_iff in H
  | H : negb _ = false |- _ => apply negb_false_iff in H
  | H : String.eqb _ _ = true |- _ => apply String.eqb_eq in H
  | H : (length _ =? 0)%nat = _ |- _ => rewrite length_0 in H
  | H : (0 <? length _)%nat = _ |- _ => rewrite length_pos in H
  | H : bool_decide _ = true |- _ => apply bool_decide_eq_true in H
  | H : bool_decide _ = false |- _ => apply bool_decide_eq_false in H
  | H : (_ mod 20 =? 0)%nat = true |- _ => apply divide_mod20 in H
  | H : forallb _ _ = true |- _ => apply forallb_length in H
  | H : (_ =? _)%nat = true |- _ => apply Nat.eqb_eq in H
  | H : (_ <? _) = true |- _ => apply Z.ltb_lt in H
  | H : (_ <? _) = false |- _ => apply Z.ltb_ge in H
  end.

Lemma onMessage_other {S} (h : ProtocolEventHandlers S) msg addr s :
  (forall k, ~ is_kind k msg) -> onMessage h msg addr s = s.
Proof.
  intros Hno. unfold onMessage, guarded.
  destruct (String.eqb (m_Y msg) "q") eqn:HY; [|destruct (String.eqb (m_Y msg) "r") eqn:HR; [|done]].
  - repeat (case_match; try done); exfalso; bool_facts;
      unfold validatePingQueryMessage, validateFindNodeQueryMessage, validateGetPeersQueryMessage,
        validateAnnouncePeerQueryMessage, validateSampleInfohashesQueryMessage in *; bool_facts.
    all: first [ by apply (Hno PingQ); cbn; unfold id_length, hash_length; tauto
      | by apply (Hno FindNodeQ); cbn; unfold id_length, hash_length; tauto
      | by apply (Hno GetPeersQ); cbn; unfold id_length, hash_length; tauto
      | by apply (Hno AnnouncePeerQ); cbn; unfold id_length, hash_length; tauto
      | by apply (Hno SampleQ); cbn; unfold id_length, hash_length; tauto ].
  - unfold validatePingORannouncePeerResponseMessage, validateFindNodeResponseMessage,
      validateGetPeersResponseMessage, validateSampleInfohashesResponseMessage.
    repeat (case_match; try done); exfalso; bool_facts.
    all: first [ by apply (Hno SampleR); cbn; unfold id_length; tauto
      | by apply (Hno GetPeersR); cbn; unfold id_length; tauto
      | by apply (Hno FindNodeR); cbn; unfold id_length; tauto
      | by apply (Hno PingR); cbn; unfold id_length; tauto ].
Qed.

(** A received message reaches exactly the handler of its kind, and only when
    its fields have the lengths and ranges that kind requires; a message of no
    kind (unknown type or method, an error, a failed check) changes nothing, and
    an unset callback is skipped. *)
Theorem onMessage_dispatch {S} (h : ProtocolEventHandlers S) (msg : Message) (addr : AddrPort) (s : S) :
  (forall k, is_kind k msg -> onMessage h msg addr s = callback (handler_of h k) msg addr s) /\
  ((forall k, ~ is_kind k msg) -> onMessage h msg addr s = s).
Proof.
  split; [|apply onMessage_other]. intros k Hk.
  destruct (decide (m_Y msg = "q"%string)) as [HY|HY]; [by apply onMessage_query|].
  apply onMessage_response; [done|]. destruct k; cbn [is_kind] in Hk; tauto.
Qed.

(** What the client sends is what a peer running the same code accepts: its
    queries are queries of their kind, its answers to find_node and get_peers are
    answers of their kind as soon as they carry a node. An answer to get_peers
    from an empty routing table is dropped by the receiver, and its answers to
    sample_infohashes (which carry no samples) are taken for answers to find_node,
    or to a ping when they carry no node either. *)
Theorem own_messages_accepted (id target infoHash t token : list byte) (want : list string)
    (nodes nodes6 : list CompactNodeInfo) (interval : Z) :
  id_length id -> id_length target -> hash_length infoHash -> token <> [] ->
  let some_node := nodes <> [] \/ nodes6 <> [] in
  is_kind FindNodeQ (NewFindNodeQuery id target want) /\
  is_kind GetPeersQ (set_T t (NewGetPeersQuery id infoHash want)) /\
  is_kind SampleQ (NewSampleInfohashesQuery id t target want) /\
  is_kind PingR (NewBasicResponse t id) /\
  (some_node -> is_kind FindNodeR (NewNodeResponse t id nodes nodes6)) /\
  (some_node -> is_kind GetPeersR (NewGetPeersResponse t id token nodes nodes6)) /\
  (~ some_node -> forall k, ~ is_kind k (NewGetPeersResponse t id token nodes nodes6)) /\
  (let msg := NewSampleInfohashesResponse t id interval nodes nodes6 0 [] in
   (some_node -> is_kind FindNodeR msg) /\ (~ some_node -> is_kind PingR msg) /\ ~ is_kind SampleR msg).
Proof.
  intros Hid Htarget Hih Htoken some_node. subst some_node.
  repeat split; try done; try tauto; cbn.
  - intros Hn []; cbn; intuition congruence.
  - destruct nodes; [done|]. exfalso. match goal with H : ~ (_ \/ _) |- _ => apply H end. by left.
  - destruct nodes6; [done|]. exfalso. match goal with H : ~ (_ \/ _) |- _ => apply H end. by right.
  - intros (_ & ? & _). done.
Qed.

(** ** Witnesses *)

Definition demo_id : list byte := replicate 20 x01.
Definition demo_node : CompactNodeInfo := mkNodeInfo demo_id Transport.demo_addr.

Theorem own_messages_accepted_witness :
  is_kind GetPeersQ (set_T [x00; x01] (NewGetPeersQuery demo_id demo_id ["n4"%string])) /\
  is_kind GetPeersR (NewGetPeersResponse aa demo_id demo_id [demo_node] []).
Proof.
  destruct (own_messages_accepted demo_id demo_id demo_id [x00; x01] demo_id ["n4"%string] [demo_node] [] 60)
    as (_ & H1 & _ & _ & _ & H2 & _); [reflexivity|reflexivity|by left|discriminate|].
  split; [exact H1|]. apply H2. left. discriminate.
Defined.

Theorem token_lifetime_witness :
  let sha1 (l : list byte) := drop 10 l in
  let p := NewProtocol "udp4" "" 100 demo_id in
  VerifyToken sha1 (updateTokenSecret zero20 p) (Addr4 7) (CalculateToken sha1 p (Addr4 7)) = true /\
  VerifyToken sha1 (rotations ([] ++ [zero20; zero20]) p) (Addr4 7) (CalculateToken sha1 p (Addr4 7)) = false.
Proof.
  intros sha1 p.
  destruct (token_lifetime sha1 p (Addr4 7) [] zero20 zero20) as (_ & H & _);
    [split; reflexivity|repeat constructor|]. split; [exact H|reflexivity].
Defined.
