(* ===== verification/Indexing.v ===== *)
(** * The indexing service (dhtc-client/indexingService.go)

    One service per IP family: its routing table, its pending get_peers
    requests and its probe cache, the handlers that the protocol calls, and the
    periodic maintenance. A handler is one step; inside it the clock is read
    once ([now]), [rand.Read] gives the next of a stream of random strings, and
    [pick] is the choice of the transport's [select]. What the service tells its
    owner (OnResult, OnBootstrapCandidate) is collected in the state. *)

From S2P Require Import Prelude NetAddr Codec RoutingTable Requests Transport Protocol.

Record IndexingResult : Type := mkResult {
  ir_infoHash : list byte;
  ir_peerAddrs : list AddrPort;
  ir_family : Z
}.

Record routingCacheEntry : Type := mkCacheEntry { rc_ID : string; rc_Address : string; rc_LastSeen : Z }.

Record IndexingService : Type := mkService {
  protocol : Protocol;
  network : string;
  want : list string;
  cachePath : string;
  started : bool;
  interval : duration;
  hasOnResult : bool;
  hasOnBootstrapCandidate : bool;
  done : bool;
  nodeID : list byte;
  routingTable : RoutingTable;
  reqs : requests;
  probeCache : gmap Addr time;
  nextRoutingTableSave : time;
  draws : nat;
  results : list IndexingResult;        (* calls of OnResult, oldest first *)
  candidates : list AddrPort;           (* calls of OnBootstrapCandidate *)
  panicked : bool;                      (* a nil callback was called *)
  cacheFile : option (list routingCacheEntry)   (* what cachePath holds, decoded *)
}.

(** What a step takes from its surroundings. *)
Record env : Type := mkEnv { now : time; random : nat -> list byte; pick : bool }.

(** ** Updates of the record *)

Definition set_protocol (p : Protocol) (s : IndexingService) : IndexingService :=
  mkService p (network s) (want s) (cachePath s) (started s) (interval s) (hasOnResult s)
    (hasOnBootstrapCandidate s) (done s) (nodeID s) (routingTable s) (reqs s) (probeCache s)
    (nextRoutingTableSave s) (draws s) (results s) (candidates s) (panicked s) (cacheFile s).
Definition set_table (t : RoutingTable) (s : IndexingService) : IndexingService :=
  mkService (protocol s) (network s) (want s) (cachePath s) (started s) (interval s) (hasOnResult s)
    (hasOnBootstrapCandidate s) (done s) (nodeID s) t (reqs s) (probeCache s)
    (nextRoutingTableSave s) (draws s) (results s) (candidates s) (panicked s) (cacheFile s).
Definition set_reqs (r : requests) (s : IndexingService) : IndexingService :=
  mkService (protocol s) (network s) (want s) (cachePath s) (started s) (interval s) (hasOnResult s)
    (hasOnBootstrapCandidate s) (done s) (nodeID s) (routingTable s) r (probeCache s)
    (nextRoutingTableSave s) (draws s) (results s) (candidates s) (panicked s) (cacheFile s).
Definition set_probeCache (c : gmap Addr time) (s : IndexingService) : IndexingService :=
  mkService (protocol s) (network s) (want s) (cachePath s) (started s) (interval s) (hasOnResult s)
    (hasOnBootstrapCandidate s) (done s) (nodeID s) (routingTable s) (reqs s) c
    (nextRoutingTableSave s) (draws s) (results s) (candidates s) (panicked s) (cacheFile s).
Definition set_draws (n : nat) (s : IndexingService) : IndexingService :=
  mkService (protocol s) (network s) (want s) (cachePath s) (started s) (interval s) (hasOnResult s)
    (hasOnBootstrapCandidate s) (done s) (nodeID s) (routingTable s) (reqs s) (probeCache s)
    (nextRoutingTableSave s) n (results s) (candidates s) (panicked s) (cacheFile s).
Definition set_results (l : list IndexingResult) (s : IndexingService) : IndexingService :=
  mkService (protocol s) (network s) (want s) (cachePath s) (started s) (interval s) (hasOnResult s)
    (hasOnBootstrapCandidate s) (done s) (nodeID s) (routingTable s) (reqs s) (probeCache s)
    (nextRoutingTableSave s) (draws s) l (candidates s) (panicked s) (cacheFile s).
Definition set_candidates (l : list AddrPort) (s : IndexingService) : IndexingService :=
  mkService (protocol s) (network s) (want s) (cachePath s) (started s) (interval s) (hasOnResult s)
    (hasOnBootstrapCandidate s) (done s) (nodeID s) (routingTable s) (reqs s) (probeCache s)
    (nextRoutingTableSave s) (draws s) (results s) l (panicked s) (cacheFile s).
Definition set_panicked (s : IndexingService) : IndexingService :=
  mkService (protocol s) (network s) (want s) (cachePath s) (started s) (interval s) (hasOnResult s)
    (hasOnBootstrapCandidate s) (done s) (nodeID s) (routingTable s) (reqs s) (probeCache s)
    (nextRoutingTableSave s) (draws s) (results s) (candidates s) true (cacheFile s).
Definition set_cacheFile (f : option (list routingCacheEntry)) (s : IndexingService) : IndexingService :=
  mkService (protocol s) (network s) (want s) (cachePath s) (started s) (interval s) (hasOnResult s)
    (hasOnBootstrapCandidate s) (done s) (nodeID s) (routingTable s) (reqs s) (probeCache s)
    (nextRoutingTableSave s) (draws s) (results s) (candidates s) (panicked s) f.
Definition set_nextSave (t : time) (s : IndexingService) : IndexingService :=
  mkService (protocol s) (network s) (want s) (cachePath s) (started s) (interval s) (hasOnResult s)
    (hasOnBootstrapCandidate s) (done s) (nodeID s) (routingTable s) (reqs s) (probeCache s)
    t (draws s) (results s) (candidates s) (panicked s) (cacheFile s).
Definition set_lifecycle (started' done' : bool) (s : IndexingService) : IndexingService :=
  mkService (protocol s) (network s) (want s) (cachePath s) started' (interval s) (hasOnResult s)
    (hasOnBootstrapCandidate s) done' (nodeID s) (routingTable s) (reqs s) (probeCache s)
    (nextRoutingTableSave s) (draws s) (results s) (candidates s) (panicked s) (cacheFile s).

(** ** Construction *)

(** [secret] and [id] are what the two calls of [rand.Read] give. *)
Definition NewIndexingService (network laddr cachePath : string) (interval : duration)
    (maxNeighbors rateLimit : Z) (hasOnResult hasOnBootstrapCandidate : bool)
    (secret id : list byte) (file : option (list routingCacheEntry)) : IndexingService :=
  {| protocol := NewProtocol network laddr rateLimit secret;
     network := network;
     want := if String.eqb network "udp6" then ["n6"%string] else ["n4"%string];
     cachePath := cachePath; started := false; interval := interval;
     hasOnResult := hasOnResult; hasOnBootstrapCandidate := hasOnBootstrapCandidate;
     done := false; nodeID := id;
     routingTable := NewRoutingTable id maxNeighbors;
     reqs := newRequests; probeCache := ∅; nextRoutingTableSave := 0;
     draws := 0; results := []; candidates := []; panicked := false; cacheFile := file |}.

(** ** Helpers *)

Definition stopped (s : IndexingService) : bool := done s.

Definition acceptsAddress (s : IndexingService) (addr : AddrPort) : bool :=
  if negb (IsValid addr) || (ap_port addr =? 0) then false
  else
    let is4 := Is4 (ap_addr addr) in
    (String.eqb (network s) "udp4" && is4) || (String.eqb (network s) "udp6" && negb is4).

Definition addressFamily (s : IndexingService) : Z :=
  if String.eqb (network s) "udp6" then 6 else 4.

Definition routingTableSize (s : IndexingService) : Z := Len (routingTable s).

(** [is.protocol.SendMessage] *)
Definition send (e : env) (msg : Message) (addr : AddrPort) (s : IndexingService)
    : bool * IndexingService :=
  let '(ok, p) := SendMessage (pick e) msg addr (protocol s) in (ok, set_protocol p s).
Definition send_ (e : env) (msg : Message) (addr : AddrPort) (s : IndexingService) : IndexingService :=
  (send e msg addr s).2.

(** [rand.Read] into a 20-byte slice. *)
Definition draw (e : env) (s : IndexingService) : list byte * IndexingService :=
  (random e (draws s), set_draws (S (draws s)) s).

Fixpoint responseNodes_loop (limit : Z) (l : list routingNode)
    (nodes4 nodes6 : list CompactNodeInfo) : list CompactNodeInfo * list CompactNodeInfo :=
  match l with
  | [] => (nodes4, nodes6)
  | entry :: l' =>
      let node := mkNodeInfo (rn_ID entry) (rn_Addr entry) in
      let '(nodes4, nodes6) :=
        if Is4 (ap_addr (rn_Addr entry)) then (nodes4 ++ [node], nodes6) else (nodes4, nodes6 ++ [node]) in
      if limit <=? Z.of_nat (length nodes4) + Z.of_nat (length nodes6) then (nodes4, nodes6)
      else responseNodes_loop limit l' nodes4 nodes6
  end.

(** [Closest] panics on a negative limit only; every call site passes 8. *)
Definition responseNodes (target : list byte) (limit : Z) (s : IndexingService)
    : list CompactNodeInfo * list CompactNodeInfo :=
  responseNodes_loop limit (default [] (Closest (routingTable s) target limit)) [] [].

Definition addNode (e : env) (id : list byte) (addr : AddrPort) (s : IndexingService) : IndexingService :=
  if stopped s then s
  else if negb (acceptsAddress s addr) then s
  else
    let '(added, t) := Add (routingTable s) id addr (now e) in
    let s := set_table t s in
    if negb added then s
    else
      let '(target, s) := draw e s in
      send_ e (NewSampleInfohashesQuery (nodeID s) aa target (want s)) addr s.

Definition handleDiscoveredNode (e : env) (node : CompactNodeInfo) (s : IndexingService) : IndexingService :=
  if acceptsAddress s (ci_Addr node) then addNode e (ci_ID node) (ci_Addr node) s
  else if String.eqb (network s) "udp4" && Is6 (ap_addr (ci_Addr node)) && hasOnBootstrapCandidate s
  then set_candidates (candidates s ++ [ci_Addr node]) s
  else s.

Definition requestPeers (e : env) (infoHash : list byte) (addr : AddrPort) (s : IndexingService)
    : bool * IndexingService :=
  if stopped s then (false, s)
  else
    let '(r, rq) := reserve (now e) infoHash (reqs s) in
    let s := set_reqs rq s in
    match r with
    | Reserved t =>
        let msg := set_T [t.1; t.2] (NewGetPeersQuery (nodeID s) infoHash (want s)) in
        let '(ok, s) := send e msg addr s in
        if ok then (true, s) else (false, set_reqs (release t (reqs s)) s)
    | _ => (false, s)
    end.

(** ** Queries *)

Definition onPingQuery (e : env) (msg : Message) (addr : AddrPort) (s : IndexingService) : IndexingService :=
  let s := addNode e (a_ID (m_A msg)) addr s in
  send_ e (NewBasicResponse (m_T msg) (nodeID s)) addr s.

Definition onFindNodeQuery (e : env) (msg : Message) (addr : AddrPort) (s : IndexingService) : IndexingService :=
  let s := addNode e (a_ID (m_A msg)) addr s in
  let '(nodes4, nodes6) := responseNodes (a_Target (m_A msg)) 8 s in
  send_ e (NewNodeResponse (m_T msg) (nodeID s) nodes4 nodes6) addr s.

Section Handlers.
  Context (sha1 : list byte -> list byte).

Definition onGetPeersQuery (e : env) (msg : Message) (addr : AddrPort) (s : IndexingService) : IndexingService :=
  let s := addNode e (a_ID (m_A msg)) addr s in
  let '(nodes4, nodes6) := responseNodes (a_InfoHash (m_A msg)) 8 s in
  let token := CalculateToken sha1 (protocol s) (ap_addr addr) in
  send_ e (NewGetPeersResponse (m_T msg) (nodeID s) token nodes4 nodes6) addr s.

Definition onAnnouncePeerQuery (e : env) (msg : Message) (addr : AddrPort) (s : IndexingService) : IndexingService :=
  if negb (VerifyToken sha1 (protocol s) (ap_addr addr) (a_Token (m_A msg))) then s
  else
    let port := if negb (a_ImpliedPort (m_A msg) =? 0) then ap_port addr else u16 (a_Port (m_A msg)) in
    let peer := AddrPortFrom (ap_addr addr) port in
    let s := if hasOnResult s
      then set_results (results s ++ [mkResult (a_InfoHash (m_A msg)) [peer] (addressFamily s)]) s
      else s in
    send_ e (NewBasicResponse (m_T msg) (nodeID s)) addr s.

Definition onSampleInfohashesQuery (e : env) (msg : Message) (addr : AddrPort) (s : IndexingService) : IndexingService :=
  if stopped s then s
  else
    let '(nodes4, nodes6) := responseNodes (a_Target (m_A msg)) 8 s in
    send_ e (NewSampleInfohashesResponse (m_T msg) (nodeID s) (Z.quot (interval s) second) nodes4 nodes6 0 []) addr s.

(** ** Responses *)

Definition onFindNodeResponse (e : env) (response : Message) (addr : AddrPort) (s : IndexingService) : IndexingService :=
  if stopped s then s
  else
    let s := addNode e (r_ID (m_R response)) addr s in
    let s := foldl (fun s node => addNode e (ci_ID node) (ci_Addr node) s) s (r_Nodes (m_R response)) in
    foldl (fun s node => handleDiscoveredNode e node s) s (r_Nodes6 (m_R response)).

(** [copy(t[:], msg.T)] *)
Definition txid_of (T : list byte) : txid :=
  match go_copy [x00; x00] T with a :: b :: _ => (a, b) | _ => (x00, x00) end.

Definition usable_peers (l : list AddrPort) : list AddrPort :=
  filter (fun peer => negb (negb (IsValid peer) || (ap_port peer =? 0))) l.

Definition onGetPeersResponse (e : env) (msg : Message) (addr : AddrPort) (s : IndexingService) : IndexingService :=
  if stopped s then s
  else
    let s := addNode e (r_ID (m_R msg)) addr s in
    let '(entry, rq) := take_request (txid_of (m_T msg)) (reqs s) in
    let s := set_reqs rq s in
    match entry with
    | None => s
    | Some entry =>
        if (length (r_Values (m_R msg)) =? 0)%nat then s
        else
          let peerAddrs := usable_peers (r_Values (m_R msg)) in
          if hasOnResult s
          then set_results (results s ++ [mkResult (infoHash entry) peerAddrs (addressFamily s)]) s
          else set_panicked s
    end.

Definition onSampleInfohashesResponse (e : env) (msg : Message) (addr : AddrPort) (s : IndexingService) : IndexingService :=
  if stopped s then s
  else
    let s := addNode e (r_ID (m_R msg)) addr s in
    let s := foldl (fun s infoHash => (requestPeers e infoHash addr s).2) s (chunks 20 (r_Samples (m_R msg))) in
    let s := foldl (fun s infoHash => (requestPeers e (go_copy (replicate 32 x00) infoHash) addr s).2) s
               (r_Samples2 (m_R msg)) in
    let s := foldl (fun s node => addNode e (ci_ID node) (ci_Addr node) s) s (r_Nodes (m_R msg)) in
    foldl (fun s node => handleDiscoveredNode e node s) s (r_Nodes6 (m_R msg)).

(** The callbacks [NewIndexingService] registers. *)
Definition eventHandlers (e : env) : ProtocolEventHandlers IndexingService :=
  {| OnPingQuery := Some (onPingQuery e);
     OnFindNodeQuery := Some (onFindNodeQuery e);
     OnGetPeersQuery := Some (onGetPeersQuery e);
     OnAnnouncePeerQuery := Some (onAnnouncePeerQuery e);
     OnGetPeersResponse := Some (onGetPeersResponse e);
     OnFindNodeResponse := Some (onFindNodeResponse e);
     OnPingORAnnouncePeerResponse := None;
     OnSampleInfohashesQuery := Some (onSampleInfohashesQuery e);
     OnSampleInfohashesResponse := Some (onSampleInfohashesResponse e) |}.

Definition receive (e : env) (msg : Message) (addr : AddrPort) (s : IndexingService) : IndexingService :=
  onMessage (eventHandlers e) msg addr s.
End Handlers.

(** ** The routing cache on disk

    encoding/hex is written out. The text form of an address (net/netip) is a
    class: what is used of it is that parsing undoes printing. *)

Definition hex_digit (n : Z) : Ascii.ascii :=
  Ascii.ascii_of_N (Z.to_N (if n <? 10 then 48 + n else 87 + n)).
Definition fromHexChar (c : Ascii.ascii) : option Z :=
  let n := Z.of_N (Ascii.N_of_ascii c) in
  if (48 <=? n) && (n <=? 57) then Some (n - 48)
  else if (97 <=? n) && (n <=? 102) then Some (n - 87)
  else if (65 <=? n) && (n <=? 70) then Some (n - 55)
  else None.

Fixpoint hex_EncodeToString (l : list byte) : string :=
  match l with
  | [] => EmptyString
  | b :: l' => String (hex_digit (b2z b / 16)) (String (hex_digit (b2z b mod 16)) (hex_EncodeToString l'))
  end.
Fixpoint hex_DecodeString (s : string) : option (list byte) :=
  match s with
  | EmptyString => Some []
  | String a (String b s') =>
      x ← fromHexChar a; y ← fromHexChar b; l ← hex_DecodeString s'; Some (z2b (x * 16 + y) :: l)
  | String _ EmptyString => None
  end.

Class AddrText : Type := {
  AddrPort_String : AddrPort -> string;
  ParseAddrPort : string -> option AddrPort
}.
Class AddrTextLaws `(AddrText) : Prop :=
  parse_print : forall p, ap_wf p -> IsValid p -> ParseAddrPort (AddrPort_String p) = Some p.

(** Seconds between year 1 and 1970. *)
Definition unixToInternal : Z := 62135596800.
Definition time_Unix (t : time) : Z := t / second - unixToInternal.
Definition Unix_time (sec : Z) : time := (sec + unixToInternal) * second.

Section Persistence.
  Context `{AddrText}.

Definition loadEntry (nw : time) (s : IndexingService) (entry : routingCacheEntry) : IndexingService :=
  match hex_DecodeString (rc_ID entry) with
  | None => s
  | Some id =>
      if negb (length id =? 20)%nat then s
      else match ParseAddrPort (rc_Address entry) with
      | None => s
      | Some addr =>
          let seen := if rc_LastSeen entry <=? 0 then nw else Unix_time (rc_LastSeen entry) in
          if acceptsAddress s addr then set_table (Add (routingTable s) id addr seen).2 s else s
      end
  end.

(** [loadRoutingTable]; [None] in [cacheFile] is a file that cannot be read or decoded. *)
Definition loadRoutingTable (e : env) (s : IndexingService) : IndexingService :=
  match cacheFile s with
  | None => s
  | Some entries => foldl (loadEntry (now e)) s entries
  end.

Definition cacheEntry (node : routingNode) : routingCacheEntry :=
  mkCacheEntry (hex_EncodeToString (rn_ID node)) (AddrPort_String (rn_Addr node)) (time_Unix (rn_LastSeen node)).

(** [saveRoutingTable]; the file is replaced as a whole or not at all ([saved]
    is whether every file operation succeeded). *)
Definition saveRoutingTable (saved : bool) (s : IndexingService) : IndexingService :=
  if String.eqb (cachePath s) "" then s
  else if saved then set_cacheFile (Some (cacheEntry <$> Snapshot (routingTable s))) s
  else s.
End Persistence.

(** ** Maintenance *)

Section Maintenance.
  Context `{AddrText}.
  (** [net.SplitHostPort] with [strconv.Atoi], and the resolver. *)
  Context (SplitHostPort : string -> option (string * string)) (Atoi : string -> option Z)
    (LookupIP : string -> option (list (list byte))).

Definition resolveBootstrapAddresses (network node : string) : option (list AddrPort) :=
  '(host, portText) ← SplitHostPort node;
  port ← Atoi portText;
  ips ← LookupIP host;
  Some (omap (fun ip : list byte =>
    match AddrFromSlice ip with
    | None => None
    | Some addr =>
        let addr := Unmap addr in
        let is4 := Is4 addr in
        if (String.eqb network "udp4" && negb is4) || (String.eqb network "udp6" && is4) then None
        else Some (AddrPortFrom addr (u16 port))
    end) (ips : list (list byte))).

Definition bootstrap (e : env) (nodes : list string) (s : IndexingService) : IndexingService :=
  foldl (fun s node =>
    if stopped s then s
    else
      let '(target, s) := draw e s in
      match resolveBootstrapAddresses (network s) node with
      | None => s
      | Some addrs => foldl (fun s addr => send_ e (NewFindNodeQuery (nodeID s) target (want s)) addr s) s addrs
      end) s nodes.

Definition findNeighbors (e : env) (s : IndexingService) : IndexingService :=
  if stopped s then s
  else foldl (fun s node =>
    if stopped s then s
    else
      let '(target, s) := draw e s in
      send_ e (NewSampleInfohashesQuery (nodeID s) aa target (want s)) (rn_Addr node) s)
    s (Snapshot (routingTable s)).

Definition pruneProbeCache (e : env) (s : IndexingService) : IndexingService :=
  let cutoff := now e - 10 * minute in
  set_probeCache (filter (fun al => ~ al.2 < cutoff) (probeCache s)) s.

Definition expireOldGetPeersRequests (e : env) (s : IndexingService) : IndexingService :=
  set_reqs (expireOldGetPeersRequestsLocked (now e) (reqs s)) s.

Definition runMaintenance (e : env) (saved : bool) (nodes : list string) (s : IndexingService) : IndexingService :=
  let routingTableLen := Len (routingTable s) in
  let s := if routingTableLen <? 8 then match nodes with [] => s | _ => bootstrap e nodes s end else s in
  let s := if 0 <? routingTableLen
    then let s := findNeighbors e s in set_table (Prune (routingTable s) (now e - 5 * minute)) s
    else s in
  let s := pruneProbeCache e s in
  let s := expireOldGetPeersRequests e s in
  if negb (String.eqb (cachePath s) "") && negb (now e <? nextRoutingTableSave s)
  then set_nextSave (now e + minute) (saveRoutingTable saved s)
  else s.

Definition probeBootstrapCandidate (e : env) (addr : AddrPort) (s : IndexingService) : IndexingService :=
  if negb (acceptsAddress s addr) || stopped s then s
  else if match probeCache s !! ap_addr addr with Some last => now e - last <? 10 * minute | None => false end
  then s
  else
    let s := set_probeCache (<[ap_addr addr := now e]> (probeCache s)) s in
    let '(target, s) := draw e s in
    send_ e (NewFindNodeQuery (nodeID s) target (want s)) addr s.

(** ** Life cycle *)

(** [Start] up to the first maintenance round of [index]. *)
Definition Start (e : env) (s : IndexingService) : go unit IndexingService :=
  if started s then Panic
  else
    let s := loadRoutingTable e (set_lifecycle true (done s) s) in
    p ← Protocol_Start (protocol s);
    Ret (set_protocol p s).

(** [Terminate]: [stopOnce] makes every call but the first do nothing. *)
Definition Terminate (saved : bool) (s : IndexingService) : IndexingService :=
  if done s then s
  else
    let s := set_lifecycle (started s) true s in
    let s := set_protocol (Protocol_Terminate (protocol s)) s in
    saveRoutingTable saved s.

(** The steps of a service: a datagram, a maintenance round, a probe from the
    other family's service, a rotation of the token secret, start and stop. *)
Inductive is_step (sha1 : list byte -> list byte) (s : IndexingService) : IndexingService -> Prop :=
  | is_receive e msg addr : 0 <= now e -> is_step sha1 s (receive sha1 e msg addr s)
  | is_maintain e saved nodes : 0 <= now e -> is_step sha1 s (runMaintenance e saved nodes s)
  | is_probe e addr : is_step sha1 s (probeBootstrapCandidate e addr s)
  | is_rotate random : is_step sha1 s (set_protocol (updateTokenSecret random (protocol s)) s)
  | is_start e s' : Start e s = Ret s' -> is_step sha1 s s'
  | is_terminate saved : is_step sha1 s (Terminate saved s).
End Maintenance.

(** ** The invariant of a service *)

(** A node may be in the table of a service for [network]. *)
Definition node_accepted (network : string) (addr : AddrPort) : Prop :=
  IsValid addr /\ ap_port addr <> 0 /\
  (network = "udp4"%string /\ Is4 (ap_addr addr) \/ network = "udp6"%string /\ ~ Is4 (ap_addr addr)).

Record is_inv (s : IndexingService) : Prop := {
  inv_table : rt_inv (routingTable s);
  inv_reqs : rq_inv (reqs s);
  inv_nodes : Forall (fun n => node_accepted (network s) (rn_Addr n)) (Snapshot (routingTable s))
}.

Lemma acceptsAddress_spec s addr : acceptsAddress s addr = true <-> node_accepted (network s) addr.
Proof.
  unfold acceptsAddress, node_accepted. destruct (IsValid addr); cbn; [|split; [done|by intros []]].
  destruct (Z.eqb_spec (ap_port addr) 0) as [->|Hp]; cbn; [split; [done|tauto]|].
  rewrite orb_true_iff, !andb_true_iff, !String.eqb_eq, negb_true_iff.
  destruct (Is4 (ap_addr addr)); cbn; intuition congruence.
Qed.

Lemma is_inv_eq s s' :
  routingTable s' = routingTable s -> reqs s' = reqs s -> network s' = network s -> is_inv s -> is_inv s'.
Proof. intros E1 E2 E3 [H1 H2 H3]. split; by rewrite ?E1, ?E2, ?E3. Qed.

(** What sending and drawing leave alone. *)
Lemma send_frame e msg addr s :
  let s' := (send e msg addr s).2 in
  routingTable s' = routingTable s /\ reqs s' = reqs s /\ network s' = network s /\
  results s' = results s /\ hasOnResult s' = hasOnResult s /\ done s' = done s.
Proof. unfold send. by destruct (SendMessage _ _ _ _). Qed.

Lemma is_inv_send e msg addr s : is_inv s -> is_inv (send_ e msg addr s).
Proof. destruct (send_frame e msg addr s) as (? & ? & ? & _). by apply is_inv_eq. Qed.

Lemma is_inv_draw e s : is_inv s -> is_inv (draw e s).2.
Proof. by apply is_inv_eq. Qed.

Lemma is_inv_set_reqs rq s : is_inv s -> rq_inv rq -> is_inv (set_reqs rq s).
Proof. intros [H1 H2 H3] Hr. by split. Qed.

Lemma is_inv_add s id addr seen :
  is_inv s -> acceptsAddress s addr = true -> is_inv (set_table (Add (routingTable s) id addr seen).2 s).
Proof.
  intros [H1 H2 H3] Ha%acceptsAddress_spec. split; [by apply rt_inv_Add|done|].
  apply Forall_forall. intros n Hn. cbn [routingTable set_table network] in *.
  apply Add_Snapshot_sub in Hn as [Hn| ->]; [|done|done].
  rewrite Forall_forall in H3. by apply H3.
Qed.

Lemma is_inv_addNode e id addr s : is_inv s -> is_inv (addNode e id addr s).
Proof.
  intros Hi. unfold addNode. destruct (stopped s); [done|].
  destruct (acceptsAddress s addr) eqn:Ha; [|done]. cbn [negb].
  pose proof (is_inv_add s id addr (now e) Hi Ha) as Hadd. destruct (Add _ _ _ _) as [added t]. cbn [snd] in Hadd.
  destruct added; [|done]. cbn [negb].
  pose proof (is_inv_draw e _ Hadd) as Hd. destruct (draw e _) as [target s']. by apply is_inv_send.
Qed.
#[export] Hint Resolve is_inv_addNode is_inv_send : dhtc.

Lemma is_inv_discovered e node s : is_inv s -> is_inv (handleDiscoveredNode e node s).
Proof.
  intros Hi. unfold handleDiscoveredNode. case_match; [by apply is_inv_addNode|].
  case_match; [|done]. by apply (is_inv_eq s).
Qed.

(** [requestPeers]: either a query carrying a fresh transaction of this info hash
    is queued, or the pending table is what the expiry pass left. *)
Lemma requestPeers_inv e ih addr s :
  is_inv s -> 0 <= now e -> is_inv (requestPeers e ih addr s).2.
Proof.
  intros Hi He. unfold requestPeers. destruct (stopped s); [done|].
  pose proof (reserve_inv (reqs s) (now e) ih (inv_reqs _ Hi) He) as Hr.
  destruct (reserve _ _ _) as [r rq]. cbn [snd] in Hr.
  assert (is_inv (set_reqs rq s)) as Hi' by (by apply is_inv_set_reqs).
  destruct r as [| |t|]; [done|done| |done].
  match goal with |- context [send e ?m ?a ?s0] =>
    destruct (send_frame e m a s0) as (E1 & E2 & E3 & _); destruct (send e m a s0) as [ok s1] end.
  cbn [snd] in *. assert (is_inv s1) as Hi1 by (by eapply is_inv_eq).
  destruct ok; [done|]. cbn [snd]. apply is_inv_set_reqs; [done|].
  eapply rq_step_inv; [apply Hi1|constructor].
Qed.

Section Steps.
  Context `{AddrText} (sha1 : list byte -> list byte).
  Context (SplitHostPort : string -> option (string * string)) (Atoi : string -> option Z)
    (LookupIP : string -> option (list (list byte))).

Lemma is_inv_queries e msg addr s :
  is_inv s ->
  is_inv (onPingQuery e msg addr s) /\ is_inv (onFindNodeQuery e msg addr s) /\
  is_inv (onGetPeersQuery sha1 e msg addr s) /\ is_inv (onAnnouncePeerQuery sha1 e msg addr s) /\
  is_inv (onSampleInfohashesQuery e msg addr s).
Proof.
  intros Hi. unfold onPingQuery, onFindNodeQuery, onGetPeersQuery, onAnnouncePeerQuery, onSampleInfohashesQuery.
  split; [|split; [|split; [|split]]].
  - auto with dhtc.
  - destruct (responseNodes _ _ _). auto with dhtc.
  - destruct (responseNodes _ _ _). auto with dhtc.
  - case_match; [done|]. apply is_inv_send. destruct (hasOnResult s); [|done]. by apply (is_inv_eq s).
  - case_match; [done|]. destruct (responseNodes _ _ _). auto with dhtc.
Qed.

Lemma is_inv_found e nodes nodes6 s :
  is_inv s ->
  is_inv (foldl (fun s node => handleDiscoveredNode e node s)
    (foldl (fun s node => addNode e (ci_ID node) (ci_Addr node) s) s nodes) nodes6).
Proof.
  intros Hi. apply foldl_inv; [intros; by apply is_inv_discovered|].
  apply foldl_inv; [intros; by apply is_inv_addNode|done].
Qed.

Lemma is_inv_responses e msg addr s :
  is_inv s -> 0 <= now e ->
  is_inv (onFindNodeResponse e msg addr s) /\ is_inv (onGetPeersResponse e msg addr s) /\
  is_inv (onSampleInfohashesResponse e msg addr s).
Proof.
  intros Hi He. unfold onFindNodeResponse, onGetPeersResponse, onSampleInfohashesResponse.
  destruct (stopped s); [done|].
  pose proof (is_inv_addNode e (r_ID (m_R msg)) addr s Hi) as Ha.
  set (s1 := addNode e (r_ID (m_R msg)) addr s) in *. clearbody s1. split; [|split].
  - by apply is_inv_found.
  - pose proof (take_request_inv (reqs s1) (txid_of (m_T msg)) (inv_reqs _ Ha)) as Ht.
    destruct (take_request _ _) as [entry rq]. cbn [snd] in Ht.
    assert (is_inv (set_reqs rq s1)) as Hr by (by apply is_inv_set_reqs).
    destruct entry as [entry|]; [|done]. case_match; [done|]. case_match; by apply (is_inv_eq (set_reqs rq s1)).
  - apply is_inv_found. apply foldl_inv; [intros; by apply requestPeers_inv|].
    apply foldl_inv; [intros; by apply requestPeers_inv|done].
Qed.

Lemma is_inv_receive e msg addr s :
  is_inv s -> 0 <= now e -> is_inv (receive sha1 e msg addr s).
Proof.
  intros Hi He. unfold receive.
  destruct (is_inv_queries e msg addr s Hi) as (H1 & H2 & H3 & H4 & H5).
  destruct (is_inv_responses e msg addr s Hi He) as (H6 & H7 & H8).
  apply onMessage_inv; [done|]. by intros [] f [= <-].
Qed.

Lemma is_inv_save saved s : is_inv s -> is_inv (saveRoutingTable saved s).
Proof.
  intros Hi. unfold saveRoutingTable. case_match; [done|]. destruct saved; [|done]. by apply (is_inv_eq s).
Qed.

Lemma is_inv_prune before s : is_inv s -> is_inv (set_table (Prune (routingTable s) before) s).
Proof.
  intros [H1 H2 H3]. split; [by apply rt_inv_Prune|done|].
  cbn [routingTable set_table network]. unfold Prune, Snapshot. cbn [rt_buckets]. rewrite concat_prune.
  apply Forall_forall. intros n [_ Hn]%list_elem_of_filter. rewrite Forall_forall in H3. by apply H3.
Qed.

Lemma is_inv_bootstrap e nodes s :
  is_inv s -> is_inv (bootstrap SplitHostPort Atoi LookupIP e nodes s).
Proof.
  intros Hi. unfold bootstrap. apply foldl_inv; [|done]. clear s Hi. intros s node _ Hi.
  destruct (stopped s); [done|]. pose proof (is_inv_draw e s Hi) as Hd. destruct (draw e s) as [target s1].
  cbn [snd] in Hd. destruct (resolveBootstrapAddresses _ _ _ _ _); [|done].
  apply foldl_inv; [|done]. intros. by apply is_inv_send.
Qed.

Lemma is_inv_findNeighbors e s : is_inv s -> is_inv (findNeighbors e s).
Proof.
  intros Hi. unfold findNeighbors. destruct (stopped s); [done|].
  generalize (Snapshot (routingTable s)). intros l. apply foldl_inv; [|done]. clear s Hi. intros s node _ Hi.
  destruct (stopped s); [done|]. pose proof (is_inv_draw e s Hi) as Hd. destruct (draw e s) as [target s1].
  by apply is_inv_send.
Qed.

Lemma is_inv_expire e s : is_inv s -> 0 <= now e -> is_inv (expireOldGetPeersRequests e s).
Proof. intros Hi He. apply is_inv_set_reqs; [done|]. apply expire_inv; [apply Hi|done]. Qed.

Lemma is_inv_maintain e saved nodes s :
  is_inv s -> 0 <= now e -> is_inv (runMaintenance SplitHostPort Atoi LookupIP e saved nodes s).
Proof.
  intros Hi He. unfold runMaintenance.
  match goal with |- context [if _ <? 8 then ?x else s] =>
    assert (is_inv (if Len (routingTable s) <? 8 then x else s)) as Hb end.
  { case_match; [|done]. destruct nodes; [done|by apply is_inv_bootstrap]. }
  cbv zeta. match type of Hb with is_inv ?x => set (s1 := x) in * end. clearbody s1.
  assert (is_inv (if 0 <? Len (routingTable s)
     then set_table (Prune (routingTable (findNeighbors e s1)) (now e - 5 * minute)) (findNeighbors e s1)
     else s1)) as Hf.
  { case_match; [|done]. apply is_inv_prune. by apply is_inv_findNeighbors. }
  match type of Hf with is_inv ?x => set (s2 := x) in * end. clearbody s2.
  assert (is_inv (expireOldGetPeersRequests e (pruneProbeCache e s2))) as Hx.
  { apply is_inv_expire; [|done]. by apply (is_inv_eq s2). }
  case_match; [|done]. eapply (is_inv_eq (saveRoutingTable saved _)); [done..|]. by apply is_inv_save.
Qed.

Lemma is_inv_probe e addr s : is_inv s -> is_inv (probeBootstrapCandidate e addr s).
Proof.
  intros Hi. unfold probeBootstrapCandidate. case_match; [done|]. case_match; [done|].
  apply is_inv_send. by apply (is_inv_eq s).
Qed.

Lemma is_inv_loadEntry nw s entry : is_inv s -> is_inv (loadEntry nw s entry).
Proof. intros Hi. unfold loadEntry.
  destruct (hex_DecodeString _) as [id|]; [|done]. destruct (negb _); [done|].
  destruct (ParseAddrPort _) as [addr|]; [|done].
  destruct (acceptsAddress s addr) eqn:Ha; [by apply is_inv_add|done]. Qed.

Lemma is_inv_Start e s s' : is_inv s -> Start e s = Ret s' -> is_inv s'.
Proof.
  intros Hi. unfold Start. case_match; [done|].
  assert (is_inv (loadRoutingTable e (set_lifecycle true (done s) s))) as Hl.
  { unfold loadRoutingTable. case_match; [|by apply (is_inv_eq s)].
    apply foldl_inv; [intros; by apply is_inv_loadEntry|by apply (is_inv_eq s)]. }
  set (s1 := loadRoutingTable _ _) in *. clearbody s1.
  destruct (Protocol_Start _); intros [= <-]. by apply (is_inv_eq s1).
Qed.

Lemma is_inv_step s s' : is_inv s -> is_step SplitHostPort Atoi LookupIP sha1 s s' -> is_inv s'.
Proof.
  intros Hi [e msg addr He|e saved nodes He|e addr|random|e s'' Hs|saved].
  - by apply is_inv_receive.
  - by apply is_inv_maintain.
  - by apply is_inv_probe.
  - by apply (is_inv_eq s).
  - by eapply is_inv_Start.
  - unfold Terminate. case_match; [done|]. apply is_inv_save. by apply (is_inv_eq s).
Qed.

(** C10: Whatever datagrams arrive and however they interleave with maintenance
    rounds, probes, rotations, a restored routing cache and shutdown: the routing
    table keeps the invariant of a Kademlia table and holds only valid addresses
    of the service's own family with a nonzero port, and the pending get_peers
    requests keep theirs (at most two per info hash, at most 8192, the counts
    agreeing with the table). *)
Theorem service_invariant net laddr path interval maxNeighbors rateLimit onResult onCandidate
    secret id file (s : IndexingService) :
  star (is_step SplitHostPort Atoi LookupIP sha1)
    (NewIndexingService net laddr path interval maxNeighbors rateLimit onResult onCandidate secret id file) s ->
  is_inv s.
Proof.
  intros Hs. eapply star_inv; [exact is_inv_step|exact Hs|].
  assert (Snapshot (NewRoutingTable id maxNeighbors) = []) as Hn by done.
  split; cbn [routingTable reqs NewIndexingService];
    [apply rt_inv_new|apply newRequests_inv|by rewrite Hn].
Qed.
End Steps.

(** ** Pending requests and their answers *)

Lemma addNode_frame e id addr s :
  let s' := addNode e id addr s in
  reqs s' = reqs s /\ network s' = network s /\ results s' = results s /\
  hasOnResult s' = hasOnResult s /\ done s' = done s.
Proof.
  unfold addNode. case_match; [done|]. case_match; [done|].
  destruct (Add _ _ _ _) as [added t]. case_match; [done|]. cbn [draw].
  unfold send_. by match goal with |- context [send e ?m ?a ?s0] => destruct (send_frame e m a s0) as (_ & ? & ? & ? & ? & ?) end.
Qed.

(** An answer to get_peers yields a result exactly when its transaction is
    pending and it carries values: then the result names the info hash that was
    asked for under that transaction and the answered peers that are valid and
    have a port. The transaction is gone afterwards, so a second answer with the
    same transaction id yields nothing. *)
Theorem get_peers_answered (e e' : env) (msg msg' : Message) (addr addr' : AddrPort) (s : IndexingService) :
  done s = false -> hasOnResult s = true -> m_T msg' = m_T msg ->
  let s' := onGetPeersResponse e msg addr s in
  results s' = results s ++
    match getPeersRequests (reqs s) !! txid_of (m_T msg) with
    | Some entry =>
        match r_Values (m_R msg) with
        | [] => []
        | values => [mkResult (infoHash entry) (usable_peers values) (addressFamily s)]
        end
    | None => []
    end /\
  getPeersRequests (reqs s') = delete (txid_of (m_T msg)) (getPeersRequests (reqs s)) /\
  results (onGetPeersResponse e' msg' addr' s') = results s' /\
  Forall (fun p => IsValid p /\ ap_port p <> 0) (usable_peers (r_Values (m_R msg))).
Proof.
  intros Hd Hr HT s'.
  assert (forall e msg addr s, done s = false -> hasOnResult s = true ->
    let s' := onGetPeersResponse e msg addr s in
    results s' = results s ++
      match getPeersRequests (reqs s) !! txid_of (m_T msg) with
      | Some entry =>
          match r_Values (m_R msg) with
          | [] => []
          | values => [mkResult (infoHash entry) (usable_peers values) (addressFamily s)]
          end
      | None => []
      end /\
    getPeersRequests (reqs s') = delete (txid_of (m_T msg)) (getPeersRequests (reqs s)) /\
    done s' = false /\ hasOnResult s' = true) as Hspec.
  { clear. intros e msg addr s Hd Hr s'. subst s'. unfold onGetPeersResponse, stopped. rewrite Hd.
    destruct (addNode_frame e (r_ID (m_R msg)) addr s) as (E1 & E2 & E3 & E4 & E5).
    assert (addressFamily (addNode e (r_ID (m_R msg)) addr s) = addressFamily s) as E6
      by (unfold addressFamily; by rewrite E2).
    set (s1 := addNode e (r_ID (m_R msg)) addr s) in *. clearbody s1. rewrite <- E1.
    unfold take_request. destruct (getPeersRequests (reqs s1) !! txid_of (m_T msg)) as [entry|] eqn:Ht.
    - destruct (r_Values (m_R msg)) as [|v vs]; cbn [length Nat.eqb].
      + cbn. by rewrite remove_requests, E3, app_nil_r, E4, E5.
      + cbn [hasOnResult set_reqs]. rewrite E4, Hr. cbn [results set_results set_reqs reqs done hasOnResult].
        rewrite remove_requests, E3, E4, E5. unfold addressFamily in *. cbn [network set_reqs]. by rewrite E6.
    - cbn. rewrite E3, app_nil_r, E4, E5, delete_id by done. done. }
  destruct (Hspec e msg addr s Hd Hr) as (H1 & H2 & H3 & H4). fold s' in H1, H2, H3, H4.
  split; [done|]. split; [done|]. split.
  - destruct (Hspec e' msg' addr' s' H3 H4) as (-> & _). by rewrite HT, H2, lookup_delete_eq, app_nil_r.
  - apply Forall_forall. intros p [Hp _]%list_elem_of_filter. revert Hp. rewrite Is_true_true.
    destruct (IsValid p); [|done]. destruct (Z.eqb_spec (ap_port p) 0); done.
Qed.

Lemma queue_get_peers id ih want t : queue_of (set_T t (NewGetPeersQuery id ih want)) = SendQueue.
Proof. done. Qed.

(** C19: Asking for the peers of an info hash either queues one get_peers query for
    it, under a transaction id that was free and is now recorded with the info
    hash and the time, or leaves the queues and the pending requests (expired ones
    apart) as they are. *)
Theorem requestPeers_query (e : env) (ih : list byte) (addr : AddrPort) (s : IndexingService) :
  is_inv s -> 0 <= now e -> done s = false ->
  let m := fresh_entries (now e) (getPeersRequests (reqs s)) in
  let '(ok, s') := requestPeers e ih addr s in
  if ok then exists t, m !! t = None /\
    getPeersRequests (reqs s') = <[t := mkEntry ih (now e)]> m /\
    transport (protocol s') = enqueue (transport (protocol s)) SendQueue
      (mkSend (set_T [t.1; t.2] (NewGetPeersQuery (nodeID s) ih (want s))) addr)
  else getPeersRequests (reqs s') = m /\ protocol s' = protocol s.
Proof.
  intros Hi He Hd m. unfold requestPeers, stopped. rewrite Hd.
  pose proof (reserve_cases (reqs s) (now e) ih (inv_reqs _ Hi) He) as Hr. cbv zeta in Hr. fold m in Hr.
  destruct (reserve _ _ _) as [r rq] eqn:Er. destruct Hr as [Hr Hrq].
  destruct r as [| |t|]; [by destruct Hr|by destruct Hr as (_ & _ & ?)| |done].
  destruct Hr as (_ & _ & Hfree & Htab). unfold send, SendMessage. cbn [protocol set_reqs nodeID want].
  assert (getPeersRequests (release t rq) = m) as Hrel.
  { unfold release, take_request. rewrite Htab, lookup_insert_eq. cbn [snd getPeersRequests].
    by rewrite remove_requests, Htab, delete_insert_id. }
  destruct (p_started (protocol s)); cbn [negb].
  2: { split; [done|]. by destruct s. }
  destruct (WriteMessages _ _ _ _) as [ok t'] eqn:Ew. apply WriteMessages_cases in Ew.
  destruct ok.
  - destruct Ew as [_ ->]. exists t. by rewrite queue_get_peers.
  - subst t'. split; [done|]. cbn. by destruct (protocol s).
Qed.

(** ** The routing cache *)

Lemma fromHexChar_digit n : 0 <= n < 16 -> fromHexChar (hex_digit n) = Some n.
Proof.
  intros Hn.
  assert (Forall (fun k => fromHexChar (hex_digit (Z.of_nat k)) = Some (Z.of_nat k)) (seq 0 16)) as Hall
    by (repeat constructor).
  rewrite Forall_forall in Hall. specialize (Hall (Z.to_nat n)).
  rewrite Z2Nat.id in Hall by lia. apply Hall, elem_of_seq. lia.
Qed.

Lemma hex_roundtrip l : hex_DecodeString (hex_EncodeToString l) = Some l.
Proof.
  induction l as [|b l IH]; [done|]. cbn [hex_EncodeToString hex_DecodeString].
  pose proof (b2z_range b) as Hb.
  rewrite !fromHexChar_digit by (split; [apply Z.div_pos || apply Z.mod_pos_bound|apply Z.div_lt_upper_bound || apply Z.mod_pos_bound]; lia).
  cbn. rewrite IH. cbn. f_equal. f_equal.
  replace (b2z b / 16 * 16 + b2z b mod 16) with (b2z b) by (pose proof (Z.div_mod (b2z b) 16); lia).
  apply z2b_b2z.
Qed.

Section Restore.
  Context `{AddrTextLaws}.

(** A restored node is a saved one, its time cut to seconds. *)
Definition restored_from (saved : list routingNode) (nw : time) (n : routingNode) : Prop :=
  exists m, m ∈ saved /\ rn_ID n = rn_ID m /\ rn_Addr n = rn_Addr m /\
    rn_LastSeen n = (if time_Unix (rn_LastSeen m) <=? 0 then nw else Unix_time (time_Unix (rn_LastSeen m))).

(** Restoring the routing cache that was saved, into any service with a
    well-formed table: every node of the new table was there before or is a saved
    node with the same id and address (seen at the saved second, or now when the
    saved time is not after 1970), it belongs to the service's family, and the
    table keeps its invariant. *)
Theorem restore_sound (e : env) (s saved : IndexingService) :
  is_inv s -> is_inv saved -> Forall (fun n => ap_wf (rn_Addr n)) (Snapshot (routingTable saved)) ->
  cachePath saved <> ""%string ->
  cacheFile s = cacheFile (saveRoutingTable true saved) ->
  let s' := loadRoutingTable e s in
  is_inv s' /\
  Forall (fun n => n ∈ Snapshot (routingTable s) \/ restored_from (Snapshot (routingTable saved)) (now e) n)
    (Snapshot (routingTable s')).
Proof.
  intros Hi Hsaved Hwf Hpath Hfile s'. subst s'. unfold loadRoutingTable. rewrite Hfile.
  unfold saveRoutingTable. rewrite (proj2 (String.eqb_neq _ _) Hpath). cbn [cacheFile set_cacheFile].
  set (old := Snapshot (routingTable s)).
  set (P := fun s1 => is_inv s1 /\ Forall (fun n => n ∈ old \/ restored_from (Snapshot (routingTable saved)) (now e) n)
    (Snapshot (routingTable s1))).
  change (P (foldl (loadEntry (now e)) s (cacheEntry <$> Snapshot (routingTable saved)))).
  apply foldl_inv; [|split; [done|]; apply Forall_forall; intros n Hn; by left].
  intros s1 x (m & -> & Hm)%list_elem_of_fmap [Hi1 Hn1].
  split; [by apply is_inv_loadEntry|]. unfold loadEntry, cacheEntry. cbn [rc_ID rc_Address rc_LastSeen].
  rewrite hex_roundtrip. destruct (negb _); [done|].
  destruct (Snapshot_elem _ _ (inv_table _ Hsaved) Hm) as [(_ & _ & Hv & _) _].
  rewrite Forall_forall in Hwf. rewrite parse_print by (by apply Hwf || done).
  destruct (acceptsAddress s1 (rn_Addr m)) eqn:Ha; [|done].
  apply Forall_forall. intros n Hn. cbn [routingTable set_table] in Hn.
  apply Add_Snapshot_sub in Hn as [Hn| ->]; [by rewrite Forall_forall in Hn1; apply Hn1| |apply Hi1].
  right. exists m. done.
Qed.
End Restore.

(** ** Witnesses *)

(** A text form for addresses: the binary digits of their encoding. *)
Fixpoint pos_str (p : positive) : string :=
  match p with xH => EmptyString | xO p => String (hex_digit 0) (pos_str p) | xI p => String (hex_digit 1) (pos_str p) end.
Fixpoint str_pos (s : string) : positive :=
  match s with
  | EmptyString => xH
  | String c s => if Ascii.eqb c (hex_digit 0) then xO (str_pos s) else xI (str_pos s)
  end.
Lemma str_pos_str p : str_pos (pos_str p) = p.
Proof. induction p as [p IH|p IH|]; [| |done]; cbn [pos_str str_pos]; rewrite IH; reflexivity. Qed.

#[local] Instance demo_text : AddrText :=
  {| AddrPort_String p := pos_str (encode p); ParseAddrPort s := decode (str_pos s) |}.
#[local] Instance demo_text_laws : AddrTextLaws demo_text.
Proof. intros p _ _. cbn. by rewrite str_pos_str, decode_encode. Qed.

Definition demo_env (t : Z) : env := mkEnv (demo_time + t * second) (fun n => be_encode 20 (Z.of_nat n)) false.
Definition demo_new (file : option (list routingCacheEntry)) : IndexingService :=
  NewIndexingService "udp4" "0.0.0.0:6881" "cache.json" (10 * second) 100 10 true true zero20 zero20 file.
Definition demo_started : IndexingService :=
  match Start (demo_env 0) (demo_new None) with Ret s => s | _ => demo_new None end.
Definition demo_peer : AddrPort := AddrPortFrom (Addr4 3232235521) 6881.

(** A node answers find_node, is sampled, and answers get_peers. *)
Definition demo_sample : Message :=
  Protocol.response aa (mkResp demo_id [] [] [] [] 0 1 demo_hash []).
Definition demo_values : Message :=
  Protocol.response [x00; x00] (mkResp demo_id [] [] [x01] [demo_peer; AddrPortFrom (Addr4 1) 0] 0 0 [] []).
Definition demo_sha (l : list byte) : list byte := take 20 l.
Definition demo_sampled : IndexingService := receive demo_sha (demo_env 1) demo_sample demo_peer demo_started.
Definition no_split (s : string) : option (string * string) := None.
Definition no_atoi (s : string) : option Z := None.
Definition no_lookup (s : string) : option (list (list byte)) := None.

Lemma demo_service_star :
  star (is_step no_split no_atoi no_lookup demo_sha) (demo_new None) demo_sampled.
Proof.
  eapply star_step; [apply (is_start _ _ _ _ _ (demo_env 0) demo_started); reflexivity|].
  eapply star_step; [apply (is_receive _ _ _ _ _ (demo_env 1) demo_sample demo_peer); done|]. apply star_refl.
Qed.

Lemma demo_sampled_inv : is_inv demo_sampled.
Proof.
  eapply star_inv; [apply is_inv_step|exact demo_service_star|].
  split; [apply rt_inv_new|apply newRequests_inv|constructor].
Qed.

Theorem service_invariant_witness :
  is_inv demo_sampled /\ Len (routingTable demo_sampled) = 1 /\
  length (ch_items (sendChan (transport (protocol demo_sampled)))) = 1%nat.
Proof.
  split; [|split; vm_compute; reflexivity].
  exact (service_invariant demo_sha no_split no_atoi no_lookup _ _ _ _ _ _ _ _ _ _ _ _ demo_service_star).
Defined.

Theorem get_peers_answered_witness :
  results (onGetPeersResponse (demo_env 2) demo_values demo_peer demo_sampled) = [mkResult demo_hash [demo_peer] 4].
Proof.
  destruct (get_peers_answered (demo_env 2) (demo_env 3) demo_values demo_values demo_peer demo_peer demo_sampled
    eq_refl eq_refl eq_refl) as (H & _).
  rewrite H. vm_compute. reflexivity.
Defined.

Theorem requestPeers_query_witness :
  exists t, getPeersRequests (reqs (requestPeers (demo_env 2) demo_id demo_peer demo_sampled).2) !! t =
    Some (mkEntry demo_id (now (demo_env 2))).
Proof.
  pose proof (requestPeers_query (demo_env 2) demo_id demo_peer demo_sampled demo_sampled_inv
    ltac:(done) ltac:(vm_compute; reflexivity)) as H.
  assert ((requestPeers (demo_env 2) demo_id demo_peer demo_sampled).1 = true) as Hok by (vm_compute; reflexivity).
  destruct (requestPeers _ _ _ _) as [ok s']. cbn [fst] in Hok. subst ok. cbv zeta in H. cbn [snd].
  destruct H as (t & _ & Ht & _). exists t. rewrite Ht. apply lookup_insert_eq.
Defined.

Definition demo_restoring : IndexingService := demo_new (cacheFile (saveRoutingTable true demo_sampled)).

Lemma demo_new_file f : cacheFile (demo_new f) = f.
Proof. reflexivity. Qed.

Theorem restore_sound_witness :
  is_inv (loadRoutingTable (demo_env 9) demo_restoring) /\
  (rn_Addr <$> Snapshot (routingTable (loadRoutingTable (demo_env 9) demo_restoring))) = [demo_peer].
Proof.
  split; [|vm_compute; reflexivity].
  refine (proj1 (restore_sound (demo_env 9) demo_restoring demo_sampled _ demo_sampled_inv _ _ _)).
  - split; [apply rt_inv_new|apply newRequests_inv|constructor].
  - apply (Forall_fmap rn_Addr ap_wf).
    replace (rn_Addr <$> Snapshot (routingTable demo_sampled)) with [demo_peer] by (vm_compute; reflexivity).
    repeat constructor; done.
  - intros E. vm_compute in E. discriminate E.
  - exact (demo_new_file _).
Defined.
