(* ===== verification/Sink.v ===== *)
(** * The download sink (dhtc-client/sink.go, dhtc-client/types.go)

    The sink turns info hashes found by the indexing services into metadata: one
    download goroutine per info hash, the peers still to be tried, the peers ever
    seen, and the channel of finished metadata. Every critical section of
    [incomingInfoHashesMx] is one function; the goroutines are the entries of
    [waiting] (before the semaphore) and [running] (inside [Client.Do], which
    calls back once, see Client.v). *)

From S2P Require Import Prelude NetAddr.

Record File : Type := mkFile { Size : Z; Path : string }.

Record Metadata : Type := mkMetadata {
  md_InfoHash : list byte;
  md_Family : Z;
  md_Name : string;
  md_TotalSize : Z;
  md_DiscoveredOn : Z;
  md_Files : list File
}.

(** The interface [Result]. *)
Record Result : Type := mkResult { InfoHash : list byte; PeerAddrs : list AddrPort; Family : Z }.

Abbreviation key := (list byte) (only parsing).
Abbreviation download_t := (list byte * AddrPort)%type (only parsing).

Record Sink : Type := mkSink {
  maxNLeeches : Z;
  maxConcurrentDownloads : Z;
  incomingInfoHashes : gmap (list byte) (list AddrPort);
  incomingFamilies : gmap (list byte) Z;
  incomingPeers : gmap (list byte) (gset AddrPort);
  drain : list Metadata;              (* the channel, of capacity 10 *)
  blocked : option Metadata;          (* the send of the holder of drainMx *)
  terminated : bool;
  hasOnDiscard : bool;
  waiting : list download_t;
  running : list download_t;
  log_accepted : list (list byte);    (* calls of Sink that returned true *)
  log_flushed : list (list byte);     (* metadata handed to the channel *)
  log_discarded : list (list byte)    (* calls of onDiscard *)
}.

Definition drainCap : nat := 10.

Definition NewSink (maxNLeeches maxConcurrentDownloads : Z) (hasOnDiscard : bool) : Sink :=
  mkSink maxNLeeches maxConcurrentDownloads ∅ ∅ ∅ [] None false hasOnDiscard [] [] [] [] [].

(** The maps, the waiting goroutines and the logs of a step. *)
Definition with_maps (s : Sink) (i : gmap (list byte) (list AddrPort)) (f : gmap (list byte) Z)
    (p : gmap (list byte) (gset AddrPort)) : Sink :=
  mkSink (maxNLeeches s) (maxConcurrentDownloads s) i f p (drain s) (blocked s) (terminated s)
    (hasOnDiscard s) (waiting s) (running s) (log_accepted s) (log_flushed s) (log_discarded s).
Definition with_threads (s : Sink) (w r : list download_t) : Sink :=
  mkSink (maxNLeeches s) (maxConcurrentDownloads s) (incomingInfoHashes s) (incomingFamilies s)
    (incomingPeers s) (drain s) (blocked s) (terminated s) (hasOnDiscard s) w r
    (log_accepted s) (log_flushed s) (log_discarded s).
Definition with_drain (s : Sink) (d : list Metadata) (b : option Metadata) : Sink :=
  mkSink (maxNLeeches s) (maxConcurrentDownloads s) (incomingInfoHashes s) (incomingFamilies s)
    (incomingPeers s) d b (terminated s) (hasOnDiscard s) (waiting s) (running s)
    (log_accepted s) (log_flushed s) (log_discarded s).
Definition with_logs (s : Sink) (a f d : list (list byte)) : Sink :=
  mkSink (maxNLeeches s) (maxConcurrentDownloads s) (incomingInfoHashes s) (incomingFamilies s)
    (incomingPeers s) (drain s) (blocked s) (terminated s) (hasOnDiscard s) (waiting s) (running s) a f d.

(** [go ms.download(infoHash, peer)] *)
Definition spawn (ih : list byte) (peer : AddrPort) (s : Sink) : Sink :=
  with_threads s (waiting s ++ [(ih, peer)]) (running s).

Fixpoint uniqueValidPeers_loop (peers : list AddrPort) (existing seen : gset AddrPort)
    (result : list AddrPort) : list AddrPort :=
  match peers with
  | [] => result
  | peer :: peers' =>
      if negb (IsValid peer) || (ap_port peer =? 0) then uniqueValidPeers_loop peers' existing seen result
      else if bool_decide (peer ∈ existing) then uniqueValidPeers_loop peers' existing seen result
      else if bool_decide (peer ∈ seen) then uniqueValidPeers_loop peers' existing seen result
      else uniqueValidPeers_loop peers' existing ({[peer]} ∪ seen) (result ++ [peer])
  end.

Definition uniqueValidPeers (peers : list AddrPort) (existing : gset AddrPort) : list AddrPort :=
  uniqueValidPeers_loop peers existing ∅ [].

Definition peerSet (peers : list AddrPort) : gset AddrPort := list_to_set peers.

(** [Sink.Sink] *)
Definition Sink_ (res : Result) (s : Sink) : bool * Sink :=
  if terminated s then (false, s)
  else if maxNLeeches s <=? Z.of_nat (size (incomingInfoHashes s)) then (false, s)
  else
    let infoHash := InfoHash res in
    let peerAddrs := uniqueValidPeers (PeerAddrs res) ∅ in
    match incomingInfoHashes s !! infoHash with
    | Some _ => (false, s)
    | None =>
        match peerAddrs with
        | peer :: rest =>
            let s := with_maps s (<[infoHash := rest]> (incomingInfoHashes s))
              (<[infoHash := Family res]> (incomingFamilies s))
              (<[infoHash := peerSet peerAddrs]> (incomingPeers s)) in
            let s := with_logs s (log_accepted s ++ [infoHash]) (log_flushed s) (log_discarded s) in
            (true, spawn infoHash peer s)
        | [] => (false, s)
        end
    end.

Definition AddPeers (res : Result) (s : Sink) : bool * Sink :=
  if terminated s then (false, s)
  else
    let key := InfoHash res in
    match incomingInfoHashes s !! key with
    | None => (false, s)
    | Some queued =>
        let known := default ∅ (incomingPeers s !! key) in
        let peers := uniqueValidPeers (PeerAddrs res) known in
        match peers with
        | [] => (false, s)
        | _ => (true, with_maps s (<[key := queued ++ peers]> (incomingInfoHashes s)) (incomingFamilies s)
                  (<[key := peerSet peers ∪ known]> (incomingPeers s)))
        end
    end.

Definition onPeers (infoHash : list byte) (peers : list AddrPort) (s : Sink) : Sink :=
  match incomingInfoHashes s !! infoHash with
  | None => s
  | Some queued => with_maps s (<[infoHash := queued ++ peers]> (incomingInfoHashes s))
                     (incomingFamilies s) (incomingPeers s)
  end.

(** The deletion of an info hash from the three maps. *)
Definition forget (k : list byte) (s : Sink) : Sink :=
  with_maps s (delete k (incomingInfoHashes s)) (delete k (incomingFamilies s)) (delete k (incomingPeers s)).

(** [flush], up to and including the send on [drain], which waits when ten
    results are already there ([blocked]). *)
Definition flush (result : Metadata) (s : Sink) : Sink :=
  if terminated s then s
  else
    let k := md_InfoHash result in
    let result := mkMetadata k (default 0 (incomingFamilies s !! k)) (md_Name result)
      (md_TotalSize result) (md_DiscoveredOn result) (md_Files result) in
    let s := forget k s in
    let s := with_logs s (log_accepted s) (log_flushed s ++ [k]) (log_discarded s) in
    if (length (drain s) <? drainCap)%nat then with_drain s (drain s ++ [result]) None
    else with_drain s (drain s) (Some result).

Definition onLeechError (infoHash : list byte) (s : Sink) : Sink :=
  if terminated s then s
  else
    match incomingInfoHashes s !! infoHash with
    | Some (peer :: rest) =>
        spawn infoHash peer
          (with_maps s (<[infoHash := rest]> (incomingInfoHashes s)) (incomingFamilies s) (incomingPeers s))
    | _ =>
        let s := forget infoHash s in
        if hasOnDiscard s then with_logs s (log_accepted s) (log_flushed s) (log_discarded s ++ [infoHash]) else s
    end.

Definition Sink_Terminate (s : Sink) : Sink :=
  mkSink (maxNLeeches s) (maxConcurrentDownloads s) (incomingInfoHashes s) (incomingFamilies s)
    (incomingPeers s) (drain s) (blocked s) true (hasOnDiscard s) (waiting s) (running s)
    (log_accepted s) (log_flushed s) (log_discarded s).

(** A goroutine of [download] from its start to [Client.Do]: it returns at once
    after termination, otherwise it waits for a place in the semaphore. *)
Definition remove_at {A} (i : nat) (l : list A) : list A := take i l ++ drop (S i) l.

Definition download_start (i : nat) (s : Sink) : option Sink :=
  d ← waiting s !! i;
  if terminated s then Some (with_threads s (remove_at i (waiting s)) (running s))
  else if Z.of_nat (length (running s)) <? maxConcurrentDownloads s
  then Some (with_threads s (remove_at i (waiting s)) (running s ++ [d]))
  else None.

(** The end of [Client.Do]: one of its two callbacks, then the semaphore. *)
Definition download_end (i : nat) (outcome : option Metadata) (s : Sink) : option Sink :=
  d ← running s !! i;
  let s := with_threads s (waiting s) (remove_at i (running s)) in
  match outcome with
  | Some m => if decide (blocked s = None /\ md_InfoHash m = d.1) then Some (flush m s) else None
  | None => Some (onLeechError d.1 s)
  end.

(** The consumer of [Drain] takes a result; a blocked send then goes through. *)
Definition receive (s : Sink) : option (Metadata * Sink) :=
  match drain s with
  | m :: rest => Some (m, with_drain s (rest ++ option_list (blocked s)) None)
  | [] => None
  end.

Inductive sink_step (s : Sink) : Sink -> Prop :=
  | sk_sink res : sink_step s (Sink_ res s).2
  | sk_add res : sink_step s (AddPeers res s).2
  | sk_start i s' : download_start i s = Some s' -> sink_step s s'
  | sk_peers i d peers : running s !! i = Some d -> sink_step s (onPeers d.1 peers s)
  | sk_end i outcome s' : download_end i outcome s = Some s' -> sink_step s s'
  | sk_receive m s' : receive s = Some (m, s') -> sink_step s s'
  | sk_terminate : blocked s = None -> sink_step s (Sink_Terminate s).

(** ** Unique peers *)

Lemma uniqueValidPeers_loop_spec peers existing seen result :
  NoDup result -> (forall p, p ∈ result <-> p ∈ seen) ->
  let l := uniqueValidPeers_loop peers existing seen result in
  NoDup l /\ (forall p, p ∈ l <-> p ∈ result \/ p ∈ peers /\ IsValid p /\ ap_port p <> 0 /\ p ∉ existing) /\
  exists tl, l = result ++ tl /\ tl `sublist_of` peers.
Proof.
  revert seen result; induction peers as [|q peers IH]; intros seen result Hnd Hseen; cbn [uniqueValidPeers_loop].
  { split; [done|]. split; [intros p; rewrite elem_of_nil; tauto|]. exists []. by rewrite app_nil_r. }
  assert (forall P : AddrPort -> Prop, ~ P q \/ q ∈ result ->
    let l := uniqueValidPeers_loop peers existing seen result in
    (forall p, P p <-> IsValid p /\ ap_port p <> 0 /\ p ∉ existing) ->
    NoDup l /\ (forall p, p ∈ l <-> p ∈ result \/ p ∈ q :: peers /\ P p) /\
    exists tl, l = result ++ tl /\ tl `sublist_of` (q :: peers)) as Hskip.
  { intros P Hq l HP. destruct (IH seen result Hnd Hseen) as (H1 & H2 & tl & H3 & H4). fold l in H1, H2, H3.
    split; [done|]. split; [|exists tl; split; [done|by constructor]].
    intros p. rewrite H2, elem_of_cons, <- HP. split; [tauto|].
    intros [?|[[->|?] ?]]; [tauto| |tauto]. destruct Hq; tauto. }
  specialize (Hskip (fun p => IsValid p /\ ap_port p <> 0 /\ p ∉ existing)). cbv zeta beta in Hskip.
  destruct (IsValid q) eqn:Ev; cbn [negb orb]; [|apply Hskip; [left; by intros []|done]].
  destruct (Z.eqb_spec (ap_port q) 0); [apply Hskip; [left; by intros (_ & ? & _)|done]|].
  case_bool_decide; [apply Hskip; [left; by intros (_ & _ & ?)|done]|].
  case_bool_decide as Hs; [apply Hskip; [right; by apply Hseen|done]|].
  destruct (IH ({[q]} ∪ seen) (result ++ [q])) as (H1 & H2 & tl & H3 & H4).
  - apply NoDup_app. split; [done|]. split; [|apply NoDup_singleton].
    intros x Hx ->%list_elem_of_singleton. by apply Hs, Hseen.
  - intros p. rewrite elem_of_app, list_elem_of_singleton, Hseen, elem_of_union, elem_of_singleton. tauto.
  - split; [done|]. split.
    + intros p. rewrite H2, elem_of_app, list_elem_of_singleton, elem_of_cons. split; [|tauto].
      intros [[?| ->]|?]; [tauto| |tauto]. right. rewrite Ev. split; [by left|done].
    + exists (q :: tl). rewrite H3, <- app_assoc. split; [done|]. by constructor.
Qed.

(** ** The invariant *)

Definition occ (k : list byte) (l : list (list byte)) : nat := length (filter (fun x => x = k) l).

Lemma occ_app k l l' : occ k (l ++ l') = (occ k l + occ k l')%nat.
Proof. unfold occ. by rewrite filter_app, length_app. Qed.
Lemma occ_one k x : occ k [x] = if decide (x = k) then 1%nat else 0%nat.
Proof. unfold occ. rewrite filter_cons. by case_decide. Qed.

(** Goroutines alive for an info hash, and whether it is in the maps. *)
Definition live (s : Sink) (k : list byte) : nat := occ k (waiting s).*1 + occ k (running s).*1.
Definition tracked (s : Sink) (k : list byte) : nat :=
  match incomingInfoHashes s !! k with Some _ => 1%nat | None => 0%nat end.

(** [ending] is the info hash of a goroutine that has left [running] and whose
    callback has not run yet. *)
Record sink_inv_ending (ending : list (list byte)) (s : Sink) : Prop := {
  inv_families : dom (incomingFamilies s) = dom (incomingInfoHashes s);
  inv_peers : dom (incomingPeers s) = dom (incomingInfoHashes s);
  inv_leeches : Z.of_nat (size (incomingInfoHashes s)) <= Z.max 0 (maxNLeeches s);
  inv_running : Z.of_nat (length (running s)) <= Z.max 0 (maxConcurrentDownloads s);
  inv_live : terminated s = false -> forall k, (occ k ending + live s k)%nat = tracked s k;
  inv_balance : hasOnDiscard s = true -> forall k,
    occ k (log_accepted s) = (occ k (log_flushed s) + occ k (log_discarded s) + tracked s k)%nat;
  inv_drain : (length (drain s) <= drainCap)%nat;
  inv_blocked : blocked s <> None -> length (drain s) = drainCap
}.
Definition sink_inv : Sink -> Prop := sink_inv_ending [].

Lemma remove_at_occ {A} (f : A -> list byte) i (l : list A) d k :
  l !! i = Some d -> occ k (f <$> l) = (occ k (f <$> remove_at i l) + if decide (f d = k) then 1 else 0)%nat.
Proof.
  intros Hd. rewrite <- (take_drop_middle l i d Hd) at 1. unfold remove_at.
  rewrite !fmap_app, !occ_app, fmap_cons. change (f d :: ?r) with ([f d] ++ r). 
  rewrite occ_app, occ_one. lia.
Qed.

Lemma remove_at_length {A} i (l : list A) d :
  l !! i = Some d -> length l = S (length (remove_at i l)).
Proof.
  intros Hd. rewrite <- (take_drop_middle l i d Hd) at 1. unfold remove_at.
  rewrite !length_app. cbn [length]. lia.
Qed.

Lemma NewSink_inv maxL maxC onDiscard : sink_inv (NewSink maxL maxC onDiscard).
Proof. split; try done; cbn; rewrite ?map_size_empty; lia. Qed.

(** Changing the queue of an info hash that is already tracked. *)
Lemma inv_requeue x s k q p :
  sink_inv_ending x s -> is_Some (incomingInfoHashes s !! k) ->
  dom p = dom (incomingInfoHashes s) ->
  sink_inv_ending x (with_maps s (<[k:=q]> (incomingInfoHashes s)) (incomingFamilies s) p).
Proof.
  intros Hi Hk Hp.
  assert (dom (<[k:=q]> (incomingInfoHashes s)) = dom (incomingInfoHashes s)) as Hd
    by (by apply dom_insert_lookup_L).
  assert (forall k', tracked (with_maps s (<[k:=q]> (incomingInfoHashes s)) (incomingFamilies s) p) k' = tracked s k') as Ht.
  { intros k'. unfold tracked. cbn [incomingInfoHashes with_maps]. destruct (decide (k = k')) as [<-|].
    - rewrite lookup_insert_eq. by destruct Hk as [? ->].
    - by rewrite lookup_insert_ne. }
  destruct Hi as [H1 H2 H3 H4 H5 H6 H7 H8]. split; try done.
  - cbn. by rewrite Hd.
  - cbn. by rewrite Hd.
  - cbn. by rewrite map_size_insert_Some.
  - intros Hterm k'. rewrite Ht. by apply (H5 Hterm).
  - intros Hdisc k'. rewrite Ht. by apply (H6 Hdisc).
Qed.

Lemma AddPeers_inv s res : sink_inv s -> sink_inv (AddPeers res s).2.
Proof.
  intros Hi. unfold AddPeers. destruct (terminated s); [done|].
  destruct (incomingInfoHashes s !! InfoHash res) as [queued|] eqn:Hk; [|done].
  destruct (uniqueValidPeers _ _) as [|q qs] eqn:Hu; [done|]. cbn [snd].
  apply inv_requeue; [done|by rewrite Hk|]. rewrite dom_insert_L, (inv_peers _ _ Hi).
  assert (InfoHash res ∈ dom (incomingInfoHashes s)) by (apply elem_of_dom; by rewrite Hk).
  by apply subseteq_union_1_L, singleton_subseteq_l.
Qed.

Lemma onPeers_inv s k peers : sink_inv s -> sink_inv (onPeers k peers s).
Proof.
  intros Hi. unfold onPeers. destruct (incomingInfoHashes s !! k) eqn:Hk; [|done].
  apply inv_requeue; [done|by rewrite Hk|apply Hi].
Qed.

Lemma Sink_inv s res : sink_inv s -> sink_inv (Sink_ res s).2.
Proof.
  intros Hi. unfold Sink_. destruct (terminated s) eqn:Hterm; [done|].
  destruct (Z.leb_spec (maxNLeeches s) (Z.of_nat (size (incomingInfoHashes s)))); [done|].
  destruct (incomingInfoHashes s !! InfoHash res) eqn:Hk; [done|].
  destruct (uniqueValidPeers _ _) as [|q qs] eqn:Hu; [done|]. cbn [snd]. set (k0 := InfoHash res) in *.
  match goal with |- sink_inv ?x => set (s' := x) end.
  assert (forall k, tracked s' k = (tracked s k + if decide (k0 = k) then 1 else 0)%nat) as Ht.
  { intros k. unfold tracked, s'. cbn. destruct (decide (k0 = k)) as [<-|].
    - by rewrite lookup_insert_eq, Hk.
    - rewrite lookup_insert_ne by done. lia. }
  destruct Hi as [H1 H2 H3 H4 H5 H6 H7 H8]. split; try done.
  - cbn. by rewrite !dom_insert_L, H1.
  - cbn. by rewrite !dom_insert_L, H2.
  - cbn. rewrite map_size_insert_None by done. lia.
  - intros _ k. rewrite Ht, <- (H5 Hterm). cbn [occ filter list_filter length Nat.add]. unfold live, s'. cbn [waiting running spawn with_threads with_logs with_maps].
    rewrite fmap_app, occ_app, fmap_cons. cbn [fst fmap list_fmap]. rewrite occ_one. lia.
  - intros Hd k. rewrite Ht. unfold s'. cbn [log_accepted log_flushed log_discarded spawn with_threads with_logs with_maps].
    rewrite occ_app, occ_one, (H6 Hd). lia.
Qed.

Lemma start_inv s i s' : sink_inv s -> download_start i s = Some s' -> sink_inv s'.
Proof.
  intros Hi Hs. unfold download_start in Hs. destruct (waiting s !! i) as [d|] eqn:Hd; [|done]. cbn in Hs.
  destruct Hi as [H1 H2 H3 H4 H5 H6 H7 H8].
  destruct (terminated s) eqn:Hterm; [|destruct (Z.ltb_spec (Z.of_nat (length (running s))) (maxConcurrentDownloads s)); [|done]];
    injection Hs as <-; split; try done.
  - cbn. congruence.
  - cbn [running with_threads maxConcurrentDownloads]. rewrite length_app. cbn [length]. lia.
  - intros Hterm' k. specialize (H5 eq_refl k). unfold tracked, live in *.
    cbn [incomingInfoHashes waiting running with_threads]. rewrite <- H5, (remove_at_occ fst i _ d k Hd).
    rewrite fmap_app, occ_app. cbn [fmap list_fmap]. rewrite occ_one. lia.
Qed.

(** A goroutine leaves [running]. *)
Lemma end_inv s i d :
  sink_inv s -> running s !! i = Some d ->
  sink_inv_ending [d.1] (with_threads s (waiting s) (remove_at i (running s))).
Proof.
  intros [H1 H2 H3 H4 H5 H6 H7 H8] Hd. split; try done.
  - cbn [running with_threads maxConcurrentDownloads]. rewrite (remove_at_length _ _ _ Hd) in H4. lia.
  - intros Hterm k. specialize (H5 Hterm k). unfold tracked, live in *.
    cbn [incomingInfoHashes waiting running with_threads]. rewrite <- H5, (remove_at_occ fst i _ d k Hd), occ_one.
    cbn [occ filter list_filter length]. lia.
Qed.

(** Forgetting the info hash of the goroutine that ends. *)
Lemma forget_inv s k a f dl :
  sink_inv_ending [k] s -> terminated s = false ->
  log_accepted s = a -> (hasOnDiscard s = true -> forall k', (occ k' f + occ k' dl)%nat =
    (occ k' (log_flushed s) + occ k' (log_discarded s) + if decide (k = k') then 1 else 0)%nat) ->
  sink_inv (with_logs (forget k s) a f dl).
Proof.
  intros [H1 H2 H3 H4 H5 H6 H7 H8] Hterm <- Hlogs. specialize (H5 Hterm).
  assert (forall k', tracked s k' = (tracked (forget k s) k' + if decide (k = k') then 1 else 0)%nat) as Ht.
  { intros k'. unfold tracked, forget. cbn [incomingInfoHashes with_maps]. destruct (decide (k = k')) as [<-|].
    - rewrite lookup_delete_eq. specialize (H5 k). rewrite occ_one, decide_True in H5 by done.
      unfold tracked in H5. case_match; lia.
    - rewrite lookup_delete_ne by done. lia. }
  split; try done.
  - cbn. by rewrite !dom_delete_L, H1.
  - cbn. by rewrite !dom_delete_L, H2.
  - cbn. etransitivity; [|exact H3]. apply inj_le, map_subseteq_size, delete_subseteq.
  - intros _ k'. specialize (H5 k'). rewrite Ht, occ_one in H5.
    change (live (with_logs (forget k s) (log_accepted s) f dl) k') with (live s k').
    change (tracked (with_logs (forget k s) (log_accepted s) f dl) k') with (tracked (forget k s) k').
    change (occ k' []) with 0%nat. case_decide; lia.
  - intros Hd k'. cbn [log_accepted log_flushed log_discarded with_logs].
    change (tracked (with_logs (forget k s) (log_accepted s) f dl) k') with (tracked (forget k s) k').
    rewrite (H6 Hd), Ht. specialize (Hlogs Hd k'). lia.
Qed.

Lemma onLeechError_inv s k : sink_inv_ending [k] s -> sink_inv (onLeechError k s).
Proof.
  intros Hi. unfold onLeechError. destruct (terminated s) eqn:Hterm.
  { destruct Hi. split; try done. congruence. }
  assert (sink_inv (if hasOnDiscard s
    then with_logs (forget k s) (log_accepted s) (log_flushed s) (log_discarded s ++ [k]) else forget k s)) as Hf.
  { destruct (hasOnDiscard s) eqn:Hd.
    - apply forget_inv; try done. intros _ k'. rewrite occ_app, occ_one. lia.
    - change (forget k s) with (with_logs (forget k s) (log_accepted s) (log_flushed s) (log_discarded s)).
      apply forget_inv; try done. congruence. }
  destruct (incomingInfoHashes s !! k) as [[|peer rest]|] eqn:Hk; [done| |done].
  assert (sink_inv_ending [k] (with_maps s (<[k:=rest]> (incomingInfoHashes s)) (incomingFamilies s) (incomingPeers s)))
    as Hr by (apply inv_requeue; [done|by rewrite Hk|apply Hi]).
  set (s1 := with_maps s _ _ _) in *. clearbody s1.
  destruct Hr as [H1 H2 H3 H4 H5 H6 H7 H8]. split; try done.
  intros Ht k'. specialize (H5 Ht k'). unfold live, tracked in *.
  cbn [waiting running incomingInfoHashes spawn with_threads]. rewrite <- H5, fmap_app, occ_app.
  cbn [fmap list_fmap fst]. rewrite !occ_one. change (occ k' []) with 0%nat. lia.
Qed.

Lemma flush_inv s m : sink_inv_ending [md_InfoHash m] s -> blocked s = None -> sink_inv (flush m s).
Proof.
  intros Hi Hb. unfold flush. destruct (terminated s) eqn:Hterm.
  { destruct Hi. split; try done. congruence. }
  match goal with |- context [with_logs ?x ?a ?f ?d] => assert (sink_inv (with_logs x a f d)) as Hf end.
  { apply forget_inv; try done. intros _ k'. rewrite occ_app, occ_one. cbn [log_flushed log_discarded forget with_maps]. lia. }
  set (s1 := with_logs _ _ _ _) in *.
  destruct (Nat.ltb_spec (length (drain s1)) drainCap) as [Hlt|Hge].
  - destruct Hf as [H1 H2 H3 H4 H5 H6 H7 H8]. split; try done.
    cbn [drain with_drain]. rewrite length_app. cbn [length]. lia.
  - destruct Hf as [H1 H2 H3 H4 H5 H6 H7 H8]. split; try done.
    intros _. cbn [drain with_drain]. lia.
Qed.

Lemma sink_step_inv s s' : sink_inv s -> sink_step s s' -> sink_inv s'.
Proof.
  intros Hi [res|res|i s'' Hs|i d peers Hd|i outcome s'' Hs|m s'' Hs|Hb].
  - by apply Sink_inv.
  - by apply AddPeers_inv.
  - by eapply start_inv.
  - by apply onPeers_inv.
  - unfold download_end in Hs. destruct (running s !! i) as [d|] eqn:Hd; [|done]. cbn in Hs.
    pose proof (end_inv s i d Hi Hd) as He. destruct outcome as [m|].
    + case_decide as Hm; [|done]. injection Hs as <-. destruct Hm as [Hb Hk].
      apply flush_inv; [by rewrite Hk|done].
    + injection Hs as <-. by apply onLeechError_inv.
  - unfold receive in Hs. destruct Hi as [H1 H2 H3 H4 H5 H6 H7 H8].
    destruct (drain s) as [|m' rest] eqn:Hd; [done|]. injection Hs as _ <-. split; try done.
    cbn [drain with_drain]. rewrite length_app. cbn [length] in H7.
    destruct (blocked s); simpl; lia.
  - destruct Hi as [H1 H2 H3 H4 H5 H6 H7 H8]. by split.
Qed.

(** C3: In every interleaving of callers, download goroutines, their callbacks, the
    consumer and termination: the three maps cover the same info hashes, never
    more than the configured number; no more downloads run than the semaphore
    allows; until termination every tracked info hash has exactly one live
    download and no other download exists; and every info hash accepted by Sink
    is, at any time, either still tracked or has been handed on or discarded
    exactly once per acceptance. *)
Theorem sink_invariant (maxL maxC : Z) (onDiscard : bool) (s : Sink) :
  star sink_step (NewSink maxL maxC onDiscard) s -> sink_inv s.
Proof. intros Hs. eapply star_inv; [exact sink_step_inv|exact Hs|apply NewSink_inv]. Qed.

(** The peers taken from a result are its valid peers with a port that are not
    known yet, each once and in their order; adding a result to an info hash that
    is being downloaded appends exactly those to its queue and to its known peers,
    so adding the same result again changes nothing. *)
Theorem AddPeers_once (res : Result) (s : Sink) (queued : list AddrPort) (known : gset AddrPort) :
  terminated s = false ->
  incomingInfoHashes s !! InfoHash res = Some queued -> incomingPeers s !! InfoHash res = Some known ->
  let fresh := uniqueValidPeers (PeerAddrs res) known in
  let '(ok, s') := AddPeers res s in
  NoDup fresh /\ fresh `sublist_of` PeerAddrs res /\
  (forall p, p ∈ fresh <-> p ∈ PeerAddrs res /\ IsValid p /\ ap_port p <> 0 /\ p ∉ known) /\
  (ok = true <-> fresh <> []) /\
  incomingInfoHashes s' !! InfoHash res = Some (queued ++ fresh) /\
  incomingPeers s' !! InfoHash res = Some (peerSet fresh ∪ known) /\
  AddPeers res s' = (false, s').
Proof.
  intros Hterm Hq Hk fresh. unfold AddPeers at 1. rewrite Hterm, Hq, Hk. cbn [from_option]; unfold id. fold fresh.
  destruct (uniqueValidPeers_loop_spec (PeerAddrs res) known ∅ []) as (H1 & H2 & tl & H3 & H4);
    [constructor|intros p; by rewrite elem_of_nil, elem_of_empty|]. cbv zeta in H1, H2, H3. fold (uniqueValidPeers (PeerAddrs res) known) in H1, H2, H3. fold fresh in H1, H2, H3.
  cbn [app] in H3. subst tl.
  assert (forall p, p ∈ fresh <-> p ∈ PeerAddrs res /\ IsValid p /\ ap_port p <> 0 /\ p ∉ known) as Hin
    by (intros p; rewrite H2, elem_of_nil; tauto).
  assert (forall known', (forall p, p ∈ PeerAddrs res -> IsValid p -> ap_port p <> 0 -> p ∈ known') ->
    uniqueValidPeers (PeerAddrs res) known' = []) as Hagain.
  { intros known' Hall. destruct (uniqueValidPeers (PeerAddrs res) known') as [|p l] eqn:E; [done|exfalso].
    destruct (uniqueValidPeers_loop_spec (PeerAddrs res) known' ∅ []) as (_ & Hs & _); [apply NoDup_nil_2|intros p'; by rewrite elem_of_nil, elem_of_empty|].
    cbv zeta in Hs. fold (uniqueValidPeers (PeerAddrs res) known') in Hs. rewrite E in Hs.
    destruct (proj1 (Hs p) ltac:(left)) as [?%not_elem_of_nil|(? & ? & ? & Hno)]; [done|]. by apply Hno, Hall. }
  destruct fresh as [|f fs] eqn:Ef.
  - cbv beta iota. rewrite app_nil_r. unfold peerSet. cbn [list_to_set].
    split; [done|]. split; [done|]. split; [done|]. split; [done|]. split; [done|].
    split; [by rewrite Hk, union_empty_l_L|]. unfold AddPeers. rewrite Hterm, Hq, Hk. cbn [from_option]; unfold id. fold fresh. by rewrite Ef.
  - cbv beta iota. rewrite <- Ef in *. repeat (split; [try done|]).
    + by rewrite Ef.
    + done.
    + cbn [incomingInfoHashes with_maps]. by rewrite lookup_insert_eq.
    + cbn [incomingPeers with_maps]. by rewrite lookup_insert_eq.
    + unfold AddPeers. cbn [terminated incomingInfoHashes incomingPeers with_maps]. rewrite Hterm, !lookup_insert_eq.
      cbn [from_option]; unfold id. rewrite Hagain; [done|]. intros p ???.
      destruct (decide (p ∈ known)); [by apply elem_of_union_r|]. apply elem_of_union_l.
      unfold peerSet. apply elem_of_list_to_set. by apply Hin.
Qed.

(** ** One download that fails at its first peer, then succeeds *)

Definition demo_key : list byte := replicate 20 x05.
Definition demo_p (n : Z) : AddrPort := AddrPortFrom (Addr4 n) 6881.
Definition demo_meta : Metadata := mkMetadata demo_key 0 "name" 1 2 [mkFile 1 "name"].
Definition demo_1 : Sink := (Sink_ (mkResult demo_key [demo_p 1; demo_p 1; demo_p 2] 4) (NewSink 5 2 true)).2.
Definition demo_2 : Sink := default demo_1 (download_start 0 demo_1).
Definition demo_3 : Sink := default demo_1 (download_end 0 None demo_2).
Definition demo_4 : Sink := default demo_1 (download_start 0 demo_3).
Definition demo_end : Sink := default demo_1 (download_end 0 (Some demo_meta) demo_4).

Lemma default_Some {A} (o : option A) x : (if o then true else false) = true -> o = Some (default x o).
Proof. by destruct o. Qed.

Lemma demo_end_star : star sink_step (NewSink 5 2 true) demo_end.
Proof.
  apply (star_step _ _ demo_1); [apply sk_sink|].
  apply (star_step _ _ demo_2); [apply (sk_start _ 0), default_Some; vm_compute; reflexivity|].
  apply (star_step _ _ demo_3); [apply (sk_end _ 0 None), default_Some; vm_compute; reflexivity|].
  apply (star_step _ _ demo_4); [apply (sk_start _ 0), default_Some; vm_compute; reflexivity|].
  apply (star_step _ _ demo_end); [apply (sk_end _ 0 (Some demo_meta)), default_Some; vm_compute; reflexivity|].
  apply star_refl.
Qed.

Theorem sink_invariant_witness :
  sink_inv demo_end /\ md_Family <$> drain demo_end = [4] /\ size (incomingInfoHashes demo_end) = 0%nat.
Proof. split; [exact (sink_invariant 5 2 true demo_end demo_end_star)|]. split; vm_compute; reflexivity. Defined.

Theorem AddPeers_once_witness :
  let s := (Sink_ (mkResult demo_key [demo_p 1] 4) (NewSink 5 2 true)).2 in
  let again := mkResult demo_key [demo_p 1; demo_p 3] 4 in
  (AddPeers again s).1 = true /\
  incomingInfoHashes (AddPeers again s).2 !! demo_key =
    Some (uniqueValidPeers [demo_p 1; demo_p 3] (default ∅ (incomingPeers s !! demo_key))) /\
  uniqueValidPeers [demo_p 1; demo_p 3] (default ∅ (incomingPeers s !! demo_key)) = [demo_p 3].
Proof.
  cbv zeta. split; [vm_compute; reflexivity|]. split; [|vm_compute; reflexivity].
  set (s := (Sink_ _ _).2). set (again := mkResult _ _ _).
  assert (incomingInfoHashes s !! InfoHash again = Some (default [] (incomingInfoHashes s !! demo_key))) as Hq
    by (apply default_Some; vm_compute; reflexivity).
  assert (default [] (incomingInfoHashes s !! demo_key) = []) as Hq0 by (vm_compute; reflexivity).
  assert (incomingPeers s !! InfoHash again = Some (default ∅ (incomingPeers s !! demo_key))) as Hk
    by (apply default_Some; vm_compute; reflexivity).
  assert (terminated s = false) as Ht by (vm_compute; reflexivity).
  pose proof (AddPeers_once again s _ _ Ht Hq Hk) as H. rewrite Hq0 in H. clearbody s. cbv zeta in H.
  destruct (AddPeers again s) as [ok s']. destruct H as (_ & _ & _ & _ & H & _). exact H.
Defined.
