(* ===== verification/Filters.v ===== *)
(** * Filters and categories (db/helper.go, categorizer.go, chinese_filter.go,
    blacklist_helper.go)

    The decisions about one torrent: does it match a search, which categories it
    has, does it contain Chinese text, is a file of it blacklisted. Values of
    CloverDB documents are the type [value]; a document is what its accessors
    [Has] and [Get] say (class [Document]). *)

From S2P Require Import Prelude Text Sink.
From Stdlib Require Import Ascii String.
Open Scope Z_scope.

(** ** Runes: the [range] loop over a string *)

Definition cont (b : Z) : bool := (128 <=? b) && (b <=? 191).
Definition between (lo hi b : Z) : bool := (lo <=? b) && (b <=? hi).
Definition RuneError : Z := 0xFFFD.

(** Decoding as the language does it: an invalid byte is one [RuneError]. *)
Fixpoint runes (l : list Z) : list Z :=
  match l with
  | [] => []
  | b0 :: l1 =>
      if b0 <? 128 then b0 :: runes l1
      else match l1 with
      | [] => [RuneError]
      | b1 :: l2 =>
          if between 0xC2 0xDF b0 && cont b1 then (b0 mod 32) * 64 + b1 mod 64 :: runes l2
          else match l2 with
          | [] => RuneError :: runes l1
          | b2 :: l3 =>
              let second3 :=
                if b0 =? 0xE0 then between 0xA0 0xBF b1
                else if b0 =? 0xED then between 0x80 0x9F b1
                else between 0xE1 0xEF b0 && cont b1 in
              if second3 && cont b2 then (b0 mod 16) * 4096 + (b1 mod 64) * 64 + b2 mod 64 :: runes l3
              else match l3 with
              | [] => RuneError :: runes l1
              | b3 :: l4 =>
                  let second4 :=
                    if b0 =? 0xF0 then between 0x90 0xBF b1
                    else if b0 =? 0xF4 then between 0x80 0x8F b1
                    else between 0xF1 0xF3 b0 && cont b1 in
                  if second4 && cont b2 && cont b3
                  then (b0 mod 8) * 262144 + (b1 mod 64) * 4096 + (b2 mod 64) * 64 + b3 mod 64 :: runes l4
                  else RuneError :: runes l1
              end
          end
      end
  end.

Definition bytes_z (s : string) : list Z := (fun a => Z.of_nat (nat_of_ascii a)) <$> list_ascii_of_string s.

(** The UTF-8 encoding of a rune, and which runes have one. *)
Definition encode_rune (r : Z) : list Z :=
  if r <? 0x80 then [r]
  else if r <? 0x800 then [0xC0 + r / 64; 0x80 + r mod 64]
  else if r <? 0x10000 then [0xE0 + r / 4096; 0x80 + r / 64 mod 64; 0x80 + r mod 64]
  else [0xF0 + r / 262144; 0x80 + r / 4096 mod 64; 0x80 + r / 64 mod 64; 0x80 + r mod 64].
Definition valid_rune (r : Z) : Prop := 0 <= r < 0x110000 /\ ~ (0xD800 <= r <= 0xDFFF).

Section Chinese.
  (** [unicode.Is(unicode.Han, r)] *)
  Context (Han : Z -> bool).

Definition containsHan (value : string) : bool := existsb Han (runes (bytes_z value)).

Definition ContainsChineseContent (md : Metadata) : bool :=
  if containsHan (md_Name md) then true
  else existsb (fun file => containsHan (Path file)) (md_Files md).
End Chinese.

Definition IsFileBlacklisted (filter : string -> bool) (md : Metadata) : bool :=
  existsb (fun file => filter (Path file)) (md_Files md).

Definition GetBlacklistTypeFromStrInt (entryType : string) : string :=
  if decide (entryType = "0") then "Name" else if decide (entryType = "1") then "File name" else "Unknown".

(** ** Categories *)

(** [filepath.Ext], from the last character on. *)
Fixpoint ext_loop (rev_path : list ascii) (acc : list ascii) : list ascii :=
  match rev_path with
  | [] => []
  | c :: l =>
      if Ascii.eqb c "/" then []
      else if Ascii.eqb c "." then c :: acc
      else ext_loop l (c :: acc)
  end.
Definition Ext (path : string) : string :=
  string_of_list_ascii (ext_loop (rev (list_ascii_of_string path)) []).

Definition categories : list (string * list string) :=
  [("Video", [".mp4"; ".mkv"; ".avi"; ".mov"; ".wmv"; ".flv"; ".webm"; ".m4v"; ".mpg"; ".mpeg"]);
   ("Audio", [".mp3"; ".flac"; ".wav"; ".m4a"; ".ogg"; ".aac"; ".wma"]);
   ("Software", [".exe"; ".msi"; ".dmg"; ".iso"; ".pkg"; ".deb"; ".rpm"; ".sh"; ".bat"]);
   ("Document", [".pdf"; ".epub"; ".mobi"; ".txt"; ".doc"; ".docx"; ".xls"; ".xlsx"; ".ppt"; ".pptx"]);
   ("Picture", [".jpg"; ".jpeg"; ".png"; ".gif"; ".svg"; ".bmp"; ".tiff"]);
   ("Archive", [".zip"; ".rar"; ".7z"; ".tar"; ".gz"; ".bz2"; ".xz"])]%string.

Section Categorize.
  Context (unicode_lower : string -> string).
  (** The order in which a [range] loop visits the keys of a map. *)
  Context (order : gset string -> list string).

Definition extension (f : File) : string := ToLower unicode_lower (Ext (Path f)).

Definition extensionCounts (files : list File) : gmap string Z :=
  foldl (fun m f =>
    let ext := extension f in
    if decide (ext = "") then m else <[ext := default 0 (m !! ext) + 1]> m) ∅ files.

Definition foundCategories (exts : list string) : gset string :=
  foldl (fun found ext =>
    foldl (fun found ce => if existsb (String.eqb ext) ce.2 then {[ce.1]} ∪ found else found) found categories)
    ∅ exts.

Definition Categorize (md : Metadata) : list string :=
  match md_Files md with
  | [] => ["Unknown"%string]
  | files =>
      let exts := order (dom (extensionCounts files)) in
      match exts with
      | [] => ["Unknown"%string]
      | _ =>
          let found := foundCategories exts in
          if decide (found = ∅) then ["Other"%string] else order found
      end
  end.
End Categorize.

(** ** Searching *)

#[warnings="-register-all"]
Inductive value : Type :=
  | VNil
  | VString (s : string)
  | VStrings (l : list string)
  | VInt (z : Z)            (* int *)
  | VInt64 (z : Z)
  | VUint64 (z : Z)
  | VTime (t : time)
  | VFloat64 (truncated : Z)  (* a float64, by its conversion to int *)
  | VList (l : list value)
  | VMap (m : list (string * value)).

Class Document (document : Type) : Type := {
  Has : document -> string -> bool;
  Get : document -> string -> value;
  ObjectId : document -> string
}.

(** Type assertions with the zero value of a failed one. *)
Definition as_string (v : value) : string := match v with VString s => s | _ => "" end.
Definition as_int64 (v : value) : Z := match v with VInt64 z => z | _ => 0 end.
Definition as_uint64 (v : value) : Z := match v with VUint64 z => z | _ => 0 end.

Definition numericInt (v : value) : Z :=
  match v with
  | VInt z => z
  | VInt64 z => z
  | VUint64 z => i64 z
  | VFloat64 z => z
  | _ => 0
  end.

(** Days from January 1 of year 1 to the given day of the proleptic Gregorian calendar. *)
Definition leap (y : Z) : bool := (y mod 4 =? 0) && (negb (y mod 100 =? 0) || (y mod 400 =? 0)).
Definition daysIn (m y : Z) : Z :=
  if m =? 2 then if leap y then 29 else 28
  else if (m =? 4) || (m =? 6) || (m =? 9) || (m =? 11) then 30 else 31.
Definition days_before (y m d : Z) : Z :=
  365 * (y - 1) + (y - 1) / 4 - (y - 1) / 100 + (y - 1) / 400 +
  foldl (fun n k => n + daysIn (Z.of_nat k) y) 0 (seq 1 (Z.to_nat (m - 1))) + (d - 1).

Definition dec_digit (a : ascii) : option Z :=
  let n := Z.of_nat (nat_of_ascii a) in if (48 <=? n) && (n <=? 57) then Some (n - 48) else None.
Definition two (a b : ascii) : option Z := x ← dec_digit a; y ← dec_digit b; Some (x * 10 + y).

(** [time.Parse("2006.01.02", value)], and with another separator. *)
Definition Parse_ymd (sep : ascii) (v : string) : option time :=
  match list_ascii_of_string v with
  | [y1; y2; y3; y4; p1; m1; m2; p2; d1; d2] =>
      if Ascii.eqb p1 sep && Ascii.eqb p2 sep then
        yh ← two y1 y2; yl ← two y3 y4; m ← two m1 m2; d ← two d1 d2;
        let y := yh * 100 + yl in
        if (1 <=? m) && (m <=? 12) && (1 <=? d) && (d <=? daysIn m y) then Some (days_before y m d * day) else None
      else None
  | _ => None
  end.
Definition Parse_date : string -> option time := Parse_ymd "."%char.

Definition FoundOnDate (date : time) (searchInput : string) : bool :=
  match Parse_date searchInput with
  | None => false
  | Some parsedInput =>
      let endDate := parsedInput + day in
      (parsedInput <? date) && (date <? endDate)
  end.

(** Seconds between year 1 and 1970, as in Indexing.v. *)
Definition epoch : Z := 62135596800.
Definition Unix (sec : Z) : time := (sec + epoch) * second.

Section Matching.
  Context (unicode_lower : string -> string) `{Document document}.

Definition MatchString (searchType x y : string) : bool :=
  let lower := ToLower unicode_lower in
  if decide (searchType = "contains") then Contains (lower x) (lower y)
  else if decide (searchType = "equals") then bool_decide (lower x = lower y)
  else if decide (searchType = "startswith") then HasPrefix (lower x) (lower y)
  else if decide (searchType = "endswith") then HasSuffix (lower x) (lower y)
  else false.

Definition HasMatchingFile (fileList : list value) (searchType searchInput : string) : bool :=
  existsb (fun item =>
    match item with
    | VMap m =>
        existsb (fun kv =>
          bool_decide (kv.1 = "Path") &&
          match kv.2 with VString val => MatchString searchType val searchInput | _ => false end) m
    | _ => false
    end) fileList.

(** [Matches] for a key that is not "All". *)
Definition Matches_key (doc : document) (key searchType searchInput : string) : bool :=
  let key := if decide (key = "Path") then "Files"%string else key in
  if negb (Has doc key) then false
  else
    let v := Get doc key in
    if decide (key = "Files") then
      match v with VList fList => HasMatchingFile fList searchType searchInput | _ => true end
    else if decide (key = "DiscoveredOn") then FoundOnDate (Unix (as_int64 v)) searchInput
    else MatchString searchType (as_string v) searchInput.

Definition Matches (doc : document) (key searchType searchInput : string) : bool :=
  if decide (key = "All")
  then Matches_key doc "Name" searchType searchInput || Matches_key doc "Files" searchType searchInput
  else Matches_key doc key searchType searchInput.
End Matching.

(** ** Decoding undoes encoding *)

Lemma cont_low x : 0 <= x < 64 -> cont (0x80 + x) = true /\ (0x80 + x) mod 64 = x.
Proof.
  intros Hx. split; [unfold cont; apply andb_true_iff; split; apply Z.leb_le; lia|].
  change 0x80 with (2 * 64). rewrite Z.add_comm, Z.mod_add by lia. apply Z.mod_small. lia.
Qed.

Lemma runes_encode_one r l : valid_rune r -> runes (encode_rune r ++ l) = r :: runes l.
Proof.
  intros [Hr Hs]. unfold encode_rune.
  pose proof (Z.div_mod r 64 ltac:(lia)) as E0. pose proof (Z.mod_pos_bound r 64 ltac:(lia)) as B0.
  pose proof (Z.div_mod (r / 64) 64 ltac:(lia)) as E1. pose proof (Z.mod_pos_bound (r / 64) 64 ltac:(lia)) as B1.
  pose proof (Z.div_mod (r / 4096) 64 ltac:(lia)) as E2. pose proof (Z.mod_pos_bound (r / 4096) 64 ltac:(lia)) as B2.
  assert (r / 64 / 64 = r / 4096) as D1 by (by rewrite Z.div_div).
  assert (r / 4096 / 64 = r / 262144) as D2 by (by rewrite Z.div_div).
  rewrite D1 in E1. rewrite D2 in E2.
  destruct (cont_low _ B0) as [C0 M0], (cont_low _ B1) as [C1 M1], (cont_low _ B2) as [C2 M2].
  set (x0 := r mod 64) in *. set (x1 := (r / 64) mod 64) in *. set (x2 := (r / 4096) mod 64) in *.
  destruct (Z.ltb_spec r 0x80) as [H1|H1].
  { cbn [app runes]. by rewrite (proj2 (Z.ltb_lt _ _) H1). }
  destruct (Z.ltb_spec r 0x800) as [H2|H2]; [|destruct (Z.ltb_spec r 0x10000) as [H3|H3]].
  - set (y := r / 64) in *. cbn [app runes].
    rewrite (proj2 (Z.ltb_ge (0xC0 + y) 128)) by lia. unfold between.
    rewrite (proj2 (Z.leb_le 0xC2 (0xC0 + y))), (proj2 (Z.leb_le (0xC0 + y) 0xDF)), C0 by lia. cbn [andb].
    f_equal. rewrite M0. replace (0xC0 + y) with (y + 6 * 32) by lia. rewrite Z.mod_add, Z.mod_small by lia. lia.
  - set (y := r / 4096) in *. cbn [app runes]. rewrite (proj2 (Z.ltb_ge (0xE0 + y) 128)) by lia.
    unfold between. rewrite (proj2 (Z.leb_gt (0xE0 + y) 0xDF)) by lia. rewrite andb_false_r. cbn [andb].
    assert ((if 0xE0 + y =? 0xE0 then (0xA0 <=? 0x80 + x1) && (0x80 + x1 <=? 0xBF)
      else if 0xE0 + y =? 0xED then (0x80 <=? 0x80 + x1) && (0x80 + x1 <=? 0x9F)
      else (0xE1 <=? 0xE0 + y) && (0xE0 + y <=? 0xEF) && cont (0x80 + x1)) = true) as ->.
    { destruct (Z.eqb_spec (0xE0 + y) 0xE0); [|destruct (Z.eqb_spec (0xE0 + y) 0xED)];
        rewrite ?C1, ?andb_true_r; apply andb_true_iff; split; apply Z.leb_le; lia. }
    rewrite C0. cbn [andb]. f_equal. rewrite M0, M1. replace (0xE0 + y) with (y + 14 * 16) by lia.
    rewrite Z.mod_add, Z.mod_small by lia. lia.
  - set (y := r / 262144) in *. cbn [app runes]. rewrite (proj2 (Z.ltb_ge (0xF0 + y) 128)) by lia.
    unfold between. rewrite (proj2 (Z.leb_gt (0xF0 + y) 0xDF)) by lia. rewrite andb_false_r. cbn [andb].
    assert ((if 0xF0 + y =? 0xE0 then (0xA0 <=? 0x80 + x2) && (0x80 + x2 <=? 0xBF)
      else if 0xF0 + y =? 0xED then (0x80 <=? 0x80 + x2) && (0x80 + x2 <=? 0x9F)
      else (0xE1 <=? 0xF0 + y) && (0xF0 + y <=? 0xEF) && cont (0x80 + x2)) = false) as ->.
    { rewrite (proj2 (Z.eqb_neq (0xF0 + y) 0xE0)), (proj2 (Z.eqb_neq (0xF0 + y) 0xED)) by lia.
      rewrite (proj2 (Z.leb_gt (0xF0 + y) 0xEF)) by lia. by rewrite andb_false_r. }
    cbn [andb].
    assert ((if 0xF0 + y =? 0xF0 then (0x90 <=? 0x80 + x2) && (0x80 + x2 <=? 0xBF)
      else if 0xF0 + y =? 0xF4 then (0x80 <=? 0x80 + x2) && (0x80 + x2 <=? 0x8F)
      else (0xF1 <=? 0xF0 + y) && (0xF0 + y <=? 0xF3) && cont (0x80 + x2)) = true) as ->.
    { destruct (Z.eqb_spec (0xF0 + y) 0xF0); [|destruct (Z.eqb_spec (0xF0 + y) 0xF4)];
        rewrite ?C2, ?andb_true_r; apply andb_true_iff; split; apply Z.leb_le; lia. }
    rewrite C0, C1. cbn [andb]. f_equal. rewrite M0, M1, M2. replace (0xF0 + y) with (y + 30 * 8) by lia.
    rewrite Z.mod_add, Z.mod_small by lia. lia.
Qed.

Lemma runes_encode rs : Forall valid_rune rs -> runes (List.concat (encode_rune <$> rs)) = rs.
Proof.
  induction 1 as [|r rs Hr _ IH]; [done|]. cbn [fmap list_fmap List.concat]. by rewrite runes_encode_one, IH.
Qed.

Lemma existsb_Exists {A} (f : A -> bool) l : existsb f l = true <-> Exists (fun x => f x = true) l.
Proof.
  induction l as [|x l IH]; cbn [existsb]; [by rewrite Exists_nil|]. by rewrite orb_true_iff, Exists_cons, IH.
Qed.

(** Decoding a string as the language does recovers the characters it was
    encoded from, so the Chinese filter lets a torrent through exactly when its
    name or the path of one of its files has a Han character. *)
Theorem chinese_filter_exact (Han : Z -> bool) (md : Metadata) (name : list Z) (paths : list (list Z)) :
  Forall valid_rune name -> Forall (Forall valid_rune) paths ->
  bytes_z (md_Name md) = List.concat (encode_rune <$> name) ->
  (fun f => bytes_z (Path f)) <$> md_Files md = (fun p => List.concat (encode_rune <$> p)) <$> paths ->
  ContainsChineseContent Han md = true <-> Exists (Exists (fun r => Han r = true)) (name :: paths).
Proof.
  intros Hn Hp En Ep. unfold ContainsChineseContent, containsHan. rewrite En, runes_encode by done.
  rewrite Exists_cons, <- (existsb_Exists Han name).
  assert (existsb (fun f => existsb Han (runes (bytes_z (Path f)))) (md_Files md) = true <->
    Exists (Exists (fun r => Han r = true)) paths) as Hf.
  { clear En. revert paths Hp Ep. induction (md_Files md) as [|f fs IH]; intros [|p paths] Hp Ep; try done.
    - cbn. rewrite Exists_nil. split; done.
    - injection Ep as Ep1 Ep2. apply Forall_cons in Hp as [Hp1 Hp2]. cbn [existsb].
      by rewrite Ep1, runes_encode, orb_true_iff, Exists_cons, <- (existsb_Exists Han p), IH. }
  destruct (existsb Han name); [tauto|]. rewrite Hf. split; [tauto|]. by intros [|].
Qed.

(** ** The categories of a torrent *)

Lemma existsb_eqb x l : existsb (String.eqb x) l = true <-> x ∈ l.
Proof.
  rewrite existsb_Exists, Exists_exists. split.
  - intros (y & Hy & E). apply String.eqb_eq in E. by subst.
  - intros Hx. exists x. split; [done|]. apply String.eqb_refl.
Qed.

Section CategorizeSpec.
  Context (unicode_lower : string -> string) (order : gset string -> list string).
  Context (order_elements : forall X, order X ≡ₚ elements X).

Lemma extensionCounts_dom files ext :
  ext ∈ dom (extensionCounts unicode_lower files) <->
  exists f, f ∈ files /\ extension unicode_lower f = ext /\ ext <> ""%string.
Proof.
  unfold extensionCounts.
  assert (forall m : gmap string Z, ext ∈ dom (foldl (fun m f => let e := extension unicode_lower f in
    if decide (e = "") then m else <[e := default 0 (m !! e) + 1]> m) m files) <->
    ext ∈ dom m \/ exists f, f ∈ files /\ extension unicode_lower f = ext /\ ext <> ""%string) as Hm.
  { induction files as [|f files IH]; intros m; cbn [foldl].
    - split; [by left|]. intros [?|(f & ?%not_elem_of_nil & _)]; done.
    - rewrite IH. setoid_rewrite elem_of_cons. cbv zeta. case_decide as E.
      + split; [intros [?|(f' & ? & ? & ?)]; [by left|right; exists f'; auto]|]. intros [?|(f' & [->|?] & ? & ?)]; [by left|congruence|right; eauto].
      + rewrite dom_insert_L, elem_of_union, elem_of_singleton. split.
        * intros [[->|?]|(f' & ? & ? & ?)]; [right; exists f; auto|by left|right; exists f'; auto].
        * intros [?|(f' & [->|?] & ? & ?)]; [left; by right|left; left; done|right; eauto]. }
  rewrite Hm, dom_empty_L. split; [|by right]. by intros [?%not_elem_of_empty|].
Qed.

Definition in_category (ext c : string) : Prop := exists exts, (c, exts) ∈ categories /\ ext ∈ exts.

Lemma foundCategories_elem exts c : c ∈ foundCategories exts <-> exists ext, ext ∈ exts /\ in_category ext c.
Proof.
  unfold foundCategories, in_category.
  assert (forall ext (X : gset string) l, c ∈ foldl (fun found (ce : string * list string) =>
      if existsb (String.eqb ext) ce.2 then {[ce.1]} ∪ found else found) X l <->
    c ∈ X \/ exists es, (c, es) ∈ l /\ ext ∈ es) as Hin.
  { intros ext X l. revert X. induction l as [|[c' es] l IH]; intros X; cbn [foldl fst snd].
    - split; [by left|]. intros [?|(es & ?%not_elem_of_nil & _)]; done.
    - rewrite IH. setoid_rewrite elem_of_cons. destruct (existsb (String.eqb ext) es) eqn:E.
      + apply existsb_eqb in E. rewrite elem_of_union, elem_of_singleton. split.
        * intros [[->|?]|(es' & ? & ?)]; [right; exists es; auto|by left|right; exists es'; auto].
        * intros [?|(es' & [[= -> ->]|?] & ?)]; [left; by right|left; by left|right; eauto].
      + split.
        * intros [?|(es' & ? & ?)]; [by left|right; exists es'; auto].
        * intros [?|(es' & [[= -> ->]|?] & He)]; [by left| |right; eauto].
          apply existsb_eqb in He. congruence. }

  assert (forall X : gset string, c ∈ foldl (fun found ext => foldl (fun found (ce : string * list string) =>
      if existsb (String.eqb ext) ce.2 then {[ce.1]} ∪ found else found) found categories) X exts <->
    c ∈ X \/ exists ext, ext ∈ exts /\ exists es, (c, es) ∈ categories /\ ext ∈ es) as Hout.
  { induction exts as [|ext exts IH]; intros X; cbn [foldl].
    - split; [by left|]. intros [?|(e & ?%not_elem_of_nil & _)]; done.
    - rewrite IH, Hin. setoid_rewrite elem_of_cons. split.
      + intros [[?|He]|(e & ? & ?)]; [by left|right; exists ext; auto|right; exists e; auto].
      + intros [?|(e & [->|?] & ?)]; [left; by left|left; by right|right; eauto]. }
  rewrite Hout. split; [|by right]. by intros [?%not_elem_of_empty|].
Qed.

Lemma no_category_of_empty c : ~ in_category "" c.
Proof.
  intros (exts & Hc & He). apply list_elem_of_In in Hc, He. cbn in Hc.
  repeat (destruct Hc as [[= <- <-]|Hc]; [cbn in He; intuition discriminate|]). done.
Qed.

(** The names of the categories. *)
Lemma Categorize_names (md : Metadata) :
  Categorize unicode_lower order md <> [] /\
  Forall (fun c => c ∈ "Unknown"%string :: "Other"%string :: categories.*1) (Categorize unicode_lower order md).
Proof.
  unfold Categorize. destruct (md_Files md) as [|x files]; [split; [done|]; repeat constructor|].
  destruct (order (dom _)) as [|e exts]; [split; [done|]; repeat constructor|]. cbv zeta. case_decide as He.
  { split; [done|]. apply Forall_singleton. right. left. }
  split.
  - intros E. apply He, leibniz_equiv, elements_empty_inv. pose proof (order_elements (foundCategories (e :: exts))) as Hp.
    rewrite E in Hp. by apply Permutation_nil_l in Hp.
  - apply Forall_forall. intros c Hc. rewrite order_elements, elem_of_elements in Hc.
    apply foundCategories_elem in Hc as (ext & _ & es & Hc & _). right. right. apply list_elem_of_fmap. by exists (c, es).
Qed.

(** A torrent has a category exactly when one of its files has an extension of
    that category, whatever its case; it is Unknown exactly when no file has an
    extension, and Other exactly when there are extensions but none is known. No
    category is listed twice and there is always at least one. *)
Theorem Categorize_spec (md : Metadata) :
  let files := md_Files md in
  let ext := extension unicode_lower in
  NoDup (Categorize unicode_lower order md) /\ Categorize unicode_lower order md <> [] /\
  forall c, c ∈ Categorize unicode_lower order md <->
    (exists f, f ∈ files /\ in_category (ext f) c) \/
    (c = "Unknown"%string /\ forall f, f ∈ files -> ext f = ""%string) \/
    (c = "Other"%string /\ (exists f, f ∈ files /\ ext f <> ""%string) /\
       forall f c', f ∈ files -> ~ in_category (ext f) c').
Proof.
  intros files ext.
  assert (Categorize unicode_lower order md =
    match order (dom (extensionCounts unicode_lower files)) with
    | [] => ["Unknown"%string]
    | exts => if decide (foundCategories exts = ∅) then ["Other"%string] else order (foundCategories exts)
    end) as ->.
  { unfold Categorize, files. destruct (md_Files md) as [|f fs]; [|cbv zeta; by destruct (order (dom _))].
    unfold extensionCounts. cbn [foldl]. rewrite dom_empty_L.
    pose proof (order_elements ∅) as Hp. rewrite elements_empty in Hp. apply Permutation_nil_r in Hp. by rewrite Hp. }
  assert (forall e, e ∈ order (dom (extensionCounts unicode_lower files)) <-> exists f, f ∈ files /\ ext f = e /\ e <> ""%string) as Hdom.
  { intros e. rewrite order_elements, elem_of_elements. apply extensionCounts_dom. }
  destruct (order (dom _)) as [|e0 exts] eqn:Ee.
  - split; [apply NoDup_singleton|]. split; [done|]. intros c. rewrite list_elem_of_singleton.
    assert (forall f, f ∈ files -> ext f = ""%string) as Hnone.
    { intros f Hf. destruct (decide (ext f = ""%string)) as [|Hne]; [done|].
      exfalso. eapply not_elem_of_nil, (proj2 (Hdom (ext f))). by exists f. }
    split; [intros ->; auto|]. intros [(f & Hf & Hc)|[[-> _]|(_ & (f & Hf & Hne) & _)]]; [|done|].
    + rewrite (Hnone f Hf) in Hc. by apply no_category_of_empty in Hc.
    + destruct Hne. by apply Hnone.
  - rewrite <- Ee in *. assert (exists f, f ∈ files /\ ext f <> ""%string) as Hsome.
    { destruct (proj1 (Hdom e0)) as (f & Hf & <- & Hne); [rewrite Ee; left|by exists f]. }
    set (exs := order (dom (extensionCounts unicode_lower files))) in *.
    assert (forall c, c ∈ foundCategories exs <-> exists f, f ∈ files /\ in_category (ext f) c) as Hfound.
    { intros c. rewrite foundCategories_elem. setoid_rewrite Hdom. split.
      - intros (e & (f & Hf & <- & _) & Hc). by exists f.
      - intros (f & Hf & Hc). exists (ext f). split; [|done]. exists f. split; [done|]. split; [done|].
        intros E. rewrite E in Hc. by apply no_category_of_empty in Hc. }
    cbv zeta. destruct (decide (foundCategories exs = ∅)) as [He|Hne].
    + split; [apply NoDup_singleton|]. split; [done|]. intros c. rewrite list_elem_of_singleton.
      assert (forall f c', f ∈ files -> ~ in_category (ext f) c') as Hno.
      { intros f c' Hf Hc. destruct (not_elem_of_empty (C:=gset string) c'). rewrite <- He. apply Hfound. by exists f. }
      split; [intros ->; auto|]. intros [(f & Hf & Hc)|[[-> Hall]|[? _]]]; [by apply Hno in Hc| |done].
      destruct Hsome as (f & Hf & Hn). by rewrite Hall in Hn.
    + split; [rewrite order_elements; apply NoDup_elements|]. split.
      { intros E. apply Hne, leibniz_equiv, elements_empty_inv. pose proof (order_elements (foundCategories exs)) as Hp.
        rewrite E in Hp. by apply Permutation_nil_l in Hp. }
      intros c. rewrite order_elements, elem_of_elements, Hfound. split; [by left|].
      intros [?|[[-> Hall]|(-> & _ & Hno)]]; [done| |].
      * destruct Hsome as (f & Hf & Hn). by rewrite Hall in Hn.
      * exfalso. apply set_choose_L in Hne as [c Hc]. apply Hfound in Hc as (f & Hf & Hc). by apply Hno in Hc.
Qed.
End CategorizeSpec.

(** ** The four kinds of match *)

Lemma Contains_spec s p : Contains s p = true <-> exists a b, s = (a ++ p ++ b)%string.
Proof.
  split.
  - induction s as [|c s IH]; cbn [Contains]; intros [H|H]%orb_true_iff.
    + apply prefix_app in H as [r H]. by exists ""%string, r.
    + done.
    + apply prefix_app in H as [r ->]. by exists ""%string, r.
    + destruct (IH H) as (a & b & ->). by exists (String c a), b.
  - intros (a & b & ->). induction a as [|c a IH].
    + change ("" ++ p ++ b)%string with (p ++ b)%string.
      destruct (p ++ b)%string eqn:E; cbn [Contains]; rewrite <- E; unfold HasPrefix; by rewrite app_prefix.
    + change (String c a ++ p ++ b)%string with (String c (a ++ p ++ b)). cbn [Contains]. rewrite IH. apply orb_true_r.
Qed.

Lemma string_rev_app a b : string_rev (a ++ b) = (string_rev b ++ string_rev a)%string.
Proof.
  assert (forall l k, string_of_list_ascii (l ++ k) = (string_of_list_ascii l ++ string_of_list_ascii k)%string) as Hb.
  { induction l as [|c l IH]; intros k; [done|]. cbn [app string_of_list_ascii]. by rewrite IH. }
  unfold string_rev. by rewrite list_ascii_app, rev_app_distr, Hb.
Qed.

Lemma string_rev_rev s : string_rev (string_rev s) = s.
Proof.
  unfold string_rev. by rewrite list_ascii_of_string_of_list_ascii, rev_involutive, string_of_list_ascii_of_string.
Qed.

Lemma HasSuffix_spec s p : HasSuffix s p = true <-> exists a, s = (a ++ p)%string.
Proof.
  unfold HasSuffix. split.
  - intros [r H]%prefix_app. exists (string_rev r). apply (f_equal string_rev) in H.
    by rewrite string_rev_app, !string_rev_rev in H.
  - intros [a ->]. rewrite string_rev_app. apply app_prefix.
Qed.

(** The kinds of match are what their names say, on the lower-case forms of the
    two texts; so searching does not depend on the case of ASCII texts, every kind
    but contains is a special case of contains, and an unknown kind never matches. *)
Theorem MatchString_spec (unicode_lower : string -> string) (kind x y : string) :
  let lower := ToLower unicode_lower in
  (MatchString unicode_lower kind x y = true <->
    (kind = "contains"%string /\ exists a b, lower x = (a ++ lower y ++ b)%string) \/
    (kind = "equals"%string /\ lower x = lower y) \/
    (kind = "startswith"%string /\ exists b, lower x = (lower y ++ b)%string) \/
    (kind = "endswith"%string /\ exists a, lower x = (a ++ lower y)%string)) /\
  (forallb is_ascii (list_ascii_of_string x) = true -> forallb is_ascii (list_ascii_of_string y) = true ->
    MatchString unicode_lower kind (lower x) (lower y) = MatchString unicode_lower kind x y) /\
  (MatchString unicode_lower kind x y = true -> MatchString unicode_lower "contains" x y = true).
Proof.
  intros lower.
  assert (MatchString unicode_lower kind x y = true <->
    (kind = "contains"%string /\ exists a b, lower x = (a ++ lower y ++ b)%string) \/
    (kind = "equals"%string /\ lower x = lower y) \/
    (kind = "startswith"%string /\ exists b, lower x = (lower y ++ b)%string) \/
    (kind = "endswith"%string /\ exists a, lower x = (a ++ lower y)%string)) as Hspec.
  { unfold MatchString. fold lower. 
    destruct (decide (kind = "contains"%string)) as [->|H1]; [rewrite Contains_spec; intuition discriminate|].
    destruct (decide (kind = "equals"%string)) as [->|H2]; [rewrite bool_decide_eq_true; intuition discriminate|].
    destruct (decide (kind = "startswith"%string)) as [->|H3].
    { assert (HasPrefix (lower x) (lower y) = true <-> exists b, lower x = (lower y ++ b)%string) as Hp.
      { split; [apply prefix_app|]. intros [b ->]. apply app_prefix. }
      rewrite Hp. intuition discriminate. }
    destruct (decide (kind = "endswith"%string)) as [->|H4]; [rewrite HasSuffix_spec; intuition discriminate|].
    split; [done|]. tauto. }
  split; [done|]. split.
  - intros Hx Hy. unfold MatchString. fold lower.
    assert (lower (lower x) = lower x) as -> by (by apply ToLower_idem).
    assert (lower (lower y) = lower y) as -> by (by apply ToLower_idem). done.
  - rewrite Hspec. unfold MatchString. rewrite decide_True by done. rewrite Contains_spec. fold lower.
    assert (forall s, s = (s ++ "")%string) as He.
    { induction s as [|c s IH]; [done|]. change (String c s ++ "")%string with (String c (s ++ "")). by rewrite <- IH. }
    intros [[_ (a & b & ->)]|[[_ ->]|[[_ [b ->]]|[_ [a ->]]]]].
    + by exists a, b.
    + exists ""%string, ""%string. by rewrite <- He.
    + by exists ""%string, b.
    + exists a, ""%string. by rewrite <- He.
Qed.

(** The upper bound of a date search is open at both ends: a torrent discovered at
    midnight is found on no day. *)
Example midnight_is_lost :
  FoundOnDate (days_before 2024 2 29 * day) "2024.02.29" = false /\
  FoundOnDate (days_before 2024 2 29 * day) "2024.02.28" = false /\
  FoundOnDate (days_before 2024 2 29 * day + second) "2024.02.29" = true /\
  Parse_date "2023.02.29" = None /\ days_before 1970 1 1 * 86400 = epoch.
Proof. repeat split. Qed.

(** ** Witnesses *)

Definition valid_runeb (r : Z) : bool := (0 <=? r) && (r <? 0x110000) && ((r <? 0xD800) || (0xDFFF <? r)).
Lemma valid_runes rs : forallb valid_runeb rs = true -> Forall valid_rune rs.
Proof.
  intros H. apply Forall_forall. intros r Hr. apply list_elem_of_In in Hr.
  apply (proj1 (forallb_forall _ _) H) in Hr. unfold valid_runeb in Hr.
  apply andb_true_iff in Hr as [[?%Z.leb_le ?%Z.ltb_lt]%andb_true_iff Hs]. split; [lia|].
  apply orb_true_iff in Hs as [?%Z.ltb_lt|?%Z.ltb_lt]; lia.
Qed.

Definition demo_han (r : Z) : bool := (0x4E00 <=? r) && (r <=? 0x9FFF).
Definition demo_files : list File := [mkFile 1 "a/b.MKV"; mkFile 2 "a/c.srt"; mkFile 3 "d.e/f"].
Definition demo_torrent (name : string) : Metadata := mkMetadata [] 4 name 6 0 demo_files.
(** "a" and U+4E2D *)
Definition demo_name : string := string_of_bytes [97; 228; 184; 173].

Theorem chinese_filter_exact_witness : ContainsChineseContent demo_han (demo_torrent demo_name) = true.
Proof.
  apply (chinese_filter_exact demo_han (demo_torrent demo_name) [97; 0x4E2D]
    [bytes_z "a/b.MKV"; bytes_z "a/c.srt"; bytes_z "d.e/f"]).
  - by apply valid_runes.
  - repeat (apply Forall_cons; split; [by apply valid_runes|]). apply Forall_nil_2.
  - reflexivity.
  - reflexivity.
  - left. right. left. reflexivity.
Defined.

Theorem Categorize_spec_witness : "Video"%string ∈ Categorize id elements (demo_torrent "x").
Proof.
  destruct (Categorize_spec id elements (fun X => reflexivity _) (demo_torrent "x")) as (_ & _ & H).
  apply H. left. exists (mkFile 1 "a/b.MKV"). split; [left|].
  exists [".mp4"; ".mkv"; ".avi"; ".mov"; ".wmv"; ".flv"; ".webm"; ".m4v"; ".mpg"; ".mpeg"]%string.
  split; [left|]. right. left.
Defined.
