(* ===== verification/Client.v ===== *)
(** * The metadata client (dhtc-client/client.go)

    One connection to one peer, from the two handshakes through the pieces of the
    metadata to the checksum and the callback. The connection is what is left to
    read, the results of the writes to come, and what was written; a read past
    the end is the error of the deadline or of a closed connection. The bencode
    and metainfo packages and the hash functions are the class [Peer]. Reading
    loops carry fuel: every iteration takes bytes from the connection, and
    [client_one_callback] shows that the fuel of [Do] is never used up. *)

From S2P Require Import Prelude NetAddr Codec Sink.

Definition MaxMetadataSize : Z := 10 * 1024 * 1024.

(** ** Decoded data *)

Record rootDict : Type := mkRootDict { UTMetadata : Z; UTPex : Z; MetadataSize : Z }.
Record extDict : Type := mkExtDict { MsgType : Z; Piece : Z }.
Record pexMsg : Type := mkPexMsg { Added : list byte; Added6 : list byte }.

(** [metainfo.Info]: the fields and the two methods that are used. *)
Record Info : Type := mkInfo {
  Pieces : list byte;
  PieceLength : Z;
  Name : string;
  Length : Z;
  Files : list (Z * string);      (* length and display path *)
  TotalLength : Z;
  NumPieces : Z
}.

Class Peer : Type := {
  Unmarshal_rootDict : list byte -> option rootDict;
  Decode_extDict : list byte -> option (extDict * list byte);   (* and the unread bytes *)
  Marshal_extDict : extDict -> list byte;
  Unmarshal_pexMsg : list byte -> option pexMsg;
  Unmarshal_Info : list byte -> option Info;
  sha1 : list byte -> list byte;
  sha256 : list byte -> list byte
}.

Inductive cl_error : Type :=
  | ConnectError | WriteError | ReadError | TooLong
  | CorruptHandshake | InfohashMismatch | NoExtensionProtocol
  | BadRootDict | BadMetadataSize | BadUTMetadata
  | BadExtDict | PieceRejected | PieceTooLarge | PieceShort | TooMuchMetadata
  | ChecksumMismatch | BadInfo | BadPieces | ZeroPieceLength | PieceCountMismatch | NegativeFileSize.

Inductive client_event : Type :=
  | OnSuccess (m : Metadata)
  | OnError (infoHash : list byte) (e : cl_error)
  | OnPeers (infoHash : list byte) (peers : list AddrPort).

(** ** The client *)

(** One [conn.Write]: the number of bytes written, or an error. *)
Definition write_result : Type := option nat.

Record Client : Type := mkClient {
  infoHash : list byte;
  peerAddr : AddrPort;
  clientID : list byte;
  incoming : list byte;
  writes : list write_result;
  written : list byte;
  utMetadata : Z;
  utPex : Z;
  metadataReceived : Z;
  metadataSize : Z;
  metadata : list byte;
  events : list client_event
}.

Definition NewClient (infoHash : list byte) (peerAddr : AddrPort) (id : list byte)
    (incoming : list byte) (writes : list write_result) : Client :=
  mkClient infoHash peerAddr (go_copy (replicate 20 x00) id) incoming writes [] 0 0 0 0 [] [].

Definition set_incoming (c : Client) (l : list byte) : Client :=
  mkClient (infoHash c) (peerAddr c) (clientID c) l (writes c) (written c) (utMetadata c) (utPex c)
    (metadataReceived c) (metadataSize c) (metadata c) (events c).
Definition set_written (c : Client) (rs : list write_result) (l : list byte) : Client :=
  mkClient (infoHash c) (peerAddr c) (clientID c) (incoming c) rs l (utMetadata c) (utPex c)
    (metadataReceived c) (metadataSize c) (metadata c) (events c).
Definition set_remote (c : Client) (utM utP size : Z) : Client :=
  mkClient (infoHash c) (peerAddr c) (clientID c) (incoming c) (writes c) (written c) utM utP
    (metadataReceived c) size (replicate (Z.to_nat size) x00) (events c).
Definition set_metadata (c : Client) (received : Z) (l : list byte) : Client :=
  mkClient (infoHash c) (peerAddr c) (clientID c) (incoming c) (writes c) (written c) (utMetadata c) (utPex c)
    received (metadataSize c) l (events c).
Definition add_event (c : Client) (e : client_event) : Client :=
  mkClient (infoHash c) (peerAddr c) (clientID c) (incoming c) (writes c) (written c) (utMetadata c) (utPex c)
    (metadataReceived c) (metadataSize c) (metadata c) (events c ++ [e]).

(** A result together with the client it leaves. *)
Definition step_result (A : Type) : Type := go cl_error A * Client.

(** ** Writing *)

Fixpoint writeAll_loop (rs : list write_result) (b sent : list byte)
    : go cl_error unit * (list write_result * list byte) :=
  match b with
  | [] => (Ret (), (rs, sent))
  | _ =>
      match rs with
      | [] => (Err WriteError, ([], sent))
      | None :: rs' => (Err WriteError, (rs', sent))
      | Some n :: rs' => writeAll_loop rs' (drop n b) (sent ++ take n b)
      end
  end.

Definition writeAll (b : list byte) (c : Client) : step_result unit :=
  let '(r, (rs, l)) := writeAll_loop (writes c) b (written c) in (r, set_written c rs l).

(** ** Reading *)

Definition readExactly (n : nat) (l : list byte) : option (list byte * list byte) :=
  if (n <=? length l)%nat then Some (take n l, drop n l) else None.

Definition readMessage (l : list byte) : go cl_error (list byte * list byte) :=
  match readExactly 4 l with
  | None => Err ReadError
  | Some (rLengthB, l) =>
      let rLength := be_decode rLengthB in
      if MaxMetadataSize <? rLength then Err TooLong
      else match readExactly (Z.to_nat rLength) l with
      | None => Err ReadError
      | Some (rMessage, l) => Ret (rMessage, l)
      end
  end.

(** An extension message and what follows it; [None] is running out of fuel. *)
Fixpoint readExMessage (fuel : nat) (l : list byte) : option (go cl_error (list byte * list byte)) :=
  match fuel with
  | O => None
  | S fuel' =>
      match readMessage l with
      | Err e => Some (Err e)
      | Panic => Some Panic
      | Ret (rMessage, l') =>
          if (length rMessage <? 2)%nat then readExMessage fuel' l'
          else if decide (nth 0 rMessage x00 = x14) then Some (Ret (rMessage, l'))
          else readExMessage fuel' l'
      end
  end.

(** ** Handshakes *)

(** The value [n] at position [i] and the bytes [src] copied from [i] on. *)
Definition put (i : nat) (src l : list byte) : list byte := take i l ++ go_copy (drop i l) src.

Definition short_hash (ih : list byte) : list byte := if (length ih =? 32)%nat then take 20 ih else ih.

Definition lHandshake (c : Client) : list byte :=
  let l := replicate 68 x00 in
  let l := <[0%nat := x13]> l in
  let l := put 1 (bytes_of "BitTorrent protocol") l in
  let l := <[25%nat := x10]> l in
  let l := <[27%nat := x01]> l in
  let l := take 28 l ++ go_copy (sub l 28 48) (short_hash (infoHash c)) ++ drop 48 l in
  put 48 (clientID c) l.

Definition doBtHandshake (c : Client) : step_result unit :=
  let ih := short_hash (infoHash c) in
  match writeAll (lHandshake c) c with
  | (Ret _, c) =>
      match readExactly 68 (incoming c) with
      | None => (Err ReadError, set_incoming c [])
      | Some (rHandshake, l) =>
          let c := set_incoming c l in
          if negb (bool_decide (take 20 rHandshake = x13 :: bytes_of "BitTorrent protocol")) then (Err CorruptHandshake, c)
          else if negb (bool_decide (sub rHandshake 28 48 = ih)) then (Err InfohashMismatch, c)
          else if Z.land (b2z (nth 25 rHandshake x00)) 16 =? 0 then (Err NoExtensionProtocol, c)
          else (Ret (), c)
      end
  | (Err e, c) => (Err e, c)
  | (Panic, c) => (Panic, c)
  end.

Section Client.
  Context `{Peer}.

Definition exHandshake : list byte :=
  [x00; x00; x00; x25; x14; x00] ++ bytes_of "d1:md11:ut_metadatai1e6:ut_pexi2eee".

(** [errors.Wrap] of a nil error is nil: a first extension message that is not a
    handshake ends the function without an error. *)
Definition doExHandshake (fuel : nat) (c : Client) : option (step_result unit) :=
  match writeAll exHandshake c with
  | (Ret _, c) =>
      r ← readExMessage fuel (incoming c);
      match r with
      | Err e => Some (Err e, c)
      | Panic => Some (Panic, c)
      | Ret (rExMessage, l) =>
          let c := set_incoming c l in
          if negb (bool_decide (nth 1 rExMessage x00 = x00)) then Some (Ret (), c)
          else match Unmarshal_rootDict (drop 2 rExMessage) with
          | None => Some (Err BadRootDict, c)
          | Some d =>
              if negb ((0 <? MetadataSize d) && (MetadataSize d <? MaxMetadataSize)) then Some (Err BadMetadataSize, c)
              else if negb ((0 <? UTMetadata d) && (UTMetadata d <? 255)) then Some (Err BadUTMetadata, c)
              else Some (Ret (), set_remote c (u8 (UTMetadata d)) (u8 (UTPex d)) (MetadataSize d))
          end
      end
  | (Err e, c) => Some (Err e, c)
  | (Panic, c) => Some (Panic, c)
  end.

(** ** Pieces *)

Definition toBigEndian (i : Z) (n : nat) : list byte := be_encode n i.

(** [math.Ceil(float64(size) / 2^14)]: exact, since sizes are below 2^53 and the
    division is by a power of two. *)
Definition nPieces (size : Z) : Z := (size + 16383) / 16384.

Definition piece_request (c : Client) (piece : Z) : list byte :=
  let extDictDump := Marshal_extDict (mkExtDict 0 piece) in
  toBigEndian (2 + Z.of_nat (length extDictDump)) 4 ++ [x14] ++ toBigEndian (utMetadata c) 1 ++ extDictDump.

Fixpoint requestPieces (n : nat) (piece : Z) (c : Client) : step_result unit :=
  match n with
  | O => (Ret (), c)
  | S n' =>
      match writeAll (piece_request c piece) c with
      | (Ret _, c) => requestPieces n' (piece + 1) c
      | (Err e, c) => (Err e, c)
      | (Panic, c) => (Panic, c)
      end
  end.

Definition requestAllPieces (c : Client) : step_result unit :=
  requestPieces (Z.to_nat (nPieces (metadataSize c))) 0 c.

Definition handlePex (payload : list byte) (c : Client) : Client :=
  match Unmarshal_pexMsg payload with
  | None => c
  | Some msg =>
      let peers := parsePeers (Added msg) ++ parsePeers6 (Added6 msg) in
      match peers with [] => c | _ => add_event c (OnPeers (infoHash c) peers) end
  end.

(** The body of the loop of [Do] for a data piece. *)
Definition storePiece (piece : Z) (metadataPiece : list byte) (c : Client) : step_result unit :=
  let len := Z.of_nat (length metadataPiece) in
  if 16 * 1024 <? len then (Err PieceTooLarge, c)
  else
    let lo := i64 (piece * 16384) in
    let hi := i64 (lo + len) in
    match slice (metadata c) lo hi with
    | None => (Panic, c)
    | Some dst =>
        let c := set_metadata c (u64 (metadataReceived c + len))
          (take (Z.to_nat lo) (metadata c) ++ go_copy dst metadataPiece ++ drop (Z.to_nat hi) (metadata c)) in
        if (len <? 16 * 1024) && negb (metadataReceived c =? metadataSize c) then (Err PieceShort, c)
        else if metadataSize c <? metadataReceived c then (Err TooMuchMetadata, c)
        else (Ret (), c)
    end.

Definition handleExMessage (rExMessage : list byte) (c : Client) : step_result unit :=
  if decide (nth 1 rExMessage x00 = x01) then
    match Decode_extDict (drop 2 rExMessage) with
    | None => (Err BadExtDict, c)
    | Some (d, metadataPiece) =>
        if MsgType d =? 2 then (Err PieceRejected, c)
        else if MsgType d =? 1 then storePiece (Piece d) metadataPiece c
        else (Ret (), c)
    end
  else if decide (nth 1 rExMessage x00 = x02) then (Ret (), handlePex (drop 2 rExMessage) c)
  else (Ret (), c).

Fixpoint receivePieces (fuel : nat) (c : Client) : option (step_result unit) :=
  if negb (metadataReceived c <? metadataSize c) then Some (Ret (), c)
  else match fuel with
  | O => None
  | S fuel' =>
      r ← readExMessage fuel (incoming c);
      match r with
      | Err e => Some (Err e, c)
      | Panic => Some (Panic, c)
      | Ret (rExMessage, l) =>
          match handleExMessage rExMessage (set_incoming c l) with
          | (Ret _, c) => receivePieces fuel' c
          | (Err e, c) => Some (Err e, c)
          | (Panic, c) => Some (Panic, c)
          end
      end
  end.

(** ** The end of the download *)

Definition validateInfo (info : Info) : option cl_error :=
  if (0 <? length (Pieces info))%nat && negb (length (Pieces info) mod 20 =? 0)%nat then Some BadPieces
  else if PieceLength info =? 0 then
    if negb (TotalLength info =? 0) then Some ZeroPieceLength else None
  else if (0 <? length (Pieces info))%nat &&
          negb (Z.quot (i64 (TotalLength info + PieceLength info - 1)) (PieceLength info) =? NumPieces info)
  then Some PieceCountMismatch
  else None.

Definition files_of (info : Info) : list File :=
  match Files info with
  | [] => [mkFile (Length info) (Name info)]
  | fs => (fun f => mkFile f.1 f.2) <$> fs
  end.

(** The sum of the sizes, unless one is negative. *)
Fixpoint totalSize (files : list File) (total : Z) : option Z :=
  match files with
  | [] => Some total
  | f :: files' => if Size f <? 0 then None else totalSize files' (u64 (total + Size f))
  end.

Definition checksum (c : Client) : list byte :=
  if (length (infoHash c) =? 32)%nat then sha256 (metadata c) else sha1 (metadata c).

(** From the checksum to the callback; [now] is [time.Now().Unix()]. *)
Definition finish (now : Z) (c : Client) : Client :=
  if negb (bool_decide (checksum c = infoHash c)) then add_event c (OnError (infoHash c) ChecksumMismatch)
  else match Unmarshal_Info (metadata c) with
  | None => add_event c (OnError (infoHash c) BadInfo)
  | Some info =>
      match validateInfo info with
      | Some e => add_event c (OnError (infoHash c) e)
      | None =>
          match totalSize (files_of info) 0 with
          | None => add_event c (OnError (infoHash c) NegativeFileSize)
          | Some total =>
              add_event c (OnSuccess (mkMetadata (infoHash c) 0 (Name info) total now (files_of info)))
          end
      end
  end.

(** How [Do] ends. *)
Inductive outcome : Type :=
  | Finished (c : Client)
  | Panicked
  | OutOfFuel.

Definition fail (c : Client) (e : cl_error) : outcome := Finished (add_event c (OnError (infoHash c) e)).

(** [Do]; the connection is closed by the deferred call on every path after a
    successful [connect]. *)
Definition Do (connected : bool) (now : Z) (c : Client) : outcome :=
  let fuel := S (length (incoming c)) in
  if negb connected then fail c ConnectError
  else match doBtHandshake c with
  | (Err e, c) => fail c e
  | (Panic, _) => Panicked
  | (Ret _, c) =>
      match doExHandshake fuel c with
      | None => OutOfFuel
      | Some (Err e, c) => fail c e
      | Some (Panic, _) => Panicked
      | Some (Ret _, c) =>
          match requestAllPieces c with
          | (Err e, c) => fail c e
          | (Panic, _) => Panicked
          | (Ret _, c) =>
              match receivePieces fuel c with
              | None => OutOfFuel
              | Some (Err e, c) => fail c e
              | Some (Panic, _) => Panicked
              | Some (Ret _, c) => Finished (finish now c)
              end
          end
      end
  end.
End Client.

(** ** Reading makes progress *)

Lemma readMessage_consumes l m l' :
  readMessage l = Ret (m, l') -> (length l = 4 + length m + length l')%nat.
Proof.
  unfold readMessage, readExactly. destruct (Nat.leb_spec 4 (length l)) as [H4|]; [|done].
  case_match; [done|]. destruct (Nat.leb_spec (Z.to_nat (be_decode (take 4 l))) (length (drop 4 l))) as [Hl|]; [|done].
  intros [= <- <-]. rewrite !length_drop, length_take, !length_drop in *. lia.
Qed.

Lemma readMessage_no_panic l : readMessage l <> Panic.
Proof. unfold readMessage, readExactly. repeat (case_match; try done). Qed.

Lemma readExMessage_total fuel l :
  (length l < fuel)%nat -> exists r, readExMessage fuel l = Some r /\ r <> Panic /\
    forall m l', r = Ret (m, l') -> (length l' < length l)%nat /\ (2 <= length m)%nat.
Proof.
  revert l; induction fuel as [|fuel IH]; intros l Hl; [lia|]. cbn [readExMessage].
  pose proof (readMessage_no_panic l) as Hp.
  destruct (readMessage l) as [[m l']|e|] eqn:Hm; [|eexists; split; [done|split; [done|]]; by intros|done].
  apply readMessage_consumes in Hm.
  assert (exists r, readExMessage fuel l' = Some r /\ r <> Panic /\
    forall m0 l'0, r = Ret (m0, l'0) -> (length l'0 < length l)%nat /\ (2 <= length m0)%nat) as Hrec.
  { destruct (IH l' ltac:(lia)) as (r & Hr & Hrp & Hrs). exists r. split; [done|]. split; [done|].
    intros m0 l0 E. destruct (Hrs _ _ E). split; [lia|done]. }
  destruct (Nat.ltb_spec (length m) 2); [done|]. case_decide; [|done].
  eexists. split; [done|]. split; [done|]. intros m0 l0 [= <- <-]. lia.
Qed.

(** ** What the phases leave alone *)

Definition is_peers (e : client_event) : Prop := match e with OnPeers _ _ => True | _ => False end.

(** [c'] is [c] some way into the protocol, before the final callback. *)
Definition later (c c' : Client) : Prop :=
  infoHash c' = infoHash c /\ exists pex, events c' = events c ++ pex /\ Forall is_peers pex.

Lemma later_refl c : later c c.
Proof. split; [done|]. exists []. by rewrite app_nil_r. Qed.
Lemma later_trans c1 c2 c3 : later c1 c2 -> later c2 c3 -> later c1 c3.
Proof.
  intros [H1 (p1 & E1 & F1)] [H2 (p2 & E2 & F2)]. split; [congruence|]. exists (p1 ++ p2).
  rewrite E2, E1, app_assoc. split; [done|]. by apply Forall_app.
Qed.
Lemma later_same c c' : infoHash c' = infoHash c -> events c' = events c -> later c c'.
Proof. intros H1 H2. split; [done|]. exists []. by rewrite app_nil_r. Qed.

Lemma writeAll_loop_no_panic rs b sent : (writeAll_loop rs b sent).1 <> Panic.
Proof.
  revert b sent; induction rs as [|r rs IH]; intros b sent; destruct b; try done.
  cbn. destruct r; [apply IH|done].
Qed.

Lemma writeAll_spec b c r c' :
  writeAll b c = (r, c') ->
  r <> Panic /\ later c c' /\ incoming c' = incoming c /\ metadata c' = metadata c /\
  metadataSize c' = metadataSize c /\ metadataReceived c' = metadataReceived c.
Proof.
  unfold writeAll. pose proof (writeAll_loop_no_panic (writes c) b (written c)) as Hp.
  destruct (writeAll_loop _ _ _) as [r' [rs l]]. intros [= <- <-]. split; [done|].
  split; [by apply later_same|done].
Qed.

Lemma doBtHandshake_spec c r c' :
  doBtHandshake c = (r, c') ->
  r <> Panic /\ later c c' /\ (length (incoming c') <= length (incoming c))%nat.
Proof.
  unfold doBtHandshake. destruct (writeAll (lHandshake c) c) as [w c1] eqn:Hw.
  apply writeAll_spec in Hw as (Hp & Hl & Hi & _). rewrite <- Hi.
  destruct w as [u|e|]; [|intros [= <- <-]; split; [done|split; [done|lia]]|done].
  unfold readExactly. destruct (Nat.leb_spec 68 (length (incoming c1))).
  - assert (later c (set_incoming c1 (drop 68 (incoming c1)))) as Hl' by (eapply later_trans; [exact Hl|by apply later_same]).
    repeat case_match; intros [= <- <-]; (split; [done|]; split; [done|]; cbn; rewrite length_drop; lia).
  - intros [= <- <-]. split; [done|]. split; [eapply later_trans; [exact Hl|by apply later_same]|]. cbn. lia.
Qed.

Section ClientFacts.
  Context `{Peer}.

Lemma doExHandshake_spec fuel c :
  (length (incoming c) < fuel)%nat ->
  exists r c', doExHandshake fuel c = Some (r, c') /\ r <> Panic /\ later c c' /\
    (length (incoming c') <= length (incoming c))%nat.
Proof.
  intros Hf. unfold doExHandshake. destruct (writeAll exHandshake c) as [w c1] eqn:Hw.
  apply writeAll_spec in Hw as (Hp & Hl & Hi & _). rewrite <- Hi in *.
  destruct w as [u|e|]; [|eexists _, _; split; [done|]; split; [done|]; split; [done|lia]|done].
  destruct (readExMessage_total fuel (incoming c1) Hf) as (r & -> & Hrp & Hr). cbn.
  destruct r as [[m l]|e|]; [|eexists _, _; split; [done|]; split; [done|]; split; [done|lia]|done].
  destruct (Hr m l eq_refl) as [Hlen _].
  assert (forall a b d, later c (set_remote (set_incoming c1 l) a b d)) as Hl1
    by (intros; eapply later_trans; [exact Hl|by apply later_same]).
  assert (later c (set_incoming c1 l)) as Hl2 by (eapply later_trans; [exact Hl|by apply later_same]).
  repeat case_match; (eexists _, _; split; [done|]; split; [done|]; split; [auto|cbn; lia]).
Qed.

Lemma requestPieces_spec n piece c r c' :
  requestPieces n piece c = (r, c') ->
  r <> Panic /\ later c c' /\ incoming c' = incoming c /\ metadata c' = metadata c /\
  metadataSize c' = metadataSize c /\ metadataReceived c' = metadataReceived c.
Proof.
  revert piece c; induction n as [|n IH]; intros piece c; cbn [requestPieces].
  { intros [= <- <-]. split; [done|]. split; [apply later_refl|done]. }
  destruct (writeAll _ c) as [w c1] eqn:Hw. apply writeAll_spec in Hw as (Hp & Hl & E1 & E2 & E3 & E4).
  destruct w as [u|e|]; [|by intros [= <- <-]|done].
  intros Hr. apply IH in Hr as (Hp' & Hl' & E1' & E2' & E3' & E4').
  split; [done|]. split; [by eapply later_trans|]. repeat split; congruence.
Qed.

Lemma handleExMessage_spec m c r c' :
  handleExMessage m c = (r, c') -> later c c' /\ incoming c' = incoming c.
Proof.
  unfold handleExMessage, storePiece, handlePex. intros Hr.
  assert (later c c /\ incoming c = incoming c) as Hsame by (split; [apply later_refl|done]).
  repeat (case_match; simplify_eq; try done).
  all: try (split; [by apply later_same|done]).
  split; [|done]. split; [done|]. eexists [_]. split; [done|]. by constructor.
Qed.

Lemma receivePieces_spec fuel c :
  (length (incoming c) < fuel)%nat ->
  exists r c', receivePieces fuel c = Some (r, c') /\ later c c'.
Proof.
  revert c; induction fuel as [|fuel IH]; intros c Hf; [lia|]. cbn [receivePieces].
  case_match; [eexists _, _; split; [done|apply later_refl]|].
  destruct (readExMessage_total (S fuel) (incoming c) Hf) as (r & Hx & Hrp & Hr). 
  cbn [readExMessage] in Hx |- *. rewrite Hx. cbn [mbind option_bind].
  destruct r as [[m l]|e|]; [|eexists _, _; split; [done|apply later_refl]|done].
  destruct (Hr m l eq_refl) as [Hlen _].
  destruct (handleExMessage m (set_incoming c l)) as [r1 c1] eqn:Hh.
  apply handleExMessage_spec in Hh as [Hl1 Hi1]. cbn [incoming set_incoming] in Hi1.
  assert (later c c1) as Hlc by (eapply later_trans; [|exact Hl1]; by apply later_same).
  destruct r1 as [u|e|]; [|by eexists _, _|by eexists _, _].
  destruct (IH c1) as (r2 & c2 & -> & Hl2); [rewrite Hi1; lia|].
  eexists _, _. split; [done|]. by eapply later_trans.
Qed.

(** ** The callback of a download *)

Definition final_event (ih : list byte) (e : client_event) : Prop :=
  match e with
  | OnSuccess m => md_InfoHash m = ih
  | OnError ih' _ => ih' = ih
  | OnPeers _ _ => False
  end.

Definition ends_with_one_callback (c c' : Client) : Prop :=
  exists pex e, events c' = events c ++ pex ++ [e] /\ Forall is_peers pex /\ final_event (infoHash c) e.

Lemma add_final c c1 e :
  later c c1 -> final_event (infoHash c) e -> ends_with_one_callback c (add_event c1 e).
Proof.
  intros [_ (pex & Hev & Hf)] Hfin. exists pex, e. split; [|done]. cbn. by rewrite Hev, app_assoc.
Qed.

Lemma finish_ends now c c1 : later c c1 -> ends_with_one_callback c (finish now c1).
Proof.
  intros Hl. destruct Hl as [Hih Hev] eqn:E. clear E. unfold finish.
  repeat case_match; (apply add_final; [by split|cbn; congruence]).
Qed.

(** Whatever the peer sends and wherever the connection breaks, a download ends:
    the fuel of [Do] is never used up. Unless it panics, it makes exactly one of
    its two final callbacks, for its own info hash and after any number of peer
    exchanges. *)
Theorem client_one_callback (connected : bool) (now : Z) (c : Client) :
  match Do connected now c with
  | Finished c' => ends_with_one_callback c c'
  | Panicked => True
  | OutOfFuel => False
  end.
Proof.
  unfold Do. destruct connected; cbn [negb]; [|apply add_final; [apply later_refl|done]].
  destruct (doBtHandshake c) as [r1 c1] eqn:H1. apply doBtHandshake_spec in H1 as (Hp1 & Hl1 & Hi1).
  destruct r1 as [u|e|]; [|apply add_final; [done|apply Hl1]|done].
  destruct (doExHandshake_spec (S (length (incoming c))) c1 ltac:(lia)) as (r2 & c2 & -> & Hp2 & Hl2 & Hi2).
  assert (later c c2) as Hl2' by (by eapply later_trans).
  destruct r2 as [u2|e|]; [|apply add_final; [done|apply Hl2']|done].
  destruct (requestAllPieces c2) as [r3 c3] eqn:H3. apply requestPieces_spec in H3 as (Hp3 & Hl3 & Hi3 & _).
  assert (later c c3) as Hl3' by (by eapply later_trans).
  destruct r3 as [u3|e|]; [|apply add_final; [done|apply Hl3']|done].
  destruct (receivePieces_spec (S (length (incoming c))) c3) as (r4 & c4 & -> & Hl4); [rewrite Hi3; lia|].
  assert (later c c4) as Hl4' by (by eapply later_trans).
  destruct r4 as [u4|e|]; [by apply finish_ends|apply add_final; [done|apply Hl4']|done].
Qed.
(** ** What a success means *)

Lemma totalSize_spec fs t r :
  0 <= t < 2 ^ 64 -> totalSize fs t = Some r ->
  Forall (fun f => 0 <= Size f) fs /\ r = u64 (t + foldr Z.add 0 (Size <$> fs)).
Proof.
  revert t; induction fs as [|f fs IH]; intros t Ht; cbn [totalSize foldr fmap list_fmap].
  { intros [= <-]. split; [done|]. rewrite Z.add_0_r. by rewrite u64_small. }
  destruct (Z.ltb_spec (Size f) 0); [done|]. intros Hr.
  apply IH in Hr as [Hf ->]; [|unfold u64; apply Z.mod_pos_bound; lia].
  split; [by constructor|]. unfold u64. rewrite Zplus_mod_idemp_l. f_equal. lia.
Qed.

Definition verified_metadata (ih data : list byte) (info : Info) (m : Metadata) : Prop :=
  (if (length ih =? 32)%nat then sha256 data else sha1 data) = ih /\
  Unmarshal_Info data = Some info /\ validateInfo info = None /\
  md_InfoHash m = ih /\ md_Name m = Name info /\ md_Files m = files_of info /\
  md_Files m <> [] /\ Forall (fun f => 0 <= Size f) (md_Files m) /\
  md_TotalSize m = u64 (foldr Z.add 0 (Size <$> md_Files m)).

Lemma finish_success now c m :
  OnSuccess m ∈ events (finish now c) -> OnSuccess m ∉ events c ->
  exists info, verified_metadata (infoHash c) (metadata c) info m.
Proof.
  unfold finish, checksum. intros Hin Hnot.
  assert (forall e, OnSuccess m ∈ events (add_event c e) -> e = OnSuccess m) as Hadd.
  { intros e. cbn. rewrite elem_of_app, list_elem_of_singleton. by intros [?| ->]. }
  case_bool_decide as Hsum; cbn [negb] in Hin; [|by apply Hadd in Hin].
  destruct (Unmarshal_Info (metadata c)) as [info|] eqn:Hu; [|by apply Hadd in Hin].
  destruct (validateInfo info) eqn:Hv; [by apply Hadd in Hin|].
  destruct (totalSize (files_of info) 0) as [total|] eqn:Ht; [|by apply Hadd in Hin].
  apply Hadd in Hin. injection Hin as <-. apply totalSize_spec in Ht as [Hf ->]; [|lia].
  exists info. repeat split; try done. unfold files_of in *. cbn. by destruct (Files info).
Qed.

Lemma later_no_success c c' m : later c c' -> OnSuccess m ∉ events c -> OnSuccess m ∉ events c'.
Proof.
  intros [_ (pex & -> & Hp)] Hn [?|Hin]%elem_of_app; [done|]. rewrite Forall_forall in Hp. by apply Hp in Hin.
Qed.

(** C5: A download that succeeds reports metadata that is authentic: the bytes put
    together from the peer's pieces hash to the info hash (SHA-256 for 32-byte
    hashes, SHA-1 otherwise), they decode to an info dictionary that passes the
    checks, and the reported name, files and total size (as an unsigned 64-bit sum
    of sizes none of which is negative) are those of that dictionary. *)
Theorem client_success_sound (connected : bool) (now : Z) (c c' : Client) (m : Metadata) :
  Do connected now c = Finished c' -> OnSuccess m ∉ events c -> OnSuccess m ∈ events c' ->
  exists data info, verified_metadata (infoHash c) data info m.
Proof.
  intros Hd Hnot Hin. unfold Do in Hd.
  assert (forall c1 e, later c c1 -> Finished c' = fail c1 e -> exists data info, verified_metadata (infoHash c) data info m) as Hfail.
  { intros c1 e Hl [= ->]. exfalso. cbn in Hin. apply elem_of_app in Hin as [Hin|Hin]; [|not_in_list Hin].
    by apply (later_no_success c c1 m). }
  destruct connected; cbn [negb] in Hd; [|by apply (Hfail c ConnectError); [apply later_refl|]].
  destruct (doBtHandshake c) as [r1 c1] eqn:H1. apply doBtHandshake_spec in H1 as (_ & Hl1 & Hi1).
  destruct r1 as [u|e|]; [|by apply (Hfail c1 e)|done].
  destruct (doExHandshake_spec (S (length (incoming c))) c1 ltac:(lia)) as (r2 & c2 & E2 & _ & Hl2 & Hi2).
  rewrite E2 in Hd. assert (later c c2) as Hl2' by (by eapply later_trans).
  destruct r2 as [u2|e|]; [|by apply (Hfail c2 e)|done].
  destruct (requestAllPieces c2) as [r3 c3] eqn:H3. apply requestPieces_spec in H3 as (_ & Hl3 & Hi3 & _).
  assert (later c c3) as Hl3' by (by eapply later_trans).
  destruct r3 as [u3|e|]; [|by apply (Hfail c3 e)|done].
  destruct (receivePieces_spec (S (length (incoming c))) c3) as (r4 & c4 & E4 & Hl4); [rewrite Hi3; lia|].
  rewrite E4 in Hd. assert (later c c4) as Hl4' by (by eapply later_trans).
  destruct r4 as [u4|e|]; [|by apply (Hfail c4 e)|done]. injection Hd as <-.
  apply finish_success in Hin as [info Hi]; [|by eapply later_no_success].
  exists (metadata c4), info. by rewrite <- (proj1 Hl4').
Qed.
End ClientFacts.

(** ** The BitTorrent handshake *)

Definition hash_ok (ih : list byte) : Prop := length ih = 20%nat \/ length ih = 32%nat.

Lemma short_hash_length ih : hash_ok ih -> length (short_hash ih) = 20%nat.
Proof.
  unfold short_hash. intros [E|E]; rewrite E; cbn [Nat.eqb]; [done|].
  rewrite length_take, E. done.
Qed.

Lemma lHandshake_bytes c :
  hash_ok (infoHash c) -> length (clientID c) = 20%nat ->
  lHandshake c = (x13 :: bytes_of "BitTorrent protocol" ++ [x00; x00; x00; x00; x00; x10; x00; x01]) ++
    short_hash (infoHash c) ++ clientID c.
Proof.
  intros Hh%short_hash_length Hid. unfold lHandshake, put.
  set (pre := x13 :: bytes_of "BitTorrent protocol" ++ [x00; x00; x00; x00; x00; x10; x00; x01]).
  match goal with |- context [sub ?l 28 48] => set (l0 := l) end.
  assert (l0 = pre ++ replicate 40 x00) as -> by reflexivity.
  change (take 28 (pre ++ replicate 40 x00)) with pre.
  change (sub (pre ++ replicate 40 x00) 28 48) with (replicate 20 x00).
  change (drop 48 (pre ++ replicate 40 x00)) with (replicate 20 x00).
  rewrite go_copy_same by (by rewrite Hh). rewrite app_assoc.
  assert (length (pre ++ short_hash (infoHash c)) = 48%nat) as Hl by (rewrite length_app, Hh; done).
  rewrite take_app_length', drop_app_length' by done. rewrite go_copy_same by (by rewrite Hid).
  by rewrite <- app_assoc.
Qed.

(** Two clients running this code accept each other's handshake exactly when
    they look for the same torrent (a 32-byte info hash counts by its first 20
    bytes): the reader takes exactly the 68 bytes of the handshake and leaves the
    rest for the next phase. *)
Theorem handshakes_agree (c1 c2 : Client) (rest : list byte) (writes' : list write_result) (sent : list byte) :
  hash_ok (infoHash c1) -> hash_ok (infoHash c2) ->
  length (clientID c1) = 20%nat -> length (clientID c2) = 20%nat ->
  incoming c2 = lHandshake c1 ++ rest ->
  writeAll_loop (writes c2) (lHandshake c2) (written c2) = (Ret (), (writes', sent)) ->
  doBtHandshake c2 =
    (if decide (short_hash (infoHash c1) = short_hash (infoHash c2)) then Ret () else Err InfohashMismatch,
     set_incoming (set_written c2 writes' sent) rest).
Proof.
  intros Hh1 Hh2 Hid1 Hid2 Hin Hw. unfold doBtHandshake, writeAll. rewrite Hw. cbn [incoming set_written].
  rewrite Hin, lHandshake_bytes by done.
  pose proof (short_hash_length _ Hh1) as Hl1. set (sh := short_hash (infoHash c1)) in *.
  set (pre := x13 :: bytes_of "BitTorrent protocol" ++ [x00; x00; x00; x00; x00; x10; x00; x01]).
  assert (length (pre ++ sh ++ clientID c1) = 68%nat) as Hl by (rewrite !length_app, Hl1, Hid1; done).
  unfold readExactly. rewrite length_app, Hl. cbn [Nat.leb Nat.add].
  rewrite take_app_length', drop_app_length' by done.
  change (take 20 (pre ++ sh ++ clientID c1)) with (x13 :: bytes_of "BitTorrent protocol").
  rewrite bool_decide_true by done. cbn [negb].
  assert (sub (pre ++ sh ++ clientID c1) 28 48 = sh) as ->.
  { unfold sub. change (drop 28 (pre ++ sh ++ clientID c1)) with (sh ++ clientID c1). by apply take_app_length'. }
  destruct (decide (sh = short_hash (infoHash c2))) as [E|E].
  - by rewrite bool_decide_true.
  - by rewrite bool_decide_false.
Qed.

(** ** A peer that serves the metadata *)

Class PeerLaws `(Peer) : Prop := {
  decode_leaves_rest d tail :
    - 2 ^ 63 <= MsgType d < 2 ^ 63 -> - 2 ^ 63 <= Piece d < 2 ^ 63 ->
    Decode_extDict (Marshal_extDict d ++ tail) = Some (d, tail);
  marshal_short d : (length (Marshal_extDict d) <= 100)%nat
}.

Definition block : nat := Z.to_nat 16384.
Lemma block_Z : Z.of_nat block = 16384.
Proof. unfold block. lia. Qed.
#[global] Opaque block.

Section Serving.
  Context `{PeerLaws}.

Definition frame (m : list byte) : list byte := be_encode 4 (Z.of_nat (length m)) ++ m.
Definition piece_of (data : list byte) (k : nat) : list byte := sub data (k * block) ((k + 1) * block).
Definition data_message (data : list byte) (k : nat) : list byte :=
  [x14; x01] ++ Marshal_extDict (mkExtDict 1 (Z.of_nat k)) ++ piece_of data k.
(** The data messages of the pieces from [k] on, [n] of them. *)
Definition serve (data : list byte) (k n : nat) : list byte :=
  concat ((fun i => frame (data_message data i)) <$> seq k n).

Lemma readMessage_frame m rest :
  Z.of_nat (length m) <= MaxMetadataSize -> readMessage (frame m ++ rest) = Ret (m, rest).
Proof.
  intros Hm. unfold MaxMetadataSize in Hm. unfold readMessage, readExactly, frame. rewrite <- !app_assoc.
  assert (length (be_encode 4 (Z.of_nat (length m))) = 4%nat) as H4 by apply be_encode_length.
  rewrite length_app, H4. cbn [Nat.leb Nat.add].
  rewrite take_app_length', drop_app_length' by done. rewrite be_decode_encode_small by (cbn; lia).
  unfold MaxMetadataSize. rewrite (proj2 (Z.ltb_ge _ _)) by lia. rewrite Nat2Z.id, length_app.
  rewrite (proj2 (Nat.leb_le _ _)) by lia. by rewrite take_app_length, drop_app_length.
Qed.

Lemma piece_of_length data k :
  (k * block < length data)%nat ->
  length (piece_of data k) = (block `min` (length data - k * block))%nat.
Proof. intros. unfold piece_of, sub. rewrite length_take, length_drop. lia. Qed.

Lemma take_piece data k :
  (k * block < length data)%nat ->
  take (k * block) data ++ piece_of data k = take (k * block + length (piece_of data k)) data.
Proof.
  intros Hk. rewrite <- take_take_drop. f_equal. rewrite piece_of_length by done. unfold piece_of, sub.
  replace ((k + 1) * block - k * block)%nat with block by lia.
  rewrite <- length_drop. generalize (drop (k * block) data). intros l.
  destruct (Nat.le_ge_cases block (length l)).
  - by rewrite Nat.min_l.
  - by rewrite Nat.min_r, !take_ge by lia.
Qed.

(** Storing the next piece. *)
Lemma storePiece_next c data k :
  metadataSize c = Z.of_nat (length data) -> Z.of_nat (length data) < MaxMetadataSize ->
  metadataReceived c = Z.of_nat (k * block) -> (k * block < length data)%nat ->
  metadata c = take (k * block) data ++ replicate (length data - k * block) x00 ->
  let l := (k * block + length (piece_of data k))%nat in
  storePiece (Z.of_nat k) (piece_of data k) c =
    (Ret (), set_metadata c (Z.of_nat l) (take l data ++ replicate (length data - l) x00)).
Proof.
  intros Hsize Hmax Hrec Hk Hmd l. pose proof (piece_of_length data k Hk) as Hlen. pose proof block_Z as Hb.
  unfold MaxMetadataSize in Hmax. unfold storePiece.
  rewrite (proj2 (Z.ltb_ge _ _)) by lia.
  rewrite !i64_small by (rewrite ?i64_small; nia).
  assert (Z.to_nat (Z.of_nat k * 16384) = k * block)%nat as Hlo by nia.
  assert (Z.to_nat (Z.of_nat k * 16384 + Z.of_nat (length (piece_of data k))) = l) as Hhi by (subst l; nia).
  assert (length (metadata c) = length data) as Hml
    by (rewrite Hmd, length_app, length_take, length_replicate; lia).
  assert (l <= length data)%nat as Hl by (subst l; lia).
  unfold slice. rewrite Hml, Hlo, Hhi.
  rewrite (proj2 (Z.leb_le 0 _)), (proj2 (Z.leb_le _ (Z.of_nat k * 16384 + _))), (proj2 (Z.leb_le _ (Z.of_nat (length data)))) by nia.
  cbn [andb metadataReceived metadataSize set_metadata].
  rewrite Hrec, u64_small by nia. rewrite Hsize.
  replace (Z.of_nat (k * block) + Z.of_nat (length (piece_of data k))) with (Z.of_nat l) by (subst l; lia).
  assert ((Z.of_nat (length (piece_of data k)) <? 16 * 1024) && negb (Z.of_nat l =? Z.of_nat (length data)) = false) as ->.
  { destruct (Z.ltb_spec (Z.of_nat (length (piece_of data k))) (16 * 1024)); [|done].
    rewrite (proj2 (Z.eqb_eq _ _)); [done|]. subst l. lia. }
  rewrite (proj2 (Z.ltb_ge _ _)) by lia. do 2 f_equal.
  assert (length (take (k * block) data) = k * block)%nat as Htk by (rewrite length_take; lia).
  rewrite Hmd at 1. rewrite take_app_length' by done.
  rewrite go_copy_same by (rewrite length_sub by lia; subst l; lia).
  rewrite app_assoc, take_piece by done. f_equal. rewrite Hmd, drop_app, Htk.
  rewrite drop_ge by (rewrite Htk; lia). cbn [app]. rewrite drop_replicate. f_equal. subst l. lia.
Qed.
Lemma readExMessage_frame fuel m rest :
  Z.of_nat (length m) <= MaxMetadataSize -> (2 <= length m)%nat -> nth 0 m x00 = x14 ->
  readExMessage (S fuel) (frame m ++ rest) = Some (Ret (m, rest)).
Proof.
  intros Hm H2 H14. cbn [readExMessage]. rewrite readMessage_frame by done.
  destruct (Nat.ltb_spec (length m) 2); [lia|]. by rewrite decide_True.
Qed.

Lemma handle_data data k c :
  Z.of_nat k < 2 ^ 63 ->
  handleExMessage (data_message data k) c = storePiece (Z.of_nat k) (piece_of data k) c.
Proof.
  intros Hk. unfold handleExMessage. change (nth 1 (data_message data k) x00) with x01.
  change (drop 2 (data_message data k)) with (Marshal_extDict (mkExtDict 1 (Z.of_nat k)) ++ piece_of data k).
  rewrite decide_True by done. by rewrite decode_leaves_rest by (cbn; lia).
Qed.

Lemma data_message_length data k :
  (k * block < length data)%nat -> (2 <= length (data_message data k))%nat /\ Z.of_nat (length (data_message data k)) <= 20000.
Proof.
  intros Hk. pose proof (marshal_short (mkExtDict 1 (Z.of_nat k))). pose proof (piece_of_length data k Hk).
  pose proof block_Z. unfold data_message. cbn [app length]. rewrite length_app. lia.
Qed.

Lemma receive_served (data rest : list byte) n k fuel c :
  metadataSize c = Z.of_nat (length data) -> Z.of_nat (length data) < MaxMetadataSize ->
  (length data <= (k + n) * block)%nat -> ((k + n - 1) * block < length data)%nat ->
  let l := ((k * block) `min` length data)%nat in
  metadataReceived c = Z.of_nat l -> metadata c = take l data ++ replicate (length data - l) x00 ->
  incoming c = serve data k n ++ rest -> (n <= fuel)%nat ->
  receivePieces fuel c =
    Some (Ret (), set_metadata (set_incoming c rest) (Z.of_nat (length data)) data).
Proof.
  revert k fuel c; induction n as [|n IH]; intros k fuel c Hsize Hmax Hhi Hlo l Hrec Hmd Hin Hfuel.
  - assert (l = length data) as Hl by (subst l; lia). rewrite Hl in *.
    assert (negb (metadataReceived c <? metadataSize c) = true) as Hdone
      by (rewrite Hrec, Hsize; by rewrite Z.ltb_irrefl).
    rewrite firstn_all, Nat.sub_diag, app_nil_r in Hmd.
    destruct fuel; cbn [receivePieces]; rewrite Hdone; destruct c; cbn in *; unfold serve in Hin; cbn in Hin;
      by rewrite Hrec, Hmd, Hin.
  - destruct fuel as [|fuel]; [lia|]. pose proof block_Z as Hb.
    assert (k * block < length data)%nat as Hk by nia.
    assert (l = k * block)%nat as Hl by (subst l; lia). rewrite Hl in *.
    cbn [receivePieces]. rewrite Hrec, Hsize, (proj2 (Z.ltb_lt _ _)) by lia. cbn [negb].
    destruct (data_message_length data k Hk) as [H2 Hm].
    rewrite Hin. unfold serve. cbn [seq fmap list_fmap concat]. rewrite <- app_assoc.
    change (readExMessage (S fuel) ?x) with (readExMessage (S fuel) x).
    rewrite readExMessage_frame; [|unfold MaxMetadataSize; lia|exact H2|reflexivity]. cbn [mbind option_bind].
    rewrite handle_data by (unfold MaxMetadataSize in Hmax; nia).
    rewrite (storePiece_next (set_incoming c _) data k) by done.
    pose proof (piece_of_length data k Hk) as Hplen.
    set (l' := (k * block + length (piece_of data k))%nat) in *.
    assert (l' = (S k * block) `min` length data)%nat as Hl' by (subst l'; lia).
    match goal with |- receivePieces fuel ?x = _ => set (c1 := x) end.
    rewrite (IH (S k) fuel c1); [by destruct c|done|done|lia| | | |done|lia].
    + replace (S k + n - 1)%nat with (k + S n - 1)%nat by lia. done.
    + rewrite <- Hl'. done.
    + rewrite <- Hl'. done.
Qed.

(** C37: From a peer that sends the pieces in order, whatever the length of the
    metadata, the loop puts the metadata together byte for byte and stops exactly
    after the last piece, leaving what the peer sent next unread; the number of
    pieces asked for is the least that covers the metadata. *)
Theorem download_complete (data rest : list byte) (c : Client) (fuel : nat) :
  let size := Z.of_nat (length data) in
  let n := Z.to_nat (nPieces size) in
  0 < size < MaxMetadataSize ->
  metadataSize c = size -> metadataReceived c = 0 -> metadata c = replicate (length data) x00 ->
  incoming c = serve data 0 n ++ rest -> (n <= fuel)%nat ->
  (nPieces size - 1) * 16384 < size <= nPieces size * 16384 /\
  receivePieces fuel c = Some (Ret (), set_metadata (set_incoming c rest) size data).
Proof.
  intros size n Hsize Hms Hrec Hmd Hin Hfuel.
  assert ((nPieces size - 1) * 16384 < size <= nPieces size * 16384) as Hn.
  { unfold nPieces. pose proof (Z.div_mod (size + 16383) 16384). pose proof (Z.mod_pos_bound (size + 16383) 16384). lia. }
  split; [done|]. pose proof block_Z as Hb.
  assert (1 <= nPieces size) as H1 by lia.
  assert (Z.of_nat n = nPieces size) as Hnn by (subst n; lia).
  apply (receive_served data rest n 0); [exact Hms|apply Hsize| | | | |exact Hin|exact Hfuel].
  - fold size in Hn. subst size. clear - Hn Hb Hnn. nia.
  - subst size. clear - Hn Hb Hnn H1. nia.
  - rewrite Hrec. lia.
  - by rewrite Hmd, Nat.mul_0_l, Nat.min_0_l, Nat.sub_0_r.
Qed.

End Serving.

(** ** A concrete peer

    Dictionaries of the extension protocol are a type byte and the piece in eight
    bytes; a root dictionary is the size in four bytes; an info dictionary is a
    single file named by nothing, as long as the metadata. *)

#[local] Instance demo_peer : Peer :=
  {| Unmarshal_rootDict l := Some (mkRootDict 3 0 (be_decode (take 4 l)));
     Decode_extDict l :=
       if (16 <=? length l)%nat
       then Some (mkExtDict (i64 (be_decode (take 8 l))) (i64 (be_decode (take 8 (drop 8 l)))), drop 16 l)
       else None;
     Marshal_extDict d := be_encode 8 (u64 (MsgType d)) ++ be_encode 8 (u64 (Piece d));
     Unmarshal_pexMsg l := None;
     Unmarshal_Info l := Some (mkInfo [] 0 "f" 0 [] 0 0);
     sha1 l := take 20 l; sha256 l := take 32 l |}.

(** Dictionaries with 64-bit integers survive; the laws ask for no more. *)
Lemma i64_u64 z : - 2 ^ 63 <= z < 2 ^ 63 -> i64 (u64 z) = z.
Proof. intros Hz. unfold i64, u64. rewrite Zplus_mod_idemp_l, Z.mod_small; lia. Qed.

#[local] Instance demo_peer_laws : PeerLaws demo_peer.
Proof.
  split.
  - intros [mt pc] tail Hm Hp. cbn [MsgType Piece] in Hm, Hp. cbn [Decode_extDict Marshal_extDict demo_peer MsgType Piece].
    assert (forall v, length (be_encode 8 v) = 8%nat) as Hl by (intros; apply be_encode_length).
    rewrite <- app_assoc, !length_app, !Hl. cbn [Nat.leb Nat.add].
    assert (forall z, 0 <= u64 z < 256 ^ Z.of_nat 8) as Hr by (intros z; unfold u64; apply Z.mod_pos_bound; lia).
    rewrite take_app_length', (drop_app_length' (be_encode 8 (u64 mt))), take_app_length' by done.
    rewrite !be_decode_encode_small, !i64_u64 by done. rewrite app_assoc, drop_app_length'; [done|].
    by rewrite length_app, !Hl.
  - intros d. cbn [Marshal_extDict demo_peer]. rewrite length_app, !be_encode_length. lia.
Qed.

Definition demo_data : list byte := replicate 20 x41 ++ [x42; x43].
Definition demo_hash : list byte := replicate 20 x41.
Definition demo_addr : AddrPort := AddrPortFrom (Addr4 16909060) 6881.
Definition ok_writes : list write_result := replicate 10 (Some 100%nat).
Definition demo_remote : Client := NewClient demo_hash demo_addr (replicate 20 x02) [] ok_writes.
Definition demo_ex_handshake : list byte := frame ([x14; x00] ++ be_encode 4 22).
(** The peer's side of a connection whose data pieces are [pieces]. *)
Definition demo_incoming (pieces : list byte) : list byte := lHandshake demo_remote ++ demo_ex_handshake ++ pieces.
Definition demo_client (pieces : list byte) : Client :=
  NewClient demo_hash demo_addr (replicate 20 x01) (demo_incoming pieces) ok_writes.

(** The metadata of [demo_data] in one piece. *)
Definition good_piece : list byte := frame ([x14; x01] ++ Marshal_extDict (mkExtDict 1 0) ++ demo_data).
(** The same piece under the index -1. *)
Definition bad_piece : list byte := frame ([x14; x01] ++ Marshal_extDict (mkExtDict 1 (-1)) ++ demo_data).

Definition demo_success : Metadata := mkMetadata demo_hash 0 "f" 0 7 [mkFile 0 "f"].
Definition demo_done : Client :=
  match Do true 7 (demo_client good_piece) with Finished c => c | _ => demo_client [] end.

Lemma demo_done_eq : Do true 7 (demo_client good_piece) = Finished demo_done.
Proof. vm_compute. reflexivity. Qed.

Theorem client_success_sound_witness :
  events demo_done = [OnSuccess demo_success] /\
  exists data info, verified_metadata demo_hash data info demo_success.
Proof.
  assert (events demo_done = [OnSuccess demo_success]) as He by (vm_compute; reflexivity).
  split; [exact He|].
  apply (client_success_sound true 7 (demo_client good_piece) demo_done demo_success demo_done_eq).
  - intros Hin. by apply not_elem_of_nil in Hin.
  - rewrite He. left.
Defined.

(** The index of a data piece is not checked: a peer that sends the piece of an
    accepted handshake under the index -1 makes the client slice its buffer out
    of range, which panics instead of ending in a callback. *)
Theorem piece_index_panics : Do true 7 (demo_client bad_piece) = Panicked.
Proof. vm_compute. reflexivity. Qed.

Theorem handshakes_agree_witness :
  (doBtHandshake (demo_client [])).1 = Ret () /\ incoming (doBtHandshake (demo_client [])).2 = demo_ex_handshake.
Proof.
  rewrite (handshakes_agree demo_remote (demo_client []) demo_ex_handshake
    (writeAll_loop ok_writes (lHandshake (demo_client [])) []).2.1
    (writeAll_loop ok_writes (lHandshake (demo_client [])) []).2.2);
    [split; vm_compute; reflexivity|by left|by left|vm_compute; reflexivity..].
Defined.

Definition demo_receiving : Client :=
  mkClient demo_hash demo_addr (replicate 20 x01) (serve demo_data 0 1 ++ [x07]) [] [] 3 0 0 22
    (replicate 22 x00) [].

Theorem download_complete_witness :
  receivePieces 1 demo_receiving = Some (Ret (), set_metadata (set_incoming demo_receiving [x07]) 22 demo_data).
Proof.
  refine (proj2 (download_complete demo_data [x07] demo_receiving 1 _ _ _ _ _ _)).
  - split; vm_compute; reflexivity.
  - reflexivity.
  - reflexivity.
  - reflexivity.
  - reflexivity.
  - vm_compute. lia.
Defined.
