(* ===== verification/Connection.v ===== *)
(** * The connection of a download (connect, closeConn and Do of dhtc-client/client.go)

    [Do] of Client is the protocol over a connection that is there or not. Here is
    the socket under it: what dialling it, setting its options and closing it
    return are the fields of a [Socket], and [ops] logs the calls made on it.
    log.Panic of zerolog panics when its message is sent, so a Close that fails
    ends the process. *)

From S2P Require Import Prelude NetAddr Codec Sink Client.

(** ** The socket *)

(** The outcomes of the calls: [true] where the error is nil. *)
Record Socket : Type := mkSocket {
  dial_ok : bool;
  linger_ok : bool;
  nodelay_ok : bool;
  deadline_ok : bool;
  close_ok : bool
}.

Inductive sock_op : Type :=
  | DialTimeout (network : string) (addr : AddrPort) (timeout : duration)
  | SetLinger (sec : Z)
  | SetNoDelay (noDelay : bool)
  | SetDeadline (deadline : time)
  | CloseSocket.

#[export] Instance sock_op_eq_dec : EqDecision sock_op.
Proof. solve_decision. Defined.

Record Conn : Type := mkConn { ops : list sock_op; connClosed : bool }.

Definition sock_call (o : sock_op) (k : Conn) : Conn := mkConn (ops k ++ [o]) (connClosed k).

(** An option that cannot be set: the socket is closed before [connect] returns. *)
Definition give_back (s : Socket) (k : Conn) : go cl_error unit * Conn :=
  (if close_ok s then Err ConnectError else Panic, sock_call CloseSocket k).

Definition connect (s : Socket) (addr : AddrPort) (deadline : time) (k : Conn) : go cl_error unit * Conn :=
  let network := if Is4 (ap_addr addr) then "tcp4"%string else "tcp6"%string in
  let k := sock_call (DialTimeout network addr second) k in
  if negb (dial_ok s) then (Err ConnectError, k) else
  let k := sock_call (SetLinger 0) k in
  if negb (linger_ok s) then give_back s k else
  let k := sock_call (SetNoDelay true) k in
  if negb (nodelay_ok s) then give_back s k else
  let k := sock_call (SetDeadline deadline) k in
  if negb (deadline_ok s) then give_back s k else
  (Ret (), k).

Definition closeConn (s : Socket) (k : Conn) : go cl_error unit * Conn :=
  if connClosed k then (Ret (), k)
  else if negb (close_ok s) then (Panic, sock_call CloseSocket k)
  else (Ret (), mkConn (ops k ++ [CloseSocket]) true).

Section Connection.
  Context `{Peer}.

(** All of [Do]: [connect], then the protocol with [closeConn] deferred, which
    runs when the protocol panics too. *)
Definition Do_conn (s : Socket) (deadline : time) (now : Z) (c : Client) : outcome * Conn :=
  match connect s (peerAddr c) deadline (mkConn [] false) with
  | (Err _, k) => (Do false now c, k)
  | (Panic, k) => (Panicked, k)
  | (Ret _, k) =>
      match closeConn s k with
      | (Ret _, k) => (Do true now c, k)
      | (_, k) => (Panicked, k)
      end
  end.

(** ** What is given back *)

(** Every option is set. *)
Definition usable (s : Socket) : bool := dial_ok s && linger_ok s && nodelay_ok s && deadline_ok s.

(** A call that configures the socket. *)
Definition is_option (o : sock_op) : Prop :=
  match o with SetLinger _ | SetNoDelay _ | SetDeadline _ => True | _ => False end.

(** A connection from the first call to the last: not dialled, or closed once. *)
Definition released (s : Socket) (k : Conn) : Prop :=
  exists network addr timeout opts,
    ops k = DialTimeout network addr timeout :: (if dial_ok s then opts ++ [CloseSocket] else []) /\
    Forall is_option opts.

Lemma Do_conn_released s deadline now c : released s (Do_conn s deadline now c).2.
Proof.
  unfold Do_conn, connect, give_back, closeConn.
  destruct s as [[] l n d cl]; cbn [dial_ok negb]; [|by eexists _, _, _, []].
  eexists _, _, _, (SetLinger 0 :: if l then SetNoDelay true :: if n then [SetDeadline deadline] else [] else []).
  destruct l, n, d, cl; (split; [reflexivity|]); rewrite ?Forall_cons; cbn; by rewrite ?Forall_nil.
Qed.

Lemma Do_conn_result s deadline now c :
  (Do_conn s deadline now c).1 = if dial_ok s && negb (close_ok s) then Panicked else Do (usable s) now c.
Proof.
  unfold Do_conn, connect, give_back, closeConn, usable. destruct s as [[] [] [] [] []]; reflexivity.
Qed.

End Connection.

