(* ===== verification/Cluster.v ===== *)
(** * Worker queue and master (cluster/transport.go)

    A worker keeps the metadata it found in a bounded queue until the master has
    acknowledged it; the master fetches batches from its workers
    ([MasterPuller]) or receives them ([NewMasterFlushHandler]). Every critical
    section of the queue's mutex is one function. HTTP and JSON are represented
    by their outcomes: a request that failed, or a status with the decoded body
    ([None]: it does not decode); url.Parse is an argument. *)

From S2P Require Import Prelude Text Sink.

Definition QueuePath : string := "/api/worker/v1/queue".
Definition FlushPath : string := "/api/master/v1/flush".

Record Entry : Type := mkEntry { ID : Z; Metadata_ : Metadata }.
Record Batch : Type := mkBatch { WorkerID : string; Items : list Entry; Queued : Z; Dropped : Z }.

(** ** The worker's queue *)

Record WorkerQueue : Type := mkQueue {
  workerID : string;
  limit : Z;
  nextID : Z;
  items : list Entry;
  dropped : Z;
  onAck : bool;
  acked : list Metadata;              (* calls of onAck *)
  cachePath : string;
  cacheDirty : bool;
  cacheFile : option (list Entry);    (* worker-queue.json, decoded *)
  masterURL : string;
  clusterToken : string;
  flushWake : bool;
  flushBatch : Z;
  flushThreshold : Z;
  flushed : Z;
  flushBatches : Z
}.

Definition with_items (q : WorkerQueue) (n : Z) (l : list Entry) (dirty : bool) : WorkerQueue :=
  mkQueue (workerID q) (limit q) n l (dropped q) (onAck q) (acked q) (cachePath q) dirty (cacheFile q)
    (masterURL q) (clusterToken q) (flushWake q) (flushBatch q) (flushThreshold q) (flushed q) (flushBatches q).
Definition with_counts (q : WorkerQueue) (d f b : Z) (a : list Metadata) : WorkerQueue :=
  mkQueue (workerID q) (limit q) (nextID q) (items q) d (onAck q) a (cachePath q) (cacheDirty q) (cacheFile q)
    (masterURL q) (clusterToken q) (flushWake q) (flushBatch q) (flushThreshold q) f b.
Definition with_cache (q : WorkerQueue) (dirty : bool) (f : option (list Entry)) : WorkerQueue :=
  mkQueue (workerID q) (limit q) (nextID q) (items q) (dropped q) (onAck q) (acked q) (cachePath q) dirty f
    (masterURL q) (clusterToken q) (flushWake q) (flushBatch q) (flushThreshold q) (flushed q) (flushBatches q).
Definition with_flush (q : WorkerQueue) (url token : string) (wake : bool) (batch threshold : Z) : WorkerQueue :=
  mkQueue (workerID q) (limit q) (nextID q) (items q) (dropped q) (onAck q) (acked q) (cachePath q) (cacheDirty q)
    (cacheFile q) url token wake batch threshold (flushed q) (flushBatches q).

(** [loadFromCache] *)
Definition loadFromCache (q : WorkerQueue) : WorkerQueue :=
  if String.eqb (cachePath q) "" then q
  else match cacheFile q with
  | None => q
  | Some l => with_items q (foldl (fun n item => if n <? ID item then ID item else n) (nextID q) l) l (cacheDirty q)
  end.

Definition NewWorkerQueue (workerID : string) (limit : Z) (cachePath : string) (onAck : bool)
    (file : option (list Entry)) : WorkerQueue :=
  loadFromCache
    {| workerID := if String.eqb workerID "" then "worker" else workerID;
       limit := if limit <? 1 then 256 else limit;
       nextID := 0; items := []; dropped := 0; onAck := onAck; acked := [];
       cachePath := cachePath; cacheDirty := false; cacheFile := file;
       masterURL := ""; clusterToken := ""; flushWake := false; flushBatch := 0; flushThreshold := 0;
       flushed := 0; flushBatches := 0 |}.

Definition Length (q : WorkerQueue) : Z := Z.of_nat (length (items q)).

(** [signalFlush]: the channel holds one wake-up. *)
Definition signalFlush (q : WorkerQueue) : WorkerQueue :=
  with_flush q (masterURL q) (clusterToken q) true (flushBatch q) (flushThreshold q).

Definition Enqueue (md : Metadata) (q : WorkerQueue) : bool * WorkerQueue :=
  if limit q <=? Length q
  then (false, with_counts q (u64 (dropped q + 1)) (flushed q) (flushBatches q) (acked q))
  else
    let n := u64 (nextID q + 1) in
    let q := with_items q n (items q ++ [mkEntry n md]) true in
    (true, if (0 <? flushThreshold q) && (flushThreshold q <=? Length q) then signalFlush q else q).

Definition Batch_ (limit : Z) (q : WorkerQueue) : Batch :=
  let limit := if (limit <? 1) || (Length q <? limit) then Length q else limit in
  mkBatch (workerID q) (take (Z.to_nat limit) (items q)) (Length q) (dropped q).

Definition Ack (ids : list Z) (q : WorkerQueue) : WorkerQueue :=
  let ackedMetadata := Metadata_ <$> filter (fun item => ID item ∈ ids) (items q) in
  let kept := filter (fun item => ID item ∉ ids) (items q) in
  let q := with_items q (nextID q) kept true in
  let q := match ackedMetadata with
    | [] => q
    | _ => with_counts q (dropped q) (u64 (flushed q + Z.of_nat (length ackedMetadata))) (u64 (flushBatches q + 1)) (acked q)
    end in
  if onAck q
  then with_counts q (dropped q) (flushed q) (flushBatches q) (acked q ++ ackedMetadata)
  else q.

Definition SetMaster (url token : string) (q : WorkerQueue) : WorkerQueue :=
  with_flush q (TrimRight_slash url) token (flushWake q) (flushBatch q) (flushThreshold q).

(** What came back from an HTTP request. *)
Inductive reply (A : Type) : Type :=
  | RequestFailed
  | Response (status : Z) (body : option A).
Arguments RequestFailed {A}.
Arguments Response {A}.

Definition status_ok (status : Z) : bool := Z.quot status 100 =? 2.

Inductive flush_error : Type := FlushRequest | FlushStatus | FlushBody | FlushNothing.

(** The batch that [Flush] sends; [None] when it returns without sending. *)
Definition flush_batch (q : WorkerQueue) : option Batch :=
  let batchSize := if flushBatch q <? 1 then 64 else flushBatch q in
  let batch := Batch_ batchSize q in
  if (length (Items batch) =? 0)%nat then None
  else if String.eqb (masterURL q) "" || String.eqb (clusterToken q) "" then None
  else Some batch.

(** The rest of [Flush], with the reply to the batch. *)
Definition flush_reply (r : reply (list Z)) (q : WorkerQueue) : option flush_error * WorkerQueue :=
  match r with
  | RequestFailed => (Some FlushRequest, q)
  | Response status body =>
      if negb (status_ok status) then (Some FlushStatus, q)
      else match body with
      | None => (Some FlushBody, q)
      | Some [] => (Some FlushNothing, q)
      | Some ids => (None, Ack ids q)
      end
  end.

Definition Flush (http : Batch -> reply (list Z)) (q : WorkerQueue) : option flush_error * WorkerQueue :=
  match flush_batch q with
  | None => (None, q)
  | Some batch => flush_reply (http batch) q
  end.

(** [drainFlush]; [http n] answers the n-th request. [None] is a loop that is
    still running after [fuel] rounds. *)
Fixpoint drainFlush (fuel : nat) (http : nat -> Batch -> reply (list Z)) (n : nat) (q : WorkerQueue)
    : option WorkerQueue :=
  if Length q <=? 0 then Some q
  else match fuel with
  | O => None
  | S fuel' =>
      match Flush (http n) q with
      | (Some _, q) => Some q
      | (None, q) => drainFlush fuel' http (S n) q
      end
  end.

(** The configuration part of [StartFlushLoop]. *)
Definition StartFlushLoop (threshold batchSize : Z) (q : WorkerQueue) : WorkerQueue :=
  let batchSize := if (batchSize <? 1) || (64 <? batchSize) then 64 else batchSize in
  let threshold := if threshold <? 1 then batchSize else threshold in
  let q := with_flush q (masterURL q) (clusterToken q) (flushWake q) batchSize threshold in
  if 0 <? Length q then signalFlush q else q.

(** [saveToCache]; [saved] is whether every file operation succeeded. *)
Definition saveToCache (saved : bool) (q : WorkerQueue) : WorkerQueue :=
  if String.eqb (cachePath q) "" || negb (cacheDirty q) then q
  else if saved then with_cache q false (Some (items q))
  else with_cache q true (cacheFile q).

(** [StopFlushLoop]: the last thing the loop does is to save the queue. *)
Definition StopFlushLoop (saved : bool) (q : WorkerQueue) : WorkerQueue := saveToCache saved q.

(** ** HTTP handlers *)

Inductive method : Type := GET | POST | OtherMethod.
Record request (A : Type) : Type := mkRequest { r_method : method; r_auth : string; r_body : option A }.
Arguments mkRequest {A}.
Arguments r_method {A}.
Arguments r_auth {A}.
Arguments r_body {A}.

Definition authorized (token auth : string) : bool :=
  negb (String.eqb token "" || negb (String.eqb (TrimPrefix auth "Bearer ") token)).

Inductive worker_response : Type :=
  | Unauthorized
  | BatchBody (b : Batch)
  | BadRequest
  | QueuedBody (n : Z)
  | MethodNotAllowed.

Definition Handler (token : string) (maxBatch : Z) (r : request (list Z)) (q : WorkerQueue)
    : worker_response * WorkerQueue :=
  let maxBatch := if (maxBatch <? 1) || (64 <? maxBatch) then 16 else maxBatch in
  if negb (authorized token (r_auth r)) then (Unauthorized, q)
  else match r_method r with
  | GET => (BatchBody (Batch_ maxBatch q), q)
  | POST =>
      match r_body r with
      | None => (BadRequest, q)
      | Some ids => let q := Ack ids q in (QueuedBody (Length q), q)
      end
  | OtherMethod => (MethodNotAllowed, q)
  end.

Definition valid_hash (md : Metadata) : bool :=
  (length (md_InfoHash md) =? 20)%nat || (length (md_InfoHash md) =? 32)%nat.

Inductive master_response : Type :=
  | MUnauthorized | MMethodNotAllowed | MBadRequest | AckBody (ids : list Z).

(** [NewMasterFlushHandler]: the response and the metadata given to [ingest]. *)
Definition MasterFlushHandler (token : string) (r : request Batch) : master_response * list Metadata :=
  if negb (authorized token (r_auth r)) then (MUnauthorized, [])
  else match r_method r with
  | POST =>
      match r_body r with
      | None => (MBadRequest, [])
      | Some batch =>
          (AckBody (ID <$> Items batch), filter (fun md => valid_hash md) (Metadata_ <$> Items batch))
      end
  | _ => (MMethodNotAllowed, [])
  end.

(** ** The master's puller *)

Record WorkerStatus : Type := mkStatus {
  st_URL : string;
  st_WorkerID : string;
  st_Online : bool;
  st_Queued : Z;
  st_Dropped : Z;
  st_Pulled : Z;
  st_LastSuccess : time;
  st_LastAttempt : time;
  st_LastError : bool
}.
Definition noStatus : WorkerStatus := mkStatus "" "" false 0 0 0 0 0 false.

Record MasterPuller : Type := mkPuller {
  workers : list string;
  token : string;
  status : gmap string WorkerStatus;
  ingested : list Metadata            (* calls of ingest *)
}.

Definition set_status (p : MasterPuller) (worker : string) (st : WorkerStatus) : MasterPuller :=
  mkPuller (workers p) (token p) (<[worker := st]> (status p)) (ingested p).

Section Puller.
  (** [url.Parse]: the scheme and the host. *)
  Context (Parse : string -> option (string * string)).

Definition accept_worker (worker : string) : option string :=
  let worker := TrimRight_slash (TrimSpace worker) in
  if String.eqb worker "" then None
  else match Parse worker with
  | None => None
  | Some (scheme, host) =>
      if (negb (String.eqb scheme "http") && negb (String.eqb scheme "https")) || String.eqb host "" then None
      else Some worker
  end.

Definition Configure (workerURLs : list string) (token' : string) (p : MasterPuller) : MasterPuller :=
  let ws := omap accept_worker workerURLs in
  let st := foldl (fun st worker =>
    let current := default noStatus (status p !! worker) in
    <[worker := mkStatus worker (st_WorkerID current) (st_Online current) (st_Queued current) (st_Dropped current)
        (st_Pulled current) (st_LastSuccess current) (st_LastAttempt current) (st_LastError current)]> st)
    ∅ ws in
  mkPuller ws token' st (ingested p).

Definition NewMasterPuller (workerURLs : list string) (token : string) : MasterPuller :=
  Configure workerURLs token (mkPuller [] "" ∅ []).
End Puller.

Definition Status (now : time) (p : MasterPuller) : list WorkerStatus :=
  (fun worker =>
    let s := default noStatus (status p !! worker) in
    mkStatus (st_URL s) (st_WorkerID s)
      (negb (IsZero (st_LastSuccess s)) && (now - st_LastSuccess s <? 30 * second))
      (st_Queued s) (st_Dropped s) (st_Pulled s) (st_LastSuccess s) (st_LastAttempt s) (st_LastError s))
  <$> workers p.

Definition recordFailure (now : time) (worker : string) (p : MasterPuller) : MasterPuller :=
  let s := default noStatus (status p !! worker) in
  set_status p worker (mkStatus (st_URL s) (st_WorkerID s) (st_Online s) (st_Queued s) (st_Dropped s)
    (st_Pulled s) (st_LastSuccess s) now true).

Definition recordSuccess (now : time) (worker : string) (batch : Batch) (pulled : Z) (p : MasterPuller) : MasterPuller :=
  let s := default noStatus (status p !! worker) in
  let queued := Queued batch - pulled in
  set_status p worker (mkStatus (st_URL s) (WorkerID batch) true (if queued <? 0 then 0 else queued) (Dropped batch)
    (u64 (st_Pulled s + u64 pulled)) now now false).

(** The two requests of [pullBatch] to one worker: the answer to the GET, and the
    answer to the POST of the acknowledged ids. *)
Record exchange : Type := mkExchange { ex_get : reply Batch; ex_ack : list Z -> reply unit }.

Inductive pull_error : Type := PullRequest | PullStatus | PullBody | AckRequest | AckStatus.

Definition pullBatch (now : time) (worker : string) (x : exchange) (p : MasterPuller)
    : (bool + pull_error) * MasterPuller :=
  match ex_get x with
  | RequestFailed => (inr PullRequest, p)
  | Response code body =>
      if negb (status_ok code) then (inr PullStatus, p)
      else match body with
      | None => (inr PullBody, p)
      | Some batch =>
          if (length (Items batch) =? 0)%nat then (inl false, recordSuccess now worker batch 0 p)
          else
            let p := mkPuller (workers p) (token p) (status p)
              (ingested p ++ filter (fun md => valid_hash md) (Metadata_ <$> Items batch)) in
            let ids := ID <$> Items batch in
            match ex_ack x ids with
            | RequestFailed => (inr AckRequest, p)
            | Response code' _ =>
                if negb (status_ok code') then (inr AckStatus, p)
                else (inl (Z.of_nat (length (Items batch)) <? Queued batch),
                      recordSuccess now worker batch (Z.of_nat (length ids)) p)
            end
      end
  end.

(** [pullWithToken]: [xs batchNumber] answers the requests of that round. *)
Fixpoint pull_rounds (rounds : nat) (now : time) (worker : string) (xs : nat -> exchange) (batchNumber : nat)
    (p : MasterPuller) : option pull_error * MasterPuller :=
  match rounds with
  | O => (None, p)
  | S rounds' =>
      match pullBatch now worker (xs batchNumber) p with
      | (inr e, p) => (Some e, p)
      | (inl false, p) => (None, p)
      | (inl true, p) => pull_rounds rounds' now worker xs (S batchNumber) p
      end
  end.
Definition maxBatchesPerPull : nat := 8.
Definition pullWithToken (now : time) (worker : string) (xs : nat -> exchange) (p : MasterPuller) :=
  pull_rounds maxBatchesPerPull now worker xs 0 p.

(** [pullAll]: a failing worker is recorded and does not stop the others. *)
Definition pullAll (now : time) (xs : string -> nat -> exchange) (p : MasterPuller) : MasterPuller :=
  if String.eqb (token p) "" then p
  else foldl (fun p worker =>
    match pullWithToken now worker (xs worker) p with
    | (Some _, p) => recordFailure now worker p
    | (None, p) => p
    end) p (workers p).

(** ** A worker and its master

    One worker, one master, and what is on its way between them: batches that the
    worker has handed out (in an answer to a GET or in a pushed request) and
    acknowledgements that the master has sent. Any of them may be lost; an
    exchange that breaks after the master has ingested loses the
    acknowledgement only. *)

Record cluster : Type := mkCluster {
  worker : WorkerQueue;
  batches : list Batch;
  acks : list (list Z);
  master : list Metadata;             (* everything given to the master's ingest *)
  accepted_ : list Entry              (* the records that Enqueue accepted *)
}.

Inductive cl_step (c : cluster) : cluster -> Prop :=
  | cl_enqueue md :
      nextID (worker c) < 2 ^ 64 - 1 ->
      cl_step c (let '(ok, q) := Enqueue md (worker c) in
        mkCluster q (batches c) (acks c) (master c)
          (if ok then accepted_ c ++ [mkEntry (nextID q) md] else accepted_ c))
  | cl_batch n :                                      (* GET, or the request of Flush *)
      cl_step c (mkCluster (worker c) (batches c ++ [Batch_ n (worker c)]) (acks c) (master c) (accepted_ c))
  | cl_master i b :                                   (* the master takes batch i *)
      batches c !! i = Some b ->
      cl_step c (mkCluster (worker c) (batches c) (acks c ++ [ID <$> Items b])
        (master c ++ filter (fun md => valid_hash md) (Metadata_ <$> Items b)) (accepted_ c))
  | cl_ack i ids :                                    (* POST, or the reply to Flush *)
      acks c !! i = Some ids ->
      cl_step c (mkCluster (Ack ids (worker c)) (batches c) (acks c) (master c) (accepted_ c))
  | cl_lose i j :                                     (* a message is lost *)
      cl_step c (mkCluster (worker c) (delete i (batches c)) (delete j (acks c)) (master c) (accepted_ c))
  | cl_save saved :
      cl_step c (mkCluster (saveToCache saved (worker c)) (batches c) (acks c) (master c) (accepted_ c)).

Definition new_cluster (workerID : string) (limit : Z) (cachePath : string) (onAck : bool) : cluster :=
  mkCluster (NewWorkerQueue workerID limit cachePath onAck None) [] [] [] [].

Definition delivered (m : list Metadata) (e : Entry) : Prop := valid_hash (Metadata_ e) -> Metadata_ e ∈ m.

Record cluster_inv (c : cluster) : Prop := {
  inv_sorted : StronglySorted Z.lt (ID <$> accepted_ c);
  inv_next : 0 <= nextID (worker c) < 2 ^ 64;
  inv_ids : Forall (fun e => ID e <= nextID (worker c)) (accepted_ c);
  inv_items : items (worker c) `sublist_of` accepted_ c;
  inv_batches : Forall (fun b => Items b ⊆ accepted_ c) (batches c);
  inv_acks : Forall (fun ids => forall e, e ∈ accepted_ c -> ID e ∈ ids -> delivered (master c) e) (acks c);
  inv_acks_old : Forall (fun ids => Forall (fun i => i <= nextID (worker c)) ids) (acks c);
  inv_delivered : forall e, e ∈ accepted_ c -> e ∈ items (worker c) \/ delivered (master c) e;
  inv_limit : Length (worker c) <= limit (worker c)
}.

(** ** The operations of the queue *)

Lemma Ack_spec ids q :
  items (Ack ids q) = filter (fun item => ID item ∉ ids) (items q) /\
  nextID (Ack ids q) = nextID q /\ limit (Ack ids q) = limit q /\ dropped (Ack ids q) = dropped q /\
  acked (Ack ids q) = acked q ++ (if onAck q then Metadata_ <$> filter (fun item => ID item ∈ ids) (items q) else []).
Proof.
  unfold Ack. destruct (Metadata_ <$> filter (fun item => ID item ∈ ids) (items q)) as [|m l] eqn:E;
    cbn [onAck with_items with_counts]; destruct (onAck q);
    cbn [items nextID limit dropped acked with_items with_counts]; rewrite ?app_nil_r; done.
Qed.

Lemma saveToCache_frame saved q :
  items (saveToCache saved q) = items q /\ nextID (saveToCache saved q) = nextID q /\
  limit (saveToCache saved q) = limit q.
Proof. unfold saveToCache. repeat case_match; done. Qed.

Lemma Enqueue_spec md q :
  let '(ok, q') := Enqueue md q in
  ok = (Length q <? limit q) /\ limit q' = limit q /\
  if ok then nextID q' = u64 (nextID q + 1) /\ items q' = items q ++ [mkEntry (nextID q') md] /\ dropped q' = dropped q
  else nextID q' = nextID q /\ items q' = items q /\ dropped q' = u64 (dropped q + 1).
Proof.
  unfold Enqueue. destruct (Z.leb_spec (limit q) (Length q)).
  - rewrite (proj2 (Z.ltb_ge _ _)) by done. done.
  - rewrite (proj2 (Z.ltb_lt _ _)) by done. split; [done|]. case_match; done.
Qed.

Lemma Batch_items n q : Items (Batch_ n q) `prefix_of` items q.
Proof. unfold Batch_. cbn. apply prefix_take. Qed.

Lemma sorted_unique (l : list Entry) e e' :
  StronglySorted Z.lt (ID <$> l) -> e ∈ l -> e' ∈ l -> ID e = ID e' -> e = e'.
Proof.
  induction l as [|x l IH]; intros Hs He He' Hid; [by apply not_elem_of_nil in He|].
  rewrite fmap_cons in Hs. apply StronglySorted_inv in Hs as [Hs Hx].
  rewrite Forall_fmap, Forall_forall in Hx. unfold compose in Hx.
  apply elem_of_cons in He as [->|He], He' as [->|He']; try done.
  - specialize (Hx _ He'). lia.
  - specialize (Hx _ He). lia.
  - by apply IH.
Qed.

Lemma sorted_snoc (l : list Z) n :
  StronglySorted Z.lt l -> Forall (fun x => x < n) l -> StronglySorted Z.lt (l ++ [n]).
Proof.
  intros Hs. induction Hs as [|x l Hs IH Hx]; intros Hf; [by repeat constructor|].
  apply Forall_cons in Hf as [Hxn Hf]. constructor; [by apply IH|]. apply Forall_app. split; [done|by repeat constructor].
Qed.

(** ** The cluster keeps its invariant *)

Lemma new_cluster_inv id limit path onAck : cluster_inv (new_cluster id limit path onAck).
Proof.
  unfold new_cluster, NewWorkerQueue, loadFromCache. cbn [cachePath cacheFile].
  destruct (String.eqb path ""); (split; [constructor|done|constructor|constructor|constructor|constructor|constructor| |]).
  1, 3: intros e He; by apply not_elem_of_nil in He.
  all: unfold Length; cbn; destruct (Z.ltb_spec limit 1); lia.
Qed.

Lemma enqueue_inv c md :
  cluster_inv c -> nextID (worker c) < 2 ^ 64 - 1 ->
  cluster_inv (let '(ok, q) := Enqueue md (worker c) in
    mkCluster q (batches c) (acks c) (master c)
      (if ok then accepted_ c ++ [mkEntry (nextID q) md] else accepted_ c)).
Proof.
  intros [H1 H2 H3 H4 H5 H6 H7 H8 H9] Hn. pose proof (Enqueue_spec md (worker c)) as He.
  destruct (Enqueue md (worker c)) as [ok q]. destruct He as (Hok & Hlim & He).
  destruct ok.
  2: { destruct He as (E1 & E2 & _). split; cbn [worker batches acks master accepted_]; rewrite ?E1, ?E2; try done.
       unfold Length in *. by rewrite E2, Hlim. }
  destruct He as (E1 & E2 & _). rewrite u64_small in E1 by lia. symmetry in Hok. apply Z.ltb_lt in Hok.
  split; cbn [worker batches acks master accepted_].
  - rewrite fmap_app. apply sorted_snoc; [done|]. rewrite Forall_fmap. eapply Forall_impl; [exact H3|].
    unfold compose. cbn. lia.
  - lia.
  - apply Forall_app. split; [eapply Forall_impl; [exact H3|]; cbn; lia|]. by repeat constructor.
  - rewrite E2. by apply sublist_app.
  - eapply Forall_impl; [exact H5|]. cbn. intros b Hb e Hin. apply elem_of_app. left. by apply Hb.
  - rewrite Forall_forall in H6, H7 |- *. intros ids Hids e [He|He]%elem_of_app Hid; [by apply (H6 ids)|].
    apply list_elem_of_singleton in He. subst e. cbn [ID] in Hid. specialize (H7 ids Hids).
    rewrite Forall_forall in H7. specialize (H7 _ Hid). lia.
  - eapply Forall_impl; [exact H7|]. intros ids Hids. eapply Forall_impl; [exact Hids|]. cbn. lia.
  - intros e [He|He]%elem_of_app.
    + destruct (H8 e He); [left|by right]. rewrite E2. apply elem_of_app. by left.
    + left. rewrite E2. apply elem_of_app. by right.
  - unfold Length in *. rewrite E2, Hlim, length_app. cbn [length]. lia.
Qed.

Lemma batch_inv c n :
  cluster_inv c ->
  cluster_inv (mkCluster (worker c) (batches c ++ [Batch_ n (worker c)]) (acks c) (master c) (accepted_ c)).
Proof.
  intros [H1 H2 H3 H4 H5 H6 H7 H8 H9]. split; cbn [worker batches acks master accepted_]; try done.
  apply Forall_app. split; [done|]. apply Forall_singleton. intros e He.
  eapply elem_of_submseteq; [|by apply sublist_submseteq]. destruct (Batch_items n (worker c)) as [k ->].
  apply elem_of_app. by left.
Qed.

Lemma master_inv c i b :
  cluster_inv c -> batches c !! i = Some b ->
  cluster_inv (mkCluster (worker c) (batches c) (acks c ++ [ID <$> Items b])
    (master c ++ filter (fun md => valid_hash md) (Metadata_ <$> Items b)) (accepted_ c)).
Proof.
  intros [H1 H2 H3 H4 H5 H6 H7 H8 H9] Hb.
  assert (Items b ⊆ accepted_ c) as Hsub.
  { rewrite Forall_forall in H5. apply H5. by eapply list_elem_of_lookup_2. }
  assert (forall e, delivered (master c) e -> delivered (master c ++ filter (fun md => valid_hash md) (Metadata_ <$> Items b)) e)
    as Hmono by (intros e He Hv; apply elem_of_app; left; by apply He).
  split; cbn [worker batches acks master accepted_]; try done.
  - apply Forall_app. split.
    + eapply Forall_impl; [exact H6|]. cbn. auto.
    + apply Forall_singleton. intros e He (e' & Hid & He')%list_elem_of_fmap.
      assert (e = e') as -> by (by apply (sorted_unique (accepted_ c)); [|done|apply Hsub|]).
      intros Hv. apply elem_of_app. right. apply list_elem_of_filter. split; [done|]. by apply list_elem_of_fmap_2.
  - apply Forall_app. split; [done|]. apply Forall_singleton. rewrite Forall_fmap. apply Forall_forall.
    intros e He. rewrite Forall_forall in H3. by apply H3, Hsub.
  - intros e He. destruct (H8 e He); [by left|right; by apply Hmono].
Qed.

Lemma ack_inv c i ids :
  cluster_inv c -> acks c !! i = Some ids ->
  cluster_inv (mkCluster (Ack ids (worker c)) (batches c) (acks c) (master c) (accepted_ c)).
Proof.
  intros [H1 H2 H3 H4 H5 H6 H7 H8 H9] Hi. destruct (Ack_spec ids (worker c)) as (E1 & E2 & E3 & _).
  assert (ids ∈ acks c) as Hin by (by eapply list_elem_of_lookup_2).
  split; cbn [worker batches acks master accepted_]; rewrite ?E2; try done.
  - rewrite E1. etransitivity; [apply sublist_filter|done].
  - intros e He. destruct (H8 e He) as [Hq|]; [|by right]. destruct (decide (ID e ∈ ids)).
    + right. rewrite Forall_forall in H6. by apply (H6 ids).
    + left. rewrite E1. by apply list_elem_of_filter.
  - unfold Length in *. rewrite E1, E3. etransitivity; [|exact H9]. apply inj_le, length_filter.
Qed.

Lemma lose_inv c i j :
  cluster_inv c ->
  cluster_inv (mkCluster (worker c) (delete i (batches c)) (delete j (acks c)) (master c) (accepted_ c)).
Proof.
  intros [H1 H2 H3 H4 H5 H6 H7 H8 H9]. split; cbn [worker batches acks master accepted_]; try done.
  all: by apply Forall_delete.
Qed.

Lemma cl_step_inv c c' : cluster_inv c -> cl_step c c' -> cluster_inv c'.
Proof.
  intros Hi [md Hn|n|i b Hb|i ids Hids|i j|saved].
  - by apply enqueue_inv.
  - by apply batch_inv.
  - by eapply master_inv.
  - by eapply ack_inv.
  - by apply lose_inv.
  - destruct (saveToCache_frame saved (worker c)) as (E1 & E2 & E3). destruct Hi as [H1 H2 H3 H4 H5 H6 H7 H8 H9].
    split; cbn [worker batches acks master accepted_]; unfold Length in *; rewrite ?E1, ?E2, ?E3; done.
Qed.


(** ** Draining the queue *)

Lemma flush_batch_none q :
  items q <> [] -> masterURL q = ""%string \/ clusterToken q = ""%string -> flush_batch q = None.
Proof.
  intros Hi Hm. unfold flush_batch. case_match; [done|].
  destruct Hm as [-> | ->]; [done|]. by rewrite orb_true_r.
Qed.

Lemma acked_prefix (l k : list Entry) :
  NoDup (ID <$> (l ++ k)) ->
  filter (fun item => ID item ∉ ID <$> l) (l ++ k) = k /\ filter (fun item => ID item ∈ ID <$> l) (l ++ k) = l.
Proof.
  rewrite fmap_app. intros (_ & Hd & _)%NoDup_app. rewrite !filter_app.
  assert (forall P `{!forall x : Entry, Decision (P x)} m, (forall x, x ∈ m -> ~ P x) -> filter P m = []) as Hnone.
  { intros P HP m Hm. induction m as [|x m IH]; [done|].
    rewrite filter_cons_False by (apply Hm; left). apply IH. intros y Hy. apply Hm. by right. }
  assert (forall P `{!forall x : Entry, Decision (P x)} (m : list Entry), (forall x, x ∈ m -> P x) -> filter P m = m) as Hall.
  { intros P HP m Hm. induction m as [|x m IH]; [done|].
    rewrite filter_cons_True by (apply Hm; left). f_equal. apply IH. intros y Hy. apply Hm. by right. }
  split.
  - rewrite Hnone; [|intros x Hx Hn; apply Hn; by apply list_elem_of_fmap_2].
    rewrite Hall; [done|]. intros x Hx Hin. by apply (Hd _ Hin), list_elem_of_fmap_2.
  - rewrite Hall; [|intros x Hx; by apply list_elem_of_fmap_2].
    rewrite Hnone; [by rewrite app_nil_r|]. intros x Hx Hin. by apply (Hd _ Hin), list_elem_of_fmap_2.
Qed.

(** A master that takes every batch and acknowledges all of it. *)
Definition accepting : nat -> Batch -> reply (list Z) := fun _ b => Response 200 (Some (ID <$> Items b)).

Lemma flush_accepting q n :
  NoDup (ID <$> items q) -> items q <> [] -> masterURL q <> ""%string -> clusterToken q <> ""%string ->
  exists q' k, Flush (accepting n) q = (None, q') /\ (0 < k)%nat /\ items q' = drop k (items q) /\
    onAck q' = onAck q /\ masterURL q' = masterURL q /\ clusterToken q' = clusterToken q /\
    acked q' = acked q ++ (if onAck q then Metadata_ <$> take k (items q) else []).
Proof.
  intros Hnd Hne Hu Ht. unfold Flush, flush_batch. rewrite !(proj2 (String.eqb_neq _ _)) by done. cbn [orb].
  set (b := Batch_ _ q).
  assert (exists k, (0 < k)%nat /\ Items b = take k (items q)) as (k & Hk & Hb).
  { unfold b, Batch_. cbn [Items]. eexists. split; [|done].
    assert (0 < Length q) by (unfold Length; destruct (items q); [done|cbn; lia]).
    repeat case_match; lia. }
  assert (exists y ys, Items b = y :: ys) as (y & ys & Hcons).
  { rewrite Hb. destruct (items q) as [|y ys]; [done|]. destruct k; [lia|]. cbn. eauto. }
  rewrite Hcons. cbn [length Nat.eqb]. unfold accepting, flush_reply. cbn [status_ok negb Z.eqb Z.quot].
  change (status_ok 200) with true. cbn [negb]. rewrite Hcons, fmap_cons.
  change (ID y :: (ID <$> ys)) with (ID <$> (y :: ys)). rewrite <- Hcons.
  destruct (Ack_spec (ID <$> Items b) q) as (E1 & _ & _ & _ & E5).
  eexists _, k. split; [done|]. split; [done|].
  assert (NoDup (ID <$> (take k (items q) ++ drop k (items q)))) as Hnd' by (by rewrite take_drop).
  destruct (acked_prefix _ _ Hnd') as [F1 F2]. rewrite !take_drop, <- Hb in F1, F2.
  rewrite E1, E5, F1, F2, Hb. split; [done|].
  unfold Ack. repeat (split; [by repeat case_match|]). done.
Qed.

Lemma drainFlush_accepting (q : WorkerQueue) (fuel n : nat) :
  NoDup (ID <$> items q) -> masterURL q <> ""%string -> clusterToken q <> ""%string -> (length (items q) <= fuel)%nat ->
  exists q', drainFlush fuel accepting n q = Some q' /\ items q' = [] /\
    acked q' = acked q ++ (if onAck q then Metadata_ <$> items q else []).
Proof.
  revert q n. induction fuel as [|fuel IH]; intros q n Hnd Hu Ht Hf;
    cbn [drainFlush]; unfold Length.
  { destruct (items q) eqn:E; [|cbn in Hf; lia]. cbn. exists q. rewrite E. split; [done|]. split; [done|].
    cbn. by destruct (onAck q); rewrite app_nil_r. }
  destruct (items q) as [|y ys] eqn:E.
  { exists q. rewrite E. split; [done|]. split; [done|]. cbn. by destruct (onAck q); rewrite app_nil_r. }
  rewrite (proj2 (Z.leb_gt _ _)) by (cbn; lia). rewrite <- E in Hnd, Hf |- *.
  destruct (flush_accepting q n Hnd) as (q' & k & -> & Hk & Hi & Ho & Hu' & Ht' & Ha); [by rewrite E|done|done|].
  destruct (IH q') with (n := S n) as (q'' & Hq & Hi' & Ha'); try congruence.
  + rewrite Hi, fmap_drop. eapply sublist_NoDup; [exact Hnd|apply sublist_drop].
  + rewrite Hi, length_drop. lia.
  + exists q''. split; [done|]. split; [done|]. rewrite Ha', Ha, Ho, Hi, <- app_assoc.
    destruct (onAck q); [|done]. by rewrite <- fmap_app, take_drop.
Qed.

(** What the flush loop does when it is woken: without a master (no URL, or no
    token) and with anything queued it never ends; with a master that acknowledges
    what it takes it ends with an empty queue, after at most one round per record,
    having reported every record in its order. *)
Theorem drainFlush_ends (q : WorkerQueue) :
  NoDup (ID <$> items q) -> items q <> [] ->
  (masterURL q = ""%string \/ clusterToken q = ""%string ->
     forall fuel http n, drainFlush fuel http n q = None) /\
  (masterURL q <> ""%string -> clusterToken q <> ""%string ->
     forall fuel n, (length (items q) <= fuel)%nat ->
     exists q', drainFlush fuel accepting n q = Some q' /\ items q' = [] /\
       acked q' = acked q ++ (if onAck q then Metadata_ <$> items q else [])).
Proof.
  intros Hnd Hne. split.
  - intros Hm fuel http n. revert n; induction fuel as [|fuel IH]; intros n; cbn [drainFlush].
    all: assert (0 < Length q) by (unfold Length; destruct (items q); [done|cbn; lia]).
    all: rewrite (proj2 (Z.leb_gt _ _)) by done.
    { done. }
    unfold Flush. rewrite flush_batch_none by done. apply IH.
  - intros Hu Ht fuel n. by apply drainFlush_accepting.
Qed.

(** ** The handlers *)

(** The worker's endpoint answers only to the cluster token: without a token, or
    with another one, the request is refused and the queue untouched. A GET hands
    out the oldest records, at most 64 and in their order, and changes nothing;
    a POST removes exactly the records it names. *)
Theorem handler_serves (token : string) (maxBatch : Z) (r : request (list Z)) (q : WorkerQueue) :
  let '(resp, q') := Handler token maxBatch r q in
  (token = ""%string \/ TrimPrefix (r_auth r) "Bearer " <> token <-> resp = Unauthorized) /\
  (resp = Unauthorized -> q' = q) /\
  match resp with
  | BatchBody b => r_method r = GET /\ q' = q /\ Items b `prefix_of` items q /\ (length (Items b) <= 64)%nat /\
      Queued b = Length q /\ (items q <> [] -> Items b <> [])
  | QueuedBody n => r_method r = POST /\ n = Length q' /\
      exists ids, r_body r = Some ids /\ items q' = filter (fun item => ID item ∉ ids) (items q)
  | _ => q' = q
  end.
Proof.
  unfold Handler, authorized.
  destruct (String.eqb_spec token "") as [->|Ht]; cbn [orb negb]; [by repeat split; left|].
  destruct (String.eqb_spec (TrimPrefix (r_auth r) "Bearer ") token) as [He|He]; cbn [orb negb]; [|by repeat split; right].
  assert (forall resp, resp <> Unauthorized ->
    (token = ""%string \/ TrimPrefix (r_auth r) "Bearer " <> token <-> resp = Unauthorized)) as Hauth
    by (intros resp Hr; split; [intros []; done|done]).
  destruct (r_method r).
  - split; [by apply Hauth|]. split; [done|]. split; [done|]. split; [done|]. split; [apply Batch_items|].
    unfold Batch_. cbn [Items Queued]. split.
    + rewrite length_take. unfold Length. repeat case_match; try lia.
    + split; [done|]. intros Hne. destruct (items q) as [|y ys] eqn:E; [done|].
      unfold Length. rewrite E. cbn [length]. repeat case_match; destruct (Z.to_nat _) eqn:En; try lia; done.
  - destruct (r_body r) as [ids|]; [|split; [by apply Hauth|done]].
    split; [by apply Hauth|]. split; [done|]. split; [done|]. split; [done|].
    exists ids. split; [done|]. apply Ack_spec.
  - split; [by apply Hauth|]. done.
Qed.

(** ** Pulling *)

Definition taken (b : Batch) : list Metadata := filter (fun md => valid_hash md) (Metadata_ <$> Items b).

Definition reached (now : time) (p : MasterPuller) (worker : string) : Prop :=
  exists s, status p !! worker = Some s /\ st_Online s = true /\ st_LastError s = false /\ st_LastSuccess s = now.

Lemma recordSuccess_reached now worker batch n p : reached now (recordSuccess now worker batch n p) worker.
Proof. eexists. split; [apply lookup_insert_eq|done]. Qed.

Lemma pullBatch_spec now worker x p r p' :
  pullBatch now worker x p = (r, p') ->
  workers p' = workers p /\ token p' = token p /\
  (forall w, w <> worker -> status p' !! w = status p !! w) /\
  (exists bs, ingested p' = ingested p ++ concat (taken <$> bs) /\ (length bs <= 1)%nat) /\
  match r with inl _ => reached now p' worker | inr _ => status p' = status p end.
Proof.
  unfold pullBatch. intros Hr.
  assert (exists bs, ingested p = ingested p ++ concat (taken <$> bs) /\ (length bs <= 1)%nat) as Hnone
    by (exists []; cbn; rewrite app_nil_r; split; [done|lia]).
  assert (forall st n b, let q := recordSuccess now worker b n st in
    workers q = workers st /\ token q = token st /\ (forall w, w <> worker -> status q !! w = status st !! w) /\
    ingested q = ingested st /\ reached now q worker) as Hrec.
  { intros st n b. cbv zeta. repeat split; [|apply recordSuccess_reached].
    intros w Hw. cbn. by rewrite lookup_insert_ne. }
  destruct (ex_get x) as [|code body]; [by injection Hr as <- <-|].
  destruct (status_ok code); cbn [negb] in Hr; [|by injection Hr as <- <-].
  destruct body as [batch|]; [|by injection Hr as <- <-].
  destruct (length (Items batch) =? 0)%nat.
  { injection Hr as <- <-. destruct (Hrec p 0 batch) as (-> & -> & Hst & -> & Hre). done. }
  set (p1 := mkPuller (workers p) (token p) (status p) (ingested p ++ filter (fun md => valid_hash md) (Metadata_ <$> Items batch))) in *.
  assert (exists bs, ingested p1 = ingested p ++ concat (taken <$> bs) /\ (length bs <= 1)%nat) as Hone
    by (exists [batch]; cbn; rewrite app_nil_r; split; [done|lia]).
  destruct (ex_ack x _) as [|code' b']; [by injection Hr as <- <-|].
  destruct (status_ok code'); cbn [negb] in Hr; [|by injection Hr as <- <-].
  injection Hr as <- <-. destruct (Hrec p1 (Z.of_nat (length (ID <$> Items batch))) batch) as (-> & -> & Hst & -> & Hre).
  done.
Qed.

Lemma pull_rounds_spec rounds now worker xs n p e p' :
  pull_rounds rounds now worker xs n p = (e, p') ->
  workers p' = workers p /\ token p' = token p /\
  (forall w, w <> worker -> status p' !! w = status p !! w) /\
  (exists bs, ingested p' = ingested p ++ concat (taken <$> bs) /\ (length bs <= rounds)%nat) /\
  (e = None -> (0 < rounds)%nat -> reached now p' worker).
Proof.
  revert n p; induction rounds as [|rounds IH]; intros n p; cbn [pull_rounds].
  { intros [= <- <-]. repeat split; [|lia]. exists []. cbn. by rewrite app_nil_r. }
  destruct (pullBatch now worker (xs n) p) as [r p1] eqn:Hb.
  destruct (pullBatch_spec _ _ _ _ _ _ Hb) as (E1 & E2 & E3 & (bs & E4 & Hbs) & E5).
  destruct r as [[]|err].
  - intros Hr. destruct rounds as [|rounds'].
    + injection Hr as <- <-. repeat split; try done. by exists bs.
    + destruct (IH _ _ Hr) as (F1 & F2 & F3 & (bs' & F4 & Hbs') & F5).
      split; [congruence|]. split; [congruence|]. split; [intros w Hw; by rewrite F3, E3|]. split.
      * exists (bs ++ bs'). rewrite F4, E4, fmap_app, concat_app, app_assoc, length_app. split; [done|lia].
      * intros He _. apply F5; [done|lia].
  - intros [= <- <-]. repeat split; try done. exists bs. split; [done|lia].
  - intros [= <- <-]. repeat split; try done. exists bs. split; [done|lia].
Qed.

(** One round over the workers: every configured worker is asked, in order, for
    at most eight batches; everything ingested comes from those batches, in their
    order and with a valid info hash; the workers of a round do not disturb each
    other, and after it a worker is either reached (online, no error, seen now)
    or has the failure recorded. Without a token nothing is asked. *)
Theorem pullAll_round (now : time) (xs : string -> nat -> exchange) (p : MasterPuller) :
  let p' := pullAll now xs p in
  workers p' = workers p /\ token p' = token p /\
  (token p = ""%string -> p' = p) /\
  (exists bs, ingested p' = ingested p ++ concat (taken <$> bs) /\ (length bs <= 8 * length (workers p))%nat) /\
  (forall w, w ∉ workers p -> status p' !! w = status p !! w) /\
  (token p <> ""%string -> forall w, w ∈ workers p ->
     reached now p' w \/ exists s, status p' !! w = Some s /\ st_LastError s = true /\ st_LastAttempt s = now).
Proof.
  intros p'. subst p'. unfold pullAll. destruct (String.eqb_spec (token p) "") as [Ht|Ht].
  { split; [done|]. split; [done|]. split; [done|]. split; [exists []; cbn; rewrite app_nil_r; split; [done|lia]|]. done. }
  set (step := fun p worker => match pullWithToken now worker (xs worker) p with
    | (Some _, p) => recordFailure now worker p | (None, p) => p end).
  assert (forall w p, let q := step p w in workers q = workers p /\ token q = token p /\
    (exists bs, ingested q = ingested p ++ concat (taken <$> bs) /\ (length bs <= 8)%nat) /\
    (forall w', w' <> w -> status q !! w' = status p !! w') /\
    (reached now q w \/ exists s, status q !! w = Some s /\ st_LastError s = true /\ st_LastAttempt s = now)) as Hstep.
  { intros w q0. cbv zeta. unfold step, pullWithToken.
    destruct (pull_rounds maxBatchesPerPull now w (xs w) 0 q0) as [e q1] eqn:Hp.
    apply pull_rounds_spec in Hp as (E1 & E2 & E3 & E4 & E5). destruct e as [e|].
    - split; [done|]. split; [done|]. split; [done|]. split.
      + intros w' Hw. cbn. rewrite lookup_insert_ne by done. by apply E3.
      + right. eexists. split; [apply lookup_insert_eq|done].
    - split; [done|]. split; [done|]. split; [done|]. split; [done|]. left. apply E5; [done|]. unfold maxBatchesPerPull. lia. }
  clearbody step. split; [|split; [|split; [done|]]].
  1, 2: generalize (workers p) at 1; intros l; generalize p; induction l as [|w l IH]; intros q; [done|];
    cbn; rewrite IH; apply Hstep.
  set (Pst := fun (q : MasterPuller) w => reached now q w \/ exists s, status q !! w = Some s /\ st_LastError s = true /\ st_LastAttempt s = now).
  assert (forall l q, (exists bs, ingested (foldl step q l) = ingested q ++ concat (taken <$> bs) /\ (length bs <= 8 * length l)%nat) /\
    (forall w, w ∉ l -> status (foldl step q l) !! w = status q !! w) /\
    (forall w, w ∈ l -> Pst (foldl step q l) w)) as Hall.
  { induction l as [|w l IH]; intros q; cbn [foldl].
    { split; [exists []; cbn; rewrite app_nil_r; split; [done|lia]|]. split; [done|]. intros w Hw. by apply not_elem_of_nil in Hw. }
    destruct (Hstep w q) as (_ & _ & (bs1 & E1 & L1) & E2 & E3). destruct (IH (step q w)) as ((bs2 & F1 & L2) & F2 & F3).
    split; [|split].
    - exists (bs1 ++ bs2). rewrite F1, E1, fmap_app, concat_app, app_assoc, length_app. split; [done|cbn; lia].
    - intros w' [Hw Hl]%not_elem_of_cons. by rewrite F2, E2.
    - intros w' Hw'. destruct (decide (w' ∈ l)) as [Hin|Hnot]; [by apply F3|].
      apply elem_of_cons in Hw' as [->|?]; [|done]. unfold Pst, reached in *. by rewrite F2. }
  destruct (Hall (workers p) p) as (H1 & H2 & H3). split; [done|]. split; [done|]. done.
Qed.

(** ** Witnesses *)

Definition demo_md (n : Z) : Metadata := mkMetadata (be_encode 20 n) 4 "name" 1 2 [].
Definition demo_queue : WorkerQueue :=
  (Enqueue (demo_md 2) (Enqueue (demo_md 1) (NewWorkerQueue "w" 2 "" true None)).2).2.

Theorem drainFlush_ends_witness :
  (exists q', drainFlush 2 accepting 0 (SetMaster "http://m/" "t" demo_queue) = Some q' /\ items q' = [] /\
     acked q' = [demo_md 1; demo_md 2]) /\
  drainFlush 1000 accepting 0 demo_queue = None.
Proof.
  assert (NoDup (ID <$> items demo_queue)) as Hnd by (repeat constructor; rewrite ?list_elem_of_singleton; (discriminate || apply not_elem_of_nil)).
  split.
  - refine (proj2 (drainFlush_ends (SetMaster "http://m/" "t" demo_queue) Hnd _) _ _ 2%nat 0%nat _);
      [discriminate|discriminate|discriminate|vm_compute; lia].
  - refine (proj1 (drainFlush_ends demo_queue Hnd _) _ _ _ _); [discriminate|by left].
Defined.

Definition demo_cluster0 : cluster := new_cluster "w" 2 "" true.
Definition demo_cluster1 : cluster :=
  mkCluster (Enqueue (demo_md 1) (worker demo_cluster0)).2 [] [] [] [mkEntry 1 (demo_md 1)].
Definition demo_cluster2 : cluster :=
  mkCluster (worker demo_cluster1) [Batch_ 16 (worker demo_cluster1)] [] [] [mkEntry 1 (demo_md 1)].
Definition demo_cluster3 : cluster :=
  mkCluster (worker demo_cluster1) [Batch_ 16 (worker demo_cluster1)] [[1]] [demo_md 1] [mkEntry 1 (demo_md 1)].
Definition demo_cluster4 : cluster :=
  mkCluster (Ack [1] (worker demo_cluster1)) [Batch_ 16 (worker demo_cluster1)] [[1]] [demo_md 1] [mkEntry 1 (demo_md 1)].

Lemma demo_cluster_star : star cl_step demo_cluster0 demo_cluster4.
Proof.
  apply (star_step _ _ demo_cluster1); [apply (cl_enqueue demo_cluster0 (demo_md 1)); done|].
  apply (star_step _ _ demo_cluster2); [apply (cl_batch demo_cluster1 16)|].
  apply (star_step _ _ demo_cluster3); [exact (cl_master demo_cluster2 0 (Batch_ 16 (worker demo_cluster1)) eq_refl)|].
  apply (star_step _ _ demo_cluster4); [exact (cl_ack demo_cluster3 0 [1] eq_refl)|]. apply star_refl.
Qed.


(** Ids start again from what the cache file holds: a worker that restarts before
    its queue was saved gives the next record the id of one the master already
    has, and the acknowledgement of the old one removes the new one unseen. *)
Example restart_reuses_ids :
  let before := (Enqueue (demo_md 1) (NewWorkerQueue "w" 2 "/cache" true None)).2 in
  let ids := ID <$> Items (Batch_ 16 before) in
  let after := (Enqueue (demo_md 2) (NewWorkerQueue "w" 2 "/cache" true (cacheFile before))).2 in
  items after = [mkEntry 1 (demo_md 2)] /\ items (Ack ids after) = [].
Proof. split; reflexivity. Qed.
