(* ===== verification/Cache.v ===== *)
(** * The info hash cache (cache/cache.go)

    The process-wide set of info hashes that are being downloaded or known, some
    of them with a time after which they may be looked for again. Each function
    is one critical section of [infoHashCacheMu]. The [range] loop that evicts
    one entry takes whichever key the map yields first: [victim] is that key. *)

From S2P Require Import Prelude.

Record Cache : Type := mkCache {
  infoHashCache : gset (list byte);
  infoHashExpiry : gmap (list byte) time
}.

Definition emptyCache : Cache := mkCache ∅ ∅.
Definition maxExpiringInfoHashes : Z := 100000.

Definition InfoHashCacheContains (infoHash : list byte) (c : Cache) : bool :=
  bool_decide (infoHash ∈ infoHashCache c).

(** [Add] of the set: whether the element is new. *)
Definition set_add (infoHash : list byte) (c : Cache) : bool * Cache :=
  (negb (InfoHashCacheContains infoHash c), mkCache ({[infoHash]} ∪ infoHashCache c) (infoHashExpiry c)).

Definition InfoHashCacheRemove (infoHash : list byte) (c : Cache) : Cache :=
  mkCache (infoHashCache c ∖ {[infoHash]}) (delete infoHash (infoHashExpiry c)).

Definition InfoHashCacheAdd (now : time) (infoHash : list byte) (c : Cache) : bool * Cache :=
  let c :=
    match infoHashExpiry c !! infoHash with
    | Some expiresAt => if negb (now <? expiresAt) then InfoHashCacheRemove infoHash c else c
    | None => c
    end in
  set_add infoHash c.

(** Removing the entries that have expired. *)
Definition remove_expired (now : time) (c : Cache) : Cache :=
  mkCache (infoHashCache c ∖ dom (filter (fun he => he.2 <= now) (infoHashExpiry c)))
    (filter (fun he => now < he.2) (infoHashExpiry c)).

Section Evict.
  (** The first key of a [range] loop over the map. *)
  Context (victim : gmap (list byte) time -> list byte).

Definition InfoHashCacheExpireAfter (now : time) (infoHash : list byte) (ttl : duration) (c : Cache) : Cache :=
  if negb (InfoHashCacheContains infoHash c) then c
  else
    let full (c : Cache) := maxExpiringInfoHashes <=? Z.of_nat (size (infoHashExpiry c)) in
    let c := if full c then remove_expired now c else c in
    let c := if full c then InfoHashCacheRemove (victim (infoHashExpiry c)) c else c in
    mkCache (infoHashCache c) (<[infoHash := now + ttl]> (infoHashExpiry c)).
End Evict.

(** [PopulateInfoHashCacheFromDatabase]; [all] is what the database returned,
    decoded from hex, [None] where it does not decode. *)
Definition PopulateInfoHashCacheFromDatabase (now : time) (all : option (list (option (list byte)))) (c : Cache) : Cache :=
  match all with
  | None => c
  | Some l => foldl (fun c ih => match ih with Some h => (InfoHashCacheAdd now h c).2 | None => c end) c l
  end.

(** ** Invariant *)

Record cache_inv (c : Cache) : Prop := {
  inv_expiry : dom (infoHashExpiry c) ⊆ infoHashCache c;
  inv_expiry_size : Z.of_nat (size (infoHashExpiry c)) <= maxExpiringInfoHashes
}.

Lemma remove_inv ih c : cache_inv c -> cache_inv (InfoHashCacheRemove ih c).
Proof.
  intros [H1 H2]. split; cbn.
  - rewrite dom_delete_L. set_solver.
  - etransitivity; [|exact H2]. apply inj_le, map_subseteq_size, delete_subseteq.
Qed.

Lemma add_inv now ih c : cache_inv c -> cache_inv (InfoHashCacheAdd now ih c).2.
Proof.
  intros Hi. unfold InfoHashCacheAdd, set_add. cbn [snd].
  match goal with |- context [infoHashCache ?x] => assert (cache_inv x) as [H1 H2] end.
  { repeat case_match; try done. by apply remove_inv. }
  split; cbn; [set_solver|done].
Qed.

Lemma remove_expired_inv now c : cache_inv c -> cache_inv (remove_expired now c).
Proof.
  intros [H1 H2]. split; cbn.
  - intros h Hh. apply elem_of_dom in Hh as [t Ht]. apply map_lookup_filter_Some in Ht as [Ht Hn].
    apply elem_of_difference. split; [apply H1, elem_of_dom; eauto|].
    intros Hd. apply elem_of_dom in Hd as [t' Ht']. apply map_lookup_filter_Some in Ht' as [Ht' Hn'].
    cbn in *. simplify_eq. lia.
  - etransitivity; [|exact H2]. apply inj_le, map_subseteq_size, map_filter_subseteq.
Qed.

(** Giving a time to live makes room first: only hashes that had one already leave. *)
Lemma expire_after_spec (victim : gmap (list byte) time -> list byte) (c : Cache) (h : list byte) (now : time) (ttl : duration) :
  cache_inv c -> (forall m, m <> ∅ -> victim m ∈ dom m) -> h ∈ infoHashCache c ->
  exists c3, InfoHashCacheExpireAfter victim now h ttl c = mkCache (infoHashCache c3) (<[h := now + ttl]> (infoHashExpiry c3)) /\
    cache_inv c3 /\ dom (infoHashExpiry c3) ⊆ dom (infoHashExpiry c) /\
    (forall x, x ∉ dom (infoHashExpiry c) -> (x ∈ infoHashCache c3 <-> x ∈ infoHashCache c)) /\
    Z.of_nat (size (infoHashExpiry c3)) < maxExpiringInfoHashes.
Proof.
  intros Hi Hvictim Hin. unfold InfoHashCacheExpireAfter, InfoHashCacheContains.
  rewrite bool_decide_true by done. cbn [negb].
  set (c2 := if _ <=? Z.of_nat (size (infoHashExpiry c)) then remove_expired now c else c).
  set (c3 := if _ <=? Z.of_nat (size (infoHashExpiry c2)) then InfoHashCacheRemove _ c2 else c2).
  assert (cache_inv c2) as Hi2 by (unfold c2; case_match; [by apply remove_expired_inv|done]).
  assert (cache_inv c3) as Hi3 by (unfold c3; case_match; [by apply remove_inv|done]).
  (* The hashes without an expiry time survive both evictions. *)
  assert (dom (infoHashExpiry c2) ⊆ dom (infoHashExpiry c)) as Hd2.
  { unfold c2. case_match; [|done]. cbn. apply subseteq_dom, map_filter_subseteq. }
  assert (dom (infoHashExpiry c3) ⊆ dom (infoHashExpiry c2)) as Hd3.
  { unfold c3. case_match; [|done]. cbn. rewrite dom_delete_L. set_solver. }
  assert (forall x, x ∉ dom (infoHashExpiry c) -> (x ∈ infoHashCache c2 <-> x ∈ infoHashCache c)) as Hs2.
  { intros x Hx. unfold c2. case_match; [|done]. cbn. rewrite elem_of_difference. split; [tauto|].
    intros ?. split; [done|]. intros Hf. apply Hx. eapply subseteq_dom; [|exact Hf]. apply map_filter_subseteq. }
  assert (forall x, x ∉ dom (infoHashExpiry c) -> (x ∈ infoHashCache c3 <-> x ∈ infoHashCache c)) as Hs3.
  { intros x Hx. rewrite <- (Hs2 x Hx). unfold c3. destruct (Z.leb_spec maxExpiringInfoHashes (Z.of_nat (size (infoHashExpiry c2)))); [|done].
    cbn. rewrite elem_of_difference, elem_of_singleton. split; [tauto|]. intros ?. split; [done|].
    intros ->. apply Hx, Hd2, Hvictim. intros E. rewrite E, map_size_empty in *. unfold maxExpiringInfoHashes in *. lia. }
  assert (Z.of_nat (size (infoHashExpiry c3)) < maxExpiringInfoHashes) as Hroom.
  { unfold c3. destruct (Z.leb_spec maxExpiringInfoHashes (Z.of_nat (size (infoHashExpiry c2)))) as [Hfull|]; [|done].
    cbn. assert (infoHashExpiry c2 <> ∅) as Hne
      by (intros E; rewrite E, map_size_empty in Hfull; unfold maxExpiringInfoHashes in *; lia).
    pose proof (inv_expiry_size _ Hi2) as Hsz. pose proof (Hvictim _ Hne) as [t Hv]%elem_of_dom.
    rewrite map_size_delete_Some by eauto. unfold maxExpiringInfoHashes in *. lia. }
  exists c3. split; [done|]. split; [done|]. split; [set_solver|done].
Qed.

(** Whatever is in the cache, a hash that was just added is there; it is new
    exactly when it was absent or its time has passed. A hash given a time to live
    is found again before that time and counts as new from that time on; removing
    a hash makes it new at once; and other hashes are not affected. *)
Theorem cache_ttl (victim : gmap (list byte) time -> list byte) (c : Cache) (h : list byte)
    (now later : time) (ttl : duration) :
  cache_inv c ->
  (forall m, m <> ∅ -> victim m ∈ dom m) ->
  h ∈ infoHashCache c -> h ∉ dom (infoHashExpiry c) ->
  let c1 := InfoHashCacheExpireAfter victim now h ttl c in
  cache_inv c1 /\
  (InfoHashCacheAdd later h c1).1 = (now + ttl <=? later) /\
  InfoHashCacheContains h (InfoHashCacheAdd later h c1).2 = true /\
  (InfoHashCacheAdd later h (InfoHashCacheRemove h c1)).1 = true /\
  (forall h', h' ∉ dom (infoHashExpiry c) -> h' <> h ->
     (InfoHashCacheAdd later h' c1).1 = negb (bool_decide (h' ∈ infoHashCache c))).
Proof.
  intros Hi Hvictim Hin Hnot c1. subst c1.
  destruct (expire_after_spec victim c h now ttl Hi Hvictim Hin) as (c3 & -> & Hi3 & Hd3 & Hs3 & Hroom).
  assert (h ∈ infoHashCache c3) as Hh3 by (by apply Hs3).
  repeat split; cbn.
  - rewrite dom_insert_L. pose proof (inv_expiry _ Hi3). set_solver.
  - destruct (infoHashExpiry c3 !! h) eqn:E.
    + exfalso. apply Hnot, Hd3, elem_of_dom. by rewrite E.
    + rewrite map_size_insert_None by done. lia.
  - unfold InfoHashCacheAdd, set_add, InfoHashCacheContains. cbn. rewrite lookup_insert_eq.
    destruct (Z.ltb_spec later (now + ttl)); cbn [negb].
    + rewrite bool_decide_true by done. symmetry. apply Z.leb_gt. lia.
    + rewrite bool_decide_false by (cbn; set_solver). symmetry. apply Z.leb_le. lia.
  - apply bool_decide_true. set_solver.
  - unfold InfoHashCacheAdd, set_add, InfoHashCacheContains. cbn. rewrite lookup_delete_eq.
    by rewrite bool_decide_false by (cbn; set_solver).
  - intros h' Hh' Hne. unfold InfoHashCacheAdd, set_add, InfoHashCacheContains. cbn.
    rewrite lookup_insert_ne by done.
    assert (infoHashExpiry c3 !! h' = None) as ->.
    { apply not_elem_of_dom. intros ?. by apply Hh', Hd3. }
    cbn. f_equal. by apply bool_decide_ext, Hs3.
Qed.

Theorem cache_ttl_witness :
  let h := replicate 20 x01 in
  let c := (InfoHashCacheAdd 5 h emptyCache).2 in
  let c1 := InfoHashCacheExpireAfter (fun m => (map_to_list m).*1 !!! 0%nat) 10 h 100 c in
  (InfoHashCacheAdd 109 h c1).1 = false /\ (InfoHashCacheAdd 110 h c1).1 = true.
Proof.
  assert (forall m : gmap (list byte) time, m <> ∅ -> (map_to_list m).*1 !!! 0%nat ∈ dom m) as Hv.
  { intros m Hm. destruct (map_to_list m) as [|[k t] l] eqn:E; [by apply map_to_list_empty_iff in E|].
    cbn. apply elem_of_dom. exists t. apply elem_of_map_to_list. rewrite E. left. }
  assert (cache_inv (InfoHashCacheAdd 5 (replicate 20 x01) emptyCache).2) as Hi
    by (apply add_inv; split; [done|vm_compute; discriminate]).
  assert (replicate 20 x01 ∈ infoHashCache (InfoHashCacheAdd 5 (replicate 20 x01) emptyCache).2) as Hin
    by (apply elem_of_union_l, elem_of_singleton; done).
  assert (replicate 20 x01 ∉ dom (infoHashExpiry (InfoHashCacheAdd 5 (replicate 20 x01) emptyCache).2)) as Hnot
    by (change (replicate 20 x01 ∉ dom (∅ : gmap (list byte) time)); rewrite dom_empty_L; apply not_elem_of_empty).
  split.
  - refine (proj1 (proj2 (cache_ttl _ _ (replicate 20 x01) 10 109 100 Hi Hv Hin Hnot))).
  - refine (proj1 (proj2 (cache_ttl _ _ (replicate 20 x01) 10 110 100 Hi Hv Hin Hnot))).
Defined.
