(* ===== verification/Repo.v ===== *)
(** * The repository (db/clover.go, db/types.go, db/db.go, Document2MetaData of db/helper.go)

    CloverRepository over an abstract CloverDB: the database library is the class
    [Clover], its documented behaviour the class [CloverLaws], over what the
    collections hold. Module Memory is a database in memory that has the laws; the
    witnesses run on it. The repository as the rest of the program sees it is the
    class Repository of Ingest.v. *)

From stdpp Require Import sorting pretty.
From S2P Require Import Prelude Text Sink Config Filters.
From Stdlib Require Import Ascii.
Open Scope Z_scope.

Record Stats : Type := mkStats {
  Timestamp : time; TorrentCount : Z; IPv4Count : Z; IPv6Count : Z; UnknownCount : Z
}.
Record WatchEntry : Type := mkWatch { we_Id : string; we_Key : string; we_MatchType : string; we_Content : string }.
Record BlacklistEntry : Type := mkBlacklist { be_Id : string; be_Filter : string; be_Type : string }.
Record SearchFilters : Type := mkFilters { MinSize : Z; MaxSize : Z; StartDate : Z; EndDate : Z }.
Record MetaData : Type := mkMetaData {
  mt_Name : string; mt_InfoHash : string; mt_DiscoveredOn : string; mt_TotalSize : Z;
  mt_Files : list value; mt_Categories : list string; mt_Family : Z
}.

Definition WatchTable : string := "watches"%string.
Definition BlacklistTable : string := "blacklist"%string.
Definition TorrentTable : string := "torrents"%string.
Definition StatsTable : string := "stats"%string.

Definition GetIntervalDuration (interval : string) : duration :=
  if decide (interval = "minute"%string) then minute
  else if decide (interval = "hour"%string) then hour
  else if decide (interval = "day"%string) then 24 * hour
  else hour.

(** ** CloverDB *)

(** A query: the collection, the predicate, the sort option (field, direction), the
    number of results to skip and the limit. *)
Record query (document : Type) : Type := mkQuery {
  q_collection : string;
  q_match : document -> bool;
  q_sort : option (string * Z);
  q_skip : Z;
  q_limit : option Z
}.
Arguments mkQuery {document}.
Arguments q_collection {document}.
Arguments q_match {document}.
Arguments q_sort {document}.
Arguments q_skip {document}.
Arguments q_limit {document}.

Definition NewQuery {document} (c : string) : query document := mkQuery c (fun _ => true) None 0 None.
Definition MatchFunc {document} (p : document -> bool) (q : query document) : query document :=
  mkQuery (q_collection q) (fun d => q_match q d && p d) (q_sort q) (q_skip q) (q_limit q).
Definition Sort {document} (f : string) (dir : Z) (q : query document) : query document :=
  mkQuery (q_collection q) (q_match q) (Some (f, dir)) (q_skip q) (q_limit q).
Definition Limit {document} (n : Z) (q : query document) : query document :=
  mkQuery (q_collection q) (q_match q) (q_sort q) (q_skip q) (Some n).
Definition Skip {document} (n : Z) (q : query document) : query document :=
  mkQuery (q_collection q) (q_match q) (q_sort q) n (q_limit q).

(** The operations of the library; [None] is an error, which changes nothing. *)
Class Clover (document store : Type) : Type := {
  FindAll : query document -> store -> option (list document);
  Count : query document -> store -> option Z;
  InsertOne : string -> list (string * value) -> store -> option store;
  DeleteById : string -> string -> store -> option store;
  Delete : query document -> store -> option store
}.

(** Order of the values of a sorted field, as far as the code relies on it. *)
Definition value_le (a b : value) : Prop := match a, b with VInt64 x, VInt64 y => x <= y | _, _ => True end.
Definition sorted_by `{Document document} (o : option (string * Z)) (l : list document) : Prop :=
  match o with
  | None => True
  | Some (f, dir) =>
      StronglySorted (fun x y => if 0 <=? dir then value_le (Get x f) (Get y f) else value_le (Get y f) (Get x f)) l
  end.
Definition window {document} (q : query document) (l : list document) : list document :=
  let l := drop (Z.to_nat (q_skip q)) l in
  match q_limit q with Some n => take (Z.to_nat n) l | None => l end.

(** What is read back for a value that was set: the library may widen an integer and
    makes a list of values of a list of strings. *)
Definition stored (v v' : value) : Prop :=
  match v with
  | VInt z => v' = VInt z \/ v' = VInt64 z
  | VStrings l => v' = VStrings l \/ v' = VList (VString <$> l)
  | _ => v' = v
  end.

(** [contents s c] is what the collection [c] holds. *)
Class CloverLaws (document store : Type) `{Document document, !Clover document store}
    (contents : store -> string -> list document) : Prop := {
  find_all : forall q s l, FindAll q s = Some l ->
    exists m, m ≡ₚ filter (fun d => q_match q d) (contents s (q_collection q)) /\ sorted_by (q_sort q) m /\ l = window q m;
  count_ok : forall q s n, Count q s = Some n ->
    n = Z.of_nat (length (filter (fun d => q_match q d) (contents s (q_collection q))));
  insert_ok : forall c fields s s', NoDup fields.*1 -> InsertOne c fields s = Some s' ->
    exists d, contents s' c ≡ₚ d :: contents s c /\ ObjectId d ∉ (ObjectId <$> contents s c) /\
      (forall k v, (k, v) ∈ fields -> stored v (Get d k) /\ Has d k = true) /\
      forall c', c' <> c -> contents s' c' = contents s c';
  delete_ok : forall c id s s', DeleteById c id s = Some s' ->
    contents s' c ≡ₚ filter (fun d => ObjectId d <> id) (contents s c) /\
    forall c', c' <> c -> contents s' c' = contents s c';
  ids_unique : forall s c, NoDup (ObjectId <$> contents s c)
}.

(** ** The repository *)

Section Repository.
  Context {document store : Type} `{Document document, !Clover document store}.
  Context (unicode_lower : string -> string) (order : gset string -> list string) (Han : Z -> bool).
  (** [regexp.Compile], a compiled expression being its [MatchString]. *)
  Context (Compile : string -> option (string -> bool)).
  (** [time.Time.Format(time.RFC822)] *)
  Context (FormatRFC822 : time -> string).

(** An ignored error leaves a nil slice and a zero count. *)
Definition FindAll_ (q : query document) (s : store) : list document := default [] (FindAll q s).
Definition Count_ (q : query document) (s : store) : Z := default 0 (Count q s).

Definition Document2MetaData (v : document) : MetaData :=
  let categories :=
    if Has v "Categories"%string then
      match Get v "Categories"%string with
      | VStrings l => l
      | VList l => omap (fun item => match item with VString s => Some s | _ => None end) l
      | VString s => Split ","%char s
      | _ => []
      end
    else if Has v "Category"%string then [as_string (Get v "Category"%string)]
    else [] in
  {| mt_Name := as_string (Get v "Name"%string);
     mt_InfoHash := as_string (Get v "InfoHash"%string);
     mt_DiscoveredOn := FormatRFC822 (Unix (as_int64 (Get v "DiscoveredOn"%string)));
     mt_TotalSize := as_uint64 (Get v "TotalSize"%string);
     mt_Files := match Get v "Files"%string with VList l => l | _ => [] end;
     mt_Categories := categories;
     mt_Family := numericInt (Get v "Family"%string) |}.
Definition Documents2MetaData (values : list document) : list MetaData := Document2MetaData <$> values.

Definition GetInfoHashCount (s : store) : Z := Z.of_nat (length (FindAll_ (NewQuery TorrentTable) s)).

(** One step of the loops that count families. *)
Definition count_family (c : Z * Z * Z) (family : Z) : Z * Z * Z :=
  let '(ipv4, ipv6, unknown) := c in
  if family =? 4 then (ipv4 + 1, ipv6, unknown)
  else if family =? 6 then (ipv4, ipv6 + 1, unknown)
  else (ipv4, ipv6, unknown + 1).
Definition GetFamilyCounts (s : store) : Z * Z * Z :=
  foldl (fun c doc => count_family c (numericInt (Get doc "Family"%string))) (0, 0, 0) (FindAll_ (NewQuery TorrentTable) s).

Definition FindBy_ (key searchType searchInput : string) (s : store) : list MetaData :=
  Documents2MetaData
    (FindAll_ (MatchFunc (fun doc => Matches unicode_lower doc key searchType searchInput) (NewQuery TorrentTable)) s).

Definition search_match (key searchType searchInput : string) (filters : SearchFilters) (doc : document) : bool :=
  if negb (Matches unicode_lower doc key searchType searchInput) then false
  else
    let totalSize := as_uint64 (Get doc "TotalSize"%string) in
    if (0 <? MinSize filters) && (totalSize <? MinSize filters) then false
    else if (0 <? MaxSize filters) && (MaxSize filters <? totalSize) then false
    else
      let discoveredOn := as_int64 (Get doc "DiscoveredOn"%string) in
      if (0 <? StartDate filters) && (discoveredOn <? StartDate filters) then false
      else if (0 <? EndDate filters) && (EndDate filters <? discoveredOn) then false
      else true.

Definition newest_first (limit offset : Z) (q : query document) : query document :=
  Skip offset (Limit limit (Sort "DiscoveredOn"%string (-1) q)).

Definition Search (key searchType searchInput : string) (limit offset : Z) (filters : SearchFilters) (s : store)
    : option (list MetaData * Z) :=
  let q := MatchFunc (search_match key searchType searchInput filters) (NewQuery TorrentTable) in
  let total := Count_ q s in
  values ← FindAll (newest_first limit offset q) s;
  Some (Documents2MetaData values, total).

Definition GetLatest (limit offset : Z) (s : store) : option (list MetaData * Z) :=
  let q := NewQuery TorrentTable in
  let total := Count_ q s in
  values ← FindAll (newest_first limit offset q) s;
  Some (Documents2MetaData values, total).

(** [draw i] is the i-th [rand.Intn(count)]. A negative [N] panics in [make], and an
    index past the end in the loop. *)
Definition GetNRandomEntries (N : Z) (draw : nat -> nat) (s : store) : go unit (list MetaData) :=
  let count := Count_ (NewQuery TorrentTable) s in
  let N := if count <? N then count else N in
  if N <? 0 then Panic
  else
    let all := FindAll_ (NewQuery TorrentTable) s in
    docs ← go_seq ((fun i => match all !! draw i with Some d => Ret d | None => Panic end) <$> seq 0 (Z.to_nat N));
    Ret (Documents2MetaData docs).

(** ** Inserting a torrent *)

(** [fileValues] is what the library makes of the file structures. *)
Definition file_value (f : File) : value := VMap [("Size"%string, VInt64 (Size f)); ("Path"%string, VString (Path f))].

(** [hex] is [hex.EncodeToString]. *)
Context (hex : list byte -> string).

Definition torrent_fields (md : Metadata) : list (string * value) :=
  [("Name"%string, VString (md_Name md)); ("InfoHash"%string, VString (hex (md_InfoHash md)));
   ("Files"%string, VList (file_value <$> md_Files md)); ("DiscoveredOn"%string, VInt64 (md_DiscoveredOn md));
   ("TotalSize"%string, VUint64 (md_TotalSize md)); ("Categories"%string, VStrings (Categorize unicode_lower order md));
   ("Family"%string, VInt (md_Family md))].

Definition blacklist_match (md : Metadata) (doc : document) : bool :=
  match Compile (as_string (Get doc "Filter"%string)) with
  | None => false
  | Some filter =>
      let t := as_string (Get doc "Type"%string) in
      if decide (t = "0"%string) then filter (md_Name md)
      else if decide (t = "1"%string) then IsFileBlacklisted filter md
      else false
  end.
Definition IsBlacklisted (md : Metadata) (s : store) : bool :=
  match FindAll_ (MatchFunc (blacklist_match md) (NewQuery BlacklistTable)) s with [] => false | _ => true end.

(** A failed deletion is logged and passed over. *)
Definition delete_all (docs : list document) (s : store) : store :=
  foldl (fun s doc => default s (DeleteById TorrentTable (ObjectId doc) s)) s docs.

Definition pruneOldTorrents (c : Configuration) (s : store) : store :=
  if MaxSavedTorrents c <=? 0 then s
  else
    match Count (NewQuery TorrentTable) s with
    | None => s
    | Some count =>
        if count <=? MaxSavedTorrents c then s
        else
          match FindAll (Limit (count - MaxSavedTorrents c) (Sort "DiscoveredOn"%string 1 (NewQuery TorrentTable))) s with
          | None => s
          | Some oldest => delete_all oldest s
          end
    end.

Definition InsertMetadata_ (c : Configuration) (md : Metadata) (s : store) : bool * store :=
  if OnlyChineseContent c && negb (ContainsChineseContent Han md) then (false, s)
  else if EnableBlacklist c && IsBlacklisted md s then (false, s)
  else
    match InsertOne TorrentTable (torrent_fields md) s with
    | None => (false, s)
    | Some s => (true, pruneOldTorrents c s)
    end.

(** ** Watches and the blacklist *)

Definition GetWatchEntries_ (s : store) : list WatchEntry :=
  (fun v => mkWatch (ObjectId v) (as_string (Get v "Key"%string)) (as_string (Get v "MatchType"%string)) (as_string (Get v "Content"%string)))
    <$> FindAll_ (NewQuery WatchTable) s.
Definition InsertWatchEntry (key searchType searchInput : string) (s : store) : bool * store :=
  match InsertOne WatchTable [("Key"%string, VString key); ("MatchType"%string, VString searchType); ("Content"%string, VString searchInput)] s with
  | None => (false, s)
  | Some s => (true, s)
  end.
Definition DeleteWatchEntry (id : string) (s : store) : option store := DeleteById WatchTable id s.

Definition GetBlacklistEntries (s : store) : list BlacklistEntry :=
  (fun v => mkBlacklist (ObjectId v) (as_string (Get v "Filter"%string)) (GetBlacklistTypeFromStrInt (as_string (Get v "Type"%string))))
    <$> FindAll_ (NewQuery BlacklistTable) s.

(** [Where(Field("Filter").Eq(filter).And(Field("Type").Eq(entryType)))] *)
Definition is_entry (filter entryType : string) (doc : document) : bool :=
  match Get doc "Filter"%string, Get doc "Type"%string with
  | VString f, VString t => bool_decide (f = filter) && bool_decide (t = entryType)
  | _, _ => false
  end.
Definition isInBlacklist (filter entryType : string) (s : store) : bool :=
  match FindAll_ (MatchFunc (is_entry filter entryType) (NewQuery BlacklistTable)) s with [] => false | _ => true end.

(** One turn of the loop. *)
Definition add_entry (entryType : string) '((rVal, s) : bool * store) (filter : string) : bool * store :=
  if negb (isInBlacklist filter entryType s) then
    match InsertOne BlacklistTable [("Type"%string, VString entryType); ("Filter"%string, VString filter)] s with
    | None => (false, s)
    | Some s => (true, s)
    end
  else (rVal, s).
Definition AddToBlacklist (filters : list string) (entryType : string) (s : store) : bool * store :=
  foldl (add_entry entryType) (false, s) filters.
Definition DeleteBlacklistItem (id : string) (s : store) : option store := DeleteById BlacklistTable id s.

Definition GetAllInfoHashes (s : store) : option (list string) :=
  match FindAll (NewQuery TorrentTable) s with
  | None => None
  | Some all => Some ((fun d => as_string (Get d "InfoHash"%string)) <$> all)
  end.

Definition ClearCapturedData (s : store) : option store :=
  s ← Delete (NewQuery TorrentTable) s; Delete (NewQuery StatsTable) s.

(** ** Statistics *)

Definition time_Unix (t : time) : Z := t / second - epoch.
(** [time.Time.Truncate] *)
Definition Truncate (t : time) (d : duration) : time := t - t mod d.

Definition zeroStats : Stats := mkStats 0 0 0 0 0.
Definition count_torrent (seconds : Z) (m : gmap Z Stats) (doc : document) : gmap Z Stats :=
  let discoveredOn := as_int64 (Get doc "DiscoveredOn"%string) in
  let bucket := Z.quot discoveredOn seconds * seconds in
  let st := default zeroStats (m !! bucket) in
  let '(ipv4, ipv6, unknown) := count_family (IPv4Count st, IPv6Count st, UnknownCount st) (numericInt (Get doc "Family"%string)) in
  <[bucket := mkStats (Timestamp st) (TorrentCount st + 1) ipv4 ipv6 unknown]> m.

(** [Where(Field("DiscoveredOn").GtEq(since))] *)
Definition since_match (since : Z) (doc : document) : bool :=
  match Get doc "DiscoveredOn"%string with VInt64 z => since <=? z | _ => false end.

Definition GetStatsByInterval (now : time) (interval : string) (limit : Z) (s : store) : go unit (list Stats) :=
  let d := GetIntervalDuration interval in
  let now := Truncate now d in
  let since := time_Unix (now + i64 (- limit * d)) in
  match FindAll (MatchFunc (since_match since) (NewQuery TorrentTable)) s with
  | None => Err tt
  | Some docs =>
      let seconds := d / second in
      let bucketMap := foldl (count_torrent seconds) ∅ docs in
      if limit <? 0 then Panic
      else Ret ((fun i =>
        let ts := now + i64 (- Z.of_nat i * d) in
        let st := default zeroStats (bucketMap !! time_Unix ts) in
        mkStats ts (TorrentCount st) (IPv4Count st) (IPv6Count st) (UnknownCount st)) <$> seq 0 (Z.to_nat limit))
  end.

Definition InsertStats (stats : Stats) (s : store) : option store :=
  InsertOne StatsTable [("Timestamp", VTime (Timestamp stats)); ("TorrentCount", VInt64 (TorrentCount stats))]%string s.

Definition GetCategoryDistribution (s : store) : option (gmap string Z) :=
  docs ← (FindAll (NewQuery TorrentTable) s : option (list document));
  let add cat m := <[cat := default 0 (m !! cat) + 1]> m in
  Some (foldl (fun dist doc =>
    let categories :=
      if Has doc "Categories"%string then
        match Get doc "Categories"%string with
        | VStrings l => l
        | VList l => omap (fun item => match item with VString s => Some s | _ => None end) l
        | _ => []
        end
      else if Has doc "Category"%string then [as_string (Get doc "Category"%string)] else [] in
    match categories with
    | [] => add "unknown"%string dist
    | _ => foldl (fun dist cat => add cat dist) dist categories
    end) (∅ : gmap string Z) docs).
End Repository.

(** ** What is stored is what is read *)

Section Typed.
  Context {document store : Type} `{Document document, !Clover document store}
    {contents : store -> string -> list document} `{!CloverLaws document store contents}.
  Context (unicode_lower : string -> string) (order : gset string -> list string) (Han : Z -> bool)
    (Compile : string -> option (string -> bool)) (FormatRFC822 : time -> string) (hex : list byte -> string).

(** The types of the fields of a torrent, in which every conversion of the code is
    exact. *)
Record well_typed (d : document) : Prop := {
  wt_Name : exists s, Get d "Name"%string = VString s;
  wt_InfoHash : exists s, Get d "InfoHash"%string = VString s;
  wt_DiscoveredOn : exists z, Get d "DiscoveredOn"%string = VInt64 z;
  wt_TotalSize : exists z, Get d "TotalSize"%string = VUint64 z;
  wt_Files : exists l, Get d "Files"%string = VList l;
  wt_Categories : Has d "Categories"%string = true /\
    exists l, Get d "Categories"%string = VStrings l \/ Get d "Categories"%string = VList (VString <$> l);
  wt_Family : exists z, Get d "Family"%string = VInt z \/ Get d "Family"%string = VInt64 z
}.

(** What a reader of the torrent gets. *)
Definition reads_as (d : document) (md : Metadata) : Prop :=
  well_typed d /\
  Document2MetaData FormatRFC822 d =
    mkMetaData (md_Name md) (hex (md_InfoHash md)) (FormatRFC822 (Unix (md_DiscoveredOn md))) (md_TotalSize md)
      (file_value <$> md_Files md) (Categorize unicode_lower order md) (md_Family md).

Lemma torrent_fields_nodup md : NoDup (torrent_fields unicode_lower order hex md).*1.
Proof. cbn [torrent_fields fmap list_fmap fst]. by apply (bool_decide_unpack _). Qed.

Lemma omap_strings (l : list string) : omap (fun item => match item with VString s => Some s | _ => None end) (VString <$> l) = l.
Proof. induction l as [|x l IH]; [done|]. cbn. by f_equal. Qed.

Lemma fields_read_back d md :
  (forall k v, (k, v) ∈ torrent_fields unicode_lower order hex md -> stored v (Get d k) /\ Has d k = true) -> reads_as d md.
Proof.
  intros Hf. unfold torrent_fields in Hf.
  pose proof (proj1 (Hf _ _ ltac:(do 0 right; left))) as H1. pose proof (proj1 (Hf _ _ ltac:(do 1 right; left))) as H2.
  pose proof (proj1 (Hf _ _ ltac:(do 2 right; left))) as H3. pose proof (proj1 (Hf _ _ ltac:(do 3 right; left))) as H4.
  pose proof (proj1 (Hf _ _ ltac:(do 4 right; left))) as H5. pose proof (Hf _ _ ltac:(do 5 right; left)) as [H6 H6'].
  pose proof (proj1 (Hf _ _ ltac:(do 6 right; left))) as H7. cbn [stored] in *. clear Hf. split.
  - constructor; eauto.
  - unfold Document2MetaData. rewrite H1, H2, H3, H4, H5, H6'. cbn [as_string as_int64 as_uint64]. f_equal.
    + destruct H6 as [-> | ->]; [done|]. apply omap_strings.
    + by destruct H7 as [-> | ->].
Qed.

Lemma delete_all_sub docs s d : d ∈ contents (delete_all docs s) TorrentTable -> d ∈ contents s TorrentTable.
Proof.
  unfold delete_all. revert s. induction docs as [|x docs IH]; intros s; [done|]. cbn [foldl].
  destruct (DeleteById TorrentTable (ObjectId x) s) as [s1|] eqn:E; cbn [default from_option]; unfold id; intros Hd%IH; [|done].
  destruct (delete_ok _ _ _ _ E) as [Hc _]. rewrite Hc in Hd. by apply list_elem_of_filter in Hd as [_ ?].
Qed.
Lemma prune_sub c s d : d ∈ contents (pruneOldTorrents c s) TorrentTable -> d ∈ contents s TorrentTable.
Proof. unfold pruneOldTorrents. repeat case_match; try done. apply delete_all_sub. Qed.

(** C25: A database of well-typed torrents stays one, whatever fails on the way: what
    inserting adds has the types that the readers expect and is read back as the
    metadata that came in, and nothing else is added or changed. *)
Theorem torrents_well_typed (c : Configuration) (md : Metadata) (s : store) :
  let '(_, s') := InsertMetadata_ unicode_lower order Han Compile hex c md s in
  (forall d, d ∈ contents s' TorrentTable -> d ∈ contents s TorrentTable \/ reads_as d md) /\
  (Forall well_typed (contents s TorrentTable) -> Forall well_typed (contents s' TorrentTable)).
Proof.
  assert (forall s', (forall d, d ∈ contents s' TorrentTable -> d ∈ contents s TorrentTable \/ reads_as d md) ->
    (forall d, d ∈ contents s' TorrentTable -> d ∈ contents s TorrentTable \/ reads_as d md) /\
    (Forall well_typed (contents s TorrentTable) -> Forall well_typed (contents s' TorrentTable))) as Hboth.
  { intros s' H'. split; [done|]. rewrite !Forall_forall. intros Hs d Hd. destruct (H' d Hd) as [|[? _]]; [by apply Hs|done]. }
  unfold InsertMetadata_. destruct (_ && _); [apply Hboth; by left|]. destruct (_ && _); [apply Hboth; by left|].
  destruct (InsertOne _ _ s) as [s1|] eqn:E; [|apply Hboth; by left]. apply Hboth. intros d Hd%prune_sub.
  destruct (insert_ok _ _ _ _ (torrent_fields_nodup _) E) as (d' & Hd' & _ & Hf & _). rewrite Hd' in Hd.
  apply elem_of_cons in Hd as [->|Hd]; [right|by left]. by apply fields_read_back.
Qed.
End Typed.

(** ** Inserting keeps the newest torrents *)

Definition discovered `{Document document} (d : document) : Z := as_int64 (Get d "DiscoveredOn"%string).
(** Every torrent has a time of discovery, of the type that is written. *)
Definition dated `{Document document} (l : list document) : Prop :=
  Forall (fun d => Get d "DiscoveredOn"%string = VInt64 (discovered d)) l.

Lemma dated_perm `{Document document} (l k : list document) : l ≡ₚ k -> dated l -> dated k.
Proof. intros Hp. unfold dated. by rewrite Hp. Qed.

Lemma filter_not_ids {A} (f : A -> string) (l k : list A) :
  NoDup (f <$> l ++ k) -> filter (fun x => f x ∉ (f <$> l)) (l ++ k) = k.
Proof.
  rewrite fmap_app. intros (_ & Hd & _)%NoDup_app. rewrite filter_app.
  assert (filter (fun x => f x ∉ (f <$> l)) l = []) as ->.
  { apply filter_none. intros x Hx Hn. apply Hn. by apply list_elem_of_fmap_2. }
  apply filter_all. intros x Hx Hin. apply (Hd (f x) Hin). by apply list_elem_of_fmap_2.
Qed.

Section Insert.
  Context {document store : Type} `{Document document, !Clover document store}
    {contents : store -> string -> list document} `{!CloverLaws document store contents}.
  Context (unicode_lower : string -> string) (order : gset string -> list string) (Han : Z -> bool)
    (Compile : string -> option (string -> bool)) (hex : list byte -> string).
  (** Nothing fails: the disk is there and not full. *)
  Context (deletes : forall id s, DeleteById TorrentTable id s <> None)
    (counts : forall q s, Count q s <> None) (finds : forall q s, FindAll q s <> None).

Lemma delete_all_contents docs s :
  contents (delete_all docs s) TorrentTable ≡ₚ
    filter (fun d => ObjectId d ∉ (ObjectId <$> docs)) (contents s TorrentTable) /\
  forall c, c <> TorrentTable -> contents (delete_all docs s) c = contents s c.
Proof.
  unfold delete_all. revert s. induction docs as [|x docs IH]; intros s; cbn [foldl].
  - split; [|done]. rewrite filter_all; [done|]. intros d _. by apply not_elem_of_nil.
  - destruct (DeleteById TorrentTable (ObjectId x) s) as [s1|] eqn:E; [|by apply deletes in E].
    cbn [default from_option]. unfold id. destruct (delete_ok _ _ _ _ E) as [Hd Ho]. destruct (IH s1) as [H1 H2]. split.
    + rewrite H1, Hd, list_filter_filter. apply Permutation_refl'.
      apply list_filter_iff. intros d. cbn [fmap list_fmap]. rewrite not_elem_of_cons. tauto.
    + intros c Hc. by rewrite H2, Ho.
Qed.

Lemma prune_contents (c : Configuration) s :
  0 < MaxSavedTorrents c -> dated (contents s TorrentTable) ->
  let s' := pruneOldTorrents c s in
  exists removed, contents s TorrentTable ≡ₚ removed ++ contents s' TorrentTable /\
    (forall x y, x ∈ removed -> y ∈ contents s' TorrentTable -> discovered x <= discovered y) /\
    Z.of_nat (length (contents s' TorrentTable)) = Z.min (MaxSavedTorrents c) (Z.of_nat (length (contents s TorrentTable))) /\
    forall t, t <> TorrentTable -> contents s' t = contents s t.
Proof.
  intros Hmax Hdated. unfold pruneOldTorrents. rewrite (proj2 (Z.leb_gt _ _) Hmax).
  destruct (Count (NewQuery TorrentTable) s) as [count|] eqn:Ec; [|by apply counts in Ec].
  apply count_ok in Ec. cbn [q_match q_collection NewQuery] in Ec.
  rewrite filter_all in Ec by done.
  destruct (Z.leb_spec count (MaxSavedTorrents c)) as [Hle|Hgt].
  { cbv zeta. exists []. split; [done|]. split; [by intros ? ? ?%not_elem_of_nil|]. split; [lia|done]. }
  match goal with |- context [FindAll ?q s] => destruct (FindAll q s) as [l|] eqn:Ef; [|by apply finds in Ef] end.
  destruct (find_all _ _ _ Ef) as (m & Hm & Hsorted & ->). cbn [q_match q_collection Limit Sort NewQuery q_sort] in Hm, Hsorted.
  rewrite filter_all in Hm by done.
  unfold window. cbn [q_skip q_limit Limit Sort NewQuery]. change (Z.to_nat 0) with 0%nat. rewrite drop_0.
  set (n := Z.to_nat (count - MaxSavedTorrents c)). destruct (delete_all_contents (take n m) s) as [Hd Ho].
  cbv zeta. set (s' := delete_all (take n m) s) in *.
  assert (contents s' TorrentTable ≡ₚ drop n m) as Hs'.
  { pose proof (filter_not_ids ObjectId (take n m) (drop n m)) as E. rewrite take_drop in E.
    rewrite Hd, <- Hm, E; [done|]. rewrite Hm. apply ids_unique. }
  exists (take n m). split; [by rewrite Hs', take_drop, Hm|]. split; [|split; [|done]].
  - intros x y Hx Hy. rewrite Hs' in Hy. cbn [sorted_by] in Hsorted. change (0 <=? 1) with true in Hsorted.
    rewrite <- (take_drop n m) in Hsorted. apply StronglySorted_app in Hsorted as (Hs & _ & _).
    specialize (Hs x y Hx Hy). cbn beta in Hs.
    assert (forall d, d ∈ m -> Get d "DiscoveredOn"%string = VInt64 (discovered d)) as Hdm.
    { intros d Hdm. rewrite Hm in Hdm. unfold dated in Hdated. rewrite Forall_forall in Hdated. by apply Hdated. }
    rewrite (Hdm x), (Hdm y) in Hs; [done| |].
    + rewrite <- (take_drop n m). apply elem_of_app. by right.
    + rewrite <- (take_drop n m). apply elem_of_app. by left.
  - rewrite Hs', length_drop, Hm. lia.
Qed.

(** A torrent that the database takes. *)
Lemma insert_keeps (c : Configuration) (md : Metadata) (s s1 : store) :
  0 < MaxSavedTorrents c -> dated (contents s TorrentTable) ->
  InsertOne TorrentTable (torrent_fields unicode_lower order hex md) s = Some s1 ->
  let s' := pruneOldTorrents c s1 in
  exists d removed,
     discovered d = md_DiscoveredOn md /\
     d :: contents s TorrentTable ≡ₚ removed ++ contents s' TorrentTable /\
     (forall x y, x ∈ removed -> y ∈ contents s' TorrentTable -> discovered x <= discovered y) /\
     Z.of_nat (length (contents s' TorrentTable)) =
       Z.min (MaxSavedTorrents c) (Z.of_nat (length (contents s TorrentTable)) + 1) /\
     dated (contents s' TorrentTable) /\
     forall t, t <> TorrentTable -> contents s' t = contents s t.
Proof.
  intros Hmax Hdated E. cbv zeta. destruct (insert_ok _ _ _ _ (torrent_fields_nodup _ _ _ _) E) as (d & Hd & _ & Hf & Ho).
  assert (Get d "DiscoveredOn"%string = VInt64 (md_DiscoveredOn md)) as Hdisc.
  { apply (Hf "DiscoveredOn"%string (VInt64 (md_DiscoveredOn md))). right. right. right. left. }
  assert (discovered d = md_DiscoveredOn md) as Hdd by (unfold discovered; by rewrite Hdisc).
  assert (dated (contents s1 TorrentTable)) as Hd1.
  { apply (dated_perm (d :: contents s TorrentTable)); [done|]. constructor; [congruence|done]. }
  destruct (prune_contents c s1 Hmax Hd1) as (removed & H1 & H2 & H3 & H4).
  exists d, removed. split; [done|]. split; [by rewrite <- Hd|]. split; [done|]. split.
  - rewrite H3, Hd. cbn [length]. lia.
  - split; [|intros t Ht; by rewrite H4, Ho].
    apply (dated_perm _ _ H1) in Hd1. by apply Forall_app in Hd1 as [_ ?].
Qed.

(** C4: A torrent is refused exactly when it is filtered out, blacklisted or the
    database fails, and then nothing changes. Otherwise it is stored with its time
    of discovery and the database then holds the newest torrents: as many as are
    configured at most, none older than one that was removed; and no other
    collection is touched. *)
Theorem InsertMetadata_keeps_newest (c : Configuration) (md : Metadata) (s : store) :
  0 < MaxSavedTorrents c -> dated (contents s TorrentTable) ->
  let '(accepted, s') := InsertMetadata_ unicode_lower order Han Compile hex c md s in
  let refused := OnlyChineseContent c && negb (ContainsChineseContent Han md) ||
                 EnableBlacklist c && IsBlacklisted Compile md s in
  (accepted = true <-> refused = false /\ InsertOne TorrentTable (torrent_fields unicode_lower order hex md) s <> None) /\
  (accepted = false -> s' = s) /\
  (accepted = true -> exists d removed,
     discovered d = md_DiscoveredOn md /\
     d :: contents s TorrentTable ≡ₚ removed ++ contents s' TorrentTable /\
     (forall x y, x ∈ removed -> y ∈ contents s' TorrentTable -> discovered x <= discovered y) /\
     Z.of_nat (length (contents s' TorrentTable)) =
       Z.min (MaxSavedTorrents c) (Z.of_nat (length (contents s TorrentTable)) + 1) /\
     dated (contents s' TorrentTable) /\
     forall t, t <> TorrentTable -> contents s' t = contents s t).
Proof.
  intros Hmax Hdated. unfold InsertMetadata_.
  destruct (OnlyChineseContent c && _); [split; [split; [done|by intros [? _]]|done]|].
  destruct (EnableBlacklist c && _); [split; [split; [done|by intros [? _]]|done]|].
  destruct (InsertOne _ _ s) as [s1|] eqn:E; [|split; [split; [done|by intros [_ ?]]|done]].
  split; [done|]. split; [done|]. intros _. by apply insert_keeps.
Qed.
End Insert.

(** ** Statistics *)

Definition stat (m : gmap Z Stats) (b : Z) : Stats := default zeroStats (m !! b).
Definition families_total (st : Stats) : Z := IPv4Count st + IPv6Count st + UnknownCount st.

Lemma count_family_total c f : let '(a, b, u) := count_family c f in a + b + u = c.1.1 + c.1.2 + c.2 + 1.
Proof. destruct c as [[a b] u]. unfold count_family. destruct (f =? 4); [|destruct (f =? 6)]; cbn [fst snd]; lia. Qed.

Section Buckets.
  Context `{Document document}.

Lemma stat_count_torrent seconds m (doc : document) b :
  let hit := bool_decide (Z.quot (discovered doc) seconds * seconds = b) in
  TorrentCount (stat (count_torrent seconds m doc) b) = TorrentCount (stat m b) + Z.b2z hit /\
  families_total (stat (count_torrent seconds m doc) b) = families_total (stat m b) + Z.b2z hit.
Proof.
  unfold count_torrent, stat. fold (discovered doc). set (bucket := Z.quot _ _ * _).
  pose proof (count_family_total (IPv4Count (default zeroStats (m !! bucket)), IPv6Count (default zeroStats (m !! bucket)),
    UnknownCount (default zeroStats (m !! bucket))) (numericInt (Get doc "Family"%string))) as Hf.
  destruct (count_family _ _) as [[v4 v6] u]. cbn [fst snd] in Hf. cbv zeta.
  destruct (decide (bucket = b)) as [<-|Hne].
  - rewrite bool_decide_true, lookup_insert_eq by done. cbn [default from_option]. unfold id, families_total in *.
    cbn [TorrentCount IPv4Count IPv6Count UnknownCount Z.b2z]. lia.
  - rewrite bool_decide_false, lookup_insert_ne by done. cbn [Z.b2z]. lia.
Qed.

Lemma stat_fold seconds (docs : list document) m b :
  let hits := Z.of_nat (length (filter (fun d => Z.quot (discovered d) seconds * seconds = b) docs)) in
  TorrentCount (stat (foldl (count_torrent seconds) m docs) b) = TorrentCount (stat m b) + hits /\
  families_total (stat (foldl (count_torrent seconds) m docs) b) = families_total (stat m b) + hits.
Proof.
  revert m. induction docs as [|x docs IH]; intros m; [cbn; lia|]. cbn [foldl].
  destruct (IH (count_torrent seconds m x)) as [H1 H2]. destruct (stat_count_torrent seconds m x b) as [H3 H4].
  cbv zeta in *. rewrite filter_cons. destruct (decide (Z.quot (discovered x) seconds * seconds = b)).
  - rewrite bool_decide_true in H3, H4 by done. cbn [length]. rewrite H1, H2, H3, H4, Nat2Z.inj_succ. cbn [Z.b2z]. lia.
  - rewrite bool_decide_false in H3, H4 by done. rewrite H1, H2, H3, H4. cbn [Z.b2z]. lia.
Qed.

(** The same by family: 4, 6 and 0 for any other. *)
Definition family_class (f : Z) : Z := if f =? 4 then 4 else if f =? 6 then 6 else 0.
Definition class_count (k : Z) (st : Stats) : Z :=
  if k =? 4 then IPv4Count st else if k =? 6 then IPv6Count st else UnknownCount st.

Lemma class_count_torrent seconds m (doc : document) b k : k ∈ [4; 6; 0] ->
  class_count k (stat (count_torrent seconds m doc) b) = class_count k (stat m b) +
    Z.b2z (bool_decide (Z.quot (discovered doc) seconds * seconds = b /\ family_class (numericInt (Get doc "Family"%string)) = k)).
Proof.
  intros Hk. unfold count_torrent, stat, count_family, family_class. fold (discovered doc). set (bucket := Z.quot _ _ * _).
  set (f := numericInt _). destruct (decide (bucket = b)) as [<-|Hne].
  - rewrite (bool_decide_ext _ _ (conj (fun E => proj2 E) (fun E => conj eq_refl E))).
    repeat (apply elem_of_cons in Hk as [->|Hk]; [|]); [| | |by apply not_elem_of_nil in Hk];
      destruct (Z.eqb_spec f 4), (Z.eqb_spec f 6); cbv zeta iota beta; rewrite lookup_insert_eq;
      cbn [default from_option]; unfold id, class_count; cbn; case_bool_decide; cbn; lia.
  - rewrite bool_decide_false by tauto. destruct (f =? 4), (f =? 6); rewrite lookup_insert_ne by done; cbn [Z.b2z]; lia.
Qed.

Lemma class_fold seconds (docs : list document) m b k : k ∈ [4; 6; 0] ->
  class_count k (stat (foldl (count_torrent seconds) m docs) b) = class_count k (stat m b) +
    Z.of_nat (length (filter (fun d => Z.quot (discovered d) seconds * seconds = b /\
                                       family_class (numericInt (Get d "Family"%string)) = k) docs)).
Proof.
  intros Hk. revert m. induction docs as [|x docs IH]; intros m; [cbn; lia|]. cbn [foldl]. rewrite IH, class_count_torrent by done.
  rewrite filter_cons. case_decide as E; [rewrite bool_decide_true by done|rewrite bool_decide_false by done]; cbn [Z.b2z length]; lia.
Qed.
End Buckets.

Lemma interval_seconds interval :
  exists n, GetIntervalDuration interval = n * second /\ 0 < n <= 86400 /\ (n | epoch).
Proof.
  unfold GetIntervalDuration. repeat case_decide; [exists 60|exists 3600|exists 86400|exists 3600];
    (split; [reflexivity|split; [lia|]]).
  - by exists 1035593280.
  - by exists 17259888.
  - by exists 719162.
  - by exists 17259888.
Qed.

(** The bucket that starts at [t] holds the next [n] seconds. *)
Lemma bucket_iff n z t : 0 < n -> 0 <= z -> (n | t) -> Z.quot z n * n = t <-> t <= z < t + n.
Proof.
  intros Hn Hz [k ->]. rewrite Z.quot_div_nonneg by lia. pose proof (Z.div_mod z n). pose proof (Z.mod_pos_bound z n Hn).
  split.
  - intros E. apply Z.mul_reg_r in E; [|lia]. subst k. lia.
  - intros E. f_equal. symmetry. apply (Z.div_unique z n k (z - n * k)); lia.
Qed.

Section StatsSpec.
  Context {document store : Type} `{Document document, !Clover document store}
    {contents : store -> string -> list document} `{!CloverLaws document store contents}.

(** What a query without a window finds. *)
Lemma found_since (P : document -> Prop) `{forall x, Decision (P x)} p c (s : store) docs :
  FindAll (MatchFunc p (NewQuery c)) s = Some docs ->
  length (filter P docs) = length (filter (fun x => P x /\ p x) (contents s c)).
Proof.
  intros (m & Hm & _ & ->)%find_all. unfold window. cbn [q_skip q_limit MatchFunc NewQuery q_match q_collection] in *.
  change (Z.to_nat 0) with 0%nat. rewrite drop_0, Hm, list_filter_filter. apply filter_length_iff. intros x _. cbn [andb]. tauto.
Qed.

(** The statistics have [limit] entries, the newest first, one interval apart; each
    starts on the interval's boundary, counts exactly the stored torrents
    discovered in its interval, and its three address families add up to the
    count. No conversion overflows for up to 100000 intervals. *)
Theorem stats_buckets (now : time) (interval : string) (limit : Z) (s : store) (res : list Stats) :
  let d := GetIntervalDuration interval in
  0 <= limit <= 100000 -> Unix 0 <= now - (limit + 1) * d -> dated (contents s TorrentTable) ->
  GetStatsByInterval now interval limit s = Ret res ->
  Z.of_nat (length res) = limit /\
  forall i b, res !! i = Some b ->
    Timestamp b = Truncate now d - Z.of_nat i * d /\ (d | Timestamp b) /\
    TorrentCount b = Z.of_nat (length (filter (fun t => Timestamp b <= Unix (discovered t) < Timestamp b + d)
                                              (contents s TorrentTable))) /\
    families_total b = TorrentCount b.
Proof.
  cbv zeta. intros Hl Hnow Hdated. unfold GetStatsByInterval.
  destruct (interval_seconds interval) as (n & Hd & Hn & Hepoch). set (d := GetIntervalDuration interval) in *.
  destruct (FindAll _ s) as [docs|] eqn:Ef; [|done]. rewrite (proj2 (Z.ltb_ge _ _)) by lia. intros [= <-].
  rewrite length_fmap, length_seq. split; [lia|]. intros i b Hb.
  apply list_lookup_fmap_Some in Hb as (j & -> & Hj). apply lookup_seq in Hj as [-> Hj]. cbn [Timestamp TorrentCount].
  assert (second = 1000000000) as Hs by done.
  assert (i64 (- limit * d) = - limit * d) as E1 by (apply i64_small; nia).
  assert (i64 (- Z.of_nat (0 + i) * d) = - Z.of_nat i * d) as E2 by (apply i64_small; nia).
  rewrite E1 in Ef. rewrite E2. fold (stat (foldl (count_torrent (d / second)) ∅ docs) (time_Unix (Truncate now d + - Z.of_nat i * d))).
  destruct (stat_fold (d / second) docs ∅ (time_Unix (Truncate now d + - Z.of_nat i * d))) as [H1 H2].
  cbv zeta in H1, H2. set (st := stat (foldl _ _ _) _) in *. set (ts := Truncate now d + - Z.of_nat i * d) in *.
  assert ((d | ts)) as [k Hk].
  { unfold ts, Truncate. exists (now / d - Z.of_nat i). rewrite Z.mod_eq by nia. lia. }
  assert (Truncate now d <= now < Truncate now d + d) as Hnowd.
  { unfold Truncate. pose proof (Z.mod_pos_bound now d ltac:(nia)). lia. }
  split; [lia|]. split; [by exists k|]. unfold families_total in *. cbn [IPv4Count IPv6Count UnknownCount].
  cbn [default from_option stat lookup] in H1, H2. rewrite H2, H1.
  change (TorrentCount (stat ∅ _)) with 0. change (IPv4Count (stat ∅ _)) with 0.
  split; [|done]. rewrite Z.add_0_l. f_equal.
  erewrite found_since by exact Ef. apply filter_length_iff. intros t Ht.
  unfold dated in Hdated. rewrite Forall_forall in Hdated. specialize (Hdated t Ht). cbn beta in Hdated.
  unfold since_match. rewrite Hdated. unfold time_Unix, Unix, epoch, second in *. set (N := now / d) in *.
  assert (Truncate now d = N * d) as Et by (unfold Truncate; rewrite Z.mod_eq by lia; lia).
  assert (d / 1000000000 = n) as -> by (rewrite Hd; apply Z.div_mul; lia).
  assert (ts / 1000000000 = (N - Z.of_nat i) * n) as ->.
  { symmetry. apply Z.div_unique_exact; [lia|]. unfold ts. rewrite Et. nia. }
  assert ((Truncate now d + - limit * d) / 1000000000 = (N - limit) * n) as ->.
  { symmetry. apply Z.div_unique_exact; [lia|]. rewrite Et. nia. }
  assert (62135596800 <= (N - limit) * n) by nia.
  assert ((N - limit) * n <= (N - Z.of_nat i) * n) by nia.
  assert (ts = ((N - Z.of_nat i) * n) * 1000000000) as -> by (unfold ts; rewrite Et; nia).
  rewrite Hd. split.
  - intros [Hq Hge%Is_true_true%Z.leb_le]. apply bucket_iff in Hq; [lia|lia|lia|].
    apply Z.divide_sub_r; [by apply Z.divide_factor_r|done].
  - intros Hr. split; [|apply Is_true_true, Z.leb_le; lia].
    apply bucket_iff; [lia|lia| |lia]. apply Z.divide_sub_r; [by apply Z.divide_factor_r|done].
Qed.
End StatsSpec.

(** ** A database in memory

    The laws can hold: a store is a finite map of collections, a collection one from
    identifiers to fields. *)

Module Memory.
Notation fields := (list (string * value)).
Definition row : Type := positive * fields.
Notation mem := (gmap string (gmap positive fields)).

Fixpoint assoc (k : string) (l : fields) : option value :=
  match l with
  | [] => None
  | (k', v) :: l => if decide (k = k') then Some v else assoc k l
  end.
#[export] Instance row_document : Document row := {
  Has d k := match assoc k d.2 with Some _ => true | None => false end;
  Get d k := default VNil (assoc k d.2);
  ObjectId d := pretty (d.1)
}.

Definition table (s : mem) (c : string) : gmap positive fields := default ∅ (s !! c).
Definition contents (s : mem) (c : string) : list row := map_to_list (table s c).

(** The order of a field's values: integers first. *)
Definition rank (v : value) : option Z := match v with VInt64 z => Some z | _ => None end.
Definition rank_le (a b : option Z) : bool :=
  match a, b with Some x, Some y => x <=? y | None, Some _ => false | _, None => true end.
Definition row_le (f : string) (dir : Z) (x y : row) : Prop :=
  if 0 <=? dir then rank_le (rank (Get x f)) (rank (Get y f)) else rank_le (rank (Get y f)) (rank (Get x f)).
#[export] Instance row_le_dec f dir x y : Decision (row_le f dir x y).
Proof. unfold row_le. case_match; apply _. Defined.

Definition sort_rows (o : option (string * Z)) (l : list row) : list row :=
  match o with None => l | Some (f, dir) => merge_sort (row_le f dir) l end.

#[export] Instance mem_clover : Clover row mem := {
  FindAll q s := Some (window q (sort_rows (q_sort q) (filter (fun d => q_match q d) (contents s (q_collection q)))));
  Count q s := Some (Z.of_nat (length (filter (fun d => q_match q d) (contents s (q_collection q)))));
  InsertOne c fs s := Some (<[c := <[fresh (dom (table s c)) := fs]> (table s c)]> s);
  DeleteById c id s := Some (<[c := filter (fun d : row => ObjectId d <> id) (table s c)]> s);
  Delete q s := Some (<[q_collection q := filter (fun d : row => ~ q_match q d) (table s (q_collection q))]> s)
}.

Lemma rank_le_total a b : rank_le a b \/ rank_le b a.
Proof. destruct a, b; cbn; auto. destruct (Z.leb_spec z z0); [by left|right]. apply Is_true_true, Z.leb_le. lia. Qed.
Lemma rank_le_trans a b c : rank_le a b -> rank_le b c -> rank_le a c.
Proof. destruct a, b, c; cbn; try done. rewrite !Is_true_true, !Z.leb_le. lia. Qed.
#[export] Instance row_le_total f dir : Total (row_le f dir).
Proof. intros x y. unfold row_le. case_match; apply rank_le_total. Qed.
#[export] Instance row_le_trans f dir : Transitive (row_le f dir).
Proof. intros x y z. unfold row_le. case_match; intros ? ?; by eapply rank_le_trans. Qed.

Lemma strongly_sorted_mono {A} (R R' : relation A) l : (forall x y, R x y -> R' x y) -> StronglySorted R l -> StronglySorted R' l.
Proof.
  intros HR. induction 1 as [|x l Hl IH Hx]; constructor; [done|].
  rewrite Forall_forall in *. intros y Hy. by apply HR, Hx.
Qed.

Lemma rank_value a b : rank_le (rank a) (rank b) -> value_le a b.
Proof. destruct a, b; cbn; try done. by rewrite Is_true_true, Z.leb_le. Qed.

Lemma contents_insert s c t c' : contents (<[c := t]> s) c' = if decide (c = c') then map_to_list t else contents s c'.
Proof. unfold contents, table. destruct (decide (c = c')) as [->|]; [by rewrite lookup_insert_eq|by rewrite lookup_insert_ne]. Qed.

#[export] Instance mem_laws : CloverLaws row mem contents.
Proof.
  split.
  - intros q s l [= <-]. eexists. split; [|split; [|done]].
    + unfold sort_rows. destruct (q_sort q) as [[f dir]|]; [apply merge_sort_Permutation|done].
    + unfold sort_rows, sorted_by. destruct (q_sort q) as [[f dir]|]; [|done].
      eapply strongly_sorted_mono; [|apply StronglySorted_merge_sort; apply _].
      intros x y. unfold row_le. case_match; apply rank_value.
  - by intros q s n [= <-].
  - intros c fs s s' Hnd [= <-]. set (i := fresh (dom (table s c))).
    assert (table s c !! i = None) as Hi by (apply not_elem_of_dom, is_fresh).
    exists (i, fs). rewrite contents_insert, decide_True by done. split; [by apply map_to_list_insert|]. split.
    { intros ([j v] & Hj & Hin)%list_elem_of_fmap. cbn in Hj. apply (inj pretty) in Hj. subst j.
      apply elem_of_map_to_list in Hin. unfold contents in Hin. congruence. }
    split; [|intros c' Hc; rewrite contents_insert, decide_False; done].
    intros k v Hkv. assert (assoc k fs = Some v) as Hk.
    { clear -Hnd Hkv. induction fs as [|[k' v'] fs IH]; [by apply not_elem_of_nil in Hkv|].
      cbn [fmap list_fmap fst] in Hnd. apply NoDup_cons in Hnd as [Hnin Hnd]. cbn [assoc]. apply elem_of_cons in Hkv as [[= -> ->]|Hin].
      - by rewrite decide_True.
      - rewrite decide_False; [by apply IH|]. intros ->. apply Hnin. apply list_elem_of_fmap. by exists (k', v). }
    cbn [Get Has row_document snd]. rewrite Hk. cbn [default from_option]. unfold id. split; [|done]. destruct v; cbn; auto.
  - intros c id s s' [= <-]. rewrite contents_insert, decide_True by done.
    split; [apply map_to_list_filter|]. intros c' Hc. by rewrite contents_insert, decide_False.
  - intros s c. unfold contents. cbn [ObjectId row_document]. pose proof (NoDup_fst_map_to_list (table s c)) as Hnd.
    change (NoDup ((pretty ∘ fst : row -> string) <$> map_to_list (table s c))).
    rewrite list_fmap_compose. by apply (NoDup_fmap_2 pretty).
Qed.
End Memory.

(** ** Witnesses *)

Module Demo.
Import Memory.

Definition torrent (t fam : Z) : fields := [("DiscoveredOn", VInt64 t); ("Family", VInt fam)]%string.
(** Three torrents, two of them in the last hour. *)
Definition torrents : mem :=
  {[TorrentTable := {[1%positive := torrent 14420 4; 2%positive := torrent 100 6; 3%positive := torrent 14450 7]}]}.
Definition configuration (max : Z) : Configuration :=
  ConfigDemo.defaults <| MaxSavedTorrents := max |> <| EnableBlacklist := true |>.
Definition md : Metadata := mkMetadata [] 4 "new" 6 15000 [mkFile 6 "new.mkv"].
Definition insert (max : Z) : bool * mem :=
  InsertMetadata_ id elements (fun _ => false) (fun _ => None) (fun _ => "00"%string) (configuration max) md torrents.
Definition datedb (l : list row) : bool := forallb (fun d => match Get d "DiscoveredOn" with VInt64 _ => true | _ => false end) l.
Lemma datedb_dated l : datedb l = true -> dated l.
Proof.
  unfold datedb, dated. rewrite forallb_forall, Forall_forall. intros Hl d Hd. apply list_elem_of_In, Hl in Hd.
  unfold discovered. by destruct (Get d "DiscoveredOn").
Qed.

Lemma deletes i s : DeleteById TorrentTable i s <> None.
Proof. cbv [DeleteById mem_clover]. congruence. Qed.
Lemma counts q s : Count q s <> None.
Proof. cbv [Count mem_clover]. congruence. Qed.
Lemma finds q s : FindAll q s <> None.
Proof. cbv [FindAll mem_clover]. congruence. Qed.

Theorem InsertMetadata_keeps_newest_witness :
  (insert 2).1 = true /\ length (contents (insert 2).2 TorrentTable) = 2%nat.
Proof.
  pose proof (InsertMetadata_keeps_newest (contents := contents) id elements (fun _ => false) (fun _ => None) (fun _ => "00"%string)
    deletes counts finds (configuration 2) md torrents ltac:(reflexivity)
    (datedb_dated (contents torrents TorrentTable) ltac:(vm_compute; reflexivity))) as Hi.
  fold (insert 2) in Hi. destruct (insert 2) as [a s']. destruct Hi as ([_ Ha] & _ & Hs). cbn [fst snd].
  assert (a = true) as -> by (apply Ha; split; [vm_compute; reflexivity|discriminate]).
  split; [done|]. destruct (Hs eq_refl) as (_ & _ & _ & _ & _ & Hl & _).
  change (length (contents torrents TorrentTable)) with 3%nat in Hl. cbn in Hl. lia.
Defined.

Definition insert_empty : bool * mem :=
  InsertMetadata_ id elements (fun _ => false) (fun _ => None) (fun _ => "00"%string) (configuration 2) md ∅.
Theorem torrents_well_typed_witness :
  exists d, contents insert_empty.2 TorrentTable = [d] /\
    reads_as id elements (fun _ => "") (fun _ => "00"%string) d md.
Proof.
  pose proof (torrents_well_typed (contents := contents) id elements (fun _ => false) (fun _ => None) (fun _ => "")
    (fun _ => "00"%string) (configuration 2) md ∅) as Hi.
  fold insert_empty in Hi. destruct insert_empty as [a s'] eqn:E. destruct Hi as [Hi _].
  destruct (contents s' TorrentTable) as [|d [|d' l]] eqn:Ec.
  - exfalso. vm_compute in E. injection E as <- <-. vm_compute in Ec. discriminate.
  - exists d. cbn [snd]. split; [done|]. destruct (Hi d ltac:(left)) as [Hd|]; [|done]. by apply not_elem_of_nil in Hd.
  - exfalso. vm_compute in E. injection E as <- <-. vm_compute in Ec. discriminate.
Defined.

Theorem stats_buckets_witness :
  exists res b, GetStatsByInterval (Unix 14500) "hour" 2 torrents = Ret res /\ res !! 0%nat = Some b /\
    TorrentCount b = 2 /\ families_total b = 2.
Proof.
  destruct (GetStatsByInterval (Unix 14500) "hour" 2 torrents) as [res|e|] eqn:E; [|discriminate|discriminate].
  destruct (stats_buckets (contents := contents) (Unix 14500) "hour" 2 torrents res ltac:(lia) ltac:(apply Z.leb_le; vm_compute; reflexivity)
    (datedb_dated (contents torrents TorrentTable) ltac:(vm_compute; reflexivity)) E) as [Hlen Hb].
  destruct (res !! 0%nat) as [b|] eqn:E0; [|apply lookup_ge_None in E0; lia].
  exists res, b. destruct (Hb 0%nat b E0) as (Ht & _ & Hc & Hf). split; [done|]. split; [done|].
  rewrite Hf, Hc, Ht. split; vm_compute; reflexivity.
Defined.
End Demo.
