(* ===== verification/Ingest.v ===== *)
(** * Ingestion (db/repository.go, db/watch.go, ui/crawler.go, ui/hub.go, ui/ui.go, notifier/)

    What happens to a torrent once its metadata are there: the repository takes or
    refuses it, the watches are checked, the notifiers are called and the open web
    sockets get a message. The code is written against the interface [Repository];
    CloverDB's repository is an instance. The hub is a state machine whose events are
    the cases of its loop. *)

From S2P Require Import Prelude Text Sink Config Filters Cluster Repo.
Open Scope Z_scope.

(** ** The interface of the repository, as far as ingestion uses it *)

Class Repository (repo : Type) : Type := {
  InsertMetadata : Metadata -> repo -> bool * repo;
  GetWatchEntries : repo -> list WatchEntry;
  FindBy : string -> string -> string -> repo -> list MetaData
}.
(** What is refused changes nothing. *)
Class RepositoryLaws (repo : Type) `{!Repository repo} : Prop := {
  refused_unchanged : forall md r, (InsertMetadata md r).1 = false -> (InsertMetadata md r).2 = r
}.

Section CloverInstance.
  Context {document store : Type} `{Document document, !Clover document store}.
  Context (unicode_lower : string -> string) (order : gset string -> list string) (Han : Z -> bool)
    (Compile : string -> option (string -> bool)) (FormatRFC822 : time -> string) (hex : list byte -> string).
  Context (c : Configuration).

#[local] Instance clover_repository : Repository store := {
  InsertMetadata := InsertMetadata_ unicode_lower order Han Compile hex c;
  GetWatchEntries := GetWatchEntries_;
  FindBy := FindBy_ unicode_lower FormatRFC822
}.
#[local] Instance clover_repository_laws : RepositoryLaws store.
Proof. constructor. intros md r. cbn [InsertMetadata clover_repository]. unfold InsertMetadata_. by repeat case_match. Qed.
End CloverInstance.

(** ** Notifiers *)

Inductive json : Type := Str (s : string) | Num (z : Z).
(** A request that leaves the process. *)
Inductive effect : Type :=
  | Post (url : string) (payload : list (string * json))
  | Send (bot username message : string).

(** A telegram bot is known by its token; the others by where they post to. *)
Inductive Notifier : Type :=
  | TelegramNotifier (bot : option string)
  | DiscordNotifier (WebhookURL : string)
  | SlackNotifier (WebhookURL : string)
  | GotifyNotifier (URL Token : string).

Section Notify.
  (** [telegram.NewBot]: [None] is an error. *)
  Context (NewBot : string -> option string).
  (** [bot.ChatByUsername]: does the user exist? *)
  Context (ChatByUsername : string -> string -> bool).
  (** The status of the answer to a request; [None] is a failed request. *)
  Context (http : effect -> option Z).

Definition SetupTelegramBot (cfg : Configuration) : option string :=
  if decide (TelegramToken cfg = ""%string) then None else NewBot (TelegramToken cfg).

Definition NotifyTelegram (cfg : Configuration) (bot : option string) (message : string) : list effect :=
  match bot with
  | None => []
  | Some bot =>
      if ChatByUsername bot (TelegramUsername cfg) then [Send bot (TelegramUsername cfg) message] else []
  end.

(** A post and its error. *)
Definition post (url : string) (payload : list (string * json)) : list effect * bool :=
  let e := Post url payload in
  ([e], match http e with None => false | Some code => code <? 400 end).

(** The requests of a notification and whether it returned no error. *)
Definition Notify (cfg : Configuration) (n : Notifier) (message : string) : list effect * bool :=
  match n with
  | TelegramNotifier bot => (NotifyTelegram cfg bot message, true)
  | DiscordNotifier url => if decide (url = ""%string) then ([], true) else post url [("content"%string, Str message)]
  | SlackNotifier url => if decide (url = ""%string) then ([], true) else post url [("text"%string, Str message)]
  | GotifyNotifier url token =>
      if decide (url = ""%string) then ([], true)
      else if decide (token = ""%string) then ([], true)
      else post (url +:+ "/message?token=" +:+ token)
             [("message"%string, Str message); ("priority"%string, Num 5); ("title"%string, Str "dhtc"%string)]
  end.

(** [Manager.Notify]: the errors are ignored. *)
Definition Manager_Notify (cfg : Configuration) (notifiers : list Notifier) (message : string) : list effect :=
  notifiers ≫= (fun n => (Notify cfg n message).1).

Definition Setup (cfg : Configuration) : list Notifier :=
  (if decide (TelegramToken cfg = ""%string) then []
   else match SetupTelegramBot cfg with Some bot => [TelegramNotifier (Some bot)] | None => [] end) ++
  (if decide (DiscordWebhook cfg = ""%string) then [] else [DiscordNotifier (DiscordWebhook cfg)]) ++
  (if decide (SlackWebhook cfg = ""%string) then [] else [SlackNotifier (SlackWebhook cfg)]) ++
  (if decide (GotifyURL cfg = ""%string) then []
   else if decide (GotifyToken cfg = ""%string) then [] else [GotifyNotifier (GotifyURL cfg) (GotifyToken cfg)]).

(** ** Watches and ingestion *)

Definition watch_message (md : Metadata) (d : WatchEntry) : string :=
  if decide (we_MatchType d = "Files"%string) then
    "Match found: '" +:+ md_Name md +:+ "' contains file which " +:+ we_MatchType d +:+ " '" +:+ we_Content d +:+ "'."
  else "Match found: '" +:+ md_Name md +:+ "' " +:+ we_MatchType d +:+ " '" +:+ we_Content d +:+ "'".

(** What the rest of the world sees of an ingestion. *)
Inductive event : Type :=
  | Sent (e : effect)
  | Broadcasted (data : list byte).

Definition CheckWatches `{Repository repo} (cfg : Configuration) (database : repo) (md : Metadata)
    (nManager : option (list Notifier)) : list event :=
  match nManager with
  | None => []
  | Some notifiers =>
      GetWatchEntries database ≫= (fun d =>
        if (0 <? length (FindBy (we_Key d) (we_MatchType d) (we_Content d) database))%nat
        then Sent <$> Manager_Notify cfg notifiers (watch_message md d)
        else [])
  end.

Record TrawlMessage : Type := mkTrawl {
  tm_Name : string; tm_InfoHashHex : string; tm_TotalSize : Z; tm_DiscoveredOn : Z;
  tm_Files : list File; tm_Categories : list string; tm_Family : Z
}.
Context (unicode_lower : string -> string) (order : gset string -> list string) (hex : list byte -> string).
(** [json.Marshal] *)
Context (Marshal : TrawlMessage -> option (list byte)).

Definition trawl_message (md : Metadata) : TrawlMessage :=
  mkTrawl (md_Name md) (hex (md_InfoHash md)) (md_TotalSize md) (md_DiscoveredOn md) (md_Files md)
    (Categorize unicode_lower order md) (md_Family md).
Definition Broadcast (v : TrawlMessage) : list event :=
  match Marshal v with None => [] | Some data => [Broadcasted data] end.
Definition BroadcastMetadata (md : Metadata) : list event := Broadcast (trawl_message md).

Definition IngestMetadata `{Repository repo} (cfg : Configuration) (nManager : option (list Notifier))
    (md : Metadata) (database : repo) : bool * repo * list event :=
  let '(inserted, database) := InsertMetadata md database in
  if negb inserted then (false, database, [])
  else (true, database, CheckWatches cfg database md nManager ++ BroadcastMetadata md).

(** The ingest function runs on the records of a batch in turn. *)
Fixpoint ingest_all `{Repository repo} (cfg : Configuration) (nManager : option (list Notifier))
    (mds : list Metadata) (database : repo) : repo * list event :=
  match mds with
  | [] => (database, [])
  | md :: mds =>
      let '(_, database, events) := IngestMetadata cfg nManager md database in
      let '(database, events') := ingest_all cfg nManager mds database in
      (database, events ++ events')
  end.

(** ** The flush route of the master's web server *)

Inductive route_response : Type :=
  | NotFound            (* no such route *)
  | BasicAuthRequired   (* the middleware answers 401 *)
  | Answer (r : master_response).

(** [basicAuth] is [gin.BasicAuth]: does it let a request with this header through? *)
Definition flush_route `{Repository repo} (basicAuth : string -> string -> string -> bool) (cfg : Configuration)
    (nManager : option (list Notifier)) (r : request Batch) (database : repo) : route_response * repo * list event :=
  if bool_decide (AuthUser cfg <> ""%string) && bool_decide (AuthPass cfg <> ""%string) &&
     negb (basicAuth (AuthUser cfg) (AuthPass cfg) (r_auth r)) then (BasicAuthRequired, database, [])
  else if bool_decide (NodeRole cfg = "master"%string) && bool_decide (ClusterToken cfg <> ""%string) then
    match r_method r with
    | POST =>
        let '(resp, mds) := MasterFlushHandler (ClusterToken cfg) r in
        let '(database, events) := ingest_all cfg nManager mds database in
        (Answer resp, database, events)
    | _ => (NotFound, database, [])
    end
  else (NotFound, database, []).
End Notify.

(** ** The hub *)

Module Hub.
Record Hub (conn : Type) `{Countable conn} : Type := mkHub {
  clients : gset conn;
  closed : list conn;                        (* calls of [Close], in order *)
  written : list (conn * list byte)          (* messages that were written *)
}.
Arguments mkHub {conn _ _}.
Arguments clients {conn _ _}.
Arguments closed {conn _ _}.
Arguments written {conn _ _}.

(** What [Run] receives, one case of its [select] each; a broadcast comes with the
    connections whose write fails at that moment. *)
Inductive hub_event (conn : Type) : Type :=
  | Register (client : conn)
  | Unregister (client : conn)
  | BroadcastData (message : list byte) (fails : conn -> bool).
Arguments Register {conn}.
Arguments Unregister {conn}.
Arguments BroadcastData {conn}.

Section Run.
  Context {conn : Type} `{Countable conn}.
  (** The order in which the map is ranged over. *)
  Context (order : gset conn -> list conn).

Definition NewHub : Hub conn := mkHub ∅ [] [].

Definition write_one (message : list byte) (fails : conn -> bool) (h : Hub conn) (client : conn) : Hub conn :=
  if fails client then mkHub (clients h ∖ {[client]}) (closed h ++ [client]) (written h)
  else mkHub (clients h) (closed h) (written h ++ [(client, message)]).

Definition hub_step (h : Hub conn) (e : hub_event conn) : Hub conn :=
  match e with
  | Register client => mkHub ({[client]} ∪ clients h) (closed h) (written h)
  | Unregister client =>
      if decide (client ∈ clients h) then mkHub (clients h ∖ {[client]}) (closed h ++ [client]) (written h) else h
  | BroadcastData message fails => foldl (write_one message fails) h (order (clients h))
  end.
Definition Run (h : Hub conn) (events : list (hub_event conn)) : Hub conn := foldl hub_step h events.

(** What one connection sees: it is live from its registration until a write to it
    fails or it is unregistered, and gets what is broadcast meanwhile. *)
Definition conn_step (c : conn) (s : bool * list (list byte) * nat) (e : hub_event conn) : bool * list (list byte) * nat :=
  let '(live, received, closes) := s in
  match e with
  | Register client => if decide (client = c) then (true, received, closes) else s
  | Unregister client => if decide (client = c) then (if live then (false, received, S closes) else s) else s
  | BroadcastData message fails =>
      if live then (if fails c then (false, received, S closes) else (true, received ++ [message], closes)) else s
  end.
Definition received (h : Hub conn) (c : conn) : list (list byte) := (filter (fun x => x.1 = c) (written h)).*2.
Definition closes (h : Hub conn) (c : conn) : nat := length (filter (fun x => x = c) (closed h)).
Definition view (h : Hub conn) (c : conn) : bool * list (list byte) * nat :=
  (bool_decide (c ∈ clients h), received h c, closes h c).

  Context (order_elements : forall X, order X ≡ₚ elements X).

Lemma view_write_other message fails h x c : x <> c -> view (write_one message fails h x) c = view h c.
Proof.
  intros Hx. unfold view, write_one, received, closes. case_match; cbn [clients closed written].
  - rewrite filter_app, filter_cons_False, filter_nil, app_nil_r by done. f_equal. f_equal. apply bool_decide_ext. set_solver.
  - by rewrite filter_app, filter_cons_False, filter_nil, app_nil_r by done.
Qed.
Lemma view_write_same message fails h c :
  c ∈ clients h -> view (write_one message fails h c) c = conn_step c (view h c) (BroadcastData message fails).
Proof.
  intros Hc. unfold conn_step, view at 2, write_one. rewrite bool_decide_true by done.
  unfold view, received, closes. case_match; cbn [clients closed written].
  - rewrite filter_app, filter_cons_True, filter_nil, length_app by done. cbn [length]. rewrite Nat.add_1_r.
    f_equal. f_equal. apply bool_decide_false. set_solver.
  - by rewrite filter_app, filter_cons_True, filter_nil, fmap_app, bool_decide_true by done.
Qed.

Lemma view_broadcast message fails l h c :
  NoDup l -> (c ∈ l -> c ∈ clients h) ->
  view (foldl (write_one message fails) h l) c =
    if decide (c ∈ l) then conn_step c (view h c) (BroadcastData message fails) else view h c.
Proof.
  revert h. induction l as [|x l IH]; intros h Hnd Hl; cbn [foldl].
  { rewrite decide_False; [done|apply not_elem_of_nil]. }
  apply NoDup_cons in Hnd as [Hx Hnd]. destruct (decide (x = c)) as [->|Hne].
  - rewrite IH; [|done|done]. rewrite decide_False, decide_True by (done || left). apply view_write_same, Hl. left.
  - pose proof (view_write_other message fails h x c Hne) as Hv. rewrite IH, Hv; [|done|].
    + destruct (decide (c ∈ l)) as [Hin|Hin]; [rewrite decide_True; [done|by right]|].
      rewrite decide_False; [done|]. intros [?|?]%elem_of_cons; congruence.
    + intros Hin. assert (c ∈ clients h) as Hc by (apply Hl; by right).
      unfold view in Hv. rewrite (bool_decide_true (c ∈ clients h)) in Hv by done.
      apply (f_equal (fun v => v.1.1)) in Hv. cbn [fst] in Hv. by apply bool_decide_eq_true in Hv.
Qed.

Lemma view_step h e c : view (hub_step h e) c = conn_step c (view h c) e.
Proof.
  destruct e as [x|x|message fails]; cbn [hub_step].
  - unfold view, conn_step, received, closes. cbn [clients closed written].
    destruct (decide (x = c)) as [->|Hne]; f_equal; f_equal; [apply bool_decide_true; set_solver|].
    apply bool_decide_ext. set_solver.
  - unfold conn_step, view at 2. destruct (decide (x ∈ clients h)) as [Hin|Hin].
    + unfold view, received, closes. cbn [clients closed written]. rewrite filter_app.
      destruct (decide (x = c)) as [->|Hne].
      * rewrite (bool_decide_true (c ∈ clients h)), filter_cons_True, filter_nil, length_app, Nat.add_1_r by done.
        f_equal. f_equal. apply bool_decide_false. set_solver.
      * rewrite filter_cons_False, filter_nil, app_nil_r by done. f_equal. f_equal. apply bool_decide_ext. set_solver.
    + destruct (decide (x = c)) as [->|]; [|done]. by rewrite bool_decide_false.
  - rewrite view_broadcast.
    + destruct (decide (c ∈ order (clients h))) as [Hin|Hin]; [done|]. rewrite order_elements, elem_of_elements in Hin.
      unfold conn_step, view. by rewrite bool_decide_false.
    + rewrite order_elements. apply NoDup_elements.
    + by rewrite order_elements, elem_of_elements.
Qed.

(** C9: The hub is, for every connection, the machine of that connection alone: whatever
    else is registered, fails or leaves, and in whatever order the map is walked, a
    connection gets exactly what is broadcast while it is live, and it is closed
    exactly when it stops being live. *)
Theorem hub_is_per_connection (events : list (hub_event conn)) (c : conn) :
  view (Run NewHub events) c = foldl (conn_step c) (false, [], 0%nat) events.
Proof.
  assert (forall h, view (Run h events) c = foldl (conn_step c) (view h c) events) as HR.
  { induction events as [|e events IH]; intros h; [done|]. cbn [Run foldl]. rewrite <- view_step. apply IH. }
  rewrite HR. f_equal.
Qed.
End Run.
End Hub.

(** ** What ingestion does *)

Section IngestSpec.
  Context {repo : Type} `{!Repository repo, !RepositoryLaws repo}.
  Context (NewBot : string -> option string) (ChatByUsername : string -> string -> bool) (http : effect -> option Z)
    (unicode_lower : string -> string) (order : gset string -> list string) (hex : list byte -> string)
    (Marshal : TrawlMessage -> option (list byte)).
  Context (cfg : Configuration) (nManager : option (list Notifier)).

Notation ingest := (IngestMetadata ChatByUsername http unicode_lower order hex Marshal cfg nManager).
Notation ingest_many := (ingest_all ChatByUsername http unicode_lower order hex Marshal cfg nManager).
Notation route := (flush_route ChatByUsername http unicode_lower order hex Marshal).

(** The services a configuration names: each is told, once, whatever becomes of the
    others. *)
Definition notifications (message : string) : list effect :=
  (if decide (TelegramToken cfg = ""%string) then [] else NotifyTelegram ChatByUsername cfg (NewBot (TelegramToken cfg)) message) ++
  (if decide (DiscordWebhook cfg = ""%string) then [] else [Post (DiscordWebhook cfg) [("content"%string, Str message)]]) ++
  (if decide (SlackWebhook cfg = ""%string) then [] else [Post (SlackWebhook cfg) [("text"%string, Str message)]]) ++
  (if decide (GotifyURL cfg = "" \/ GotifyToken cfg = "")%string then []
   else [Post (GotifyURL cfg +:+ "/message?token=" +:+ GotifyToken cfg)
           [("message"%string, Str message); ("priority"%string, Num 5); ("title"%string, Str "dhtc"%string)]]).

Lemma Notify_Setup message : Manager_Notify ChatByUsername http cfg (Setup NewBot cfg) message = notifications message.
Proof.
  unfold Manager_Notify, Setup, notifications, SetupTelegramBot. rewrite !bind_app. f_equal; [|f_equal; [|f_equal]].
  - case_decide; [done|]. destruct (NewBot _); [|done]. cbn. by rewrite app_nil_r.
  - destruct (decide (DiscordWebhook cfg = ""%string)) as [|E]; [done|]. cbn [mbind list_bind Notify]. by rewrite decide_False.
  - destruct (decide (SlackWebhook cfg = ""%string)) as [|E]; [done|]. cbn [mbind list_bind Notify]. by rewrite decide_False.
  - destruct (decide (GotifyURL cfg = ""%string)) as [E|E]; [by rewrite decide_True by auto|].
    destruct (decide (GotifyToken cfg = ""%string)) as [E'|E']; [by rewrite decide_True by auto|].
    rewrite (decide_False (P := _ \/ _)) by tauto. cbn [mbind list_bind Notify]. by rewrite !decide_False.
Qed.

(** A torrent that the repository refuses is not announced, nor is anything changed. One
    that it takes is announced on the open web sockets once, after every watch
    that finds something in the database was notified, in the order of the watches and
    once to each configured service. Without a notifier only the sockets hear of it. *)
Theorem ingest_effects (md : Metadata) (r : repo) :
  let '(accepted, r', events) := ingest md r in
  accepted = (InsertMetadata md r).1 /\ r' = (InsertMetadata md r).2 /\
  (accepted = false -> r' = r /\ events = []) /\
  (accepted = true -> exists told,
     events = told ++ BroadcastMetadata unicode_lower order hex Marshal md /\
     (nManager = None -> told = []) /\
     (nManager = Some (Setup NewBot cfg) ->
      told = Sent <$> ((watch_message md <$>
               filter (fun d => FindBy (we_Key d) (we_MatchType d) (we_Content d) r' <> []) (GetWatchEntries r'))
               ≫= notifications))).
Proof.
  unfold IngestMetadata. pose proof (refused_unchanged md r) as Href. destruct (InsertMetadata md r) as [[] r']; cbn [negb fst snd] in *.
  - split; [done|]. split; [done|]. split; [done|]. intros _. eexists. split; [reflexivity|]. split; [by intros ->|].
    intros ->. unfold CheckWatches. induction (GetWatchEntries r') as [|d l IH]; [done|].
    cbn [mbind list_bind]. rewrite IH, filter_cons. destruct (FindBy _ _ _ r') as [|m k].
    + by rewrite decide_False by tauto.
    + rewrite decide_True by done. cbn [length fmap list_fmap mbind list_bind]. rewrite fmap_app, Notify_Setup. done.
  - split; [done|]. split; [done|]. split; [|done]. intros _. by rewrite Href.
Qed.

Lemma ingest_many_refused mds r :
  (forall md r, (InsertMetadata md r).1 = false) -> ingest_many mds r = (r, []).
Proof.
  intros Hno. revert r. induction mds as [|md mds IH]; intros r; [done|]. cbn [ingest_all]. unfold IngestMetadata.
  pose proof (Hno md r) as Hmd. pose proof (refused_unchanged md r Hmd) as Hr.
  destruct (InsertMetadata md r) as [a r']. cbn [fst snd] in *. subst a r'. cbn [negb]. by rewrite IH.
Qed.

(** C40: When the database takes nothing, a flush is acknowledged all the same: the
    master answers with the ids of every record of the batch, nothing is stored or
    announced, and a worker that gets the answer forgets those records. *)
Theorem refused_batch_is_acknowledged (basicAuth : string -> string -> string -> bool) (req : request Batch) (b : Batch)
    (r : repo) (q : WorkerQueue) :
  (forall md r, (InsertMetadata md r).1 = false) ->
  r_method req = POST -> r_body req = Some b -> authorized (ClusterToken cfg) (r_auth req) = true ->
  NodeRole cfg = "master"%string -> basicAuth (AuthUser cfg) (AuthPass cfg) (r_auth req) = true ->
  flush_route ChatByUsername http unicode_lower order hex Marshal basicAuth cfg nManager req r = (Answer (AckBody (ID <$> Items b)), r, []) /\
  forall e, e ∈ items (Ack (ID <$> Items b) q) -> e ∉ Items b.
Proof.
  intros Hno Hm Hb Ha Hrole Hbasic. split.
  - unfold flush_route. rewrite Hbasic, andb_false_r, Hrole. rewrite (bool_decide_true ("master"%string = _)) by done.
    assert (ClusterToken cfg <> ""%string) as Htok.
    { intros E. by rewrite E in Ha. }
    rewrite bool_decide_true, Hm by done. cbn [andb]. unfold MasterFlushHandler. rewrite Ha, Hm, Hb. cbn [negb].
    by rewrite ingest_many_refused.
  - intros e He Hin. destruct (Ack_spec (ID <$> Items b) q) as [Hq _]. rewrite Hq in He.
    apply list_elem_of_filter in He as [Hn _]. by apply Hn, list_elem_of_fmap_2.
Qed.

(** With a user and a password configured no worker can flush: its requests carry the
    cluster token in the header that basic authentication reads, so the middleware
    refuses them before the route, whatever they contain. *)
Theorem flush_needs_open_server (basicAuth : string -> string -> string -> bool) (auth : string) (b : Batch) (r : repo) :
  (forall user pass header, basicAuth user pass header = true -> HasPrefix header "Basic " = true) ->
  AuthUser cfg <> ""%string -> AuthPass cfg <> ""%string ->
  route basicAuth cfg nManager (mkRequest POST ("Bearer " +:+ auth) (Some b)) r = (BasicAuthRequired, r, []).
Proof.
  intros Hbasic Hu Hp. unfold flush_route. rewrite !bool_decide_true by done. cbn [r_auth andb].
  destruct (basicAuth _ _ _) eqn:E; [|done]. by apply Hbasic in E.
Qed.
End IngestSpec.

(** ** Watches over CloverDB *)

Section Watches.
  Context {document store : Type} `{Document document, !Clover document store}
    {contents : store -> string -> list document} `{!CloverLaws document store contents}.
  Context (finds : forall q s, FindAll q s <> None).
  Context (unicode_lower : string -> string) (order : gset string -> list string) (Han : Z -> bool)
    (Compile : string -> option (string -> bool)) (FormatRFC822 : time -> string) (hex : list byte -> string)
    (c : Configuration).
#[local] Existing Instance clover_repository.
#[local] Instance the_repository : Repository store :=
  clover_repository unicode_lower order Han Compile FormatRFC822 hex c.

Lemma found_all (p : document -> bool) table s :
  FindAll_ (MatchFunc p (NewQuery table)) s ≡ₚ filter (fun d => p d) (contents s table).
Proof.
  unfold FindAll_. destruct (FindAll _ s) as [l|] eqn:E; [|by apply finds in E].
  apply find_all in E as (m & Hm & _ & ->). cbn [default from_option]. unfold id, window.
  cbn [q_skip q_limit MatchFunc NewQuery q_match q_collection andb] in *. change (Z.to_nat 0) with 0%nat. by rewrite drop_0.
Qed.

Lemma found_lt key kind input s :
  (0 <? length (FindBy_ unicode_lower FormatRFC822 key kind input s))%nat =
  existsb (fun d => Matches unicode_lower d key kind input) (contents s TorrentTable).
Proof.
  unfold FindBy_, Documents2MetaData. rewrite length_fmap, found_all.
  induction (contents s TorrentTable) as [|d l IH]; [done|]. rewrite filter_cons. cbn [existsb].
  destruct (Matches unicode_lower d key kind input); [by rewrite decide_True|]. by rewrite decide_False by tauto.
Qed.

(** A watch is reported for an ingested torrent exactly when some stored torrent
    matches it, whichever that is: once one does, every torrent that is ingested is
    announced as a match. *)
Theorem watch_fires_iff (ChatByUsername : string -> string -> bool) (http : effect -> option Z) (url : string)
    (md : Metadata) (s : store) (message : string) :
  url <> ""%string ->
  Sent (Post url [("content"%string, Str message)]) ∈
    CheckWatches ChatByUsername http c s md (Some [DiscordNotifier url]) <->
  exists w d, w ∈ GetWatchEntries_ s /\ message = watch_message md w /\
    d ∈ contents s TorrentTable /\ Matches unicode_lower d (we_Key w) (we_MatchType w) (we_Content w) = true.
Proof.
  intros Hurl. unfold CheckWatches. cbn [GetWatchEntries FindBy the_repository clover_repository].
  rewrite list_elem_of_bind. split.
  - intros (w & Hin & Hw). rewrite found_lt in Hin.
    destruct (existsb _ _) eqn:E; [|by apply not_elem_of_nil in Hin]. apply existsb_exists in E as (d & Hd & Hm).
    cbn [Manager_Notify mbind list_bind Notify] in Hin. rewrite decide_False in Hin by done.
    apply list_elem_of_fmap in Hin as (e & [= <-] & He). cbn in He. apply list_elem_of_singleton in He as [= ->].
    exists w, d. by apply list_elem_of_In in Hd.
  - intros (w & d & Hw & -> & Hd & Hm). exists w. split; [|done]. rewrite found_lt.
    rewrite (proj2 (existsb_exists _ _)); [|exists d; by rewrite <- list_elem_of_In].
    cbn [Manager_Notify mbind list_bind Notify]. rewrite decide_False by done. cbn. left.
Qed.
End Watches.

(** ** Witnesses *)

Module IngestDemo.
Import Memory.

Definition name (s : string) : fields := [("Name", VString s); ("DiscoveredOn", VInt64 1)]%string.
Definition watch : fields := [("Key", VString "Name"); ("MatchType", VString "contains"); ("Content", VString "linux")]%string.
(** One watch for linux and one torrent that it matches. *)
Definition database : mem :=
  {[TorrentTable := {[1%positive := name "linux.iso"]}; WatchTable := {[1%positive := watch]}]}.
Definition configuration (user pass : string) : Configuration :=
  ConfigDemo.defaults <| NodeRole := "master"%string |> <| ClusterToken := "token"%string |> <| MaxSavedTorrents := 100 |>
    <| AuthUser := user |> <| AuthPass := pass |> <| DiscordWebhook := "http://d"%string |>.
Definition cat : Metadata := mkMetadata [] 4 "cat.mkv" 6 15000 [mkFile 6 "cat.mkv"].
Definition message : string := "Match found: 'cat.mkv' contains 'linux'".

Theorem watch_fires_iff_witness :
  Sent (Post "http://d" [("content"%string, Str message)]) ∈
    CheckWatches (repo := mem)
      (H := clover_repository id elements (fun _ => false) (fun _ => None) (fun _ => "") (fun _ => "") (configuration "" ""))
      (fun _ _ => true) (fun _ => Some 500) (configuration "" "") database cat (Some [DiscordNotifier "http://d"]) /\
  Contains (md_Name cat) "linux" = false.
Proof.
  split; [|reflexivity].
  apply (watch_fires_iff (contents := contents) Demo.finds id elements (fun _ => false) (fun _ => None) (fun _ => "") (fun _ => "")
    (configuration "" "") (fun _ _ => true) (fun _ => Some 500) "http://d" cat database message); [done|].
  exists (mkWatch "1" "Name" "contains" "linux"), (1%positive, name "linux.iso").
  split; [|split; [vm_compute; reflexivity|split; [|vm_compute; reflexivity]]].
  - replace (GetWatchEntries_ database) with [mkWatch "1" "Name" "contains" "linux"] by (vm_compute; reflexivity). left.
  - replace (contents database TorrentTable) with [(1%positive, name "linux.iso")] by (vm_compute; reflexivity). left.
Defined.

Abbreviation mem_repository :=
  (clover_repository id elements (fun _ => false) (fun _ => None) (fun _ => "") (fun _ => "") (configuration "" "")).
Abbreviation ingest_cat :=
  (IngestMetadata (H := mem_repository) (fun _ _ => true) (fun _ => Some 500) id elements (fun _ => "") (fun _ => Some [])
    (configuration "" "") (Some (Setup (fun _ => None) (configuration "" ""))) cat database).

Theorem ingest_effects_witness :
  ingest_cat.1.1 = true /\ ingest_cat.2 = [Sent (Post "http://d" [("content"%string, Str message)]); Broadcasted []].
Proof.
  pose proof (ingest_effects (Repository0 := mem_repository) (RepositoryLaws0 := clover_repository_laws id elements (fun _ => false) (fun _ => None) (fun _ => "") (fun _ => "")
    (configuration "" "")) (fun _ => None) (fun _ _ => true) (fun _ => Some 500) id elements (fun _ => "") (fun _ => Some [])
    (configuration "" "") (Some (Setup (fun _ => None) (configuration "" ""))) cat database) as Hi.
  destruct ingest_cat as [[a r'] ev] eqn:E.
  destruct Hi as (Ha & Hr & _ & Ht). cbn [fst snd].
  assert (a = true) as -> by (rewrite Ha; vm_compute; reflexivity). split; [done|].
  destruct (Ht eq_refl) as (told & -> & _ & Htold). rewrite (Htold eq_refl), Hr. vm_compute. reflexivity.
Defined.

(** A repository whose disk is full. *)
#[local] Instance full : Repository unit := {
  InsertMetadata _ r := (false, r); GetWatchEntries _ := []; FindBy _ _ _ _ := []
}.
#[local] Instance full_laws : RepositoryLaws unit.
Proof. by constructor. Qed.
Definition batch : Batch := mkBatch "w" [mkEntry 1 cat] 1 0.
Definition basic (user pass header : string) : bool := HasPrefix header "Basic ".

Theorem refused_batch_is_acknowledged_witness :
  (flush_route (fun _ _ => true) (fun _ => None) id elements (fun _ => "") (fun _ => None) (fun _ _ _ => true)
    (configuration "" "") None (mkRequest POST "Bearer token" (Some batch)) tt).1.1 = Answer (AckBody [1]).
Proof.
  destruct (refused_batch_is_acknowledged (Repository0 := full) (fun _ _ => true) (fun _ => None) id elements (fun _ => "") (fun _ => None)
    (configuration "" "") None (fun _ _ _ => true) (mkRequest POST "Bearer token" (Some batch)) batch tt
    (NewWorkerQueue "w" 10 "" false None) ltac:(reflexivity) eq_refl eq_refl eq_refl eq_refl eq_refl) as [-> _].
  reflexivity.
Defined.

Theorem flush_needs_open_server_witness :
  flush_route (fun _ _ => true) (fun _ => None) id elements (fun _ => "") (fun _ => None) basic
    (configuration "me" "secret") None (mkRequest POST "Bearer token" (Some batch)) tt = (BasicAuthRequired, tt, []).
Proof.
  apply (flush_needs_open_server (fun _ _ => true) (fun _ => None) id elements (fun _ => "") (fun _ => None)
    (configuration "me" "secret") None basic "token" batch tt); [done|discriminate|discriminate].
Defined.

Definition ping : list byte := [x01].
Definition trace : list (Hub.hub_event nat) :=
  [Hub.Register 1%nat; Hub.Register 2%nat; Hub.BroadcastData ping (Nat.eqb 2); Hub.Unregister 2%nat; Hub.BroadcastData ping (fun _ => false)].
Theorem hub_is_per_connection_witness :
  Hub.view (Hub.Run elements Hub.NewHub trace) 1%nat = (true, [ping; ping], 0%nat) /\
  Hub.view (Hub.Run elements Hub.NewHub trace) 2%nat = (false, [], 1%nat).
Proof.
  rewrite !(Hub.hub_is_per_connection elements (fun X => Permutation_refl _)). split; reflexivity.
Defined.
End IngestDemo.
