(* ===== verification/Retention.v ===== *)
(** * What the repository keeps (contract of db/repository.go)

    The database is bounded: with a maximum configured, inserting a torrent keeps the
    newest ones. [Retains] states this of any implementation of the interface
    [Repository]; what follows from it for batches of torrents is proved here once,
    against the interface. CloverDB's repository is an instance here, the one over SQL
    in Gorm.v. *)

From S2P Require Import Prelude Text Sink Config Filters Cluster Repo Ingest.
Open Scope Z_scope.

(** ** Keeping the newest of a collection, seen as its times *)

(** [new] is what is left of [added] and [old] when the oldest beyond [max] are gone. *)
Definition keeps_newest (max : Z) (added old new : list Z) : Prop :=
  exists removed, added ++ old ≡ₚ removed ++ new /\
    (forall x y, x ∈ removed -> y ∈ new -> x <= y) /\
    Z.of_nat (length new) = Z.min max (Z.of_nat (length (added ++ old))).

Lemma keeps_nothing max l : Z.of_nat (length l) <= max -> keeps_newest max [] l l.
Proof. intros Hl. exists []. split; [done|]. split; [by intros x y ?%not_elem_of_nil|]. cbn [app]. lia. Qed.

(** Two insertions are one of both: nothing that was dropped first is newer than
    anything that is kept in the end. *)
Lemma keeps_newest_trans max a b old mid new :
  keeps_newest max a old mid -> keeps_newest max b mid new -> keeps_newest max (b ++ a) old new.
Proof.
  intros (r1 & P1 & O1 & L1) (r2 & P2 & O2 & L2).
  assert ((b ++ a) ++ old ≡ₚ (r2 ++ r1) ++ new) as Hp.
  { rewrite <- app_assoc, P1, (Permutation_app_comm r2 r1), <- app_assoc, <- P2.
    rewrite !app_assoc. by rewrite (Permutation_app_comm b r1). }
  pose proof (Permutation_length P1) as N1. pose proof (Permutation_length P2) as N2. rewrite !length_app in *.
  exists (r2 ++ r1). split; [done|]. split.
  - intros x y [Hx|Hx]%elem_of_app Hy; [by apply O2|]. apply Znot_gt_le. intros Hgt.
    assert (0 < length r1)%nat as Hr1 by (destruct r1; [by apply not_elem_of_nil in Hx|cbn; lia]).
    assert (length mid = length new) as Hlen by lia.
    (* The elements of [mid] are all at least [x], those that go next all at most [y]. *)
    set (P := fun z => x <= z).
    assert (length (filter P new) = length new) as Hall.
    { pose proof (length_filter P new).
      assert (length (filter P r2) = 0%nat) as Hr2.
      { rewrite filter_none; [done|]. intros z Hz Hxz. pose proof (O2 z y Hz Hy). unfold P in Hxz. lia. }
      assert (length (filter P mid) = length mid) as Hm.
      { rewrite filter_all; [done|]. intros z Hz. by apply O1. }
      pose proof (Permutation_length (filter_Permutation P _ _ P2)) as Hf. rewrite !filter_app, !length_app in Hf. lia. }
    pose proof (length_filter_all P new Hall y Hy) as Hxy. unfold P in Hxy. lia.
  - pose proof (Permutation_length Hp) as N. rewrite !length_app in *. lia.
Qed.

(** ** The contract *)

(** [times] is when the stored torrents were discovered; [ok] what the implementation
    keeps true of its state. *)
Class Retains (repo : Type) `{Repository repo} (max : Z) (times : repo -> list Z) (ok : repo -> Prop) : Prop := {
  insert_ok_state : forall md r, ok r -> ok (InsertMetadata md r).2;
  insert_newest : forall md r, ok r -> (InsertMetadata md r).1 = true ->
    keeps_newest max [md_DiscoveredOn md] (times r) (times (InsertMetadata md r).2)
}.

Section Client.
  Context {repo : Type} `{RepositoryLaws repo} {max : Z} {times : repo -> list Z} {ok : repo -> Prop}
    `{!Retains repo max times ok}.
  Context (ChatByUsername : string -> string -> bool) (http : effect -> option Z) (unicode_lower : string -> string)
    (order : gset string -> list string) (hex : list byte -> string) (Marshal : TrawlMessage -> option (list byte)).
  Context (cfg : Configuration) (nManager : option (list Notifier)).

(** C14: Whatever a master is sent, its database holds the newest torrents of what it had
    and of what it took of the batch, and never more than the maximum. *)
Theorem batch_keeps_newest (mds : list Metadata) (r : repo) :
  ok r -> Z.of_nat (length (times r)) <= max ->
  let r' := (ingest_all ChatByUsername http unicode_lower order hex Marshal cfg nManager mds r).1 in
  ok r' /\ Z.of_nat (length (times r')) <= max /\
  exists taken, taken `sublist_of` mds /\ keeps_newest max (rev (md_DiscoveredOn <$> taken)) (times r) (times r').
Proof.
  cbv zeta. revert r. induction mds as [|md mds IH]; intros r Hok Hmax.
  { split; [done|]. split; [done|]. exists []. split; [done|]. by apply keeps_nothing. }
  cbn [ingest_all]. unfold IngestMetadata. pose proof (insert_ok_state md r Hok) as Hok1.
  pose proof (insert_newest md r Hok) as Hn. pose proof (refused_unchanged md r) as Href.
  destruct (InsertMetadata md r) as [inserted r1]. cbn [fst snd] in *.
  destruct inserted; cbn [negb].
  - specialize (Hn eq_refl). assert (Z.of_nat (length (times r1)) <= max) as Hmax1 by (destruct Hn as (? & _ & _ & Hl); lia).
    destruct (IH r1 Hok1 Hmax1) as (H1 & H2 & taken & Ht & Hk). destruct (ingest_all _ _ _ _ _ _ _ _ mds r1) as [r' ev].
    cbn [fst] in *. split; [done|]. split; [done|]. exists (md :: taken). split; [by constructor|].
    cbn [fmap list_fmap rev]. by apply keeps_newest_trans with (times r1).
  - rewrite Href in * by done. destruct (IH r Hok Hmax) as (H1 & H2 & taken & Ht & Hk).
    destruct (ingest_all _ _ _ _ _ _ _ _ mds r) as [r' ev]. cbn [fst] in *. split; [done|]. split; [done|].
    exists taken. split; [by constructor|done].
Qed.
End Client.

(** ** CloverDB's repository keeps it *)

Section CloverRetains.
  Context {document store : Type} `{Document document, !Clover document store}
    {contents : store -> string -> list document} `{!CloverLaws document store contents}.
  Context (unicode_lower : string -> string) (order : gset string -> list string) (Han : Z -> bool)
    (Compile : string -> option (string -> bool)) (FormatRFC822 : time -> string) (hex : list byte -> string) (c : Configuration).
  Context (deletes : forall id s, DeleteById TorrentTable id s <> None)
    (counts : forall q s, Count q s <> None) (finds : forall q s, FindAll q s <> None).
  Context (bounded : 0 < MaxSavedTorrents c).

Definition clover_times (s : store) : list Z := discovered <$> contents s TorrentTable.

#[local] Instance clover_retains :
  Retains store (H := clover_repository unicode_lower order Han Compile FormatRFC822 hex c)
    (MaxSavedTorrents c) clover_times (fun s => dated (contents s TorrentTable)).
Proof.
  split; intros md s Hd; cbn [InsertMetadata clover_repository]; unfold InsertMetadata_;
    (destruct (_ && _); [done|]); (destruct (_ && _); [done|]); (destruct (InsertOne _ _ s) as [s1|] eqn:E; [|done]); cbn [fst snd].
  - by destruct (insert_keeps unicode_lower order hex deletes counts finds c md s s1 bounded Hd E) as (d & removed & _ & _ & _ & _ & ? & _).
  - intros _. destruct (insert_keeps unicode_lower order hex deletes counts finds c md s s1 bounded Hd E)
      as (d & removed & <- & Hp & Ho & Hl & _). exists (discovered <$> removed).
    apply (fmap_Permutation discovered) in Hp. rewrite fmap_app in Hp. split; [exact Hp|]. split.
    + intros x y (x' & -> & Hx)%list_elem_of_fmap (y' & -> & Hy)%list_elem_of_fmap. by apply Ho.
    + unfold clover_times. rewrite length_fmap, Hl. cbn [length app]. rewrite length_fmap. lia.
Qed.
End CloverRetains.

(** ** Witness *)

Module RetentionDemo.
Import Memory.

(** A node that keeps two torrents is sent three. *)
Definition config : Configuration := ConfigDemo.defaults <| MaxSavedTorrents := 2 |>.
Definition torrent (n : Z) : Metadata := mkMetadata (be_encode 20 n) 4 "name"%string 1 n [].
Abbreviation repository :=
  (clover_repository id elements (fun _ => false) (fun _ => None) (fun _ => ""%string) (fun _ => ""%string) config).
Abbreviation ingested :=
  (ingest_all (H := repository) (fun _ _ => true) (fun _ => None) id elements (fun _ => ""%string) (fun _ => None) config None
    (torrent <$> [300; 100; 200]) (∅ : mem)).

Theorem batch_keeps_newest_witness :
  length (clover_times (contents := contents) ingested.1) = 2%nat /\
  exists taken, taken `sublist_of` (torrent <$> [300; 100; 200]) /\
    keeps_newest 2 (rev (md_DiscoveredOn <$> taken)) [] (clover_times (contents := contents) ingested.1).
Proof.
  pose proof (batch_keeps_newest (repo := mem) (max := 2)
    (H := clover_repository_laws id elements (fun _ => false) (fun _ => None) (fun _ => ""%string) (fun _ => ""%string) config)
    (Retains0 := clover_retains (contents := contents) id elements (fun _ => false) (fun _ => None) (fun _ => ""%string) (fun _ => ""%string)
      config Demo.deletes Demo.counts Demo.finds ltac:(reflexivity))
    (fun _ _ => true) (fun _ => None) id elements (fun _ => ""%string) (fun _ => None) config None (torrent <$> [300; 100; 200]) ∅) as H.
  destruct H as (_ & _ & taken & Ht & Hk); [by constructor|vm_compute; discriminate|].
  split; [vm_compute; reflexivity|]. exists taken. split; [exact Ht|exact Hk].
Defined.
End RetentionDemo.
