(* ===== verification/Gorm.v ===== *)
(** * The repository over SQL (db/gorm.go, OpenRepository of db/db.go)

    GormRepository: the queries it builds, as terms, over a database that is reached
    through GORM. GORM and the engine are the class [Gorm]; [GormLaws] is what SQL
    promises for the operators that the code uses. What a pattern of LIKE matches and
    what a full text index finds depends on the engine: both are functions of the
    class. The repository is a second instance of the interface [Repository] and of
    [Retains]. Module SqlMemory is a database that has the laws. *)

From stdpp Require Import pretty sorting.
From S2P Require Import Prelude Text Sink Config Filters Cluster Repo Ingest Retention.
From Stdlib Require Import Ascii.
Open Scope Z_scope.

(** ** Rows *)

Record GormTorrent : Type := mkRow {
  g_ID : Z; g_Name : string; g_InfoHash : string; g_Files : string; g_DiscoveredOn : Z;
  g_TotalSize : Z; g_Categories : string; g_Family : Z
}.
Record GormWatch : Type := mkGormWatch { gw_ID : Z; gw_Key : string; gw_MatchType : string; gw_Content : string }.
Record GormBlacklist : Type := mkGormBlacklist { gb_ID : Z; gb_Filter : string; gb_Type : string }.
Record GormStats : Type := mkGormStats { gs_Timestamp : time; gs_TorrentCount : Z }.
(** The anonymous result of the statistics. *)
Record Bucket : Type := mkBucket { bk_Bucket : Z; bk_Count : Z; bk_IPv4 : Z; bk_IPv6 : Z; bk_Unknown : Z }.

(** ** Conditions and queries *)

Inductive where_ : Type :=
  | FamilyIs (n : Z)                 (* family = ? *)
  | FamilyUnknown                    (* family not in (4, 6) OR family IS NULL *)
  | NameIs (s : string)              (* name = ? *)
  | NameLike (p : string)            (* name LIKE ? *)
  | HashIs (s : string)
  | FilesLike (p : string)
  | DiscoveredLike (p : string)      (* discovered_on LIKE ? *)
  | SizeFrom (n : Z) | SizeTo (n : Z)
  | DiscoveredFrom (n : Z) | DiscoveredTo (n : Z)
  | Against (s : string)             (* MATCH(name) AGAINST(? IN BOOLEAN MODE) *)
  | TsQuery (s : string)             (* to_tsvector('simple', name) @@ plainto_tsquery('simple', ?) *)
  | FtsMatch (s : string).           (* id IN (SELECT rowid FROM gorm_torrents_fts WHERE name MATCH ?) *)

Inductive order_ : Type := NoOrder | Newest | Oldest | Random (function : string).
(** A limit that is negative, or absent, is none; so is an offset that is not positive. *)
Record gquery : Type := mkGquery { gq_where : list where_; gq_order : order_; gq_limit : option Z; gq_offset : Z }.
Definition Model : gquery := mkGquery [] NoOrder None 0.
Definition Where (w : where_) (q : gquery) : gquery := mkGquery (gq_where q ++ [w]) (gq_order q) (gq_limit q) (gq_offset q).
Definition Order (o : order_) (q : gquery) : gquery := mkGquery (gq_where q) o (gq_limit q) (gq_offset q).
Definition GLimit (n : Z) (q : gquery) : gquery := mkGquery (gq_where q) (gq_order q) (Some n) (gq_offset q).
Definition GOffset (n : Z) (q : gquery) : gquery := mkGquery (gq_where q) (gq_order q) (gq_limit q) n.

Definition gwindow {A} (q : gquery) (l : list A) : list A :=
  let l := drop (Z.to_nat (gq_offset q)) l in
  match gq_limit q with Some n => if n <? 0 then l else take (Z.to_nat n) l | None => l end.

(** ** GORM and the engine; [None] is an error, which changes nothing. *)

Class Gorm (db : Type) : Type := {
  Dialector : db -> string;
  Exec : string -> db -> option db;             (* a statement as text *)
  RawCount : string -> db -> Z;                 (* a count as text; zero when it fails *)
  GCount : gquery -> db -> option Z;
  GFind : gquery -> db -> option (list GormTorrent);
  Create : GormTorrent -> db -> option db;      (* the ID is the engine's *)
  DeleteIds : list Z -> db -> option db;
  DeleteTorrents : db -> option db;
  DeleteStats : db -> option db;
  Transaction : (db -> option db) -> db -> option db;
  FindWatches : db -> option (list GormWatch);
  CreateWatch : string -> string -> string -> db -> option db;
  DeleteWatch : string -> db -> option db;      (* an inline condition *)
  FindBlacklist : db -> option (list GormBlacklist);
  CountBlacklist : string -> string -> db -> option Z;
  CreateBlacklist : string -> string -> db -> option db;
  DeleteBlacklist : string -> db -> option db;
  CreateStats : GormStats -> db -> option db;
  Buckets : string -> Z -> Z -> db -> option (list Bucket);   (* the expression of the bucket, its length, since *)
  CountCategories : db -> option (list (string * Z));
  rows : db -> list GormTorrent;
  text_eq : string -> string -> bool;           (* text = text, in the collation of the column *)
  like : string -> string -> bool;              (* text LIKE pattern *)
  full_text : db -> where_ -> GormTorrent -> bool
}.

(** Does the row satisfy the condition? *)
Definition holds `{Gorm db} (s : db) (w : where_) (t : GormTorrent) : bool :=
  match w with
  | FamilyIs n => g_Family t =? n
  | FamilyUnknown => negb ((g_Family t =? 4) || (g_Family t =? 6))
  | NameIs n => text_eq (g_Name t) n
  | NameLike p => like (g_Name t) p
  | HashIs h => text_eq (g_InfoHash t) h
  | FilesLike p => like (g_Files t) p
  | DiscoveredLike p => like (pretty (g_DiscoveredOn t)) p
  | SizeFrom n => n <=? g_TotalSize t
  | SizeTo n => g_TotalSize t <=? n
  | DiscoveredFrom n => n <=? g_DiscoveredOn t
  | DiscoveredTo n => g_DiscoveredOn t <=? n
  | Against _ | TsQuery _ | FtsMatch _ => full_text s w t
  end.
Definition selected `{Gorm db} (s : db) (q : gquery) : list GormTorrent :=
  filter (fun t => forallb (fun w => holds s w t) (gq_where q) = true) (rows s).

Definition ordered (o : order_) (l : list GormTorrent) : Prop :=
  match o with
  | Newest => StronglySorted (fun x y => g_DiscoveredOn y <= g_DiscoveredOn x) l
  | Oldest => StronglySorted (fun x y => g_DiscoveredOn x <= g_DiscoveredOn y) l
  | NoOrder | Random _ => True
  end.

Definition with_ID (i : Z) (t : GormTorrent) : GormTorrent :=
  mkRow i (g_Name t) (g_InfoHash t) (g_Files t) (g_DiscoveredOn t) (g_TotalSize t) (g_Categories t) (g_Family t).

(** The bucket of a row, as an expression. *)
Definition divided (op : string) (seconds : Z) : string :=
  ("(discovered_on " ++ op ++ " " ++ pretty seconds ++ ") * " ++ pretty seconds)%string.
(** A character that is no wildcard, no escape and has no case. *)
Definition literal (c : ascii) : bool := existsb (Ascii.eqb c) ["."; "-"; "/"; ":"]%char.

Class GormLaws (db : Type) `{Gorm db} : Prop := {
  gcount_ok : forall q s n, GCount q s = Some n -> n = Z.of_nat (length (selected s q));
  gfind_ok : forall q s l, GFind q s = Some l ->
    exists m, m ≡ₚ selected s q /\ ordered (gq_order q) m /\ l = gwindow q m;
  (** The index on the info hash is unique. *)
  create_ok : forall t s s', Create t s = Some s' ->
    exists i, (i ∉ (g_ID <$> rows s)) /\ (g_InfoHash t ∉ (g_InfoHash <$> rows s)) /\ rows s' ≡ₚ with_ID i t :: rows s;
  delete_ids_ok : forall ids s s', DeleteIds ids s = Some s' -> rows s' ≡ₚ filter (fun t => g_ID t ∉ ids) (rows s);
  row_ids_unique : forall s, NoDup (g_ID <$> rows s);
  row_hashes_unique : forall s, NoDup (g_InfoHash <$> rows s);
  (** A character of a pattern that stands for itself is in the text. *)
  like_literal : forall t p c, like t p = true -> c ∈ String.list_ascii_of_string p -> literal c = true -> c ∈ String.list_ascii_of_string t;
  (** Division of integers truncates; there is one result for each bucket that has a row. *)
  buckets_ok : forall e n since s l, e ∈ [divided "/" n; divided "DIV" n] -> 0 < n -> Buckets e n since s = Some l ->
    NoDup (bk_Bucket <$> l) /\
    (forall t, t ∈ rows s -> since <= g_DiscoveredOn t -> Z.quot (g_DiscoveredOn t) n * n ∈ bk_Bucket <$> l) /\
    Forall (fun r =>
      let hits (p : Z -> bool) := Z.of_nat (length (filter (fun t =>
        Z.quot (g_DiscoveredOn t) n * n = bk_Bucket r /\ since <= g_DiscoveredOn t /\ p (g_Family t) = true) (rows s))) in
      bk_Count r = hits (fun _ => true) /\ bk_IPv4 r = hits (fun f => f =? 4) /\
      bk_IPv6 r = hits (fun f => f =? 6) /\ bk_Unknown r = hits (fun f => negb ((f =? 4) || (f =? 6)))) l;
  (** There is one group for each text, where the collation tells the texts apart. *)
  categories_ok : forall s l, CountCategories s = Some l ->
    (forall t t', t ∈ rows s -> t' ∈ rows s -> text_eq (g_Categories t) (g_Categories t') = true -> g_Categories t = g_Categories t') ->
    NoDup l.*1 /\ (forall g, g ∈ l.*1 <-> g ∈ g_Categories <$> rows s) /\
    Forall (fun r => r.2 = Z.of_nat (length (filter (fun t => g_Categories t = r.1) (rows s)))) l
}.

(** ** Opening *)

Inductive backend : Type := CloverBackend | GormBackend (dialector : string) | Unsupported.
(** [NewGormRepository], as far as the type of the database is concerned. *)
Definition gorm_dialector (unicode_lower : string -> string) (dbType : string) : backend :=
  let t := ToLower unicode_lower dbType in
  if decide (t = "sqlite"%string) then GormBackend "sqlite"
  else if decide (t = "postgres" \/ t = "postgresql")%string then GormBackend "postgres"
  else if decide (t = "mysql"%string) then GormBackend "mysql"
  else Unsupported.
Definition OpenRepository (unicode_lower : string -> string) (cfg : Configuration) : backend :=
  if decide (DatabaseType cfg = "clover"%string) then CloverBackend else gorm_dialector unicode_lower (DatabaseType cfg).

(** The statements of [initFTS]. *)
Definition mysql_index_exists : string :=
  "SELECT COUNT(1) FROM information_schema.statistics WHERE table_name = 'gorm_torrents' AND index_name = 'idx_name_fts'".
Definition mysql_index : string := "ALTER TABLE gorm_torrents ADD FULLTEXT INDEX idx_name_fts (name)".
Definition postgres_index : string :=
  "CREATE INDEX IF NOT EXISTS idx_name_fts ON gorm_torrents USING gin(to_tsvector('simple', name))".
Definition sqlite_table : string :=
  "CREATE VIRTUAL TABLE IF NOT EXISTS gorm_torrents_fts USING fts5(name, content='gorm_torrents', content_rowid='id')".
Definition sqlite_trigger_ai : string :=
  "CREATE TRIGGER IF NOT EXISTS gorm_torrents_ai AFTER INSERT ON gorm_torrents BEGIN
		  INSERT INTO gorm_torrents_fts(rowid, name) VALUES (new.id, new.name);
		END;".
Definition sqlite_trigger_ad : string :=
  "CREATE TRIGGER IF NOT EXISTS gorm_torrents_ad AFTER DELETE ON gorm_torrents BEGIN
		  INSERT INTO gorm_torrents_fts(gorm_torrents_fts, rowid, name) VALUES('delete', old.id, old.name);
		END;".
Definition sqlite_trigger_au : string :=
  "CREATE TRIGGER IF NOT EXISTS gorm_torrents_au AFTER UPDATE ON gorm_torrents BEGIN
		  INSERT INTO gorm_torrents_fts(gorm_torrents_fts, rowid, name) VALUES('delete', old.id, old.name);
		  INSERT INTO gorm_torrents_fts(rowid, name) VALUES (new.id, new.name);
		END;".
Definition sqlite_fts_count : string := ("SELECT count(" ++ "*" ++ ") FROM gorm_torrents_fts")%string.
Definition sqlite_backfill : string := "INSERT INTO gorm_torrents_fts(rowid, name) SELECT id, name FROM gorm_torrents".

Section Operations.
  Context {db : Type} `{Gorm db}.

(** A statement whose error is ignored. *)
Definition Exec_ (sql : string) (s : db) : db := default s (Exec sql s).

(** The database and [ftsEnabled]. *)
Definition initFTS (s : db) : db * bool :=
  if decide (Dialector s = "mysql"%string) then
    if RawCount mysql_index_exists s =? 0 then
      match Exec mysql_index s with None => (s, false) | Some s => (s, true) end
    else (s, true)
  else if decide (Dialector s = "postgres"%string) then
    match Exec postgres_index s with None => (s, false) | Some s => (s, true) end
  else if decide (Dialector s = "sqlite"%string) then
    match Exec sqlite_table s with
    | None => (s, false)
    | Some s =>
        let s := Exec_ sqlite_trigger_au (Exec_ sqlite_trigger_ad (Exec_ sqlite_trigger_ai s)) in
        if RawCount sqlite_fts_count s =? 0 then (Exec_ sqlite_backfill s, true) else (s, true)
    end
  else (s, false).

(** ** The methods *)

Context (ftsEnabled : bool).
Context (unicode_lower : string -> string) (order : gset string -> list string) (Han : Z -> bool)
  (Compile : string -> option (string -> bool)) (FormatRFC822 : time -> string) (hex : list byte -> string).
(** [json.Marshal] of the files, and [json.Unmarshal] into a slice: [None] leaves it nil. *)
Context (MarshalFiles : list File -> string) (UnmarshalFiles : string -> option (list value)).

Definition GCount_ (q : gquery) (s : db) : Z := default 0 (GCount q s).
Definition GFind_ (q : gquery) (s : db) : list GormTorrent := default [] (GFind q s).

Definition gorm_GetInfoHashCount (s : db) : Z := GCount_ Model s.
Definition gorm_GetFamilyCounts (s : db) : Z * Z * Z :=
  (GCount_ (Where (FamilyIs 4) Model) s, GCount_ (Where (FamilyIs 6) Model) s, GCount_ (Where FamilyUnknown Model) s).

Definition applyNameSearch (s : db) (searchType searchInput : string) (q : gquery) : gquery :=
  let with_like := Where (NameLike ("%" +:+ searchInput +:+ "%")) q in
  if decide (searchType = "contains"%string) then
    if ftsEnabled then
      if decide (Dialector s = "mysql"%string) then Where (Against (searchInput +:+ "*")) q
      else if decide (Dialector s = "postgres"%string) then Where (TsQuery searchInput) q
      else if decide (Dialector s = "sqlite"%string) then Where (FtsMatch (searchInput +:+ "*")) q
      else with_like
    else with_like
  else if decide (searchType = "equals"%string) then Where (NameIs searchInput) q
  else if decide (searchType = "startswith"%string) then Where (NameLike (searchInput +:+ "%")) q
  else if decide (searchType = "endswith"%string) then Where (NameLike ("%" +:+ searchInput)) q
  else q.

Definition toMetaData (t : GormTorrent) : MetaData :=
  {| mt_Name := g_Name t; mt_InfoHash := g_InfoHash t; mt_DiscoveredOn := FormatRFC822 (Unix (g_DiscoveredOn t));
     mt_TotalSize := g_TotalSize t; mt_Files := default [] (UnmarshalFiles (g_Files t));
     mt_Categories := Split "," (g_Categories t); mt_Family := g_Family t |}.
Definition toMetaDataSlice (torrents : list GormTorrent) : list MetaData := toMetaData <$> torrents.

Definition find_where (s : db) (key searchType searchInput : string) (q : gquery) : gquery :=
  if decide (key = "Name"%string) then applyNameSearch s searchType searchInput q
  else if decide (key = "InfoHash"%string) then Where (HashIs searchInput) q
  else if decide (key = "Files"%string) then Where (FilesLike ("%" +:+ searchInput +:+ "%")) q
  else q.
Definition gorm_FindBy (key searchType searchInput : string) (s : db) : list MetaData :=
  toMetaDataSlice (GFind_ (find_where s key searchType searchInput Model) s).

Definition search_where (s : db) (key searchType searchInput : string) (q : gquery) : gquery :=
  if decide (key = "DiscoveredOn"%string) then Where (DiscoveredLike ("%" +:+ searchInput +:+ "%")) q
  else find_where s key searchType searchInput q.
Definition filter_where (filters : SearchFilters) (q : gquery) : gquery :=
  let q := if 0 <? MinSize filters then Where (SizeFrom (MinSize filters)) q else q in
  let q := if 0 <? MaxSize filters then Where (SizeTo (MaxSize filters)) q else q in
  let q := if 0 <? StartDate filters then Where (DiscoveredFrom (StartDate filters)) q else q in
  if 0 <? EndDate filters then Where (DiscoveredTo (EndDate filters)) q else q.
Definition gorm_Search (key searchType searchInput : string) (limit offset : Z) (filters : SearchFilters) (s : db)
    : option (list MetaData * Z) :=
  let q := filter_where filters (search_where s key searchType searchInput Model) in
  total ← GCount q s;
  torrents ← GFind (GOffset offset (GLimit limit (Order Newest q))) s;
  Some (toMetaDataSlice torrents, total).

Definition gorm_GetNRandomEntries (n : Z) (s : db) : list MetaData :=
  let random := if decide (Dialector s = "mysql"%string) then "RAND()"%string else "RANDOM()"%string in
  toMetaDataSlice (GFind_ (GLimit n (Order (Random random) Model)) s).

Definition gorm_GetLatest (limit offset : Z) (s : db) : option (list MetaData * Z) :=
  total ← GCount Model s;
  torrents ← GFind (GOffset offset (GLimit limit (Order Newest Model))) s;
  Some (toMetaDataSlice torrents, total).

(** *** Watches and the blacklist *)

Definition gorm_GetWatchEntries (s : db) : list WatchEntry :=
  (fun e => mkWatch (pretty (gw_ID e)) (gw_Key e) (gw_MatchType e) (gw_Content e)) <$> default [] (FindWatches s).
Definition gorm_InsertWatchEntry (key searchType searchInput : string) (s : db) : bool * db :=
  match CreateWatch key searchType searchInput s with None => (false, s) | Some s => (true, s) end.
Definition gorm_DeleteWatchEntry (id : string) (s : db) : option db := DeleteWatch id s.

Definition gorm_GetBlacklistEntries (s : db) : list BlacklistEntry :=
  (fun e => mkBlacklist (pretty (gb_ID e)) (gb_Filter e) (GetBlacklistTypeFromStrInt (gb_Type e))) <$> default [] (FindBlacklist s).
(** An entry is created when none is counted; errors are ignored. *)
Definition gorm_AddToBlacklist (filters : list string) (entryType : string) (s : db) : bool * db :=
  (true, foldl (fun s f => if default 0 (CountBlacklist f entryType s) =? 0 then default s (CreateBlacklist f entryType s) else s) s filters).
Definition gorm_DeleteBlacklistItem (id : string) (s : db) : option db := DeleteBlacklist id s.

Definition gorm_blacklist_match (md : Metadata) (e : GormBlacklist) : bool :=
  match Compile (gb_Filter e) with
  | None => false
  | Some filter =>
      if decide (gb_Type e = "0"%string) then filter (md_Name md)
      else if decide (gb_Type e = "1"%string) then IsFileBlacklisted filter md
      else false
  end.
Definition gorm_IsBlacklisted (md : Metadata) (s : db) : bool :=
  existsb (gorm_blacklist_match md) (default [] (FindBlacklist s)).

(** *** Inserting *)

Definition gorm_pruneOldTorrents (c : Configuration) (s : db) : db :=
  if MaxSavedTorrents c <=? 0 then s
  else
    match GCount Model s with
    | None => s
    | Some count =>
        if count <=? MaxSavedTorrents c then s
        else
          match GFind (GLimit (count - MaxSavedTorrents c) (Order Oldest Model)) s with
          | None => s
          | Some oldest =>
              match g_ID <$> oldest with
              | [] => s
              | ids => default s (DeleteIds ids s)
              end
          end
    end.

Definition gorm_row (md : Metadata) : GormTorrent :=
  {| g_ID := 0; g_Name := md_Name md; g_InfoHash := hex (md_InfoHash md); g_Files := MarshalFiles (md_Files md);
     g_DiscoveredOn := md_DiscoveredOn md; g_TotalSize := md_TotalSize md;
     g_Categories := Join "," (Categorize unicode_lower order md); g_Family := md_Family md |}.

Definition gorm_InsertMetadata (c : Configuration) (md : Metadata) (s : db) : bool * db :=
  if OnlyChineseContent c && negb (ContainsChineseContent Han md) then (false, s)
  else if EnableBlacklist c && gorm_IsBlacklisted md s then (false, s)
  else
    match Create (gorm_row md) s with
    | None => (false, s)
    | Some s => (true, gorm_pruneOldTorrents c s)
    end.

Definition gorm_GetAllInfoHashes (s : db) : option (list string) :=
  match GFind Model s with None => None | Some l => Some (g_InfoHash <$> l) end.

Definition gorm_ClearCapturedData (s : db) : option db :=
  Transaction (fun s => s ← DeleteTorrents s; DeleteStats s) s.

(** *** Statistics *)

Definition bucketExpr (s : db) (seconds : Z) : string :=
  if decide (Dialector s = "mysql"%string) then divided "DIV" seconds else divided "/" seconds.

Definition zeroBucket : Bucket := mkBucket 0 0 0 0 0.
Definition gorm_GetStatsByInterval (now : time) (interval : string) (limit : Z) (s : db) : go unit (list Stats) :=
  let d := GetIntervalDuration interval in
  let seconds := d / second in
  let now := Truncate now d in
  let since := time_Unix (now + i64 (- limit * d)) in
  match Buckets (bucketExpr s seconds) seconds since s with
  | None => Err tt
  | Some results =>
      let bucketMap := foldl (fun m r => <[bk_Bucket r := r]> m) (∅ : gmap Z Bucket) results in
      if limit <? 0 then Panic
      else Ret ((fun i =>
        let ts := now + i64 (- Z.of_nat i * d) in
        let bucket := default zeroBucket (bucketMap !! time_Unix ts) in
        mkStats ts (bk_Count bucket) (bk_IPv4 bucket) (bk_IPv6 bucket) (bk_Unknown bucket)) <$> seq 0 (Z.to_nat limit))
  end.

Definition gorm_InsertStats (stats : Stats) (s : db) : option db :=
  CreateStats (mkGormStats (Timestamp stats) (TorrentCount stats)) s.

Definition gorm_GetCategoryDistribution (s : db) : option (gmap string Z) :=
  results ← CountCategories s;
  Some (foldl (fun dist res =>
    foldl (fun dist cat =>
      let cat := if decide (cat = ""%string) then "unknown"%string else cat in
      <[cat := default 0 (dist !! cat) + res.2]> dist) dist (Split "," res.1)) (∅ : gmap string Z) results).
End Operations.

(** ** The second instance of the interface *)

Section Instances.
  Context {db : Type} `{Gorm db}.
  Context (ftsEnabled : bool) (unicode_lower : string -> string) (order : gset string -> list string) (Han : Z -> bool)
    (Compile : string -> option (string -> bool)) (FormatRFC822 : time -> string) (hex : list byte -> string)
    (MarshalFiles : list File -> string) (UnmarshalFiles : string -> option (list value)) (c : Configuration).

#[local] Instance gorm_repository : Repository db := {
  InsertMetadata := gorm_InsertMetadata unicode_lower order Han Compile hex MarshalFiles c;
  GetWatchEntries := gorm_GetWatchEntries;
  FindBy := gorm_FindBy ftsEnabled FormatRFC822 UnmarshalFiles
}.
#[local] Instance gorm_repository_laws : RepositoryLaws db.
Proof. constructor. intros md s. cbn [InsertMetadata gorm_repository]. unfold gorm_InsertMetadata. by repeat case_match. Qed.
End Instances.

(** ** Inserting and pruning *)

Section Keeping.
  Context {db : Type} `{GormLaws db}.
  Context (unicode_lower : string -> string) (order : gset string -> list string) (Han : Z -> bool)
    (Compile : string -> option (string -> bool)) (hex : list byte -> string) (MarshalFiles : list File -> string).
  Context (counts : forall q s, GCount q s <> None) (finds : forall q s, GFind q s <> None)
    (deletes : forall ids s, DeleteIds ids s <> None).

Lemma selected_all (s : db) (q : gquery) : gq_where q = [] -> selected s q = rows s.
Proof. intros Hq. unfold selected. rewrite Hq. by apply filter_all. Qed.

Lemma filter_not_in_ids (l k : list GormTorrent) :
  NoDup (g_ID <$> (l ++ k)) -> filter (fun t => g_ID t ∉ g_ID <$> l) (l ++ k) = k.
Proof.
  rewrite fmap_app. intros (_ & Hd & _)%NoDup_app. rewrite filter_app, filter_none, filter_all; [done| |].
  - intros x Hx Hin. apply (Hd _ Hin). by apply list_elem_of_fmap_2.
  - intros x Hx Hn. apply Hn. by apply list_elem_of_fmap_2.
Qed.

(** What pruning leaves. *)
Lemma gorm_prune_rows (c : Configuration) (s : db) : 0 < MaxSavedTorrents c ->
  let s' := gorm_pruneOldTorrents c s in
  exists removed, rows s ≡ₚ removed ++ rows s' /\
    (forall x y, x ∈ removed -> y ∈ rows s' -> g_DiscoveredOn x <= g_DiscoveredOn y) /\
    Z.of_nat (length (rows s')) = Z.min (MaxSavedTorrents c) (Z.of_nat (length (rows s))).
Proof.
  intros Hmax. cbv zeta. unfold gorm_pruneOldTorrents. rewrite (proj2 (Z.leb_gt _ _)) by lia.
  destruct (GCount Model s) as [n|] eqn:En; [|by apply counts in En]. apply gcount_ok in En. rewrite selected_all in En by done. subst n.
  destruct (Z.leb_spec (Z.of_nat (length (rows s))) (MaxSavedTorrents c)) as [Hle|Hgt].
  { exists []. split; [done|]. split; [by intros x y ?%not_elem_of_nil|]. lia. }
  set (n := Z.of_nat (length (rows s)) - MaxSavedTorrents c).
  destruct (GFind _ s) as [old|] eqn:Eo; [|by apply finds in Eo]. apply gfind_ok in Eo as (m & Hm & Ho & ->).
  rewrite selected_all in Hm by done. cbn [GLimit Order gq_order ordered Model] in *.
  assert (gwindow (GLimit n (Order Oldest Model)) m = take (Z.to_nat n) m) as ->.
  { unfold gwindow. cbn. by rewrite (proj2 (Z.ltb_ge _ _)) by lia. }
  pose proof (Permutation_length Hm) as Hlen.
  assert (length (take (Z.to_nat n) m) = Z.to_nat n) as Htake by (rewrite length_take; lia).
  destruct (g_ID <$> take (Z.to_nat n) m) as [|i ids] eqn:Eids.
  { apply (f_equal length) in Eids. rewrite length_fmap in Eids. cbn in Eids. lia. }
  rewrite <- Eids. destruct (DeleteIds _ s) as [s'|] eqn:Ed; [|by apply deletes in Ed]. cbn [default from_option]. unfold id.
  apply delete_ids_ok in Ed. rewrite <- Hm in Ed.
  pose proof (filter_not_in_ids (take (Z.to_nat n) m) (drop (Z.to_nat n) m)) as Hf. rewrite take_drop in Hf.
  rewrite Hf in Ed by (rewrite Hm; apply row_ids_unique).
  exists (take (Z.to_nat n) m). rewrite Ed, take_drop. split; [by rewrite Hm|]. split.
  - intros x y Hx Hy. rewrite Ed in Hy. rewrite <- (take_drop (Z.to_nat n) m) in Ho. apply StronglySorted_app in Ho as (Hs & _ & _). by apply Hs.
  - rewrite length_drop. lia.
Qed.

(** C16: A torrent whose info hash is stored is refused, as is one that is filtered out or
    blacklisted, and then nothing changes. Any other is stored when the database takes
    it: the newest rows remain, the maximum at most, none older than one removed, and
    there is still one row for an info hash. *)
Theorem sql_insert (c : Configuration) (md : Metadata) (s : db) :
  0 < MaxSavedTorrents c ->
  let '(accepted, s') := gorm_InsertMetadata unicode_lower order Han Compile hex MarshalFiles c md s in
  (hex (md_InfoHash md) ∈ g_InfoHash <$> rows s -> accepted = false) /\
  (OnlyChineseContent c && negb (ContainsChineseContent Han md) = true -> accepted = false) /\
  (EnableBlacklist c && gorm_IsBlacklisted Compile md s = true -> accepted = false) /\
  (accepted = false -> s' = s) /\
  (accepted = true -> exists i removed,
     with_ID i (gorm_row unicode_lower order hex MarshalFiles md) :: rows s ≡ₚ removed ++ rows s' /\
     (forall x y, x ∈ removed -> y ∈ rows s' -> g_DiscoveredOn x <= g_DiscoveredOn y) /\
     Z.of_nat (length (rows s')) = Z.min (MaxSavedTorrents c) (Z.of_nat (length (rows s)) + 1) /\
     NoDup (g_InfoHash <$> rows s')).
Proof.
  intros Hmax. unfold gorm_InsertMetadata. destruct (OnlyChineseContent c && _); [done|].
  destruct (EnableBlacklist c && _); [done|]. destruct (Create _ s) as [s1|] eqn:E; [|done].
  apply create_ok in E as (i & Hi & Hh & Hr).
  split; [by intros|]. do 3 (split; [done|]). intros _. destruct (gorm_prune_rows c s1 Hmax) as (removed & Hp & Ho & Hl).
  exists i, removed. rewrite <- Hr, <- Hp. split; [done|]. split; [done|]. split; [|apply row_hashes_unique].
  rewrite Hl, Hr. cbn [length]. lia.
Qed.

Definition gorm_times (s : db) : list Z := g_DiscoveredOn <$> rows s.

Lemma gorm_retains (fts : bool) (FormatRFC822 : time -> string) (UnmarshalFiles : string -> option (list value))
    (c : Configuration) : 0 < MaxSavedTorrents c ->
  Retains db (H := gorm_repository fts unicode_lower order Han Compile FormatRFC822 hex MarshalFiles UnmarshalFiles c)
    (MaxSavedTorrents c) gorm_times (fun _ => True).
Proof.
  intros Hmax. split; [done|]. intros md s _. cbn [InsertMetadata gorm_repository]. unfold gorm_InsertMetadata.
  destruct (_ && _); [done|]. destruct (_ && _); [done|]. destruct (Create _ s) as [s1|] eqn:E; [|done]. intros _. cbn [snd].
  apply create_ok in E as (i & _ & _ & Hr). destruct (gorm_prune_rows c s1 Hmax) as (removed & Hp & Ho & Hl).
  exists (g_DiscoveredOn <$> removed). rewrite Hr in Hp. apply (fmap_Permutation g_DiscoveredOn) in Hp. rewrite fmap_app in Hp.
  split; [exact Hp|]. split.
  - intros x y (x' & -> & Hx)%list_elem_of_fmap (y' & -> & Hy)%list_elem_of_fmap. by apply Ho.
  - unfold gorm_times. rewrite length_fmap, Hl, Hr. cbn [length app]. by rewrite length_fmap.
Qed.
End Keeping.

(** ** Searching *)

(** What the sizes and dates of a search ask of a row. *)
Definition within (f : SearchFilters) (t : GormTorrent) : Prop :=
  (0 < MinSize f -> MinSize f <= g_TotalSize t) /\ (0 < MaxSize f -> g_TotalSize t <= MaxSize f) /\
  (0 < StartDate f -> StartDate f <= g_DiscoveredOn t) /\ (0 < EndDate f -> g_DiscoveredOn t <= EndDate f).
#[export] Instance within_dec f t : Decision (within f t).
Proof. unfold within. repeat apply and_dec; apply impl_dec; apply _. Defined.
Definition searchable : list string := ["Name"; "InfoHash"; "Files"; "DiscoveredOn"]%string.

(** The text of an integer has no dot. *)
Lemma pretty_N_no_dot (x : N) s : "."%char ∉ String.list_ascii_of_string s -> "."%char ∉ String.list_ascii_of_string (pretty_N_go x s).
Proof.
  revert s. induction (N.lt_wf_0 x) as [x _ IH]. intros s Hs.
  destruct (decide (x = 0)%N) as [->|Hx]; [by rewrite pretty_N_go_0|]. rewrite pretty_N_go_step by lia.
  apply IH; [apply N.div_lt; lia|]. cbn [String.list_ascii_of_string]. apply not_elem_of_cons. split; [|done].
  unfold pretty_N_char. by repeat case_match.
Qed.
Lemma pretty_no_dot (z : Z) : "."%char ∉ String.list_ascii_of_string (pretty z).
Proof.
  assert (forall n : N, "."%char ∉ String.list_ascii_of_string (pretty n)) as HN.
  { intros n. unfold pretty, pretty_N. case_decide; [|by apply pretty_N_no_dot, not_elem_of_nil].
    cbn. intros H'. by apply list_elem_of_singleton in H'. }
  destruct z; cbn [pretty pretty_Z]; [|apply HN|].
  - intros H'. by apply list_elem_of_singleton in H'.
  - cbn. apply not_elem_of_cons. split; [done|]. apply (HN (N.pos p)).
Qed.

Section Searching.
  Context {db : Type} `{GormLaws db}.
  Context (fts : bool) (FormatRFC822 : time -> string) (UnmarshalFiles : string -> option (list value)).
Abbreviation where_of := (search_where fts).
Abbreviation read := (toMetaData FormatRFC822 UnmarshalFiles).
Abbreviation find := (gorm_Search fts FormatRFC822 UnmarshalFiles).

Lemma selected_Where (s : db) w q : selected s (Where w q) = filter (fun t => holds s w t = true) (selected s q).
Proof.
  unfold selected. rewrite list_filter_filter. apply list_filter_iff. intros t. cbn [Where gq_where].
  rewrite forallb_app, andb_true_iff. cbn [forallb]. rewrite andb_true_r. tauto.
Qed.

Lemma selected_if (s : db) (b : bool) w q (P : GormTorrent -> Prop) `{forall t, Decision (P t)} :
  (b = true -> forall t, holds s w t = true <-> P t) ->
  selected s (if b then Where w q else q) = filter (fun t => b = true -> P t) (selected s q).
Proof.
  intros Hw. destruct b.
  - rewrite selected_Where. apply list_filter_iff. intros t. rewrite Hw by done. tauto.
  - by rewrite filter_all.
Qed.

Lemma selected_filters (s : db) f q : selected s (filter_where f q) = filter (within f) (selected s q).
Proof.
  unfold filter_where.
  rewrite (selected_if s _ _ _ (fun t => g_DiscoveredOn t <= EndDate f)) by (intros; apply Z.leb_le).
  rewrite (selected_if s _ _ _ (fun t => StartDate f <= g_DiscoveredOn t)) by (intros; apply Z.leb_le).
  rewrite (selected_if s _ _ _ (fun t => g_TotalSize t <= MaxSize f)) by (intros; apply Z.leb_le).
  rewrite (selected_if s _ _ _ (fun t => MinSize f <= g_TotalSize t)) by (intros; apply Z.leb_le).
  rewrite !list_filter_filter. apply list_filter_iff. intros t. unfold within. rewrite !Z.ltb_lt. tauto.
Qed.

Lemma search_selected (s : db) key kind input f page total (limit offset : Z) :
  0 <= limit -> 0 <= offset -> find key kind input limit offset f s = Some (page, total) ->
  exists found, found ≡ₚ filter (within f) (selected s (where_of s key kind input Model)) /\
    StronglySorted (fun x y => g_DiscoveredOn y <= g_DiscoveredOn x) found /\
    total = Z.of_nat (length found) /\ page = read <$> take (Z.to_nat limit) (drop (Z.to_nat offset) found).
Proof.
  intros Hl Ho. unfold gorm_Search. set (q := filter_where f _).
  destruct (GCount q s) as [n|] eqn:En; [|done]. cbn [mbind option_bind].
  destruct (GFind _ s) as [l|] eqn:El; [|done]. intros [= <- <-].
  apply gcount_ok in En. apply gfind_ok in El as (m & Hm & Hs & ->).
  change (selected s (GOffset _ _)) with (selected s q) in Hm. unfold q in Hm, En. rewrite selected_filters in Hm, En.
  exists m. split; [done|]. split; [exact Hs|]. split; [by rewrite En, Hm|].
  unfold toMetaDataSlice, gwindow. cbn [gq_offset gq_limit GOffset GLimit Order]. by rewrite (proj2 (Z.ltb_ge _ _)) by lia.
Qed.

(** C28: A page of the search is the part that was asked for of the rows that were found, the
    newest first; no torrent is found twice, and the sizes and dates are respected. Only
    four keys are looked at: any other, "All" among them, finds every row whatever was
    typed. A date as the page for it expects, with dots, finds nothing. *)
Theorem sql_search (s : db) (key kind input : string) (f : SearchFilters) (limit offset : Z) (page : list MetaData) (total : Z) :
  0 <= limit -> 0 <= offset -> find key kind input limit offset f s = Some (page, total) ->
  exists found,
    StronglySorted (fun x y => g_DiscoveredOn y <= g_DiscoveredOn x) found /\ NoDup (g_InfoHash <$> found) /\
    total = Z.of_nat (length found) /\ page = read <$> take (Z.to_nat limit) (drop (Z.to_nat offset) found) /\
    (forall t, t ∈ found -> t ∈ rows s /\ within f t) /\
    (key ∉ searchable -> found ≡ₚ filter (within f) (rows s)) /\
    (key = "Name"%string -> kind = "contains"%string -> fts = false -> forall t, t ∈ found <->
       t ∈ rows s /\ within f t /\ like (g_Name t) ("%" +:+ input +:+ "%") = true) /\
    (key = "DiscoveredOn"%string -> "."%char ∈ String.list_ascii_of_string input -> found = []).
Proof.
  intros Hl Ho Hf. apply search_selected in Hf as (found & Hp & Hs & Ht & Hpage); [|done|done].
  exists found. split; [done|].
  assert (forall q, exists P : GormTorrent -> bool, selected s q = filter (fun t => P t = true) (rows s)) as Hsel by (intros q; by eexists).
  split.
  { destruct (Hsel (where_of s key kind input Model)) as [P HP]. rewrite Hp, HP, list_filter_filter.
    apply NoDup_fmap_filter, row_hashes_unique. }
  split; [done|]. split; [done|]. split; [|split; [|split]].
  - intros t. rewrite Hp, list_elem_of_filter. intros [Hw Hin]. split; [|done].
    unfold selected in Hin. by apply list_elem_of_filter in Hin as [_ ?].
  - intros Hk. rewrite Hp. unfold search_where, find_where, searchable in *.
    rewrite !decide_False by (intros ->; apply Hk; repeat constructor). by rewrite selected_all.
  - intros -> -> -> t. rewrite Hp. unfold search_where, find_where, applyNameSearch.
    rewrite decide_False, !decide_True by done.
    rewrite selected_Where, selected_all, !list_elem_of_filter by done. cbn [holds]. tauto.
  - intros -> Hdot. apply Permutation_nil_r. rewrite Hp. unfold search_where. rewrite decide_True by done.
    rewrite selected_Where, selected_all, list_filter_filter by done. rewrite filter_none; [done|]. intros t _ [_ Hlike].
    cbn [holds] in Hlike. apply (like_literal _ _ "."%char) in Hlike; [by apply pretty_no_dot in Hlike| |done].
    rewrite !list_ascii_app. apply elem_of_app. right. apply elem_of_app. by left.
Qed.
End Searching.

(** ** Watches *)

Section GormWatches.
  Context {db : Type} `{GormLaws db}.
  Context (counts : forall q s, GCount q s <> None) (finds : forall q s, GFind q s <> None)
    (deletes : forall ids s, DeleteIds ids s <> None).
  Context (fts : bool) (unicode_lower : string -> string) (order : gset string -> list string) (Han : Z -> bool)
    (Compile : string -> option (string -> bool)) (FormatRFC822 : time -> string) (hex : list byte -> string)
    (MarshalFiles : list File -> string) (UnmarshalFiles : string -> option (list value)) (c : Configuration).
  Context (ChatByUsername : string -> string -> bool) (http : effect -> option Z) (Marshal : TrawlMessage -> option (list byte)).
#[local] Instance sql_repository : Repository db :=
  gorm_repository fts unicode_lower order Han Compile FormatRFC822 hex MarshalFiles UnmarshalFiles c.

Lemma accepted_not_empty (md : Metadata) (s : db) :
  (InsertMetadata md s).1 = true -> rows (InsertMetadata md s).2 <> [].
Proof.
  cbn [InsertMetadata sql_repository gorm_repository]. unfold gorm_InsertMetadata. destruct (_ && _); [done|]. destruct (_ && _); [done|].
  destruct (Create _ s) as [s1|] eqn:E; [|done]. apply create_ok in E as (i & _ & _ & Hr). intros _. cbn [snd].
  destruct (Z.le_gt_cases (MaxSavedTorrents c) 0) as [Hmax|Hmax].
  - unfold gorm_pruneOldTorrents. rewrite (proj2 (Z.leb_le _ _)) by done. intros Hn. rewrite Hn in Hr. by apply Permutation_nil_l in Hr.
  - destruct (gorm_prune_rows counts finds deletes c s1 Hmax) as (removed & _ & _ & Hl). intros Hn. rewrite Hn, Hr in Hl. cbn [length] in Hl. lia.
Qed.

(** A watch on anything but the name, the info hash and the files (the page offers the
    date) is reported for every torrent that is taken, whatever it asks for. *)
Theorem sql_date_watch_always_fires (url : string) (md : Metadata) (s : db) (w : WatchEntry) :
  url <> ""%string -> (we_Key w ∉ ["Name"; "InfoHash"; "Files"]%string) ->
  let '(accepted, s', events) :=
    IngestMetadata ChatByUsername http unicode_lower order hex Marshal c (Some [DiscordNotifier url]) md s in
  accepted = true -> w ∈ GetWatchEntries s' ->
  Sent (Post url [("content"%string, Str (watch_message md w))]) ∈ events.
Proof.
  intros Hurl Hkey. unfold IngestMetadata. pose proof (accepted_not_empty md s) as Hne.
  destruct (InsertMetadata md s) as [[] s']; [|done]. cbn [negb fst snd] in *. specialize (Hne eq_refl). intros _ Hw.
  apply elem_of_app. left. unfold CheckWatches. apply list_elem_of_bind. exists w. split; [|done].
  cbn [FindBy sql_repository gorm_repository]. unfold gorm_FindBy, find_where.
  rewrite !decide_False by (intros E; apply Hkey; rewrite E; repeat constructor).
  unfold toMetaDataSlice, GFind_. rewrite length_fmap. destruct (GFind Model s') as [l|] eqn:E; [|by apply finds in E].
  apply gfind_ok in E as (m & Hm & _ & ->). rewrite selected_all in Hm by done. unfold gwindow. cbn.
  destruct m as [|t m]; [by apply Permutation_nil_l in Hm|]. rewrite drop_0. cbn [length]. cbn [Nat.ltb Nat.leb].
  rewrite decide_False by done. cbn. left.
Qed.
End GormWatches.

(** ** What is stored is what is read *)

Section Stored.
  Context {db : Type} `{GormLaws db}.
  Context (unicode_lower : string -> string) (order : gset string -> list string) (FormatRFC822 : time -> string)
    (hex : list byte -> string) (MarshalFiles : list File -> string) (UnmarshalFiles : string -> option (list value)).
  Context (order_elements : forall X, order X ≡ₚ elements X).

(** The names of the categories have no comma, so the joined string falls apart into
    them again: a row is read back with the categories of the torrent. *)
Theorem sql_row_roundtrip (md : Metadata) (i : Z) (files : list value) :
  UnmarshalFiles (MarshalFiles (md_Files md)) = Some files ->
  toMetaData FormatRFC822 UnmarshalFiles (with_ID i (gorm_row unicode_lower order hex MarshalFiles md)) =
    mkMetaData (md_Name md) (hex (md_InfoHash md)) (FormatRFC822 (Unix (md_DiscoveredOn md))) (md_TotalSize md) files
      (Categorize unicode_lower order md) (md_Family md).
Proof.
  intros Hf. unfold toMetaData, gorm_row. cbn. rewrite Hf. cbn. f_equal.
  destruct (Categorize_names unicode_lower order order_elements md) as [Hne Hn]. apply Split_Join; [done|].
  eapply Forall_impl; [exact Hn|]. intros cat Hcat. cbn beta in Hcat.
  repeat (apply elem_of_cons in Hcat as [->|Hcat]; [reflexivity|]). by apply not_elem_of_nil in Hcat.
Qed.
End Stored.

(** ** Statistics: both back ends agree *)

Section StatsAgree.
  Context {document store : Type} `{Document document, !Clover document store}
    {contents : store -> string -> list document} `{!CloverLaws document store contents}.
  Context {db : Type} `{GormLaws db}.

(** The two databases hold torrents of the same times and families. *)
Definition same_torrents (s : store) (s' : db) : Prop :=
  (fun d => (discovered d, numericInt (Get d "Family"%string))) <$> contents s TorrentTable ≡ₚ
  (fun t => (g_DiscoveredOn t, g_Family t)) <$> rows s'.

Lemma same_count (P : Z * Z -> Prop) `{forall x, Decision (P x)} (s : store) (s' : db) : same_torrents s s' ->
  length (filter (fun d => P (discovered d, numericInt (Get d "Family"%string))) (contents s TorrentTable)) =
  length (filter (fun t => P (g_DiscoveredOn t, g_Family t)) (rows s')).
Proof.
  intros Hs. rewrite (length_filter_fmap (fun d => (discovered d, numericInt (Get d "Family"%string))) P).
  rewrite (length_filter_fmap (fun t => (g_DiscoveredOn t, g_Family t)) P). unfold same_torrents in Hs. by rewrite Hs.
Qed.

Lemma buckets_lookup (l : list Bucket) (m : gmap Z Bucket) (b : Z) :
  let m' := foldl (fun m r => <[bk_Bucket r := r]> m) m l in
  ((b ∉ bk_Bucket <$> l) -> m' !! b = m !! b) /\
  (NoDup (bk_Bucket <$> l) -> forall r, r ∈ l -> bk_Bucket r = b -> m' !! b = Some r).
Proof.
  cbv zeta. revert m. induction l as [|x l IH]; intros m; [split; [done|by intros _ r ?%not_elem_of_nil]|].
  cbn [foldl fmap list_fmap]. destruct (IH (<[bk_Bucket x := x]> m)) as [E1 E2]. split.
  - intros [Hx Hl]%not_elem_of_cons. by rewrite E1, lookup_insert_ne.
  - intros [Hx Hl]%NoDup_cons r [->|Hr]%elem_of_cons Hb; [|by apply E2].
    rewrite E1; [|by rewrite <- Hb]. by rewrite Hb, lookup_insert_eq.
Qed.

(** What the engine returns for a bucket. *)
Lemma bucket_counts (s : db) (e : string) n since l b : e ∈ [divided "/" n; divided "DIV" n] -> 0 < n ->
  Buckets e n since s = Some l ->
  let r := default zeroBucket (foldl (fun m r => <[bk_Bucket r := r]> m) (∅ : gmap Z Bucket) l !! b) in
  let hits (p : Z -> bool) := Z.of_nat (length (filter (fun t =>
    Z.quot (g_DiscoveredOn t) n * n = b /\ since <= g_DiscoveredOn t /\ p (g_Family t) = true) (rows s))) in
  bk_Count r = hits (fun _ => true) /\ bk_IPv4 r = hits (fun f => f =? 4) /\
  bk_IPv6 r = hits (fun f => f =? 6) /\ bk_Unknown r = hits (fun f => negb ((f =? 4) || (f =? 6))).
Proof.
  intros He Hn (Hnd & Hall & Hc)%buckets_ok r hits; [|done|done]. destruct (buckets_lookup l ∅ b) as [E1 E2]. unfold r.
  destruct (decide (b ∈ bk_Bucket <$> l)) as [(x & Hb & Hx)%list_elem_of_fmap|Hb].
  - rewrite (E2 Hnd x Hx (eq_sym Hb)). unfold hits. rewrite Hb. by apply (proj1 (Forall_forall _ _) Hc).
  - rewrite E1, lookup_empty by done. assert (forall p, hits p = 0) as Hz; [|by rewrite !Hz].
    intros p. unfold hits. rewrite filter_none; [done|]. intros t Ht (Hq & Hs & _). apply Hb. rewrite <- Hq. by apply Hall.
Qed.

(** What CloverDB finds for a bucket, and how the rows count it. *)
Lemma same_hits (s : store) (s' : db) docs n since b (P : Z -> Prop) `{forall f, Decision (P f)} (p : Z -> bool) :
  dated (contents s TorrentTable) -> same_torrents s s' -> (forall f, P f <-> p f = true) ->
  FindAll (MatchFunc (since_match since) (NewQuery TorrentTable)) s = Some docs ->
  length (filter (fun d => Z.quot (discovered d) n * n = b /\ P (numericInt (Get d "Family"%string))) docs) =
  length (filter (fun t => Z.quot (g_DiscoveredOn t) n * n = b /\ since <= g_DiscoveredOn t /\ p (g_Family t) = true) (rows s')).
Proof.
  intros Hd Hsame Hp Hf. erewrite found_since by exact Hf.
  etransitivity; [|exact (same_count (fun x => Z.quot x.1 n * n = b /\ since <= x.1 /\ p x.2 = true) s s' Hsame)].
  apply filter_length_iff. intros d Hin. unfold dated in Hd. rewrite Forall_forall in Hd. specialize (Hd d Hin). cbn beta in Hd.
  cbn [fst snd]. unfold since_match. rewrite Hd, Hp, Is_true_true, Z.leb_le. tauto.
Qed.

(** C17: Over the same torrents the statistics of the two back ends are the same, for every
    interval, limit and time, whenever neither database fails: CloverDB's are counted in
    the program, the others by the engine. *)
Theorem stats_backends_agree (now : time) (interval : string) (limit : Z) (s : store) (s' : db) :
  dated (contents s TorrentTable) -> same_torrents s s' ->
  GetStatsByInterval now interval limit s <> Err tt -> gorm_GetStatsByInterval now interval limit s' <> Err tt ->
  GetStatsByInterval now interval limit s = gorm_GetStatsByInterval now interval limit s'.
Proof.
  intros Hd Hsame. unfold GetStatsByInterval, gorm_GetStatsByInterval.
  destruct (interval_seconds interval) as (n & Hi & Hn & _). set (d := GetIntervalDuration interval) in *.
  assert (d / second = n) as -> by (rewrite Hi; by apply Z.div_mul). set (since := time_Unix _).
  destruct (FindAll _ s) as [docs|] eqn:Ef; [|done]. destruct (Buckets _ _ _ s') as [l|] eqn:Eb; [|done]. intros _ _.
  destruct (limit <? 0); [done|]. f_equal. apply list_fmap_ext. intros j i _. cbv zeta. set (ts := _ + _).
  fold (stat (foldl (count_torrent n) ∅ docs) (time_Unix ts)).
  assert (bucketExpr s' n ∈ [divided "/" n; divided "DIV" n]) as He by (unfold bucketExpr; case_decide; repeat constructor).
  destruct (bucket_counts s' _ n since l (time_Unix ts) He ltac:(lia) Eb) as (E1 & E2 & E3 & E4).
  destruct (stat_fold n docs ∅ (time_Unix ts)) as [Hc _].
  assert (forall k p, k ∈ [4; 6; 0] -> (forall f, family_class f = k <-> p f = true) ->
    class_count k (stat (foldl (count_torrent n) ∅ docs) (time_Unix ts)) = Z.of_nat (length (filter (fun t =>
      Z.quot (g_DiscoveredOn t) n * n = time_Unix ts /\ since <= g_DiscoveredOn t /\ p (g_Family t) = true) (rows s')))) as Hk.
  { intros k p Hin Hp. rewrite class_fold by done.
    assert (class_count k (stat ∅ (time_Unix ts)) = 0) as -> by (unfold class_count; by destruct (k =? 4), (k =? 6)).
    rewrite Z.add_0_l. f_equal. exact (same_hits s s' docs n since (time_Unix ts) (fun f => family_class f = k) p Hd Hsame Hp Ef). }
  f_equal.
  - rewrite Hc, E1. change (TorrentCount (stat ∅ _)) with 0.
    rewrite Z.add_0_l. f_equal.
    etransitivity; [|exact (same_hits s s' docs n since (time_Unix ts) (fun _ => True) (fun _ => true) Hd Hsame ltac:(done) Ef)].
    apply filter_length_iff. tauto.
  - rewrite E2. apply (Hk 4 (fun f => f =? 4)); [left|]. intros f. unfold family_class. by destruct (f =? 4), (f =? 6).
  - rewrite E3. apply (Hk 6 (fun f => f =? 6)); [right; left|]. intros f. unfold family_class.
    destruct (Z.eqb_spec f 4), (Z.eqb_spec f 6); subst; (done || lia).
  - rewrite E4. apply (Hk 0 (fun f => negb ((f =? 4) || (f =? 6)))); [right; right; left|]. intros f. unfold family_class. by destruct (f =? 4), (f =? 6).
Qed.
End StatsAgree.
(** ** A database in memory

    The laws can hold: the rows are kept by info hash. *)

Module SqlMemory.
(** LIKE: a percent sign stands for any text, an underscore for one character. *)
Fixpoint like_chars (p : list ascii) : list ascii -> bool :=
  match p with
  | [] => fun t => match t with [] => true | _ => false end
  | c :: p =>
      if Ascii.eqb c "%" then
        fix any (t : list ascii) : bool := like_chars p t || match t with [] => false | _ :: t => any t end
      else fun t => match t with [] => false | x :: t => (Ascii.eqb c "_" || Ascii.eqb c x) && like_chars p t end
  end.
Definition like_text (t p : string) : bool := like_chars (String.list_ascii_of_string p) (String.list_ascii_of_string t).

Record sql : Type := mkSql {
  sq_torrents : gmap string GormTorrent;
  sq_watches : list GormWatch; sq_blacklist : list GormBlacklist; sq_stats : list GormStats
}.
Definition set_torrents (m : gmap string GormTorrent) (s : sql) : sql := mkSql m (sq_watches s) (sq_blacklist s) (sq_stats s).
Definition set_watches (l : list GormWatch) (s : sql) : sql := mkSql (sq_torrents s) l (sq_blacklist s) (sq_stats s).
Definition set_blacklist (l : list GormBlacklist) (s : sql) : sql := mkSql (sq_torrents s) (sq_watches s) l (sq_stats s).
Definition set_stats (l : list GormStats) (s : sql) : sql := mkSql (sq_torrents s) (sq_watches s) (sq_blacklist s) l.

Definition id_of (h : string) : Z := Z.pos (encode h).
Definition row_of (x : string * GormTorrent) : GormTorrent :=
  mkRow (id_of x.1) (g_Name x.2) x.1 (g_Files x.2) (g_DiscoveredOn x.2) (g_TotalSize x.2) (g_Categories x.2) (g_Family x.2).
Definition mem_rows (s : sql) : list GormTorrent := row_of <$> map_to_list (sq_torrents s).
Definition full (s : sql) (w : where_) (t : GormTorrent) : bool :=
  match w with Against x | TsQuery x | FtsMatch x => Contains (g_Name t) x | _ => false end.
Definition older (x y : GormTorrent) : Prop := g_DiscoveredOn x <= g_DiscoveredOn y.
Definition newer (x y : GormTorrent) : Prop := g_DiscoveredOn y <= g_DiscoveredOn x.
#[local] Instance older_dec x y : Decision (older x y) := Z_le_dec (g_DiscoveredOn x) (g_DiscoveredOn y).
#[local] Instance newer_dec x y : Decision (newer x y) := Z_le_dec (g_DiscoveredOn y) (g_DiscoveredOn x).
#[local] Instance older_total : Total older.
Proof. intros x y. unfold older. lia. Qed.
#[local] Instance newer_total : Total newer.
Proof. intros x y. unfold newer. lia. Qed.
#[local] Instance older_trans : Transitive older.
Proof. intros x y z. unfold older. lia. Qed.
#[local] Instance newer_trans : Transitive newer.
Proof. intros x y z. unfold newer. lia. Qed.
Definition sort (o : order_) (l : list GormTorrent) : list GormTorrent :=
  match o with
  | Newest => merge_sort newer l
  | Oldest => merge_sort older l
  | _ => l
  end.
Definition bucket_of (n : Z) (t : GormTorrent) : Z := Z.quot (g_DiscoveredOn t) n * n.
Definition mem_bucket (s : sql) (n since b : Z) : Bucket :=
  let hits (p : Z -> bool) := Z.of_nat (length (filter (fun t =>
    bucket_of n t = b /\ since <= g_DiscoveredOn t /\ p (g_Family t) = true) (mem_rows s))) in
  mkBucket b (hits (fun _ => true)) (hits (fun f => f =? 4)) (hits (fun f => f =? 6)) (hits (fun f => negb ((f =? 4) || (f =? 6)))).

(** What does not search; a search needs only the conditions and the rows of it. *)
Definition mem_base (find : gquery -> sql -> list GormTorrent) : Gorm sql := {|
  Dialector _ := "sqlite"%string; Exec _ s := Some s; RawCount _ _ := 0;
  GCount q s := Some (Z.of_nat (length (find q s)));
  GFind q s := Some (gwindow q (sort (gq_order q) (find q s)));
  Create t s := match sq_torrents s !! g_InfoHash t with Some _ => None | None => Some (set_torrents (<[g_InfoHash t := t]> (sq_torrents s)) s) end;
  DeleteIds ids s := Some (set_torrents (filter (fun x => id_of x.1 ∉ ids) (sq_torrents s)) s);
  DeleteTorrents s := Some (set_torrents ∅ s); DeleteStats s := Some (set_stats [] s); Transaction f s := f s;
  FindWatches s := Some (sq_watches s);
  CreateWatch k m c s := Some (set_watches (sq_watches s ++ [mkGormWatch (Z.of_nat (length (sq_watches s)) + 1) k m c]) s);
  DeleteWatch i s := Some (set_watches (filter (fun w => pretty (gw_ID w) <> i) (sq_watches s)) s);
  FindBlacklist s := Some (sq_blacklist s);
  CountBlacklist f t s := Some (Z.of_nat (length (filter (fun b => gb_Filter b = f /\ gb_Type b = t) (sq_blacklist s))));
  CreateBlacklist f t s := Some (set_blacklist (sq_blacklist s ++ [mkGormBlacklist (Z.of_nat (length (sq_blacklist s)) + 1) f t]) s);
  DeleteBlacklist i s := Some (set_blacklist (filter (fun b => pretty (gb_ID b) <> i) (sq_blacklist s)) s);
  CreateStats x s := Some (set_stats (sq_stats s ++ [x]) s);
  Buckets _ n since s := Some (mem_bucket s n since <$>
    remove_dups (bucket_of n <$> filter (fun t => since <= g_DiscoveredOn t) (mem_rows s)));
  CountCategories s := Some ((fun c => (c, Z.of_nat (length (filter (fun t => g_Categories t = c) (mem_rows s))))) <$>
    remove_dups (g_Categories <$> mem_rows s));
  rows := mem_rows; text_eq := String.eqb; like := like_text; full_text := full
|}.

Definition no_find (q : gquery) (s : sql) : list GormTorrent := [].
#[export] Instance mem_gorm : Gorm sql := mem_base (fun q s => @selected sql (mem_base no_find) s q).

Lemma mem_selected (s : sql) (q : gquery) : @selected sql (mem_base no_find) s q = selected s q.
Proof. done. Qed.

Lemma like_chars_literal (c : ascii) (p t : list ascii) :
  like_chars p t = true -> c ∈ p -> literal c = true -> c ∈ t.
Proof.
  revert t. induction p as [|x p IH]; intros t Hl Hin Hc; [by apply not_elem_of_nil in Hin|]. cbn [like_chars] in Hl.
  destruct (Ascii.eqb_spec x "%") as [->|Hx].
  - apply elem_of_cons in Hin as [->|Hin]; [done|]. revert Hl. induction t as [|y t IHt]; intros [H|H]%orb_true_iff; try done.
    + by apply IH.
    + by apply IH.
    + right. by apply IHt.
  - destruct t as [|y t]; [done|]. apply andb_true_iff in Hl as [Hy Hl]. apply elem_of_cons in Hin as [->|Hin]; [|right; by apply IH].
    apply orb_true_iff in Hy as [Hy%Ascii.eqb_eq|Hy%Ascii.eqb_eq]; subst; [done|left].
Qed.

Lemma id_of_inj h h' : id_of h = id_of h' -> h = h'.
Proof. unfold id_of. intros [= E]. by apply (inj encode). Qed.

Lemma mem_hashes s : g_InfoHash <$> mem_rows s = (map_to_list (sq_torrents s)).*1.
Proof. unfold mem_rows. by rewrite <- list_fmap_compose. Qed.
Lemma mem_ids s : g_ID <$> mem_rows s = id_of <$> (map_to_list (sq_torrents s)).*1.
Proof. unfold mem_rows. by rewrite <- !list_fmap_compose. Qed.

Lemma filter_row_of (ids : list Z) (l : list (string * GormTorrent)) :
  filter (fun t => g_ID t ∉ ids) (row_of <$> l) = row_of <$> filter (fun x => id_of x.1 ∉ ids) l.
Proof.
  induction l as [|x l IH]; [done|]. cbn [fmap list_fmap]. rewrite !filter_cons. cbn [g_ID row_of].
  destruct (decide (id_of x.1 ∉ ids)); cbn [fmap list_fmap]; by rewrite IH.
Qed.

Lemma buckets_named s n since (l : list Z) : bk_Bucket <$> (mem_bucket s n since <$> l) = l.
Proof. induction l as [|b l IH]; [done|]. cbn [fmap list_fmap]. by rewrite IH. Qed.

#[export] Instance mem_sql_laws : GormLaws sql.
Proof.
  split.
  - by intros q s n [= <-].
  - intros q s l [= <-]. exists (sort (gq_order q) (selected s q)). split; [|split; [|done]].
    + destruct (gq_order q); cbn [sort]; (done || apply merge_sort_Permutation).
    + destruct (gq_order q); cbn [sort ordered]; try done.
      * apply (StronglySorted_merge_sort newer).
      * apply (StronglySorted_merge_sort older).
  - intros t s s'. cbn [Create mem_gorm mem_base]. destruct (sq_torrents s !! g_InfoHash t) eqn:E; [done|]. intros [= <-].
    exists (id_of (g_InfoHash t)). cbn [rows mem_gorm mem_base]. split; [|split].
    + rewrite mem_ids. intros (h & Hh%id_of_inj & Hin)%list_elem_of_fmap. subst h.
      apply list_elem_of_fmap in Hin as ([h x] & E' & Hx%elem_of_map_to_list). cbn [fst] in E'. congruence.
    + rewrite mem_hashes. intros ([h x] & E' & Hx%elem_of_map_to_list)%list_elem_of_fmap. cbn [fst] in E'. congruence.
    + unfold mem_rows, set_torrents. cbn [sq_torrents]. rewrite map_to_list_insert by done. done.
  - intros ids s s' [= <-]. cbn [rows mem_gorm mem_base]. unfold mem_rows, set_torrents. cbn [sq_torrents].
    by rewrite map_to_list_filter, <- filter_row_of.
  - intros s. cbn [rows mem_gorm mem_base]. rewrite mem_ids. apply NoDup_fmap; [|apply NoDup_fst_map_to_list].
    intros x y. apply id_of_inj.
  - intros s. cbn [rows mem_gorm mem_base]. rewrite mem_hashes. apply NoDup_fst_map_to_list.
  - intros t p c. cbn [like mem_gorm mem_base]. apply like_chars_literal.
  - intros e n since s l _ Hn [= <-]. cbn [rows mem_gorm mem_base]. split; [|split].
    + rewrite buckets_named. apply NoDup_remove_dups.
    + intros t Ht Hs. rewrite buckets_named. apply elem_of_remove_dups, list_elem_of_fmap. exists t. split; [done|].
      by apply list_elem_of_filter.
    + apply Forall_forall. intros r (b & -> & _)%list_elem_of_fmap. done.
  - intros s l [= <-] _. cbn [rows mem_gorm mem_base].
    set (count := fun c => (c, Z.of_nat (length (filter (fun t => g_Categories t = c) (mem_rows s))))).
    assert (forall gs : list string, (count <$> gs).*1 = gs) as Hf.
    { intros gs. induction gs as [|g gs IH]; [done|]. cbn [fmap list_fmap fst count]. f_equal. exact IH. }
    rewrite Hf. split; [apply NoDup_remove_dups|]. split; [intros g; apply elem_of_remove_dups|].
    apply Forall_forall. intros r (g & -> & _)%list_elem_of_fmap. done.
Qed.
End SqlMemory.

(** ** Witnesses *)

Module SqlDemo.
Import Memory SqlMemory.
#[local] Open Scope string_scope.

Definition row (h name : string) (t fam : Z) : GormTorrent := mkRow 0 name h "[]" t 10 "Video" fam.
(** Two rows and a watch for a date. *)
Definition database : sql :=
  mkSql {["aa" := row "aa" "linux.iso" 100 4; "bb" := row "bb" "cat.mkv" 200 6]} [mkGormWatch 1 "DiscoveredOn" "contains" "2024.01.05"] [] [].
Definition config (max : Z) : Configuration := ConfigDemo.defaults <| MaxSavedTorrents := max |>.
Definition md : Metadata := mkMetadata (be_encode 20 7) 4 "new.mkv" 6 300 [mkFile 6 "new.mkv"].
Definition marshal (_ : list File) : string := "[...]".
Definition unmarshal (_ : string) : option (list value) := Some [VMap [("size", VFloat64 6); ("path", VString "new.mkv")]].
Definition insert : bool * sql :=
  gorm_InsertMetadata id elements (fun _ => false) (fun _ => None) EncodeToString marshal (config 2) md database.

Lemma sql_counts q (s : sql) : GCount q s <> None.
Proof. by cbv [GCount mem_gorm mem_base]. Qed.
Lemma sql_finds q (s : sql) : GFind q s <> None.
Proof. by cbv [GFind mem_gorm mem_base]. Qed.
Lemma sql_deletes ids (s : sql) : DeleteIds ids s <> None.
Proof. by cbv [DeleteIds mem_gorm mem_base]. Qed.

Theorem sql_insert_witness :
  insert.1 = true /\ length (rows insert.2) = 2%nat /\ NoDup (g_InfoHash <$> rows insert.2).
Proof.
  pose proof (sql_insert id elements (fun _ => false) (fun _ => None) EncodeToString marshal sql_counts sql_finds sql_deletes
    (config 2) md database ltac:(reflexivity)) as Hi.
  fold insert in Hi. assert (insert.1 = true) as Ha by (vm_compute; reflexivity). destruct insert as [a s']. cbn [fst] in Ha.
  destruct Hi as (_ & _ & _ & _ & Ht). destruct (Ht Ha) as (i & removed & _ & _ & Hl & Hnd). cbn [fst snd].
  split; [exact Ha|]. split; [|exact Hnd]. apply Nat2Z.inj. rewrite Hl. vm_compute. reflexivity.
Defined.

Definition no_filters : SearchFilters := mkFilters 0 0 0 0.
Definition search (key input : string) : option (list MetaData * Z) :=
  gorm_Search false (fun _ => "") unmarshal key "contains" input 10 0 no_filters database.
(** The text is in no row. *)
Theorem sql_search_witness : exists page, search "All" "zzz" = Some (page, 2) /\ search "DiscoveredOn" "2024.01.05" = Some ([], 0).
Proof.
  destruct (search "All" "zzz") as [[page total]|] eqn:E; [|vm_compute in E; discriminate].
  destruct (search "DiscoveredOn" "2024.01.05") as [[page' total']|] eqn:E'; [|vm_compute in E'; discriminate].
  destruct (sql_search false (fun _ => "") unmarshal database "All" "contains" "zzz" no_filters 10 0 page total
    ltac:(discriminate) ltac:(discriminate) E) as (found & _ & _ & -> & _ & _ & Hall & _).
  destruct (sql_search false (fun _ => "") unmarshal database "DiscoveredOn" "contains" "2024.01.05" no_filters 10 0 page' total'
    ltac:(discriminate) ltac:(discriminate) E') as (found' & _ & _ & -> & -> & _ & _ & _ & Hnone).
  exists page. rewrite (Hnone eq_refl) by (do 4 right; left). split; [|reflexivity]. do 2 f_equal.
  rewrite (Permutation_length (Hall ltac:(apply (bool_decide_unpack _); vm_compute; exact I))). vm_compute. reflexivity.
Defined.

Definition ingested : bool * sql * list event :=
  IngestMetadata (H := sql_repository false id elements (fun _ => false) (fun _ => None) (fun _ => "") EncodeToString marshal unmarshal (config 2))
    (fun _ _ => true) (fun _ => None) id elements EncodeToString (fun _ => None) (config 2) (Some [DiscordNotifier "http://d"]) md database.
Theorem sql_date_watch_always_fires_witness :
  Sent (Post "http://d" [("content", Str "Match found: 'new.mkv' contains '2024.01.05'")]) ∈ ingested.2.
Proof.
  pose proof (sql_date_watch_always_fires sql_counts sql_finds sql_deletes false id elements (fun _ => false) (fun _ => None) (fun _ => "")
    EncodeToString marshal unmarshal (config 2) (fun _ _ => true) (fun _ => None) (fun _ => None) "http://d" md database
    (mkWatch "1" "DiscoveredOn" "contains" "2024.01.05") ltac:(discriminate) ltac:(apply (bool_decide_unpack _); vm_compute; exact I)) as H.
  fold ingested in H. assert (ingested.1.1 = true) as Ha by (vm_compute; reflexivity).
  assert (gorm_GetWatchEntries ingested.1.2 = [mkWatch "1" "DiscoveredOn" "contains" "2024.01.05"]) as Hw by (vm_compute; reflexivity).
  destruct ingested as [[a s'] ev]. cbn [fst snd] in *. apply H; [done|].
  cbn [GetWatchEntries sql_repository gorm_repository]. rewrite Hw. left.
Defined.

Theorem sql_row_roundtrip_witness :
  mt_Categories (toMetaData (fun _ => "") unmarshal (with_ID 3 (gorm_row id elements EncodeToString marshal
    (mkMetadata (be_encode 20 7) 4 "new" 8 300 [mkFile 6 "new.mkv"; mkFile 2 "new.txt"])))) =
  Categorize id elements (mkMetadata (be_encode 20 7) 4 "new" 8 300 [mkFile 6 "new.mkv"; mkFile 2 "new.txt"]).
Proof.
  rewrite (sql_row_roundtrip id elements (fun _ => "") EncodeToString marshal unmarshal (fun X => Permutation_refl _)
    _ 3 _ eq_refl). reflexivity.
Defined.

(** The same two torrents in CloverDB. *)
Definition clover_database : Memory.mem :=
  {[TorrentTable := {[1%positive := Demo.torrent 100 4; 2%positive := Demo.torrent 200 6]}]}.
Theorem stats_backends_agree_witness : exists l,
  GetStatsByInterval (document := Memory.row) (1000 * second) "minute" 3 clover_database = Ret l /\
  gorm_GetStatsByInterval (1000 * second) "minute" 3 database = Ret l.
Proof.
  destruct (GetStatsByInterval (document := Memory.row) (1000 * second) "minute" 3 clover_database) as [l| |] eqn:E; [|vm_compute in E; discriminate..].
  exists l. split; [reflexivity|]. rewrite <- E. symmetry.
  apply (stats_backends_agree (contents := Memory.contents)).
  - apply Demo.datedb_dated. vm_compute. reflexivity.
  - unfold same_torrents. vm_compute. apply Permutation_swap || reflexivity.
  - vm_compute. discriminate.
  - vm_compute. discriminate.
Defined.
End SqlDemo.
