(* ===== verification/Distribution.v ===== *)
(** * The distribution of categories, over both back ends

    CloverDB's torrents are gone through one by one and their categories counted; an SQL
    engine counts the rows with the same list of categories, and the program takes the
    lists apart. Over the same torrents both give, for every category, the number of
    torrents that have it (db/clover.go and db/gorm.go, GetCategoryDistribution). *)

From S2P Require Import Prelude Text Config Sink Filters Repo Gorm.
From Stdlib Require Import Ascii.
Open Scope Z_scope.

(** ** Counting into a map *)

Definition occurrences (c : string) (l : list string) : Z := Z.of_nat (length (filter (fun x => x = c) l)).
(** [n] more for every element of the list. *)
Definition tally (n : Z) (l : list string) (m : gmap string Z) : gmap string Z :=
  foldl (fun m cat => <[cat := default 0 (m !! cat) + n]> m) m l.

Lemma tally_value n l m c : default 0 (tally n l m !! c) = default 0 (m !! c) + n * occurrences c l.
Proof.
  unfold tally, occurrences. revert m. induction l as [|x l IH]; intros m; cbn [foldl]; [cbn; lia|].
  rewrite IH, filter_cons. destruct (decide (x = c)) as [->|Hne].
  - rewrite lookup_insert_eq. cbn [default from_option length]. unfold id. lia.
  - by rewrite lookup_insert_ne.
Qed.

(** No entry is zero. *)
Definition positive (m : gmap string Z) : Prop := forall c n, m !! c = Some n -> 0 < n.
Lemma tally_positive n l m : 0 < n -> positive m -> positive (tally n l m).
Proof.
  intros Hn. unfold tally. revert m. induction l as [|x l IH]; intros m Hm; cbn [foldl]; [done|]. apply IH.
  intros c z. destruct (decide (x = c)) as [->|Hne]; [rewrite lookup_insert_eq|rewrite lookup_insert_ne by done; apply Hm].
  intros [= <-]. destruct (m !! c) as [k|] eqn:E; cbn; [apply Hm in E|]; unfold id; lia.
Qed.
Lemma positive_lookup m c z : positive m -> default 0 (m !! c) = z -> m !! c = if z =? 0 then None else Some z.
Proof.
  intros Hm. destruct (m !! c) as [n|] eqn:E; cbn [default from_option]; unfold id; intros <-; [|done].
  apply Hm in E. by rewrite (proj2 (Z.eqb_neq _ _)) by lia.
Qed.

Lemma occurrences_NoDup c l : NoDup l -> occurrences c l = if decide (c ∈ l) then 1 else 0.
Proof.
  unfold occurrences. induction 1 as [|x l Hx Hl IH]; [done|]. rewrite filter_cons. destruct (decide (x = c)) as [->|Hne].
  - cbn [length]. rewrite Nat2Z.inj_succ, IH, decide_False by done. by rewrite decide_True by left.
  - rewrite IH. destruct (decide (c ∈ l)); [rewrite decide_True by (by right)|rewrite decide_False; [|intros [|]%elem_of_cons]]; done.
Qed.

(** ** Sums *)

Definition sum_of {A} (f : A -> Z) (l : list A) : Z := foldr (fun x z => f x + z) 0 l.

Lemma sum_of_perm {A} (f : A -> Z) l k : l ≡ₚ k -> sum_of f l = sum_of f k.
Proof. intros Hp. unfold sum_of. apply (foldr_permutation eq (fun x z => f x + z) 0 l k); [intros; lia|done]. Qed.
Lemma sum_of_fmap {A B} (g : A -> B) (f : B -> Z) l : sum_of f (g <$> l) = sum_of (fun x => f (g x)) l.
Proof. induction l as [|x l IH]; [done|]. cbn. f_equal. exact IH. Qed.
Lemma sum_of_ext {A} (f g : A -> Z) l : (forall x, x ∈ l -> f x = g x) -> sum_of f l = sum_of g l.
Proof. intros Hfg. induction l as [|x l IH]; [done|]. cbn. rewrite Hfg by left. f_equal. apply IH. intros y Hy. apply Hfg. by right. Qed.
Lemma sum_of_filter {A} (P : A -> Prop) `{forall x, Decision (P x)} l :
  sum_of (fun x => if decide (P x) then 1 else 0) l = Z.of_nat (length (filter P l)).
Proof. induction l as [|x l IH]; [done|]. cbn [sum_of foldr]. fold (sum_of (fun x => if decide (P x) then 1 else 0) l). rewrite IH, filter_cons. case_decide; cbn [length]; lia. Qed.

(** A sum over a list, group by group. *)
Lemma sum_of_groups (f : string -> Z) (groups : list (string * Z)) (l : list string) :
  NoDup groups.*1 -> (forall x, x ∈ l -> x ∈ groups.*1) -> Forall (fun r => r.2 = occurrences r.1 l) groups ->
  sum_of (fun r => r.2 * f r.1) groups = sum_of f l.
Proof.
  intros Hnd Hin Hn. transitivity (sum_of (fun r => occurrences r.1 l * f r.1) groups).
  { apply sum_of_ext. intros r Hr. rewrite Forall_forall in Hn. by rewrite Hn. }
  clear Hn. rewrite <- (sum_of_fmap fst (fun g => occurrences g l * f g)). revert Hnd Hin. generalize groups.*1. intros gs Hnd Hin.
  induction l as [|x l IH]; cbn [sum_of foldr].
  { clear. induction gs as [|g gs IH]; [done|]. exact IH. }
  fold (sum_of f l). rewrite <- IH by (intros y Hy; apply Hin; by right). specialize (Hin x ltac:(left)). clear IH.
  induction Hnd as [|g gs Hg Hnd IH]; [by apply not_elem_of_nil in Hin|]. cbn [sum_of foldr].
  fold (sum_of (fun g => occurrences g (x :: l) * f g) gs) (sum_of (fun g => occurrences g l * f g) gs).
  assert (occurrences g (x :: l) = occurrences g l + if decide (x = g) then 1 else 0) as Hx.
  { unfold occurrences. rewrite filter_cons. case_decide; cbn [length]; lia. }
  rewrite Hx. destruct (decide (x = g)) as [->|Hne].
  - assert (sum_of (fun g0 => occurrences g0 (g :: l) * f g0) gs = sum_of (fun g0 => occurrences g0 l * f g0) gs) as ->; [|lia].
    apply sum_of_ext. intros y Hy. f_equal. unfold occurrences. rewrite filter_cons, decide_False; [done|]. by intros ->.
  - apply elem_of_cons in Hin as [?|Hin]; [done|]. rewrite (IH Hin). lia.
Qed.

(** ** The two back ends *)

Section Distributions.
  Context {document store : Type} `{Document document, !Clover document store}
    {contents : store -> string -> list document} `{!CloverLaws document store contents}.
  Context {db : Type} `{GormLaws db}.
  Context (unicode_lower : string -> string) (order : gset string -> list string) (FormatRFC822 : time -> string)
    (hex : list byte -> string) (MarshalFiles : list File -> string).
  Context (order_elements : forall X, order X ≡ₚ elements X).

(** The two databases hold these torrents. *)
Record hold_same (mds : list Metadata) (s : store) (s' : db) : Prop := {
  hs_clover : Forall2 (reads_as unicode_lower order FormatRFC822 hex) (contents s TorrentTable) mds;
  hs_gorm : g_Categories <$> rows s' ≡ₚ (fun md => g_Categories (gorm_row unicode_lower order hex MarshalFiles md)) <$> mds
}.

(** How many of the torrents have the category. *)
Definition having (c : string) (mds : list Metadata) : Z :=
  Z.of_nat (length (filter (fun md => c ∈ Categorize unicode_lower order md) mds)).

Lemma occurrences_category c md : occurrences c (Categorize unicode_lower order md) =
  if decide (c ∈ Categorize unicode_lower order md) then 1 else 0.
Proof. apply occurrences_NoDup. by destruct (Categorize_spec unicode_lower order order_elements md). Qed.

Lemma having_sum c mds : having c mds = sum_of (fun md => occurrences c (Categorize unicode_lower order md)) mds.
Proof. unfold having. rewrite <- sum_of_filter. apply sum_of_ext. intros md _. symmetry. apply occurrences_category. Qed.

(** What one document adds. *)
Lemma add_document (doc : document) md (dist : gmap string Z) : reads_as unicode_lower order FormatRFC822 hex doc md ->
  (let categories :=
     if Has doc "Categories"%string then
       match Get doc "Categories"%string with
       | VStrings l => l
       | VList l => omap (fun item => match item with VString s => Some s | _ => None end) l
       | _ => []
       end
     else if Has doc "Category"%string then [as_string (Get doc "Category"%string)] else [] in
   match categories with
   | [] => <["unknown"%string := default 0 (dist !! "unknown"%string) + 1]> dist
   | _ => foldl (fun dist cat => <[cat := default 0 (dist !! cat) + 1]> dist) dist categories
   end) = tally 1 (Categorize unicode_lower order md) dist.
Proof.
  intros [Hw Hr]. apply (f_equal mt_Categories) in Hr. cbn [mt_Categories Document2MetaData] in Hr.
  destruct (wt_Categories _ Hw) as [Hhas (l & Hl)]. rewrite Hhas in *. cbv zeta.
  destruct (Categorize_spec unicode_lower order order_elements md) as (_ & Hne & _).
  destruct Hl as [Hl|Hl]; rewrite Hl in *; cbn beta iota in *; rewrite ?omap_strings in *; rewrite Hr; by destruct (Categorize _ _ _).
Qed.

Lemma clover_counts mds s m : Forall2 (reads_as unicode_lower order FormatRFC822 hex) (contents s TorrentTable) mds ->
  GetCategoryDistribution s = Some m -> positive m /\ forall c, default 0 (m !! c) = having c mds.
Proof.
  intros Hr Hm. unfold GetCategoryDistribution in Hm. destruct (FindAll _ s) as [docs|] eqn:E; [|done]. cbn [mbind option_bind] in Hm.
  injection Hm as Hm. apply find_all in E as (l & Hl & _ & ->). unfold window in Hm. cbn [q_skip q_limit NewQuery q_match q_collection] in Hl, Hm.
  change (Z.to_nat 0) with 0%nat in Hm. rewrite drop_0 in Hm. rewrite filter_all in Hl by done.
  destruct (Permutation_Forall2 (symmetry Hl) Hr) as (mds' & Hp & Hr'). 
  assert (forall c, having c mds = sum_of (fun md => occurrences c (Categorize unicode_lower order md)) mds') as Hh
    by (intros c; rewrite having_sum; by apply sum_of_perm).
  assert (forall (m0 : gmap string Z), positive m0 -> m = foldl (fun dist md => tally 1 (Categorize unicode_lower order md) dist) m0 mds' -> 
    positive m /\ forall c, default 0 (m !! c) = default 0 (m0 !! c) + sum_of (fun md => occurrences c (Categorize unicode_lower order md)) mds') as Hgo.
  { clear. intros m0 Hp ->. revert m0 Hp. induction mds' as [|md mds IH]; intros m0 Hp; cbn [foldl]; [split; [done|intros c; cbn; lia]|].
    destruct (IH (tally 1 (Categorize unicode_lower order md) m0)) as [H1 H2]; [by apply tally_positive|].
    split; [done|]. intros c. rewrite H2, tally_value. cbn [sum_of foldr]. unfold sum_of. lia. }
  destruct (Hgo ∅) as [? Hv]; [by intros c z; rewrite lookup_empty| |split; [done|intros c; by rewrite Hv, Hh, lookup_empty]].
  rewrite <- Hm. generalize (∅ : gmap string Z). clear -Hr' order_elements. induction Hr' as [|doc md docs mds Hd _ IH]; intros m0; [done|].
  cbn [foldl]. rewrite <- (add_document doc md m0 Hd). apply IH.
Qed.

(** What the program makes of the list of categories in a row. *)
Definition row_categories (g : string) : list string :=
  (fun cat => if decide (cat = ""%string) then "unknown"%string else cat) <$> Split "," g.

Lemma row_categories_join md : row_categories (Join "," (Categorize unicode_lower order md)) = Categorize unicode_lower order md.
Proof.
  destruct (Categorize_names unicode_lower order order_elements md) as [Hne Hn]. unfold row_categories.
  assert (forall cat, cat ∈ "Unknown"%string :: "Other"%string :: categories.*1 ->
    cat <> ""%string /\ no_char (fun c => Ascii.eqb c ",") cat = true) as Hc.
  { intros cat Hcat. repeat (apply elem_of_cons in Hcat as [->|Hcat]; [by split|]). by apply not_elem_of_nil in Hcat. }
  rewrite Split_Join; [|done|eapply Forall_impl; [exact Hn|]; intros cat ?; by apply Hc].
  rewrite <- (list_fmap_id (Categorize unicode_lower order md)) at 2. apply list_fmap_ext. intros i cat Hi. rewrite decide_False; [done|].
  apply Hc. rewrite Forall_forall in Hn. apply Hn. by eapply list_elem_of_lookup_2.
Qed.

Lemma gorm_counts mds s m :
  g_Categories <$> rows s ≡ₚ (fun md => g_Categories (gorm_row unicode_lower order hex MarshalFiles md)) <$> mds ->
  (forall t t', t ∈ rows s -> t' ∈ rows s -> text_eq (g_Categories t) (g_Categories t') = true -> g_Categories t = g_Categories t') ->
  gorm_GetCategoryDistribution s = Some m -> positive m /\ forall c, default 0 (m !! c) = having c mds.
Proof.
  intros Hs Hcol Hm. unfold gorm_GetCategoryDistribution in Hm. destruct (CountCategories s) as [l|] eqn:E; [|done].
  cbn [mbind option_bind] in Hm. injection Hm as Hm. apply categories_ok in E as (Hnd & Hg & Hn); [|done].
  assert (forall l (m0 : gmap string Z), Forall (fun r : string * Z => 0 < r.2) l -> positive m0 ->
    let m := foldl (fun dist res => foldl (fun dist cat => let cat := if decide (cat = ""%string) then "unknown"%string else cat in
      <[cat := default 0 (dist !! cat) + res.2]> dist) dist (Split "," res.1)) m0 l in
    positive m /\ forall c, default 0 (m !! c) = default 0 (m0 !! c) + sum_of (fun r => r.2 * occurrences c (row_categories r.1)) l) as Hgo.
  { clear. intros l m0 Hl. revert m0. induction Hl as [|r l Hr _ IH]; intros m0 Hp; cbn [foldl]; [split; [done|intros c; cbn; lia]|].
    set (m1 := foldl _ m0 (Split "," r.1)). assert (m1 = tally r.2 (row_categories r.1) m0) as Hm1.
    { unfold m1, tally, row_categories. by rewrite foldl_fmap. }
    rewrite Hm1. destruct (IH (tally r.2 (row_categories r.1) m0)) as [H1 H2]; [by apply tally_positive|]. split; [done|].
    intros c. cbv zeta in H2. rewrite H2, tally_value. cbn [sum_of foldr]. unfold sum_of. lia. }
  assert (forall g, Z.of_nat (length (filter (fun t => g_Categories t = g) (rows s))) = occurrences g (g_Categories <$> rows s)) as Hocc.
  { intros g. unfold occurrences. clear. f_equal. induction (rows s) as [|t l IH]; [done|]. cbn [fmap list_fmap]. rewrite !filter_cons.
    repeat case_decide; cbn [length]; congruence. }
  destruct (Hgo l ∅) as [Hp Hv].
  - apply Forall_forall. intros r Hr. rewrite Forall_forall in Hn. rewrite (Hn r Hr). destruct (filter _ _) eqn:Ef; [|cbn; lia].
    exfalso. assert (r.1 ∈ g_Categories <$> rows s) as (t & Ht & Hin)%list_elem_of_fmap by (apply (proj1 (Hg r.1)), list_elem_of_fmap; by exists r).
    assert (t ∈ filter (fun t => g_Categories t = r.1) (rows s)) as Hf by (by apply list_elem_of_filter).
    rewrite Ef in Hf. by apply not_elem_of_nil in Hf.
  - by intros c z; rewrite lookup_empty.
  - cbv zeta in Hp, Hv, Hm. rewrite Hm in Hp, Hv. split; [done|]. intros c. rewrite Hv, lookup_empty, having_sum. cbn [default from_option]. rewrite Z.add_0_l.
    rewrite (sum_of_groups (fun g => occurrences c (row_categories g)) l (g_Categories <$> rows s)); [|done|intros x; apply (proj2 (Hg x))|].
    + rewrite (sum_of_perm _ _ _ Hs), sum_of_fmap. apply sum_of_ext. intros md _. cbn [gorm_row g_Categories]. by rewrite row_categories_join.
    + eapply Forall_impl; [exact Hn|]. intros r ->. apply Hocc.
Qed.

(** C18: Over the same torrents the two back ends give the same distribution of categories,
    whenever neither database fails and the collation of the column tells the lists of
    categories apart: a category is in it exactly when a torrent has it, with the number
    of the torrents that do. *)
Theorem categories_agree (mds : list Metadata) (s : store) (s' : db) (m m' : gmap string Z) :
  hold_same mds s s' ->
  (forall t t', t ∈ rows s' -> t' ∈ rows s' -> text_eq (g_Categories t) (g_Categories t') = true -> g_Categories t = g_Categories t') ->
  GetCategoryDistribution s = Some m -> gorm_GetCategoryDistribution s' = Some m' ->
  m = m' /\ forall c, m !! c = if having c mds =? 0 then None else Some (having c mds).
Proof.
  intros [Hc Hg] Hcol Hm Hm'. destruct (clover_counts mds s m Hc Hm) as [P1 V1]. destruct (gorm_counts mds s' m' Hg Hcol Hm') as [P2 V2].
  assert (forall c, m !! c = if having c mds =? 0 then None else Some (having c mds)) as Hval by (intros c; by apply positive_lookup).
  split; [|done]. apply map_eq. intros c. rewrite Hval. symmetry. by apply positive_lookup.
Qed.
End Distributions.

(** ** Two torrents in both databases *)

Module DistributionDemo.
Import Memory SqlMemory.
#[local] Open Scope string_scope.

Definition film : Metadata := mkMetadata (be_encode 20 7) 4 "film" 6 300 [mkFile 6 "film.mkv"].
Definition mixed : Metadata := mkMetadata (be_encode 20 8) 4 "mixed" 8 400 [mkFile 6 "new.mkv"; mkFile 2 "song.mp3"].
Definition torrents : list Metadata := [mixed; film].
Definition config : Configuration := ConfigDemo.defaults.
Definition marshal (_ : list File) : string := "[...]".

Definition in_clover : mem :=
  foldr (fun md s => (InsertMetadata_ id elements (fun _ => false) (fun _ => None) EncodeToString config md s).2) ∅ torrents.
Definition in_sql : sql :=
  foldr (fun md s => (gorm_InsertMetadata id elements (fun _ => false) (fun _ => None) EncodeToString marshal config md s).2)
    (mkSql ∅ [] [] []) torrents.

Theorem categories_agree_witness : exists m, GetCategoryDistribution in_clover = Some m /\
  gorm_GetCategoryDistribution in_sql = Some m /\
  m !! "Video"%string = Some 2 /\ m !! "Audio"%string = Some 1 /\ m !! "Software"%string = None.
Proof.
  destruct (GetCategoryDistribution in_clover) as [m|] eqn:E; [|discriminate E].
  destruct (gorm_GetCategoryDistribution in_sql) as [m'|] eqn:E'; [|discriminate E'].
  destruct (categories_agree (contents := contents) id elements (fun _ => ""%string) EncodeToString marshal ltac:(done)
    torrents in_clover in_sql m m') as [Hm Hv].
  - split; [|vm_compute; apply perm_swap].
    destruct (contents in_clover TorrentTable) as [|d1 [|d2 [|]]] eqn:Ec; vm_compute in Ec; [discriminate Ec|discriminate Ec| |discriminate Ec].
    injection Ec as <- <-. repeat constructor; vm_compute; eauto.
  - intros t t' _ _. apply String.eqb_eq.
  - exact E.
  - exact E'.
  - exists m. split; [reflexivity|]. split; [by rewrite Hm|]. rewrite !Hv. vm_compute. auto.
Defined.
End DistributionDemo.
