(* ===== verification/Downloader.v ===== *)
(** * Downloader clients (downloader/downloader.go, ui/downloader.go)

    The four remote downloaders. A remote service is a state and a function from
    requests to answers, so that the second request of an exchange can depend on the
    first; the requests that were made are logged. JSON bodies are given decoded. *)

From S2P Require Import Prelude Text Config.
Open Scope Z_scope.

(** ** HTTP *)

Inductive jvalue : Type :=
  | JStr (s : string)
  | JNum (z : Z)
  | JList (l : list jvalue)
  | JObj (fields : list (string * jvalue)).

Inductive payload : Type :=
  | NoBody
  | JSON (v : jvalue)
  | Form (fields : list (string * string)).

Definition cookie : Type := string * string.
Record hreq : Type := mkReq {
  rq_Method : string;
  rq_URL : string;
  rq_BasicAuth : option (string * string);
  rq_Session : option string;             (* X-Transmission-Session-Id *)
  rq_Cookies : list cookie;
  rq_Body : payload
}.

(** The body of an answer, as the decoders of the code see it: [None] is not JSON; the
    raw text of ["error"] is empty when the field is absent. *)
Record rpc : Type := mkRpc { Result : bool; Error : string }.
Record hresp : Type := mkResp {
  StatusCode : Z;
  rs_Session : string;
  Cookies : list cookie;
  rs_JSON : option rpc;
  rs_Text : string
}.

Inductive derror : Type :=
  | RequestError                      (* no request could be built, or no answer came *)
  | Conflict
  | NoSession                         (* no session id or cookie was obtained *)
  | Status (code : Z)
  | InvalidResponse
  | RPCError (text : string)
  | AuthenticationFailed
  | Unsupported (name : string).

Section Downloaders.
  (** A remote service; [None] is a failure of the request. *)
  Context {server : Type} (serve : hreq -> server -> option hresp * server).

(** Computations that talk to it; the exchanges are logged. *)
Definition exchange : Type := hreq * option hresp.
Definition M (A : Type) : Type := server * list exchange -> A * (server * list exchange).
#[local] Instance M_ret : MRet M := fun A a s => (a, s).
#[local] Instance M_bind : MBind M := fun A B f m s => let '(a, s) := m s in f a s.

Definition Do (r : hreq) : M (option hresp) := fun '(s, log) =>
  let '(resp, s) := serve r s in (resp, (s, log ++ [(r, resp)])).

(** ** Transmission *)

Record TransmissionClient : Type := mkTransmission { tr_URL : string; tr_User : string; tr_Pass : string; SessionID : string }.

(** One pass of the loop of [call]: the error and the client with its session id. *)
Definition transmission_once (v : jvalue) (c : TransmissionClient) : M (option derror * TransmissionClient) :=
  resp ← Do (mkReq "POST" (tr_URL c)
    (if decide (tr_User c = ""%string) then None else Some (tr_User c, tr_Pass c))
    (if decide (SessionID c = ""%string) then None else Some (SessionID c)) [] (JSON v));
  mret match resp with
  | None => (Some RequestError, c)
  | Some resp =>
      if StatusCode resp =? 409 then (Some Conflict, mkTransmission (tr_URL c) (tr_User c) (tr_Pass c) (rs_Session resp))
      else if negb (StatusCode resp =? 200) then (Some (Status (StatusCode resp)), c)
      else (None, c)
  end.

Fixpoint transmission_loop (n : nat) (v : jvalue) (c : TransmissionClient) : M (option derror * TransmissionClient) :=
  match n with
  | O => mret (Some NoSession, c)
  | S n =>
      r ← transmission_once v c;
      match r with
      | (None, c) => mret (None, c)
      | (Some Conflict, c) => transmission_loop n v c
      | (Some e, c) => mret (Some e, c)
      end
  end.
Definition transmission_call : jvalue -> TransmissionClient -> M (option derror * TransmissionClient) := transmission_loop 2.

Definition transmission_test : TransmissionClient -> M (option derror * TransmissionClient) :=
  transmission_call (JObj [("method", JStr "session-get")]).
Definition transmission_add (magnet : string) : TransmissionClient -> M (option derror * TransmissionClient) :=
  transmission_call (JObj [("method", JStr "torrent-add"); ("arguments", JObj [("filename", JStr magnet)])]).

(** ** Aria2 *)

Record Aria2Client : Type := mkAria2 { ar_URL : string; ar_Token : string }.

(** Is an ["error"] field present and not null? *)
Definition has_error (e : string) : bool := bool_decide (e <> ""%string) && bool_decide (e <> "null"%string).

Definition aria2_call (method : string) (methodParams : list jvalue) (c : Aria2Client) : M (option derror) :=
  let params := (if decide (ar_Token c = ""%string) then [] else [JStr ("token:" +:+ ar_Token c)]) ++ methodParams in
  resp ← Do (mkReq "POST" (ar_URL c) None None []
    (JSON (JObj [("jsonrpc", JStr "2.0"); ("id", JStr "dhtc"); ("method", JStr method); ("params", JList params)])));
  mret match resp with
  | None => Some RequestError
  | Some resp =>
      if negb (StatusCode resp =? 200) then Some (Status (StatusCode resp))
      else match rs_JSON resp with
      | None => Some InvalidResponse
      | Some result => if has_error (Error result) then Some (RPCError (Error result)) else None
      end
  end.
Definition aria2_test : Aria2Client -> M (option derror) := aria2_call "aria2.getVersion" [].
Definition aria2_add (magnet : string) : Aria2Client -> M (option derror) := aria2_call "aria2.addUri" [JList [JStr magnet]].

(** ** Deluge *)

Record DelugeClient : Type := mkDeluge { de_URL : string; de_Pass : string }.

Definition deluge_login (c : DelugeClient) : M (derror + list cookie) :=
  resp ← Do (mkReq "POST" (de_URL c) None None []
    (JSON (JObj [("id", JNum 1); ("method", JStr "auth.login"); ("params", JList [JStr (de_Pass c)])])));
  mret match resp with
  | None => inl RequestError
  | Some resp =>
      if negb (StatusCode resp =? 200) then inl (Status (StatusCode resp))
      else match rs_JSON resp with
      | None => inl InvalidResponse
      | Some loginResult =>
          if has_error (Error loginResult) then inl (RPCError (Error loginResult))
          else if negb (Result loginResult) then inl AuthenticationFailed
          else inr (filter (fun cookie => cookie.1 = "_session_id"%string) (Cookies resp))
      end
  end.
Definition deluge_test (c : DelugeClient) : M (option derror) :=
  r ← deluge_login c; mret match r with inl e => Some e | inr _ => None end.
Definition deluge_add (magnet : string) (c : DelugeClient) : M (option derror) :=
  r ← deluge_login c;
  match r with
  | inl e => mret (Some e)
  | inr cookies =>
      resp ← Do (mkReq "POST" (de_URL c) None None cookies
        (JSON (JObj [("id", JNum 2); ("method", JStr "core.add_torrent_magnet"); ("params", JList [JStr magnet; JObj []])])));
      mret match resp with
      | None => Some RequestError
      | Some resp => if negb (StatusCode resp =? 200) then Some (Status (StatusCode resp)) else None
      end
  end.

(** ** qBittorrent *)

Record QBittorrentClient : Type := mkQBittorrent { qb_URL : string; qb_User : string; qb_Pass : string }.

Definition qb_url (c : QBittorrentClient) (path : string) : string := TrimRight_slash (qb_URL c) +:+ path.
(** The body is cut to 1024 bytes before it is compared. *)
Definition qb_login (c : QBittorrentClient) : M (derror + list cookie) :=
  resp ← Do (mkReq "POST" (qb_url c "/api/v2/auth/login") None None []
    (Form [("username", qb_User c); ("password", qb_Pass c)]%string));
  mret match resp with
  | None => inl RequestError
  | Some resp =>
      if negb (StatusCode resp =? 200) || negb (bool_decide (TrimSpace (String.substring 0 1024 (rs_Text resp)) = "Ok."%string))
      then inl AuthenticationFailed
      else
        match filter (fun cookie => cookie.1 = "SID"%string) (Cookies resp) with
        | [] => inl NoSession
        | cookies => inr cookies
        end
  end.
(** The request after the login. *)
Definition qb_request (method path : string) (body : payload) (c : QBittorrentClient) : M (option derror) :=
  r ← qb_login c;
  match r with
  | inl e => mret (Some e)
  | inr cookies =>
      resp ← Do (mkReq method (qb_url c path) None None cookies body);
      mret match resp with
      | None => Some RequestError
      | Some resp => if negb (StatusCode resp =? 200) then Some (Status (StatusCode resp)) else None
      end
  end.
Definition qb_test : QBittorrentClient -> M (option derror) := qb_request "GET" "/api/v2/app/version" NoBody.
Definition qb_add (magnet : string) : QBittorrentClient -> M (option derror) :=
  qb_request "POST" "/api/v2/torrents/add" (Form [("urls", magnet)]%string).

(** ** The web part's use of them *)

(** What an interface value of type [TestableClient] holds. *)
Inductive TestableClient : Type :=
  | Transmission (c : TransmissionClient)
  | Aria2 (c : Aria2Client)
  | Deluge (c : DelugeClient)
  | QBittorrent (c : QBittorrentClient).

(** A client lives for one operation, so the session id it learns is dropped with it. *)
Definition TestConnection (c : TestableClient) : M (option derror) :=
  match c with
  | Transmission c => r ← transmission_test c; mret (r.1)
  | Aria2 c => aria2_test c
  | Deluge c => deluge_test c
  | QBittorrent c => qb_test c
  end.
Definition AddMagnet (magnet : string) (c : TestableClient) : M (option derror) :=
  match c with
  | Transmission c => r ← transmission_add magnet c; mret (r.1)
  | Aria2 c => aria2_add magnet c
  | Deluge c => deluge_add magnet c
  | QBittorrent c => qb_add magnet c
  end.

Definition downloaderClient (configuration : Configuration) (name : string) : derror + TestableClient :=
  if decide (name = "transmission"%string) then
    inr (Transmission (mkTransmission (TransmissionURL configuration) (TransmissionUser configuration) (TransmissionPass configuration) ""))
  else if decide (name = "aria2"%string) then inr (Aria2 (mkAria2 (Aria2URL configuration) (Aria2Token configuration)))
  else if decide (name = "deluge"%string) then inr (Deluge (mkDeluge (DelugeURL configuration) (DelugePass configuration)))
  else if decide (name = "qbittorrent"%string) then
    inr (QBittorrent (mkQBittorrent (QBittorrentURL configuration) (QBittorrentUser configuration) (QBittorrentPass configuration)))
  else inl (Unsupported name).

Definition configuredDownloaderURL (configuration : Configuration) (name : string) : string :=
  if decide (name = "transmission"%string) then TransmissionURL configuration
  else if decide (name = "aria2"%string) then Aria2URL configuration
  else if decide (name = "deluge"%string) then DelugeURL configuration
  else if decide (name = "qbittorrent"%string) then QBittorrentURL configuration
  else ""%string.

(** The downloaders are tested in turn until one fails. *)
Fixpoint test_loop (configuration : Configuration) (names : list string) : M (option (string * derror)) :=
  match names with
  | [] => mret None
  | name :: names =>
      if decide (TrimSpace (configuredDownloaderURL configuration name) = ""%string) then test_loop configuration names
      else
        match downloaderClient configuration name with
        | inl _ => mret None  (* a nil client; does not happen for these names *)
        | inr client =>
            e ← TestConnection client;
            match e with
            | Some e => mret (Some (name, e))
            | None => test_loop configuration names
            end
        end
  end.
Definition downloaders : list string := ["transmission"; "aria2"; "deluge"; "qbittorrent"]%string.
Definition testConfiguredDownloaders (configuration : Configuration) : M (option (string * derror)) :=
  test_loop configuration downloaders.

(** The answers of the handlers. *)
Inductive download_response : Type :=
  | BadRequest              (* 400: a parameter is missing or the form cannot be bound *)
  | InternalError (e : derror)  (* 500 *)
  | BadGateway (e : derror)     (* 502 *)
  | OK.                         (* 200 *)

Definition handleDownload (magnet : string) (client : TestableClient) : M download_response :=
  if decide (magnet = ""%string) then mret BadRequest
  else
    e ← AddMagnet magnet client;
    mret match e with Some e => InternalError e | None => OK end.

(** [SendToTransmission], [SendToAria2], [SendToDeluge] and [SendToQBittorrent]: a nil
    client is never used. *)
Definition SendTo (configuration : Configuration) (name magnet : string) : M download_response :=
  match downloaderClient configuration name with
  | inl _ => mret BadRequest  (* does not happen for the four names *)
  | inr client => handleDownload magnet client
  end.

(** [candidate] is the bound form, [None] when that fails. *)
Definition TestDownloader (candidate : option Configuration) (name : string) : M download_response :=
  match candidate with
  | None => mret BadRequest
  | Some candidate =>
      if decide (TrimSpace (configuredDownloaderURL candidate name) = ""%string) then mret BadRequest
      else
        match downloaderClient candidate name with
        | inl e => mret (BadGateway e)
        | inr client => e ← TestConnection client; mret match e with Some e => BadGateway e | None => OK end
        end
  end.

(** ** Theorems *)

Definition ok (r : option hresp) : bool := match r with Some r => StatusCode r =? 200 | None => false end.
Definition conflict (r : option hresp) : bool := match r with Some r => StatusCode r =? 409 | None => false end.

(** The request of one pass. *)
Definition transmission_request (v : jvalue) (c : TransmissionClient) (session : string) : hreq :=
  mkReq "POST" (tr_URL c) (if decide (tr_User c = ""%string) then None else Some (tr_User c, tr_Pass c))
    (if decide (session = ""%string) then None else Some session) [] (JSON v).

(** A call to Transmission makes one request, and a second one exactly when the
    first was answered 409, which then carries the session id of that answer and is
    otherwise the same; the call succeeds exactly when the last answer is 200. *)
Theorem transmission_retries_once (v : jvalue) (c : TransmissionClient) (s : server) (log : list exchange) :
  let '((e, _), (_, log')) := transmission_call v c (s, log) in
  exists first, let r1 := transmission_request v c (SessionID c) in
    if conflict first then
      exists second, log' = log ++ [(r1, first); (transmission_request v c (default ""%string (rs_Session <$> first)), second)] /\
        (e = None <-> ok second = true) /\ (conflict second = true -> e = Some NoSession)
    else log' = log ++ [(r1, first)] /\ (e = None <-> ok first = true).
Proof.
  unfold transmission_call. cbn [transmission_loop]. unfold transmission_once, mbind, M_bind, mret, M_ret, Do.
  fold (transmission_request v c (SessionID c)). destruct (serve _ s) as [first s1] eqn:E1.
  destruct first as [first|]; [|exists None; cbn; split; [done|split; congruence]].
  destruct (StatusCode first =? 409) eqn:E409.
  - cbn [tr_URL tr_User tr_Pass SessionID]. fold (transmission_request v c (rs_Session first)).
    destruct (serve _ s1) as [second s2].
    destruct second as [second|]; [destruct (StatusCode second =? 409) eqn:E4; [|destruct (StatusCode second =? 200) eqn:E2]|];
      cbn [negb]; exists (Some first); cbn [conflict]; rewrite E409; [exists (Some second)..|exists None]; cbn [ok conflict];
      rewrite <- app_assoc; (split; [done|split; [split|]; congruence || (try rewrite E2); try congruence; intros; lia]).
  - destruct (StatusCode first =? 200) eqn:E2; cbn [negb]; exists (Some first); cbn [conflict ok]; rewrite E409, E2;
      (split; [done|split; congruence]).
Qed.

(** What a login must be answered, and the cookies that it gives. *)
Definition deluge_accepted (r : option hresp) : bool :=
  ok r && match r ≫= rs_JSON with Some j => negb (has_error (Error j)) && Result j | None => false end.
Definition session (name : string) (r : option hresp) : list cookie :=
  match r with Some r => filter (fun cookie => cookie.1 = name) (Cookies r) | None => [] end.
Definition qb_accepted (r : option hresp) : bool :=
  ok r && match r with Some r => bool_decide (TrimSpace (String.substring 0 1024 (rs_Text r)) = "Ok."%string) | None => false end &&
  bool_decide (session "SID" r <> []).

Definition deluge_request (c : DelugeClient) (cookies : list cookie) (id : Z) (method : string) (params : list jvalue) : hreq :=
  mkReq "POST" (de_URL c) None None cookies (JSON (JObj [("id", JNum id); ("method", JStr method); ("params", JList params)]%string)).
Definition login_request (cl : TestableClient) : option hreq :=
  match cl with
  | Deluge c => Some (deluge_request c [] 1 "auth.login" [JStr (de_Pass c)])
  | QBittorrent c => Some (mkReq "POST" (qb_url c "/api/v2/auth/login") None None []
      (Form [("username", qb_User c); ("password", qb_Pass c)]%string))
  | _ => None
  end.
Definition accepted (cl : TestableClient) (r : option hresp) : bool :=
  match cl with Deluge _ => deluge_accepted r | QBittorrent _ => qb_accepted r | _ => false end.
(** The request with the magnet link, under the session of a login's answer. *)
Definition magnet_request (cl : TestableClient) (magnet : string) (login : option hresp) : option hreq :=
  match cl with
  | Deluge c => Some (deluge_request c (session "_session_id" login) 2 "core.add_torrent_magnet" [JStr magnet; JObj []])
  | QBittorrent c => Some (mkReq "POST" (qb_url c "/api/v2/torrents/add") None None (session "SID" login) (Form [("urls", magnet)]%string))
  | _ => None
  end.

Lemma deluge_login_spec c s log :
  let '(r1, s1) := serve (deluge_request c [] 1 "auth.login" [JStr (de_Pass c)]) s in
  exists res, deluge_login c (s, log) = (res, (s1, log ++ [(deluge_request c [] 1 "auth.login" [JStr (de_Pass c)], r1)])) /\
    (if deluge_accepted r1 then res = inr (session "_session_id" r1) else exists e, res = inl e).
Proof.
  unfold deluge_login, mbind, M_bind, mret, M_ret, Do. fold (deluge_request c [] 1 "auth.login" [JStr (de_Pass c)]).
  destruct (serve _ s) as [r1 s1]. eexists. split; [reflexivity|]. unfold deluge_accepted.
  destruct r1 as [r1|]; [|by eexists]. cbn [ok mbind option_bind].
  destruct (StatusCode r1 =? 200); cbn [negb andb]; [|by eexists].
  destruct (rs_JSON r1) as [j|]; [|by eexists]. destruct (has_error (Error j)); cbn [negb andb]; [by eexists|].
  destruct (Result j); [done|by eexists].
Qed.

Lemma qb_login_spec c s log :
  let rq := mkReq "POST" (qb_url c "/api/v2/auth/login") None None [] (Form [("username", qb_User c); ("password", qb_Pass c)]%string) in
  let '(r1, s1) := serve rq s in
  exists res, qb_login c (s, log) = (res, (s1, log ++ [(rq, r1)])) /\
    (if qb_accepted r1 then res = inr (session "SID" r1) else exists e, res = inl e).
Proof.
  cbv zeta. unfold qb_login, mbind, M_bind, mret, M_ret, Do.
  destruct (serve _ s) as [r1 s1]. eexists. split; [reflexivity|]. unfold qb_accepted.
  destruct r1 as [r1|]; [|by eexists]. cbn [ok session].
  destruct (StatusCode r1 =? 200); cbn [negb andb orb]; [|by eexists].
  destruct (bool_decide _); cbn [negb andb]; [|by eexists].
  destruct (filter _ _); [|done]. by eexists.
Qed.

(** The magnet link reaches Deluge and qBittorrent only under a session: the first
    request is the login; when it is not accepted nothing else is sent and the
    operation fails; when it is, one request carries the link with the cookies of that
    answer, and the operation succeeds exactly when that is answered 200, whatever
    else the answer says. *)
Theorem magnet_needs_login (magnet : string) (cl : TestableClient) (s : server) (log : list exchange) (rq : hreq) :
  login_request cl = Some rq ->
  let '(e, (_, log')) := AddMagnet magnet cl (s, log) in
  exists r1,
    if accepted cl r1 then
      exists rq2 r2, magnet_request cl magnet r1 = Some rq2 /\ log' = log ++ [(rq, r1); (rq2, r2)] /\ (e = None <-> ok r2 = true)
    else log' = log ++ [(rq, r1)] /\ e <> None.
Proof.
  assert (forall r : option hresp, (match r with None => Some RequestError | Some resp =>
    if negb (StatusCode resp =? 200) then Some (Status (StatusCode resp)) else None end = None :> option derror) <-> ok r = true) as Hok.
  { intros [r|]; cbn [ok]; [destruct (StatusCode r =? 200); cbn [negb]|]; by split. }
  destruct cl as [c|c|c|c]; cbn [login_request AddMagnet]; [done|done| |]; intros [= <-].
  - unfold deluge_add, mbind, M_bind. pose proof (deluge_login_spec c s log) as Hl. destruct (serve _ s) as [r1 s1].
    destruct Hl as (res & -> & Hres). cbn [accepted magnet_request]. destruct (deluge_accepted r1) eqn:E.
    + subst res. unfold Do, mret, M_ret. fold (deluge_request c (session "_session_id" r1) 2 "core.add_torrent_magnet" [JStr magnet; JObj []]).
      destruct (serve _ s1) as [r2 s2]. exists r1. rewrite E. eexists _, r2. rewrite <- app_assoc. split; [reflexivity|]. split; [reflexivity|]. by apply Hok.
    + destruct Hres as [e ->]. exists r1. by rewrite E.
  - unfold qb_add, qb_request, mbind, M_bind. pose proof (qb_login_spec c s log) as Hl. cbv zeta in Hl. destruct (serve _ s) as [r1 s1].
    destruct Hl as (res & -> & Hres). cbn [accepted magnet_request]. destruct (qb_accepted r1) eqn:E.
    + subst res. unfold Do, mret, M_ret.
      destruct (serve _ s1) as [r2 s2]. exists r1. rewrite E. eexists _, r2. rewrite <- app_assoc. split; [reflexivity|]. split; [reflexivity|]. by apply Hok.
    + destruct Hres as [e ->]. exists r1. by rewrite E.
Qed.

End Downloaders.

(** ** A witness *)

Module DownloaderDemo.
(** A Deluge that lets one in and then refuses the link, with status 200. *)
Definition deluge (r : hreq) (n : nat) : option hresp * nat :=
  (Some (mkResp 200 "" [("_session_id", "s")]%string (Some (if (n =? 0)%nat then mkRpc true "" else mkRpc false "bad magnet")) ""), S n).
Definition client : TestableClient := Deluge (mkDeluge "http://d" "secret").
Definition login : hreq := mkReq "POST" "http://d" None None []
  (JSON (JObj [("id", JNum 1); ("method", JStr "auth.login"); ("params", JList [JStr "secret"])]%string)).

Theorem magnet_needs_login_witness : (AddMagnet deluge "m" client (0%nat, [])).1 = None.
Proof.
  pose proof (magnet_needs_login deluge "m" client 0%nat [] login eq_refl) as H.
  destruct (AddMagnet deluge "m" client (0%nat, [])) as [e [s' log']] eqn:E. destruct H as (r1 & H).
  destruct (accepted client r1) eqn:Ea.
  - destruct H as (rq2 & r2 & _ & -> & He). apply He. vm_compute in E. injection E; intros; by subst r2.
  - destruct H as (-> & _). vm_compute in E. discriminate.
Defined.
End DownloaderDemo.
