(* ===== verification/Manager.v ===== *)
(** * The DHT manager (dhtc-client/managers.go)

    The manager owns one indexing service per endpoint and the channel of results.
    The callbacks of the services run inside their handlers: a step of a service
    is followed here by its calls of OnResult, which go to the channel or are
    dropped, and by its calls of OnBootstrapCandidate, which make the IPv6 service
    probe the address. The consumer of [Output] is the crawl loop of Crawl.v. *)

From S2P Require Import Prelude NetAddr Codec RoutingTable Requests Transport Protocol Indexing Text Config.
Open Scope Z_scope.

Record ListenEndpoint : Type := mkEndpoint {
  Network : string; Address : string; CachePath : string; Bootstrap : list string
}.

Record Manager : Type := mkManager {
  output : list IndexingResult;                  (* the channel, of capacity 1024 *)
  indexingServices : list IndexingService;
  m_done : bool;
  outputDropped : Z;
  produced : list IndexingResult;                (* all calls of onIndexingResult *)
  taken : list IndexingResult                    (* what the consumer has received *)
}.

Definition outputCap : nat := 1024.

Definition set_services (l : list IndexingService) (m : Manager) : Manager :=
  mkManager (output m) l (m_done m) (outputDropped m) (produced m) (taken m).

(** The last service of [NewManager]'s loop whose network is udp6. *)
Fixpoint ipv6Service_from (i : nat) (l : list IndexingService) (found : option nat) : option nat :=
  match l with
  | [] => found
  | s :: l' => ipv6Service_from (S i) l' (if String.eqb (network s) "udp6" then Some i else found)
  end.
Definition ipv6Service (l : list IndexingService) : option nat := ipv6Service_from 0 l None.

(** [candidate.want] and [OnBootstrapCandidate] of an IPv4 service. *)
Definition wire (s : IndexingService) : IndexingService :=
  mkService (protocol s) (network s) ["n4"%string; "n6"%string] (cachePath s) (started s) (interval s) (hasOnResult s)
    true (done s) (nodeID s) (routingTable s) (reqs s) (probeCache s)
    (nextRoutingTableSave s) (draws s) (results s) (candidates s) (panicked s) (cacheFile s).

Definition wire_all (l : list IndexingService) : list IndexingService :=
  match ipv6Service l with
  | None => l
  | Some _ => (fun s => if negb (String.eqb (network s) "udp4") then s else wire s) <$> l
  end.

(** What [NewManager] draws and reads for one service: the token secret, the node
    ID and the decoded cache file. *)
Record seed : Type := mkSeed { secret : list byte; id : list byte; file : option (list routingCacheEntry) }.

Section Manager.
  Context `{AddrText}.

Definition NewManager (e : env) (endpoints : list (ListenEndpoint * seed)) (interval : duration)
    (maxNeighbors rateLimit : Z) : go unit Manager :=
  let services := (fun es => NewIndexingService (Network es.1) (Address es.1) (CachePath es.1) interval
    maxNeighbors rateLimit true false (secret es.2) (id es.2) (file es.2)) <$> endpoints in
  services ← go_seq (Start e <$> wire_all services);
  Ret (mkManager [] services false 0 [] []).

(** [choice] settles the select when the manager is done and the channel has room. *)
Definition onIndexingResult (choice : bool) (m : Manager) (res : IndexingResult) : Manager :=
  let send := mkManager (output m ++ [res]) (indexingServices m) (m_done m) (outputDropped m) (produced m ++ [res]) (taken m) in
  let return_ := mkManager (output m) (indexingServices m) (m_done m) (outputDropped m) (produced m ++ [res]) (taken m) in
  match m_done m, (length (output m) <? outputCap)%nat with
  | true, true => if choice then send else return_
  | true, false => return_
  | false, true => send
  | false, false =>
      mkManager (output m) (indexingServices m) (m_done m) (u64 (outputDropped m + 1)) (produced m ++ [res]) (taken m)
  end.

(** The closure [NewManager] stores in OnBootstrapCandidate. *)
Definition onBootstrapCandidate (e : env) (m : Manager) (addr : AddrPort) : Manager :=
  match ipv6Service (indexingServices m) with
  | None => m
  | Some j =>
      match indexingServices m !! j with
      | None => m
      | Some s6 =>
          if ContainsAddr (routingTable s6) addr then m
          else set_services (<[j := probeBootstrapCandidate e addr s6]> (indexingServices m)) m
      end
  end.

(** A step of service [i] from [s] to [s'], with its callbacks. *)
Definition service_step (choice : bool) (e : env) (i : nat) (s s' : IndexingService) (m : Manager) : Manager :=
  let m := set_services (<[i := s']> (indexingServices m)) m in
  let m := foldl (onIndexingResult choice) m (drop (length (results s)) (results s')) in
  foldl (onBootstrapCandidate e) m (drop (length (candidates s)) (candidates s')).

Definition OutputDropped (m : Manager) : Z := outputDropped m.

Fixpoint pending_loop (nw : time) (l : list IndexingService) : nat * list IndexingService :=
  match l with
  | [] => (0%nat, [])
  | s :: l' =>
      let '(n, rq) := pendingGetPeersRequests nw (reqs s) in
      let '(total, l') := pending_loop nw l' in
      ((n + total)%nat, set_reqs rq s :: l')
  end.
Definition PendingGetPeersRequests (nw : time) (m : Manager) : nat * Manager :=
  let '(total, l) := pending_loop nw (indexingServices m) in (total, set_services l m).

Definition total_of (f : requests -> Z) (m : Manager) : Z :=
  foldl (fun total s => u64 (total + f (reqs s))) 0 (indexingServices m).
Definition RejectedGetPeersRequests : Manager -> Z := total_of requestsRejected.
Definition DedupedGetPeersRequests : Manager -> Z := total_of requestsDeduped.
Definition DroppedGetPeersSends : Manager -> Z := total_of requestsSendDropped.

(** [<-m.Output()] *)
Definition Output (m : Manager) : option (IndexingResult * Manager) :=
  match output m with
  | res :: rest =>
      Some (res, mkManager rest (indexingServices m) (m_done m) (outputDropped m) (produced m) (taken m ++ [res]))
  | [] => None
  end.

Definition Manager_Terminate (saved : bool) (m : Manager) : Manager :=
  if m_done m then m
  else mkManager (output m) (Terminate saved <$> indexingServices m) true (outputDropped m) (produced m) (taken m).

(** [crawlerEndpoints] of ui/crawler.go. *)
Definition crawlerEndpoints (unicode_lower : string -> string) (configuration : Configuration)
    (bootstrap4 : list string) : list ListenEndpoint :=
  let udp4 := mkEndpoint "udp4" (ListenIPv4 configuration) (RoutingTableCacheIPv4 configuration) bootstrap4 in
  if decide (NormalizeNetworkMode unicode_lower (NetworkMode configuration) = NetworkModeDual)
  then [udp4; mkEndpoint "udp6" (ListenIPv6 configuration) (RoutingTableCacheIPv6 configuration) []]
  else [udp4].

Section Steps.
  Context (SplitHostPort : string -> option (string * string)) (Atoi : string -> option Z)
    (LookupIP : string -> option (list (list byte))) (sha1 : list byte -> list byte).

Inductive mg_step (m : Manager) : Manager -> Prop :=
  | mg_service choice e i s s' : indexingServices m !! i = Some s ->
      is_step SplitHostPort Atoi LookupIP sha1 s s' -> mg_step m (service_step choice e i s s' m)
  | mg_pending nw : 0 <= nw -> mg_step m (PendingGetPeersRequests nw m).2
  | mg_output res m' : Output m = Some (res, m') -> mg_step m m'
  | mg_terminate saved : mg_step m (Manager_Terminate saved m).
End Steps.
End Manager.

(** ** The invariant *)

(** Nothing is invented, reordered or duplicated; until the end everything that is
    not delivered is counted. *)
Record channel_inv (m : Manager) : Prop := {
  inv_cap : (length (output m) <= outputCap)%nat;
  inv_order : (taken m ++ output m) `sublist_of` produced m;
  inv_dropped : m_done m = false ->
    outputDropped m = u64 (Z.of_nat (length (produced m)) - Z.of_nat (length (taken m ++ output m)))
}.

Record mg_inv (m : Manager) : Prop := {
  inv_channel : channel_inv m;
  inv_services : Forall is_inv (indexingServices m)
}.

Lemma channel_inv_services l m : channel_inv m -> channel_inv (set_services l m).
Proof. intros []. by split. Qed.

Lemma onIndexingResult_inv choice m res :
  channel_inv m -> channel_inv (onIndexingResult choice m res).
Proof.
  intros [H1 H2 H3].
  assert (channel_inv (mkManager (output m) (indexingServices m) true (outputDropped m) (produced m ++ [res]) (taken m))) as Hret.
  { split; [done| |done]. cbn [output taken produced]. by apply sublist_inserts_r. }
  assert ((length (output m) < outputCap)%nat -> channel_inv (mkManager (output m ++ [res]) (indexingServices m) (m_done m)
    (outputDropped m) (produced m ++ [res]) (taken m))) as Hsend.
  { intros Hl. split; cbn [output taken produced m_done outputDropped].
    - rewrite length_app. cbn [length]. lia.
    - rewrite app_assoc. by apply sublist_app.
    - intros Hd. rewrite (H3 Hd). f_equal. rewrite !length_app. cbn [length]. lia. }
  unfold onIndexingResult. destruct (m_done m) eqn:Hd, (Nat.ltb_spec (length (output m)) outputCap) as [Hl|Hl].
  - destruct choice; [by apply Hsend|done].
  - done.
  - by apply Hsend.
  - split; [done| |].
    + cbn [output taken produced]. by apply sublist_inserts_r.
    + intros _. cbn [output taken produced outputDropped]. rewrite (H3 eq_refl). unfold u64.
      rewrite Zplus_mod_idemp_l. f_equal. rewrite (length_app (produced m)). cbn [length]. lia.
Qed.

Lemma onIndexingResult_services choice m res : indexingServices (onIndexingResult choice m res) = indexingServices m.
Proof. unfold onIndexingResult. by destruct (m_done m), (_ <? _)%nat, choice. Qed.

Lemma onBootstrapCandidate_inv e m addr : mg_inv m -> mg_inv (onBootstrapCandidate e m addr).
Proof.
  intros Hi. unfold onBootstrapCandidate. destruct (ipv6Service _) as [j|]; [|done].
  destruct (indexingServices m !! j) as [s6|] eqn:Hj; [|done]. destruct (ContainsAddr _ _); [done|].
  destruct Hi as [Hc Hs]. split; [by apply channel_inv_services|].
  cbn [indexingServices set_services]. apply Forall_insert; [done|]. apply is_inv_probe.
  rewrite Forall_lookup in Hs. by apply (Hs j).
Qed.

Lemma pending_loop_inv nw l :
  0 <= nw -> Forall is_inv l -> Forall is_inv (pending_loop nw l).2.
Proof.
  intros Hn. induction 1 as [|s l Hs _ IH]; [done|]. cbn [pending_loop]. unfold pendingGetPeersRequests.
  cbv zeta. cbn [fst snd]. destruct (pending_loop nw l) as [total l']. cbn [snd] in *. constructor; [|done].
  apply is_inv_set_reqs; [done|]. apply expire_inv; [apply Hs|done].
Qed.

Section Invariant.
  Context `{AddrText} (SplitHostPort : string -> option (string * string)) (Atoi : string -> option Z)
    (LookupIP : string -> option (list (list byte))) (sha1 : list byte -> list byte).

Lemma Terminate_inv saved s : is_inv s -> is_inv (Terminate saved s).
Proof. intros Hs. eapply (is_inv_step sha1 SplitHostPort Atoi LookupIP); [exact Hs|apply is_terminate]. Qed.

Lemma mg_step_inv m m' :
  mg_inv m -> mg_step SplitHostPort Atoi LookupIP sha1 m m' -> mg_inv m'.
Proof.
  intros [Hc Hs] [choice e i s s' Hi Hst|nw Hn|res m'' Ho|saved].
  - unfold service_step. apply foldl_inv; [intros; by apply onBootstrapCandidate_inv|].
    apply foldl_inv.
    + intros m1 res _ [Hc1 Hs1]. split; [by apply onIndexingResult_inv|by rewrite onIndexingResult_services].
    + split; [by apply channel_inv_services|]. cbn [indexingServices set_services]. apply Forall_insert; [done|].
      eapply is_inv_step; [|exact Hst]. rewrite Forall_lookup in Hs. by apply (Hs i).
  - unfold PendingGetPeersRequests. pose proof (pending_loop_inv nw _ Hn Hs) as Hp. destruct (pending_loop _ _) as [total l].
    split; [by apply channel_inv_services|done].
  - unfold Output in Ho. destruct Hc as [H1 H2 H3]. destruct (output m) as [|r rest] eqn:E; [done|].
    injection Ho as _ <-. split; [|done].
    assert (forall t, (t ++ [r]) ++ rest = t ++ r :: rest) as Ha by (intros; by rewrite <- app_assoc).
    split; cbn [output taken produced m_done outputDropped]; rewrite ?Ha; [cbn [length] in H1; lia|done|done].
  - unfold Manager_Terminate. destruct (m_done m); [done|]. destruct Hc as [H1 H2 H3]. split.
    + by split.
    + cbn. apply Forall_fmap. eapply Forall_impl; [exact Hs|]. intros s Hsi. by apply Terminate_inv.
Qed.

(** ** Construction *)

Lemma loadEntry_frame nw s entry :
  network (loadEntry nw s entry) = network s /\ want (loadEntry nw s entry) = want s /\
  hasOnBootstrapCandidate (loadEntry nw s entry) = hasOnBootstrapCandidate s /\ started (loadEntry nw s entry) = started s.
Proof.
  unfold loadEntry. destruct (hex_DecodeString _); [|done]. destruct (negb _); [done|].
  destruct (ParseAddrPort _); [|done]. by destruct (acceptsAddress _ _).
Qed.

Lemma Start_frame e s s' :
  Start e s = Ret s' ->
  network s' = network s /\ want s' = want s /\ hasOnBootstrapCandidate s' = hasOnBootstrapCandidate s /\ started s' = true.
Proof.
  unfold Start. destruct (started s); [done|].
  assert (forall l s1, let s2 := foldl (loadEntry (now e)) s1 l in
    network s2 = network s1 /\ want s2 = want s1 /\ hasOnBootstrapCandidate s2 = hasOnBootstrapCandidate s1 /\ started s2 = started s1) as Hl.
  { induction l as [|entry l IH]; intros s1; cbn [foldl]; [done|].
    destruct (IH (loadEntry (now e) s1 entry)) as (-> & -> & -> & ->). apply loadEntry_frame. }
  set (s1 := loadRoutingTable e _).
  assert (network s1 = network s /\ want s1 = want s /\ hasOnBootstrapCandidate s1 = hasOnBootstrapCandidate s /\ started s1 = true) as Hs1.
  { unfold s1, loadRoutingTable. destruct (cacheFile _) as [l|]; [|done]. apply (Hl l (set_lifecycle true (done s) s)). }
  clearbody s1. destruct (Protocol_Start _); [|done..]. by intros [= <-].
Qed.

Lemma ipv6Service_from_is_Some i l found :
  is_Some (ipv6Service_from i l found) <-> is_Some found \/ Exists (fun s => network s = "udp6"%string) l.
Proof.
  revert i found; induction l as [|s l IH]; intros i found; cbn [ipv6Service_from].
  - rewrite Exists_nil. tauto.
  - rewrite IH, Exists_cons. destruct (String.eqb_spec (network s) "udp6"); [|tauto].
    split; [tauto|]. intros _. left. by eexists.
Qed.

(** A network has both families as soon as one of its endpoints is IPv6. *)
Definition wanted (dual : bool) (net : string) : list string :=
  if String.eqb net "udp4" then if dual then ["n4"; "n6"]%string else ["n4"%string]
  else if String.eqb net "udp6" then ["n6"%string] else ["n4"%string].

Lemma wire_all_spec l :
  Forall (fun s => want s = wanted false (network s) /\ hasOnBootstrapCandidate s = false /\ is_inv s) l ->
  let dual := bool_decide (Exists (fun s => network s = "udp6"%string) l) in
  network <$> wire_all l = network <$> l /\
  Forall (fun s => want s = wanted dual (network s) /\
    hasOnBootstrapCandidate s = dual && String.eqb (network s) "udp4" /\ is_inv s) (wire_all l).
Proof.
  intros Hl dual. unfold wire_all. destruct (ipv6Service l) as [j|] eqn:Hj.
  - assert (dual = true) as ->.
    { apply bool_decide_eq_true. destruct (ipv6Service_from_is_Some 0 l None) as [Hd _].
      unfold ipv6Service in Hj. rewrite Hj in Hd. by destruct Hd as [[]|]. }
    split.
    + rewrite <- list_fmap_compose. apply list_fmap_ext. intros i s _. unfold compose. by destruct (String.eqb _ _).
    + apply Forall_fmap. eapply Forall_impl; [exact Hl|]. intros s (Hw & Hb & Hi). unfold compose.
      destruct (String.eqb (network s) "udp4") eqn:E; cbn [negb].
      * unfold wanted. cbn [want network wire hasOnBootstrapCandidate]. rewrite E. split; [done|]. split; [done|].
        by apply (is_inv_eq s).
      * rewrite Hw, E. split; [unfold wanted; by rewrite E|done].
  - assert (dual = false) as ->.
    { apply bool_decide_eq_false. intros He. destruct (ipv6Service_from_is_Some 0 l None) as [_ Hd].
      destruct Hd as [x Hx]; [by right|]. unfold ipv6Service in Hj. congruence. }
    split; [done|]. eapply Forall_impl; [exact Hl|]. intros s (? & ? & ?). done.
Qed.

Lemma NewManager_services e endpoints interval maxNeighbors rateLimit m :
  NewManager e endpoints interval maxNeighbors rateLimit = Ret m ->
  let dual := bool_decide (Exists (fun es => Network es.1 = "udp6"%string) endpoints) in
  mg_inv m /\ output m = [] /\ m_done m = false /\
  network <$> indexingServices m = (fun es => Network es.1) <$> endpoints /\
  Forall (fun s => started s /\ want s = wanted dual (network s) /\
    hasOnBootstrapCandidate s = dual && String.eqb (network s) "udp4") (indexingServices m).
Proof.
  intros Hm dual. unfold NewManager in Hm.
  set (l := (fun es => NewIndexingService _ _ _ _ _ _ _ _ _ _ _) <$> endpoints) in Hm.
  assert (network <$> l = (fun es => Network es.1) <$> endpoints) as Hnet.
  { unfold l. rewrite <- list_fmap_compose. by apply list_fmap_ext. }
  assert (Forall (fun s => want s = wanted false (network s) /\ hasOnBootstrapCandidate s = false /\ is_inv s) l) as Hl.
  { unfold l. apply Forall_fmap, Forall_forall. intros es _. unfold compose. cbn [want network NewIndexingService hasOnBootstrapCandidate].
    split; [|split; [done|]].
    - unfold wanted. destruct (String.eqb_spec (Network es.1) "udp6") as [->|]; [done|]. by destruct (String.eqb _ _).
    - eapply (service_invariant sha1 SplitHostPort Atoi LookupIP). apply star_refl. }
  destruct (wire_all_spec l Hl) as [Hw1 Hw2].
  assert (bool_decide (Exists (fun s => network s = "udp6"%string) l) = dual) as Hdual.
  { apply bool_decide_ext. unfold l. rewrite Exists_fmap. done. }
  rewrite Hdual in Hw2. rewrite Hnet in Hw1.
  destruct (go_seq (Start e <$> wire_all l)) as [services|err|] eqn:Hs; [|done..]. injection Hm as <-.
  apply go_seq_ret in Hs. cbn [indexingServices output m_done].
  revert services Hs Hw1. generalize ((fun es : ListenEndpoint * seed => Network es.1) <$> endpoints).
  revert Hw2. generalize (wire_all l). intros ws Hw2.
  assert (forall services, Start e <$> ws = Ret <$> services ->
    network <$> services = network <$> ws /\ Forall is_inv services /\
    Forall (fun s => started s /\ want s = wanted dual (network s) /\
      hasOnBootstrapCandidate s = dual && String.eqb (network s) "udp4") services) as Hgo.
  { induction Hw2 as [|s ws (H1 & H2 & H3) _ IH]; intros [|s' services] Hs; try done.
    injection Hs as Hs Hss. destruct (Start_frame e s s' Hs) as (E1 & E2 & E3 & E4).
    destruct (IH services Hss) as (I1 & I2 & I3). cbn [fmap list_fmap]. rewrite E1. split; [by f_equal|]. split.
    - constructor; [by eapply is_inv_Start|done].
    - constructor; [|done]. rewrite E1, E2, E3, E4. done. }
  intros nets services Hs Hw1. destruct (Hgo services Hs) as (I1 & I2 & I3).
  split; [|split; [done|split; [done|split; [by rewrite I1|done]]]].
  split; [|done]. split; [cbn; lia|done|]. intros _. done.
Qed.

(** C32: In every history of a manager: every service keeps its invariant; the
    channel never holds more than 1024 results; the consumer receives a
    subsequence, in order, of what the services reported; and until the manager is
    terminated OutputDropped is exactly the number of results that were lost. *)
Theorem manager_invariant (e : env) (endpoints : list (ListenEndpoint * seed)) (interval : duration)
    (maxNeighbors rateLimit : Z) (m0 m : Manager) :
  NewManager e endpoints interval maxNeighbors rateLimit = Ret m0 ->
  star (mg_step SplitHostPort Atoi LookupIP sha1) m0 m -> mg_inv m.
Proof.
  intros H0 Hs. eapply star_inv; [exact mg_step_inv|exact Hs|]. by eapply NewManager_services.
Qed.

(** The manager made for the endpoints of a configuration serves IPv4 always and
    IPv6 exactly when the network mode is dual (or the old ipv6); every service is
    started; in dual mode the IPv4 service asks for nodes of both families and
    passes IPv6 nodes on, otherwise it asks for IPv4 nodes only. *)
Theorem manager_families (unicode_lower : string -> string) (c : Configuration) (bootstrap4 : list string)
    (e : env) (seeds : list seed) (interval : duration) (maxNeighbors rateLimit : Z) (m : Manager) :
  (length seeds = length (crawlerEndpoints unicode_lower c bootstrap4))%nat ->
  NewManager e (zip (crawlerEndpoints unicode_lower c bootstrap4) seeds) interval maxNeighbors rateLimit = Ret m ->
  let dual := bool_decide (NormalizeNetworkMode unicode_lower (NetworkMode c) = NetworkModeDual) in
  network <$> indexingServices m = (if dual then ["udp4"; "udp6"] else ["udp4"])%string /\
  Forall (fun s => started s /\ want s = wanted dual (network s) /\
    hasOnBootstrapCandidate s = dual && String.eqb (network s) "udp4") (indexingServices m).
Proof.
  intros Hl Hm dual. apply NewManager_services in Hm as (_ & _ & _ & Hn & Hf).
  assert ((fun es : ListenEndpoint * seed => Network es.1) <$> zip (crawlerEndpoints unicode_lower c bootstrap4) seeds =
    Network <$> crawlerEndpoints unicode_lower c bootstrap4) as Hz.
  { rewrite <- (fst_zip (crawlerEndpoints unicode_lower c bootstrap4) seeds) at 2 by lia. by rewrite <- list_fmap_compose. }
  rewrite Hz in Hn.
  assert (bool_decide (Exists (fun es : ListenEndpoint * seed => Network es.1 = "udp6"%string)
    (zip (crawlerEndpoints unicode_lower c bootstrap4) seeds)) = dual) as Hd.
  { apply bool_decide_ext. rewrite <- (Exists_fmap (fun es : ListenEndpoint * seed => Network es.1) (fun n => n = "udp6"%string)).
    rewrite Hz. unfold crawlerEndpoints. case_decide as E; cbn [fmap list_fmap Network];
      rewrite !Exists_cons, Exists_nil; split; try tauto; try done.
    intros [?|?]; done. }
  rewrite Hd in Hf. split; [|done]. rewrite Hn. unfold dual, crawlerEndpoints.
  destruct (decide (NormalizeNetworkMode unicode_lower (NetworkMode c) = NetworkModeDual)) as [E|E].
  - by rewrite bool_decide_true.
  - by rewrite bool_decide_false.
Qed.
End Invariant.

(** ** A dual-stack manager that is told of a peer *)

#[local] Existing Instance demo_text.

Definition demo_seed : seed := mkSeed zero20 zero20 None.
Definition demo_endpoints : list (ListenEndpoint * seed) :=
  [(mkEndpoint "udp4" "0.0.0.0:0" "v4" [], demo_seed); (mkEndpoint "udp6" "[::]:0" "v6" [], demo_seed)].
Definition demo_made : Manager :=
  match NewManager (demo_env 0) demo_endpoints (10 * second) 100 10 with
  | Ret m => m | _ => mkManager [] [] false 0 [] [] end.
Definition demo_service : IndexingService := default (demo_new None) (indexingServices demo_made !! 0%nat).
(** A find_node response with one IPv6 node. *)
Definition demo_node6 : AddrPort := AddrPortFrom (Addr6 (2 ^ 120) "") 6881.
Definition demo_found : Message :=
  Protocol.response aa (mkResp demo_id [] [mkNodeInfo demo_hash demo_node6] [] [] 0 0 [] []).
Definition demo_after : Manager :=
  service_step true (demo_env 1) 0 demo_service (receive demo_sha (demo_env 1) demo_found demo_peer demo_service) demo_made.

Theorem manager_invariant_witness :
  mg_inv demo_after /\
  (fun s => length (ch_items (controlChan (transport (protocol s))))) <$> indexingServices demo_after = [1%nat; 1%nat].
Proof.
  split; [|vm_compute; reflexivity].
  apply (manager_invariant no_split no_atoi no_lookup demo_sha (demo_env 0) demo_endpoints (10 * second) 100 10 demo_made).
  - vm_compute. reflexivity.
  - eapply star_step; [|apply star_refl].
    apply (mg_service _ _ _ _ _ true (demo_env 1) 0 demo_service); [vm_compute; reflexivity|].
    apply is_receive. vm_compute. discriminate.
Defined.

Definition demo_lower (s : string) : string := s.
Definition demo_dual (mode : string) : Configuration :=
  ConfigDemo.defaults <| NetworkMode := mode |>.

Theorem manager_families_witness :
  exists m, NewManager (demo_env 0) (zip (crawlerEndpoints demo_lower (demo_dual " Dual") []) [demo_seed; demo_seed])
    (10 * second) 100 10 = Ret m /\ network <$> indexingServices m = ["udp4"; "udp6"]%string.
Proof.
  destruct (NewManager (demo_env 0) (zip (crawlerEndpoints demo_lower (demo_dual " Dual") []) [demo_seed; demo_seed])
    (10 * second) 100 10) as [m|err|] eqn:E; [|vm_compute in E; discriminate E..].
  exists m. split; [reflexivity|].
  destruct (manager_families no_split no_atoi no_lookup demo_sha demo_lower (demo_dual " Dual") []
    (demo_env 0) [demo_seed; demo_seed] (10 * second) 100 10 m ltac:(reflexivity) E) as [H _].
  rewrite H. reflexivity.
Defined.
