(* ===== verification/Crawler.v ===== *)
(** * The crawler manager (ui/crawler.go)

    Module [Schedule] is the daily time window: reading a clock time and telling
    whether an instant is inside the window and when that changes next, for a
    location with a fixed offset from UTC. The rest is [CrawlerManager]: every
    method is one critical section of [mu]; the stop channels are numbered in the
    order they are made, [closed] are those that were closed, and the goroutines
    of [stopAfter] are the entries of [timers]. The loop that a started crawler
    runs is in Crawl.v. *)

From S2P Require Import Prelude Text Config.
From Stdlib Require Import Ascii String.
Open Scope Z_scope.

Module Schedule.

Definition digit (a : ascii) : option Z :=
  let n := Z.of_nat (nat_of_ascii a) in
  if (48 <=? n) && (n <=? 57) then Some (n - 48) else None.

(** A number of one or two digits, of two if [fixed] (package time). *)
Definition getnum (s : string) (fixed : bool) : option (Z * string) :=
  match s with
  | String a s1 =>
      d ← digit a;
      match s1 with
      | String b s2 =>
          match digit b with
          | Some e => Some (d * 10 + e, s2)
          | None => if fixed then None else Some (d, s1)
          end
      | EmptyString => if fixed then None else Some (d, s1)
      end
  | EmptyString => None
  end.

(** [time.Parse("15:04", value)]: hour and minute. *)
Definition Parse_15_04 (value : string) : option (Z * Z) :=
  '(h, r) ← getnum value false;
  if 24 <=? h then None
  else
    match r with
    | String ":" r =>
        '(m, r) ← getnum r true;
        if 60 <=? m then None
        else match r with EmptyString => Some (h, m) | _ => None end
    | _ => None
    end.

Definition parseClockMinutes (value : string) : option Z :=
  '(h, m) ← Parse_15_04 (TrimSpace value);
  Some (h * 60 + m).

Section Location.
  (** The offset of [now.Location()] from UTC. *)
  Context (offset : duration).

Definition Hour (t : time) : Z := (t + offset) mod day / hour.
Definition Minute (t : time) : Z := (t + offset) mod hour / minute.
(** [time.Date(t.Year(), t.Month(), t.Day(), h, m, 0, 0, t.Location())] *)
Definition Date_of_day (t : time) (h m : Z) : time :=
  (t + offset) / day * day + h * hour + m * minute - offset.

Definition scheduleState (now : time) (startText endText : string) : bool * time :=
  match parseClockMinutes startText, parseClockMinutes endText with
  | Some startMinute, Some endMinute =>
      if startMinute =? endMinute then (false, 0)
      else
        let m := Hour now * 60 + Minute now in
        let inside :=
          if startMinute <? endMinute then (startMinute <=? m) && (m <? endMinute)
          else (startMinute <=? m) || (m <? endMinute) in
        let nextMinute := if inside then endMinute else startMinute in
        let next := Date_of_day now (nextMinute / 60) (nextMinute mod 60) in
        let next := if negb (now <? next) then next + day else next in
        (inside, next)
  | _, _ => (false, 0)
  end.
End Location.

(** ** Lemmas *)

Lemma digit_range a d : digit a = Some d -> 0 <= d <= 9.
Proof.
  unfold digit. destruct (_ && _) eqn:E; [|done]. intros [= <-].
  apply andb_true_iff in E as [?%Z.leb_le ?%Z.leb_le]. lia.
Qed.

Lemma getnum_range s fixed n r : getnum s fixed = Some (n, r) -> 0 <= n <= 99.
Proof.
  intros H. destruct s as [|a s]; [done|]. cbn [getnum] in H.
  destruct (digit a) as [d|] eqn:Hd; [|done]. apply digit_range in Hd. cbn [mbind option_bind] in H.
  destruct s as [|b s]; [destruct fixed; [done|]; injection H as <- <-; lia|].
  destruct (digit b) as [e|] eqn:He; [apply digit_range in He; injection H as <- <-; lia|].
  destruct fixed; [done|]. injection H as <- <-. lia.
Qed.

Lemma parseClockMinutes_range s m : parseClockMinutes s = Some m -> 0 <= m < 1440.
Proof.
  unfold parseClockMinutes, Parse_15_04. intros H.
  destruct (getnum _ false) as [[h r]|] eqn:Hh; [|done]. cbn [mbind option_bind] in H.
  apply getnum_range in Hh. destruct (Z.leb_spec 24 h); [done|].
  destruct r as [|[[] [] [] [] [] [] [] []] r]; try done.
  destruct (getnum r true) as [[m' r']|] eqn:Hm; [|done]. apply getnum_range in Hm. cbn [mbind option_bind] in H.
  destruct (Z.leb_spec 60 m'); [done|]. destruct r'; [|done]. injection H as <-. lia.
Qed.

(** The parts of an instant: day, minute of the day, and the rest. *)
Lemma clock_parts offset t :
  exists D m r, t + offset = D * day + m * minute + r /\ 0 <= m < 1440 /\ 0 <= r < minute /\
    Hour offset t * 60 + Minute offset t = m /\ (t + offset) / day = D.
Proof.
  unfold Hour, Minute. set (L := t + offset). set (D := L / day).
  pose proof (Z.div_mod L day ltac:(done)) as HD. pose proof (Z.mod_pos_bound L day ltac:(done)) as Hd.
  fold D in HD. set (x := L mod day) in *.
  pose proof (Z.div_mod x hour ltac:(done)) as Hx. pose proof (Z.mod_pos_bound x hour ltac:(done)) as Hh.
  assert (L mod hour = x mod hour) as ->.
  { rewrite HD. change day with (24 * hour). replace (24 * hour * D + x) with (x + (24 * D) * hour) by lia.
    apply Z.mod_add. done. }
  set (y := x mod hour) in *. set (h := x / hour) in *.
  pose proof (Z.div_mod y minute ltac:(done)) as Hy. pose proof (Z.mod_pos_bound y minute ltac:(done)) as Hm.
  exists D, (h * 60 + y / minute), (y mod minute).
  change day with 86400000000000 in *. change hour with 3600000000000 in *. change minute with 60000000000 in *.
  repeat split; lia.
Qed.

(** For a valid window of two different times, the next change is after now and
    at most a day away; the crawler is inside exactly when the time elapsed since
    the start of the window, around midnight if need be, is less than the length
    of the window; that does not change before the next change, and changes
    there. Every other pair of texts gives no window at all. *)
Theorem scheduleState_spec (offset : duration) (now : time) (startText endText : string) :
  match parseClockMinutes startText, parseClockMinutes endText with
  | Some s, Some e =>
      if s =? e then scheduleState offset now startText endText = (false, 0)
      else
        let '(inside, next) := scheduleState offset now startText endText in
        let m := Hour offset now * 60 + Minute offset now in
        now < next <= now + day /\
        inside = ((m - s) mod 1440 <? (e - s) mod 1440) /\
        (forall t, now <= t < next -> (scheduleState offset t startText endText).1 = inside) /\
        (scheduleState offset next startText endText).1 = negb inside
  | _, _ => scheduleState offset now startText endText = (false, 0)
  end.
Proof.
  unfold scheduleState. destruct (parseClockMinutes startText) as [s|] eqn:Hs; [|done].
  destruct (parseClockMinutes endText) as [e|] eqn:He; [|done].
  apply parseClockMinutes_range in Hs, He. destruct (Z.eqb_spec s e) as [|Hne]; [done|].
  set (In := fun m : Z => if s <? e then (s <=? m) && (m <? e) else (s <=? m) || (m <? e)).
  assert (forall m, 0 <= m < 1440 -> In m = ((m - s) mod 1440 <? (e - s) mod 1440)) as HIn.
  { intros m Hm. pose proof (Z.div_mod (m - s) 1440 ltac:(done)). pose proof (Z.div_mod (e - s) 1440 ltac:(done)).
    pose proof (Z.mod_pos_bound (m - s) 1440 ltac:(done)). pose proof (Z.mod_pos_bound (e - s) 1440 ltac:(done)).
    unfold In. destruct (Z.ltb_spec s e), (Z.leb_spec s m), (Z.ltb_spec m e); cbn [andb orb]; symmetry;
      (apply Z.ltb_lt || apply Z.ltb_ge); lia. }
  destruct (clock_parts offset now) as (D & m & r & Hnow & Hm & Hr & -> & HD).
  fold (In m). set (n := if In m then e else s).
  assert (0 <= n < 1440) as Hn by (unfold n; by destruct (In m)).
  set (next := if _ : bool then _ else _).
  assert (next + offset = (if n <=? m then D + 1 else D) * day + n * minute) as Hnext.
  { unfold next, Date_of_day. rewrite HD.
    pose proof (Z.div_mod n 60 ltac:(done)). pose proof (Z.mod_pos_bound n 60 ltac:(done)).
    change day with 86400000000000 in *. change hour with 3600000000000 in *. change minute with 60000000000 in *.
    destruct (Z.ltb_spec now (D * 86400000000000 + n / 60 * 3600000000000 + n mod 60 * 60000000000 - offset)),
      (Z.leb_spec n m); cbn [negb]; lia. }
  clearbody next. split; [|split; [by apply HIn|split]].
  - change day with 86400000000000 in *. change minute with 60000000000 in *.
    destruct (Z.leb_spec n m); [|lia]. split; [lia|].
    assert (In n = negb (In m)).
    { unfold n, In. destruct (Z.ltb_spec s e), (Z.leb_spec s m), (Z.ltb_spec m e); cbn [andb orb negb];
        destruct (Z.leb_spec s s), (Z.ltb_spec s e), (Z.leb_spec s e), (Z.ltb_spec e e); cbn [andb orb]; lia. }
    assert (n <> m) by (intros ->; by destruct (In m)). lia.
  - intros t Ht. destruct (clock_parts offset t) as (D' & m' & r' & Htt & Hm' & Hr' & -> & _). cbn [fst]. fold (In m').
    change day with 86400000000000 in *. change minute with 60000000000 in *.
    unfold n, In in *. destruct (Z.ltb_spec s e), (Z.leb_spec s m), (Z.ltb_spec m e); cbn [andb orb] in *;
      destruct (Z.leb_spec s m'), (Z.ltb_spec m' e); cbn [andb orb]; try done; exfalso;
      repeat match goal with H : context [if ?b <=? ?c then _ else _] |- _ => destruct (Z.leb_spec b c) end; lia.
  - destruct (clock_parts offset next) as (D' & m' & r' & Htt & Hm' & Hr' & -> & _). cbn [fst]. fold (In m').
    assert (m' = n) as ->.
    { change day with 86400000000000 in *. change minute with 60000000000 in *. destruct (Z.leb_spec n m); lia. }
    unfold n, In. destruct (Z.ltb_spec s e), (Z.leb_spec s m), (Z.ltb_spec m e); cbn [andb orb negb];
      destruct (Z.leb_spec s s), (Z.ltb_spec s e), (Z.leb_spec s e), (Z.ltb_spec e e); cbn [andb orb]; lia.
Qed.

Example daytime : parseClockMinutes " 9:00" = Some 540 /\ parseClockMinutes "24:00" = None /\
  parseClockMinutes "7:5" = None /\ parseClockMinutes "18:00x" = None.
Proof. repeat split. Qed.
End Schedule.

(** ** The manager *)

Record CrawlerManager : Type := mkCrawlerManager {
  configuration : Configuration;
  stop : option nat;                 (* the open stop channel *)
  startedAt : time;
  autoStopAt : time;
  threads : Z;
  running : bool;
  manualOverride : bool;
  manualRun : bool;
  manualUntil : time;
  made : nat;                        (* the stop channels made so far *)
  closed : gset nat;
  timers : list (nat * time)         (* the goroutines of stopAfter and when they are due *)
}.

Definition NewCrawlerManager (configuration : Configuration) : CrawlerManager :=
  mkCrawlerManager configuration None 0 0 0 false false false 0 0 ∅ [].

Definition set_override (o r : bool) (u : time) (m : CrawlerManager) : CrawlerManager :=
  mkCrawlerManager (configuration m) (stop m) (startedAt m) (autoStopAt m) (threads m) (running m)
    o r u (made m) (closed m) (timers m).
Definition set_configuration (c : Configuration) (m : CrawlerManager) : CrawlerManager :=
  mkCrawlerManager c (stop m) (startedAt m) (autoStopAt m) (threads m) (running m)
    (manualOverride m) (manualRun m) (manualUntil m) (made m) (closed m) (timers m).
Definition set_timers (l : list (nat * time)) (m : CrawlerManager) : CrawlerManager :=
  mkCrawlerManager (configuration m) (stop m) (startedAt m) (autoStopAt m) (threads m) (running m)
    (manualOverride m) (manualRun m) (manualUntil m) (made m) (closed m) l.

Section Manager.
  (** The offset of the local time zone from UTC. *)
  Context (offset : duration).

Definition startLocked (now : time) (m : CrawlerManager) : bool * CrawlerManager :=
  if running m || OnlyWebServer (configuration m) then (false, m)
  else
    let threads := CrawlerThreads (configuration m) in
    let threads := if threads <? 1 then 1 else threads in
    let ch := made m in
    let minutes := CrawlerAutoStopMinutes (configuration m) in
    let autoStopAt := if 0 <? minutes then now + i64 (minutes * minute) else 0 in
    (true, mkCrawlerManager (configuration m) (Some ch) now autoStopAt threads true
             (manualOverride m) (manualRun m) (manualUntil m) (S ch) (closed m)
             (if 0 <? minutes then timers m ++ [(ch, autoStopAt)] else timers m)).

(** Closing a channel that is nil or closed panics. *)
Definition stopLocked (m : CrawlerManager) : go unit (bool * CrawlerManager) :=
  if negb (running m) then Ret (false, m)
  else
    match stop m with
    | None => Panic
    | Some ch =>
        if bool_decide (ch ∈ closed m) then Panic
        else Ret (true, mkCrawlerManager (configuration m) None (startedAt m) 0 (threads m) false
                   (manualOverride m) (manualRun m) (manualUntil m) (made m) ({[ch]} ∪ closed m) (timers m))
    end.

Definition setManualOverrideAtLocked (now : time) (run : bool) (m : CrawlerManager) : CrawlerManager :=
  let c := configuration m in
  if negb (CrawlerScheduleEnabled c) then m
  else
    let '(_, next) := Schedule.scheduleState offset now (CrawlerScheduleStart c) (CrawlerScheduleEnd c) in
    if IsZero next then m else set_override true run next m.

(** [Start] and [Stop]. *)
Definition Crawler_Start (now : time) (m : CrawlerManager) : bool * CrawlerManager :=
  startLocked now (setManualOverrideAtLocked now true m).
Definition Crawler_Stop (now : time) (m : CrawlerManager) : go unit (bool * CrawlerManager) :=
  stopLocked (setManualOverrideAtLocked now false m).

Definition ReconcileSchedule (now : time) (m : CrawlerManager) : go unit CrawlerManager :=
  let c := configuration m in
  if OnlyWebServer c || negb (CrawlerScheduleEnabled c) then Ret (set_override false (manualRun m) 0 m)
  else if manualOverride m && (now <? manualUntil m) then
    if manualRun m then Ret (startLocked now m).2 else snd <$> stopLocked m
  else
    let m := set_override false (manualRun m) 0 m in
    let '(shouldRun, _) := Schedule.scheduleState offset now (CrawlerScheduleStart c) (CrawlerScheduleEnd c) in
    if shouldRun then Ret (startLocked now m).2 else snd <$> stopLocked m.

(** [stopAfter] when its delay is over, for the channel [ch]. *)
Definition stopAfter_fire (ch : nat) (m : CrawlerManager) : go unit CrawlerManager :=
  if bool_decide (stop m = Some ch)
  then snd <$> stopLocked (set_override (manualOverride m) false (manualUntil m) m)
  else Ret m.

(** One step of the program at the time [now]: a method, a timer that fires or that
    sees its channel closed, new settings. *)
Inductive manager_step (m : CrawlerManager) : CrawlerManager -> Prop :=
  | ms_start now : manager_step m (Crawler_Start now m).2
  | ms_stop now b m' : Crawler_Stop now m = Ret (b, m') -> manager_step m m'
  | ms_reconcile now m' : ReconcileSchedule now m = Ret m' -> manager_step m m'
  | ms_timer i ch due now m' : timers m !! i = Some (ch, due) -> due <= now ->
      stopAfter_fire ch (set_timers (delete i (timers m)) m) = Ret m' -> manager_step m m'
  | ms_timer_quit i ch due : timers m !! i = Some (ch, due) -> ch ∈ closed m ->
      manager_step m (set_timers (delete i (timers m)) m)
  | ms_settings c : manager_step m (set_configuration c m).

(** ** The invariant *)

Record manager_inv (m : CrawlerManager) : Prop := {
  inv_running : running m = bool_decide (is_Some (stop m));
  inv_channels : forall ch, (ch < made m)%nat <-> stop m = Some ch \/ ch ∈ closed m;
  inv_open : forall ch, stop m = Some ch -> ch ∉ closed m;
  inv_auto : running m = false -> autoStopAt m = 0;
  inv_timers : Forall (fun t => (t.1 < made m)%nat /\ (stop m = Some t.1 -> t.2 = autoStopAt m)) (timers m);
  inv_override : manualOverride m = negb (IsZero (manualUntil m));
  inv_threads : running m = true -> 1 <= threads m
}.

Lemma NewCrawlerManager_inv c : manager_inv (NewCrawlerManager c).
Proof.
  split; try done.
  - intros ch. cbn. split; [lia|]. intros [?|?%not_elem_of_empty]; done.
Qed.

Lemma startLocked_inv now m : manager_inv m -> manager_inv (startLocked now m).2.
Proof.
  intros Hi. unfold startLocked. destruct (running m) eqn:Hr; [done|].
  destruct (OnlyWebServer _); [done|]. cbn [orb snd].
  destruct Hi as [H1 H2 H3 H4 H5 H6 H7]. rewrite Hr in H1. symmetry in H1. apply bool_decide_eq_false in H1.
  assert (stop m = None) as Hn by (destruct (stop m); [by exfalso; apply H1|done]).
  assert (forall ch, ch ∈ closed m -> (ch < made m)%nat) as Hc by (intros ch ?; apply H2; by right).
  split; try done.
  - intros ch. cbn [made stop closed]. rewrite Nat.lt_succ_r, Nat.le_lteq, H2, Hn.
    split; [intros [[|]| ->]; [done|by right|by left]|intros [[= ->]|]; auto].
  - intros ch [= <-] Hin. apply Hc in Hin. lia.
  - cbn [timers made stop autoStopAt].
    assert (Forall (fun t => (t.1 < S (made m))%nat /\ (Some (made m) = Some t.1 ->
      t.2 = if 0 <? CrawlerAutoStopMinutes (configuration m) then now + i64 (CrawlerAutoStopMinutes (configuration m) * minute) else 0))
      (timers m)) as Hold.
    { eapply Forall_impl; [exact H5|]. intros [ch due] [Hch _]. cbn [fst snd] in *. split; [lia|].
      intros [= E]. lia. }
    destruct (0 <? _); [|exact Hold]. apply Forall_app. split; [exact Hold|].
    apply Forall_singleton. cbn [fst snd]. split; [lia|done].
  - intros _. cbn [threads]. destruct (Z.ltb_spec (CrawlerThreads (configuration m)) 1); lia.
Qed.

Lemma stopLocked_spec m :
  manager_inv m ->
  exists b m', stopLocked m = Ret (b, m') /\ manager_inv m' /\ running m' = false /\ stop m' = None /\
    b = running m /\ made m' = made m /\ timers m' = timers m /\ configuration m' = configuration m /\
    manualOverride m' = manualOverride m /\ manualRun m' = manualRun m /\ manualUntil m' = manualUntil m.
Proof.
  intros Hi. pose proof Hi as [H1 H2 H3 H4 H5 H6 H7]. unfold stopLocked.
  destruct (running m) eqn:Hr; cbn [negb].
  - symmetry in H1. apply bool_decide_eq_true in H1 as [ch Hch]. rewrite Hch.
    rewrite bool_decide_false by (by apply H3). eexists true, _. split; [done|]. split; [|done]. split; try done.
    + intros ch'. cbn [made stop closed]. rewrite H2, Hch, elem_of_union, elem_of_singleton.
      split; [intros [[= ->]|]; auto|intros [|[->|]]; auto; done].
    + eapply Forall_impl; [exact H5|]. by intros [ch' due] [? _].
  - exists false, m. symmetry in H1. apply bool_decide_eq_false in H1.
    repeat (split; [done|]). split; [destruct (stop m); [by exfalso; apply H1|done]|done].
Qed.

Lemma set_override_inv o r u m : o = negb (IsZero u) -> manager_inv m -> manager_inv (set_override o r u m).
Proof. intros Ho []. by split. Qed.

Lemma setManualOverride_inv now run m : manager_inv m -> manager_inv (setManualOverrideAtLocked now run m).
Proof.
  intros Hi. unfold setManualOverrideAtLocked. destruct (CrawlerScheduleEnabled _); [|done]. cbn [negb].
  destruct (Schedule.scheduleState _ _ _ _) as [ins next]. destruct (IsZero next) eqn:Hz; [done|].
  apply set_override_inv; [by rewrite Hz|done].
Qed.

(** [ReconcileSchedule] in terms of what should be the case. *)
Definition should_run (now : time) (m : CrawlerManager) : bool :=
  if manualOverride m && (now <? manualUntil m) then manualRun m
  else (Schedule.scheduleState offset now (CrawlerScheduleStart (configuration m)) (CrawlerScheduleEnd (configuration m))).1.

Lemma startLocked_running now m :
  OnlyWebServer (configuration m) = false -> running (startLocked now m).2 = true.
Proof. intros Ho. unfold startLocked. rewrite Ho. by destruct (running m) eqn:E. Qed.

Lemma startLocked_frame now m :
  configuration (startLocked now m).2 = configuration m /\ manualOverride (startLocked now m).2 = manualOverride m /\
  manualRun (startLocked now m).2 = manualRun m /\ manualUntil (startLocked now m).2 = manualUntil m.
Proof. unfold startLocked. by destruct (_ || _). Qed.

Lemma reconcile_spec now m :
  manager_inv m -> OnlyWebServer (configuration m) = false -> CrawlerScheduleEnabled (configuration m) = true ->
  let active := manualOverride m && (now <? manualUntil m) in
  exists m', ReconcileSchedule now m = Ret m' /\ manager_inv m' /\ running m' = should_run now m /\
    configuration m' = configuration m /\ manualRun m' = manualRun m /\
    manualOverride m' = active /\ manualUntil m' = if active then manualUntil m else 0.
Proof.
  intros Hi Ho Hs active. unfold ReconcileSchedule, should_run. rewrite Ho, Hs. cbn [orb negb]. fold active.
  assert (forall m1 r, manager_inv m1 -> configuration m1 = configuration m ->
    exists m', (if r : bool then Ret (startLocked now m1).2 else snd <$> stopLocked m1) = Ret m' /\ manager_inv m' /\
      running m' = r /\ configuration m' = configuration m1 /\ manualRun m' = manualRun m1 /\
      manualOverride m' = manualOverride m1 /\ manualUntil m' = manualUntil m1) as Hgo.
  { intros m1 [] Hi1 Hc.
    - exists (startLocked now m1).2. destruct (startLocked_frame now m1) as (? & ? & ? & ?).
      split; [done|]. split; [by apply startLocked_inv|]. split; [apply startLocked_running; by rewrite Hc|done].
    - destruct (stopLocked_spec m1 Hi1) as (b & m' & -> & ? & ? & _ & _ & _ & _ & ? & ? & ? & ?). by exists m'. }
  destruct active eqn:Ha.
  - destruct (Hgo m (manualRun m) Hi eq_refl) as (m' & ? & ? & ? & ? & ? & Hov & ?). exists m'.
    repeat (split; [done|]). split; [|done]. rewrite Hov. unfold active in Ha. by apply andb_true_iff in Ha as [? _].
  - destruct (Schedule.scheduleState _ _ _ _) as [r next].
    destruct (Hgo (set_override false (manualRun m) 0 m) r) as (m' & ? & ? & ? & ? & ? & Hov & ?);
      [by apply set_override_inv|done|]. by exists m'.
Qed.

Lemma reconcile_inv now m m' : manager_inv m -> ReconcileSchedule now m = Ret m' -> manager_inv m'.
Proof.
  intros Hi H. destruct (OnlyWebServer (configuration m) || negb (CrawlerScheduleEnabled (configuration m))) eqn:E.
  - unfold ReconcileSchedule in H. rewrite E in H. injection H as <-. by apply set_override_inv.
  - apply orb_false_iff in E as [E1 E2%negb_false_iff].
    destruct (reconcile_spec now m Hi E1 E2) as (m'' & H' & ? & _). congruence.
Qed.

Lemma set_timers_inv l m : l ⊆ timers m -> manager_inv m -> manager_inv (set_timers l m).
Proof.
  intros Hl [H1 H2 H3 H4 H5 H6 H7]. split; try done. cbn [timers made stop autoStopAt set_timers].
  apply Forall_forall. intros t Ht. rewrite Forall_forall in H5. by apply H5, Hl.
Qed.

Lemma timers_delete i (l : list (nat * time)) : delete i l ⊆ l.
Proof. intros x Hx. apply list_elem_of_In. apply list_elem_of_In in Hx. revert i Hx.
  induction l as [|y l IH]; intros [|i]; cbn; [done..|by right|]. intros [->|?]; [by left|right; eauto].
Qed.

(** No method panics, and every step keeps the invariant. *)
Lemma stopAfter_fire_spec ch m :
  manager_inv m -> exists m', stopAfter_fire ch m = Ret m' /\ manager_inv m' /\
    (stop m <> Some ch -> m' = m) /\ (stop m = Some ch -> running m' = false /\ manualRun m' = false).
Proof.
  intros Hi. unfold stopAfter_fire. case_bool_decide as Hs.
  - destruct (stopLocked_spec (set_override (manualOverride m) false (manualUntil m) m)) as
      (b & m' & -> & ? & ? & _ & _ & _ & _ & _ & _ & ? & _); [apply set_override_inv; [apply Hi|done]|].
    exists m'. by repeat (split; [done|]).
  - exists m. by repeat (split; [done|]).
Qed.

Lemma manager_step_inv m m' : manager_inv m -> manager_step m m' -> manager_inv m'.
Proof.
  intros Hi [now|now b m'' H|now m'' H|i ch due now m'' Hl _ H|i ch due Hl Hc|c].
  - by apply startLocked_inv, setManualOverride_inv.
  - unfold Crawler_Stop in H. destruct (stopLocked_spec _ (setManualOverride_inv now false m Hi)) as (b' & m1 & H' & ? & _).
    rewrite H in H'. by injection H' as <- <-.
  - by eapply reconcile_inv.
  - destruct (stopAfter_fire_spec ch (set_timers (delete i (timers m)) m)) as (m1 & H' & ? & _); [|congruence].
    apply set_timers_inv; [apply timers_delete|done].
  - apply set_timers_inv; [apply timers_delete|done].
  - destruct Hi. by split.
Qed.

(** A manual start ([run]) or stop, and a series of reconciliations. *)
Definition manual (run : bool) (now : time) (m : CrawlerManager) : go unit CrawlerManager :=
  if run then Ret (Crawler_Start now m).2 else snd <$> Crawler_Stop now m.

Definition reconcile_all (ts : list time) (m : CrawlerManager) : go unit CrawlerManager :=
  foldl (fun r t => m ← r; ReconcileSchedule t m) (Ret m) ts.

Lemma reconcile_all_override ts m :
  manager_inv m -> OnlyWebServer (configuration m) = false -> CrawlerScheduleEnabled (configuration m) = true ->
  manualOverride m = true -> running m = manualRun m -> Forall (fun t => t < manualUntil m) ts ->
  exists m', reconcile_all ts m = Ret m' /\ manager_inv m' /\ running m' = manualRun m /\
    configuration m' = configuration m /\ manualUntil m' = manualUntil m.
Proof.
  revert m; induction ts as [|t ts IH]; intros m Hi Ho Hs Hov Hr Ht; [by exists m|].
  apply Forall_cons in Ht as [Ht Hts]. unfold reconcile_all. cbn [foldl mbind go_bind].
  destruct (reconcile_spec t m Hi Ho Hs) as (m1 & H1 & Hi1 & Hr1 & Hc1 & Hm1 & Ho1 & Hu1).
  unfold should_run in Hr1. rewrite Hov, (proj2 (Z.ltb_lt _ _) Ht) in *. cbn [andb] in *.
  destruct (IH m1) as (m' & H' & ? & ? & ? & ?); try congruence.
  { eapply Forall_impl; [exact Hts|]. intros. cbn in *. lia. }
  exists m'. unfold reconcile_all in H'. rewrite H1. split; [exact H'|]. split; [done|]. split; [congruence|].
  split; congruence.
Qed.

Lemma manual_spec run now m :
  manager_inv m -> OnlyWebServer (configuration m) = false -> CrawlerScheduleEnabled (configuration m) = true ->
  let '(_, next) := Schedule.scheduleState offset now (CrawlerScheduleStart (configuration m)) (CrawlerScheduleEnd (configuration m)) in
  next <> 0 ->
  exists m0, manual run now m = Ret m0 /\ manager_inv m0 /\ running m0 = run /\ configuration m0 = configuration m /\
    manualOverride m0 = true /\ manualRun m0 = run /\ manualUntil m0 = next.
Proof.
  intros Hi Ho Hs. destruct (Schedule.scheduleState _ _ _ _) as [ins next] eqn:Hn. intros Hz.
  pose proof (setManualOverride_inv now run m Hi) as Hi1.
  assert (setManualOverrideAtLocked now run m = set_override true run next m) as Hm.
  { unfold setManualOverrideAtLocked. rewrite Hs, Hn. cbn [negb]. unfold IsZero. by rewrite (proj2 (Z.eqb_neq _ _) Hz). }
  unfold manual, Crawler_Start, Crawler_Stop. destruct run; rewrite Hm in *.
  - exists (startLocked now (set_override true true next m)).2.
    destruct (startLocked_frame now (set_override true true next m)) as (? & ? & ? & ?).
    split; [done|]. split; [by apply startLocked_inv|]. split; [by apply startLocked_running|done].
  - destruct (stopLocked_spec _ Hi1) as (b & m0 & -> & ? & ? & _ & _ & _ & _ & ? & ? & ? & ?). by exists m0.
Qed.

(** In every history of starts, stops, reconciliations, timers and changes of
    the settings: the manager runs exactly when it holds an open stop channel,
    every other channel made before is closed, so at most one crawl loop has not
    been told to stop; pending auto-stop timers of the running crawler are due at
    its auto-stop time; and no operation ever closes a nil or closed channel. *)
Theorem crawler_manager_invariant (c : Configuration) (m : CrawlerManager) :
  star manager_step (NewCrawlerManager c) m ->
  manager_inv m /\
  forall now ch, (exists r, Crawler_Stop now m = Ret r) /\ (exists m', ReconcileSchedule now m = Ret m') /\
                 (exists m', stopAfter_fire ch m = Ret m').
Proof.
  intros Hs. assert (manager_inv m) as Hi.
  { eapply star_inv; [exact manager_step_inv|exact Hs|apply NewCrawlerManager_inv]. }
  split; [done|]. intros now ch. split; [|split].
  - unfold Crawler_Stop. destruct (stopLocked_spec _ (setManualOverride_inv now false m Hi)) as (b & m' & -> & _). by eexists.
  - destruct (OnlyWebServer (configuration m) || negb (CrawlerScheduleEnabled (configuration m))) eqn:E.
    + unfold ReconcileSchedule. rewrite E. by eexists.
    + apply orb_false_iff in E as [E1 E2%negb_false_iff].
      destruct (reconcile_spec now m Hi E1 E2) as (m' & -> & _). by eexists.
  - destruct (stopAfter_fire_spec ch m Hi) as (m' & -> & _). by eexists.
Qed.

(** With a valid schedule, a manual start or stop holds against every
    reconciliation until the next change of the schedule; the first reconciliation
    from then on ends the override and follows the schedule. *)
Theorem manual_override_lasts (run : bool) (now : time) (ts : list time) (m : CrawlerManager) :
  let c := configuration m in
  let schedule t := Schedule.scheduleState offset t (CrawlerScheduleStart c) (CrawlerScheduleEnd c) in
  manager_inv m -> OnlyWebServer c = false -> CrawlerScheduleEnabled c = true -> (schedule now).2 <> 0 ->
  Forall (fun t => t < (schedule now).2) ts ->
  exists m0 m1, manual run now m = Ret m0 /\ reconcile_all ts m0 = Ret m1 /\ running m0 = run /\ running m1 = run /\
    forall later, (schedule now).2 <= later ->
      exists m2, ReconcileSchedule later m1 = Ret m2 /\ running m2 = (schedule later).1 /\ manualOverride m2 = false.
Proof.
  intros c schedule Hi Ho Hs Hn Hts. pose proof (manual_spec run now m Hi Ho Hs) as Hm.
  fold c in Hm. fold (schedule now) in Hm. destruct (schedule now) as [ins next]. cbn [snd] in *.
  destruct (Hm Hn) as (m0 & -> & Hi0 & Hr0 & Hc0 & Hov0 & Hmr0 & Hu0).
  destruct (reconcile_all_override ts m0) as (m1 & H1 & Hi1 & Hr1 & Hc1 & Hu1); try congruence;
    try (rewrite ?Hc0, ?Hu0; done).
  exists m0, m1. split; [done|]. split; [done|]. split; [done|]. split; [congruence|]. intros later Hl.
  destruct (reconcile_spec later m1 Hi1) as (m2 & H2 & _ & Hr2 & _ & _ & Ho2 & _); [by rewrite Hc1, Hc0..|].
  exists m2. assert (manualOverride m1 && (later <? manualUntil m1) = false) as Hoff.
  { apply andb_false_iff. right. apply Z.ltb_ge. lia. }
  unfold should_run in Hr2. rewrite Hoff in *. rewrite Hc1, Hc0 in Hr2. by split; [|split].
Qed.

(** An auto-stop timer does nothing once its crawler has been stopped, restarted
    or not. When it stops its crawler, a later reconciliation leaves it stopped
    while a manual override is in force; without one, the schedule starts the
    crawler again if its window is open. *)
Theorem auto_stop_effect (ch : nat) (now : time) (m : CrawlerManager) :
  let c := configuration m in
  let override := manualOverride m && (now <? manualUntil m) in
  manager_inv m ->
  (stop m <> Some ch -> stopAfter_fire ch m = Ret m) /\
  (stop m = Some ch -> OnlyWebServer c = false -> CrawlerScheduleEnabled c = true ->
   exists m1 m2, stopAfter_fire ch m = Ret m1 /\ running m1 = false /\ ReconcileSchedule now m1 = Ret m2 /\
     running m2 = if override then false
                  else (Schedule.scheduleState offset now (CrawlerScheduleStart c) (CrawlerScheduleEnd c)).1).
Proof.
  intros c override Hi. split.
  { intros Hs. destruct (stopAfter_fire_spec ch m Hi) as (m' & -> & _ & Hm & _). by rewrite Hm. }
  intros Hs Ho He. unfold stopAfter_fire. rewrite bool_decide_true by done.
  destruct (stopLocked_spec (set_override (manualOverride m) false (manualUntil m) m)) as
      (b & m1 & -> & Hi1 & Hr1 & _ & _ & _ & _ & Hc1 & Ho1 & Hm1 & Hu1); [apply set_override_inv; [apply Hi|done]|].
  cbn in Hc1, Ho1, Hm1, Hu1.
  destruct (reconcile_spec now m1 Hi1) as (m2 & H2 & _ & Hr2 & _); [by rewrite Hc1..|].
  exists m1, m2. split; [done|]. split; [done|]. split; [done|]. rewrite Hr2. unfold should_run.
  rewrite Ho1, Hm1, Hu1, Hc1. done.
Qed.
End Manager.

(** ** A day with a nightly window *)

Definition demo_config : Configuration :=
  ConfigDemo.defaults <| CrawlerAutoStopMinutes := 30 |> <| CrawlerScheduleEnabled := true |>.
Definition at_ (d h m : Z) : time := d * day + h * hour + m * minute.
Definition demo_manager : CrawlerManager := NewCrawlerManager demo_config.
Definition demo_started : CrawlerManager := (startLocked (at_ 700000 23 0) demo_manager).2.

Theorem crawler_manager_invariant_witness :
  manager_inv (Crawler_Start 0 (at_ 700000 18 45) demo_manager).2.
Proof.
  apply (crawler_manager_invariant 0 demo_config).
  apply (star_step _ _ (Crawler_Start 0 (at_ 700000 18 45) demo_manager).2); [apply ms_start|apply star_refl].
Defined.

(** Started by hand at 18:45, the crawler runs at 19:00; it is still inside the
    schedule at 22:00 and stops at 07:00 of the next day. *)
Theorem manual_override_lasts_witness :
  exists m0 m1 m2, manual 0 true (at_ 700000 18 45) demo_manager = Ret m0 /\
    reconcile_all 0 [at_ 700000 19 0] m0 = Ret m1 /\ running m1 = true /\
    ReconcileSchedule 0 (at_ 700001 7 0) m1 = Ret m2 /\ running m2 = false.
Proof.
  destruct (manual_override_lasts 0 true (at_ 700000 18 45) [at_ 700000 19 0] demo_manager
    (NewCrawlerManager_inv _) ltac:(reflexivity) ltac:(reflexivity) ltac:(vm_compute; discriminate))
    as (m0 & m1 & Hm & Hr & _ & H1 & H2).
  { apply Forall_singleton. vm_compute. reflexivity. }
  destruct (H2 (at_ 700001 7 0)) as (m2 & Hm2 & H3 & _); [vm_compute; discriminate|].
  exists m0, m1, m2. split; [exact Hm|]. split; [exact Hr|]. split; [exact H1|]. split; [exact Hm2|].
  rewrite H3. vm_compute. reflexivity.
Defined.

(** The schedule starts the crawler again after the auto-stop of 23:30. *)
Theorem auto_stop_effect_witness :
  exists m1 m2, stopAfter_fire 0 demo_started = Ret m1 /\ running m1 = false /\
    ReconcileSchedule 0 (at_ 700000 23 31) m1 = Ret m2 /\ running m2 = true.
Proof.
  destruct (auto_stop_effect 0 0 (at_ 700000 23 31) demo_started) as [_ H].
  { apply startLocked_inv, NewCrawlerManager_inv. }
  destruct (H ltac:(reflexivity) ltac:(reflexivity) ltac:(reflexivity)) as (m1 & m2 & ? & ? & ? & Hr).
  exists m1, m2. split; [assumption|]. split; [assumption|]. split; [assumption|]. rewrite Hr. vm_compute. reflexivity.
Defined.
