(* ===== verification/Crawl.v ===== *)
(** * The crawl loop (ui/crawler.go, function crawl)

    Every start of the crawler runs one [crawl]: a loop over the results of the DHT
    manager, the finished metadata of its own sink and its stop channel. The runs
    share the process-wide info hash cache. A [World] is the crawler manager, the
    cache and the runs, of which an old one may still be leaving while a new one
    crawls; an event is one step of one of them, and [exec] its effect. *)

From S2P Require Import Prelude NetAddr Sink Cache Config Crawler.
Open Scope Z_scope.

Inductive phase : Type :=
  | Looping      (* in the select loop *)
  | Leaving      (* returned from the loop, in the deferred call of Sink.Terminate *)
  | Finished.
#[export] Instance phase_eq_dec : EqDecision phase.
Proof. solve_decision. Defined.

(** A [crawl] goroutine that has not run yet, or one with its sink. *)
Inductive Run : Type :=
  | Pending
  | Crawl (p : phase) (s : Sink).

Record World : Type := mkWorld {
  mgr : CrawlerManager;
  cache : Cache;
  runs : list Run;               (* run [i] has the stop channel [i] *)
  discovered : Z;
  downloadSucceeded : Z
}.

(** The calls of [onDiscard] made by a step of the sink from [s] to [s']. *)
Definition on_discard (s s' : Sink) (c : Cache) : Cache :=
  foldl (fun c h => InfoHashCacheRemove h c) c (drop (length (log_discarded s)) (log_discarded s')).

Definition crawl_begin (c : Configuration) : Run :=
  Crawl Looping (NewSink (MaxLeeches c) (MaxConcurrentDownloads c) true).

(** [case result := <-trawlingManager.Output()] *)
Definition crawl_result (now : time) (result : Result) (s : Sink) (c : Cache) : Sink * Cache :=
  let hash := InfoHash result in
  let '(new, c) := InfoHashCacheAdd now hash c in
  if new then
    let '(ok, s) := Sink_ result s in
    (s, if negb ok then InfoHashCacheRemove hash c else c)
  else ((AddPeers result s).2, c).

(** [case md, ok := <-metadataSink.Drain()], where [accepted] is what [onMetadata]
    returned and [hasDatabase] tells a standalone or master node from a worker. *)
Definition crawl_metadata (hasDatabase accepted : bool) (md : Metadata) (c : Cache) : Cache :=
  if negb hasDatabase && negb accepted then InfoHashCacheRemove (md_InfoHash md) c else c.

Inductive event : Type :=
  | EStart (now : time)                       (* Start of the manager *)
  | EStop (now : time)
  | EReconcile (now : time)
  | ETimer (i : nat) (now : time)
  | ESettings (c : Configuration)
  | EBegin (i : nat)
  | EResult (i : nat) (now : time) (result : Result)
  | EMetadata (i : nat) (accepted : bool)
  | ELeave (i : nat)
  | ETerminate (i : nat)
  | EDownload (i j : nat)                     (* a download of run [i] gets the semaphore *)
  | EPeers (i j : nat) (peers : list AddrPort)
  | EEnd (i j : nat) (outcome : option Metadata)
  | EAck (now : time) (h : list byte).        (* the master acknowledged a record *)

Section Exec.
  Context (offset : duration) (victim : gmap (list byte) time -> list byte) (hasDatabase : bool).

Definition set_mgr (m : CrawlerManager) (w : World) : World :=
  mkWorld m (cache w) (runs w ++ replicate (made m - made (mgr w)) Pending) (discovered w) (downloadSucceeded w).
Definition set_run (i : nat) (r : Run) (c : Cache) (w : World) : World :=
  mkWorld (mgr w) c (<[i := r]> (runs w)) (discovered w) (downloadSucceeded w).
Definition to_option {E A} (r : go E A) : option A := match r with Ret a => Some a | _ => None end.

Definition with_sink (i : nat) (w : World) (f : phase -> Sink -> option World) : option World :=
  match runs w !! i with Some (Crawl p s) => f p s | _ => None end.

Definition exec (ev : event) (w : World) : option World :=
  match ev with
  | EStart now => Some (set_mgr (Crawler_Start offset now (mgr w)).2 w)
  | EStop now => r ← to_option (Crawler_Stop offset now (mgr w)); Some (set_mgr r.2 w)
  | EReconcile now => m ← to_option (ReconcileSchedule offset now (mgr w)); Some (set_mgr m w)
  | ETimer i now =>
      t ← timers (mgr w) !! i;
      if t.2 <=? now
      then m ← to_option (stopAfter_fire t.1 (set_timers (delete i (timers (mgr w))) (mgr w))); Some (set_mgr m w)
      else None
  | ESettings c => Some (set_mgr (set_configuration c (mgr w)) w)
  | EBegin i =>
      match runs w !! i with
      | Some Pending => Some (set_run i (crawl_begin (configuration (mgr w))) (cache w) w)
      | _ => None
      end
  | EResult i now result => with_sink i w (fun p s =>
      if decide (p = Looping) then
        let '(s, c) := crawl_result now result s (cache w) in
        let w := set_run i (Crawl p s) c w in
        Some (mkWorld (mgr w) (cache w) (runs w) (u64 (discovered w + 1)) (downloadSucceeded w))
      else None)
  | EMetadata i accepted => with_sink i w (fun p s =>
      if decide (p = Looping) then
        '(md, s) ← receive s;
        let w := set_run i (Crawl p s) (crawl_metadata hasDatabase accepted md (cache w)) w in
        Some (mkWorld (mgr w) (cache w) (runs w) (discovered w) (u64 (downloadSucceeded w + 1)))
      else None)
  | ELeave i => with_sink i w (fun p s =>
      if decide (p = Looping /\ i ∈ closed (mgr w)) then Some (set_run i (Crawl Leaving s) (cache w) w) else None)
  | ETerminate i => with_sink i w (fun p s =>
      if decide (p = Leaving /\ blocked s = None)
      then Some (set_run i (Crawl Finished (Sink_Terminate s)) (cache w) w) else None)
  | EDownload i j => with_sink i w (fun p s =>
      s' ← download_start j s; Some (set_run i (Crawl p s') (on_discard s s' (cache w)) w))
  | EPeers i j peers => with_sink i w (fun p s =>
      d ← Sink.running s !! j;
      let s' := onPeers d.1 peers s in
      Some (set_run i (Crawl p s') (on_discard s s' (cache w)) w))
  | EEnd i j outcome => with_sink i w (fun p s =>
      s' ← download_end j outcome s; Some (set_run i (Crawl p s') (on_discard s s' (cache w)) w))
  | EAck now h =>
      if hasDatabase then None
      else Some (mkWorld (mgr w) (InfoHashCacheExpireAfter victim now h (12 * hour) (cache w)) (runs w)
                   (discovered w) (downloadSucceeded w))
  end.

Fixpoint exec_all (evs : list event) (w : World) : option World :=
  match evs with [] => Some w | ev :: evs' => w' ← exec ev w; exec_all evs' w' end.

Definition world_step (w w' : World) : Prop := exists ev, exec ev w = Some w'.

Lemma exec_all_star evs w w' : exec_all evs w = Some w' -> star world_step w w'.
Proof.
  revert w; induction evs as [|ev evs IH]; intros w; cbn [exec_all]; [intros [= ->]; apply star_refl|].
  destruct (exec ev w) as [w1|] eqn:E; [|done]. intros H. eapply star_step; [by exists ev|by apply IH].
Qed.

Definition init (c : Configuration) (c0 : Cache) : World := mkWorld (NewCrawlerManager c) c0 [] 0 0.
End Exec.

(** ** What a sink holds

    The downloads of an info hash that are in progress or have been finished. *)
Definition held (s : Sink) (h : list byte) : nat := occ h (log_flushed s) + tracked s h.
Definition held_run (h : list byte) (r : Run) : nat := match r with Pending => 0%nat | Crawl _ s => held s h end.
Definition total (w : World) (h : list byte) : nat := sum_list (held_run h <$> runs w).
Definition member (h : list byte) (c : Cache) : nat := if decide (h ∈ infoHashCache c) then 1 else 0.

Lemma member_le h c : (member h c <= 1)%nat.
Proof. unfold member. destruct (decide _); lia. Qed.

Lemma sum_list_insert {A} (f : A -> nat) (l : list A) i x y :
  l !! i = Some x -> (sum_list (f <$> <[i:=y]> l) + f x = sum_list (f <$> l) + f y)%nat.
Proof.
  revert i; induction l as [|a l IH]; intros [|i] H; simplify_eq/=; [lia|]. specialize (IH i H). lia.
Qed.

Lemma sum_list_pending l n : sum_list (l ++ replicate n 0%nat) = sum_list l.
Proof. induction l as [|x l IH]; cbn; [by induction n|]. by rewrite IH. Qed.

Lemma total_set_run w i r r' c h :
  runs w !! i = Some r -> (total (set_run i r' c w) h + held_run h r = total w h + held_run h r')%nat.
Proof. intros. by apply sum_list_insert. Qed.

(** The effect of each operation of the sink on what it holds. *)
Lemma Sink_held res s h :
  let '(ok, s') := Sink_ res s in
  held s' h = (held s h + if ok then if decide (InfoHash res = h) then 1 else 0 else 0)%nat /\
  hasOnDiscard s' = hasOnDiscard s.
Proof.
  unfold Sink_. destruct (terminated s); [split; [lia|done]|].
  destruct (maxNLeeches s <=? _); [split; [lia|done]|].
  destruct (incomingInfoHashes s !! InfoHash res) eqn:Hk; [split; [lia|done]|].
  destruct (uniqueValidPeers _ _) as [|q qs]; [split; [lia|done]|]. split; [|done].
  unfold held, tracked. cbn [log_flushed incomingInfoHashes spawn with_threads with_logs with_maps].
  case_decide as Hd.
  - rewrite <- Hd, lookup_insert_eq, Hk. lia.
  - rewrite lookup_insert_ne by done. lia.
Qed.

Lemma requeue_held s k q f p h :
  is_Some (incomingInfoHashes s !! k) -> held (with_maps s (<[k:=q]> (incomingInfoHashes s)) f p) h = held s h.
Proof.
  intros [q' Hq]. unfold held, tracked. cbn [log_flushed incomingInfoHashes with_maps]. f_equal.
  destruct (decide (k = h)) as [<-|]; [by rewrite lookup_insert_eq, Hq|by rewrite lookup_insert_ne].
Qed.

Lemma AddPeers_held res s h :
  held (AddPeers res s).2 h = held s h /\ hasOnDiscard (AddPeers res s).2 = hasOnDiscard s.
Proof.
  unfold AddPeers. destruct (terminated s); [done|].
  destruct (incomingInfoHashes s !! InfoHash res) eqn:Hk; [|done].
  destruct (uniqueValidPeers _ _); [done|]. split; [|done]. cbn [snd]. by apply requeue_held.
Qed.

Lemma forget_held s k h :
  (held (forget k s) h + (if decide (k = h) then tracked s h else 0) = held s h)%nat.
Proof.
  unfold held, tracked, forget. cbn [log_flushed incomingInfoHashes with_maps]. case_decide as Hd.
  - rewrite Hd, lookup_delete_eq. lia.
  - rewrite lookup_delete_ne by done. lia.
Qed.

(** A goroutine of the sink: the info hashes it discards are those it no longer
    holds, and there is at most one. *)
Definition discards (s s' : Sink) (ds : list (list byte)) : Prop :=
  log_discarded s' = log_discarded s ++ ds /\ (length ds <= 1)%nat /\
  (forall h, (held s' h + occ h ds)%nat = held s h) /\ hasOnDiscard s' = hasOnDiscard s.

Lemma discards_none s s' :
  log_discarded s' = log_discarded s -> (forall h, held s' h = held s h) -> hasOnDiscard s' = hasOnDiscard s ->
  discards s s' [].
Proof. intros H1 H2 H3. split; [by rewrite app_nil_r|]. split; [cbn; lia|]. split; [|done]. intros h. rewrite H2. apply Nat.add_0_r. Qed.

Lemma download_start_discards j s s' : download_start j s = Some s' -> discards s s' [].
Proof.
  unfold download_start. destruct (waiting s !! j); [|done]. cbn.
  destruct (terminated s); [|destruct (_ <? _); [|done]]; intros [= <-]; by apply discards_none.
Qed.

Lemma onPeers_discards k peers s : discards s (onPeers k peers s) [].
Proof.
  unfold onPeers. destruct (incomingInfoHashes s !! k) eqn:Hk; [|by apply discards_none].
  apply discards_none; [done| |done]. intros h. by apply requeue_held.
Qed.

Lemma flush_discards m s :
  sink_inv_ending [md_InfoHash m] s -> discards s (flush m s) [].
Proof.
  intros Hi. unfold flush. destruct (terminated s) eqn:Ht; [by apply discards_none|].
  set (k := md_InfoHash m). pose proof (inv_live _ _ Hi Ht k) as Hl. rewrite occ_one, decide_True in Hl by done.
  assert (tracked s k = 1%nat) as Htr by (unfold tracked in *; case_match; lia).
  set (s1 := with_logs _ _ _ _).
  assert (forall h, held s1 h = held s h) as Hh.
  { intros h. rewrite <- (forget_held s k h). unfold s1, held. cbn [log_flushed with_logs]. unfold tracked at 1. cbn [incomingInfoHashes with_logs].
    fold (tracked (forget k s) h). rewrite occ_app, occ_one. change (log_flushed (forget k s)) with (log_flushed s).
    case_decide as Hd; [rewrite <- Hd, Htr|]; lia. }
  destruct (_ <? _)%nat; apply discards_none; try done.
Qed.

Lemma onLeechError_discards k s :
  hasOnDiscard s = true -> sink_inv_ending [k] s -> exists ds, discards s (onLeechError k s) ds.
Proof.
  intros Hd Hi. unfold onLeechError. destruct (terminated s) eqn:Ht; [exists []; by apply discards_none|].
  pose proof (inv_live _ _ Hi Ht k) as Hl. rewrite occ_one, decide_True in Hl by done.
  assert (tracked s k = 1%nat) as Htr by (unfold tracked in *; case_match; lia).
  change (hasOnDiscard (forget k s)) with (hasOnDiscard s). rewrite Hd.
  assert (discards s (with_logs (forget k s) (log_accepted (forget k s)) (log_flushed (forget k s))
    (log_discarded (forget k s) ++ [k])) [k]) as Hf.
  { split; [done|]. split; [done|]. split; [|done]. intros h. rewrite <- (forget_held s k h), occ_one.
    change (held (with_logs (forget k s) _ _ _) h) with (held (forget k s) h).
    case_decide as E; [rewrite <- E, Htr|]; lia. }
  destruct (incomingInfoHashes s !! k) as [[|peer rest]|] eqn:Hk; [by exists [k]| |by exists [k]].
  exists []. apply discards_none; [done| |done]. intros h. 
  change (held (spawn k peer ?x) h) with (held x h). by apply requeue_held.
Qed.

Lemma download_end_discards j outcome s s' :
  hasOnDiscard s = true -> sink_inv s -> download_end j outcome s = Some s' -> exists ds, discards s s' ds.
Proof.
  intros Hd Hi H. unfold download_end in H. destruct (Sink.running s !! j) as [d|] eqn:Hj; [|done]. cbn in H.
  pose proof (end_inv s j d Hi Hj) as He. destruct outcome as [m|].
  - case_decide as Hm; [|done]. injection H as <-. destruct Hm as [_ Hm]. exists [].
    rewrite <- Hm in He. exact (flush_discards m _ He).
  - injection H as <-. by apply (onLeechError_discards d.1) in He.
Qed.

Lemma receive_held s md s' h :
  receive s = Some (md, s') -> held s' h = held s h /\ hasOnDiscard s' = hasOnDiscard s.
Proof. unfold receive. destruct (drain s); [done|]. by intros [= <- <-]. Qed.

(** ** The invariant of all runs *)

Definition run_ok (r : Run) : Prop :=
  match r with
  | Pending => True
  | Crawl p s => sink_inv s /\ hasOnDiscard s = true /\ (p = Finished -> terminated s = true)
  end.

Record world_inv (c0 : Cache) (w : World) : Prop := {
  inv_mgr : manager_inv (mgr w);
  inv_runs_made : length (runs w) = made (mgr w);
  inv_runs : Forall run_ok (runs w);
  inv_no_expiry : infoHashExpiry (cache w) = ∅;
  inv_once : forall h, (total w h + member h c0)%nat = member h (cache w)
}.

Lemma member_add now h h' c :
  infoHashExpiry c = ∅ ->
  let '(new, c') := InfoHashCacheAdd now h c in
  infoHashExpiry c' = ∅ /\ (new = true <-> member h c = 0%nat) /\
  member h' c' = if decide (h = h') then 1%nat else member h' c.
Proof.
  intros He. unfold InfoHashCacheAdd. rewrite He, lookup_empty. unfold set_add, InfoHashCacheContains, member.
  cbn [infoHashCache infoHashExpiry]. split; [done|]. split.
  - destruct (decide (h ∈ infoHashCache c)); [rewrite bool_decide_true by done|rewrite bool_decide_false by done]; done.
  - destruct (decide (h = h')) as [<-|Hne].
    + rewrite decide_True; [done|]. by apply elem_of_union_l, elem_of_singleton.
    + destruct (decide (h' ∈ infoHashCache c)).
      * rewrite decide_True; [done|]. by apply elem_of_union_r.
      * rewrite decide_False; [done|]. by intros [?%elem_of_singleton|?]%elem_of_union.
Qed.

Lemma member_remove h h' c :
  member h' (InfoHashCacheRemove h c) = if decide (h = h') then 0%nat else member h' c.
Proof.
  unfold member, InfoHashCacheRemove. cbn [infoHashCache]. destruct (decide (h = h')) as [<-|Hne].
  - rewrite decide_False; [done|]. intros [_ Hn]%elem_of_difference. by apply Hn, elem_of_singleton.
  - destruct (decide (h' ∈ infoHashCache c)).
    + rewrite decide_True; [done|]. apply elem_of_difference. split; [done|]. by intros ->%elem_of_singleton.
    + rewrite decide_False; [done|]. by intros [? _]%elem_of_difference.
Qed.

Lemma remove_expiry h c : infoHashExpiry c = ∅ -> infoHashExpiry (InfoHashCacheRemove h c) = ∅.
Proof. intros H. cbn. by rewrite H, delete_empty. Qed.

(** One pass of the loop: what the sink holds more is in the cache more. *)
Lemma crawl_result_balance now res s c h :
  infoHashExpiry c = ∅ ->
  let '(s', c') := crawl_result now res s c in
  infoHashExpiry c' = ∅ /\ (held s' h + member h c)%nat = (held s h + member h c')%nat /\
  hasOnDiscard s' = hasOnDiscard s /\ (sink_inv s -> sink_inv s').
Proof.
  intros He. unfold crawl_result. pose proof (member_add now (InfoHash res) h c He) as Ha.
  pose proof (member_add now (InfoHash res) (InfoHash res) c He) as Ha0.
  destruct (InfoHashCacheAdd now (InfoHash res) c) as [new c1]. destruct Ha as (He1 & Hnew & Hm1), Ha0 as (_ & _ & Hm0).
  destruct new.
  - apply proj1 in Hnew. specialize (Hnew eq_refl). pose proof (Sink_held res s h) as Hs. pose proof (Sink_inv s res) as Hinv.
    destruct (Sink_ res s) as [ok s']. destruct Hs as [Hh Hd]. cbn [negb snd] in *.
    destruct ok; cbn [negb]; rewrite Hh.
    + split; [done|]. split; [|done]. rewrite Hm1. destruct (decide (InfoHash res = h)) as [<-|]; rewrite ?Hnew; lia.
    + split; [by apply remove_expiry|]. split; [|done]. rewrite member_remove, Hm1.
      destruct (decide (InfoHash res = h)) as [<-|]; rewrite ?Hnew; lia.
  - destruct (AddPeers_held res s h) as [Hh Hd]. split; [done|]. split; [|split; [done|apply AddPeers_inv]].
    rewrite Hh, Hm1. destruct (decide (InfoHash res = h)) as [<-|]; [|lia].
    assert (member (InfoHash res) c = 1%nat) as ->; [|lia].
    destruct Hnew as [_ Hnew]. unfold member in *. destruct (decide _); [done|]. discriminate (Hnew eq_refl).
Qed.

Lemma on_discard_balance s s' ds c h :
  discards s s' ds -> infoHashExpiry c = ∅ -> (held s h <= member h c)%nat ->
  let c' := on_discard s s' c in
  infoHashExpiry c' = ∅ /\ (held s' h + member h c)%nat = (held s h + member h c')%nat.
Proof.
  intros (Hds & Hl & Hh & _) He Hle. unfold on_discard. rewrite Hds, drop_app_length.
  specialize (Hh h). destruct ds as [|d [|? ?]]; [|cbn [foldl]|cbn in Hl; lia].
  - cbn [foldl]. split; [done|]. change (occ h []) with 0%nat in Hh. lia.
  - split; [by apply remove_expiry|]. rewrite member_remove. rewrite occ_one in Hh.
    pose proof (member_le h c). destruct (decide (d = h)); lia.
Qed.

(** A run of which one step changes the sink, and what it holds as much as the cache. *)
Lemma set_run_inv c0 w i r r' c' :
  world_inv c0 w -> runs w !! i = Some r -> run_ok r' -> infoHashExpiry c' = ∅ ->
  (forall h, (held_run h r' + member h (cache w))%nat = (held_run h r + member h c')%nat) ->
  world_inv c0 (set_run i r' c' w).
Proof.
  intros [H1 H2 H3 H4 H5] Hr Hok He Hb. split; try done.
  - cbn. by rewrite length_insert.
  - apply Forall_insert; [done|exact Hok].
  - intros h. cbn [cache set_run]. pose proof (total_set_run w i r r' c' h Hr) as Ht. specialize (Hb h). specialize (H5 h).
    assert (held_run h r <= total w h)%nat; [|lia]. unfold total. 
    pose proof (sum_list_insert (held_run h) (runs w) i r Pending Hr). cbn [held_run] in *. lia.
Qed.

Lemma held_le c0 w i p s h : world_inv c0 w -> runs w !! i = Some (Crawl p s) -> (held s h <= member h (cache w))%nat.
Proof.
  intros Hi Hr. pose proof (inv_once _ _ Hi h) as Ho. pose proof (sum_list_insert (held_run h) (runs w) i _ Pending Hr) as Hs.
  unfold total in Ho. cbn [held_run] in *. lia.
Qed.

(** A step of a goroutine of the sink of run [i]. *)
Lemma background_inv c0 w i p s s' ds :
  world_inv c0 w -> runs w !! i = Some (Crawl p s) -> discards s s' ds -> sink_step s s' ->
  (terminated s = true -> terminated s' = true) ->
  world_inv c0 (set_run i (Crawl p s') (on_discard s s' (cache w)) w).
Proof.
  intros Hi Hr Hd Hs Ht. pose proof (inv_runs _ _ Hi) as Hruns. rewrite Forall_lookup in Hruns.
  destruct (Hruns _ _ Hr) as (Hsi & Hod & Hf).
  eapply set_run_inv; [done|exact Hr| | |].
  - split; [by eapply sink_step_inv|]. split; [|auto]. destruct Hd as (_ & _ & _ & ->). done.
  - eapply (on_discard_balance s s' ds (cache w) []); [done|apply Hi|by eapply held_le].
  - intros h. cbn [held_run]. eapply on_discard_balance; [done|apply Hi|by eapply held_le].
Qed.

Lemma set_mgr_inv c0 w m : world_inv c0 w -> manager_inv m -> (made (mgr w) <= made m)%nat -> world_inv c0 (set_mgr m w).
Proof.
  intros [H1 H2 H3 H4 H5] Hm Hle. split; try done.
  - cbn. rewrite length_app, length_replicate. lia.
  - cbn. apply Forall_app. split; [done|]. by apply Forall_replicate.
  - intros h. rewrite <- H5. unfold total. cbn [runs set_mgr]. f_equal.
    by rewrite fmap_app, fmap_replicate, sum_list_pending.
Qed.

Lemma startLocked_made now m : (made m <= made (startLocked now m).2)%nat.
Proof. unfold startLocked. destruct (_ || _); cbn; lia. Qed.

Lemma override_made offset now r m : made (setManualOverrideAtLocked offset now r m) = made m.
Proof.
  unfold setManualOverrideAtLocked. destruct (negb _); [done|].
  destruct (Schedule.scheduleState _ _ _ _). by destruct (IsZero _).
Qed.

Lemma stopLocked_made m b m' : stopLocked m = Ret (b, m') -> made m' = made m.
Proof.
  unfold stopLocked. destruct (negb _); [by intros [= _ <-]|]. destruct (stop m); [|done].
  destruct (bool_decide _); [done|]. by intros [= _ <-].
Qed.

Lemma stopLocked_snd_made m m' : snd <$> stopLocked m = Ret m' -> made m' = made m.
Proof.
  destruct (stopLocked m) as [[b m1]|e|] eqn:E; [|done..]. intros [= <-]. by eapply stopLocked_made.
Qed.

Lemma reconcile_made offset now m m' : ReconcileSchedule offset now m = Ret m' -> (made m <= made m')%nat.
Proof.
  assert (forall (r : bool) m1, (if r then Ret (startLocked now m1).2 else snd <$> stopLocked m1) = Ret m' ->
    (made m1 <= made m')%nat) as Hgo.
  { intros [] m1; [intros [= <-]; apply startLocked_made|]. intros H%stopLocked_snd_made. lia. }
  unfold ReconcileSchedule. destruct (_ || _); [by intros [= <-]|].
  destruct (_ && _); [apply Hgo|]. destruct (Schedule.scheduleState _ _ _ _) as [r ?]. intros H. by apply Hgo in H.
Qed.

Section Theorems.
  Context (offset : duration) (victim : gmap (list byte) time -> list byte).

(** The events of the manager keep the manager's invariant and make no fewer
    channels. *)
Lemma exec_manager ev w w' :
  match ev with EStart _ | EStop _ | EReconcile _ | ETimer _ _ | ESettings _ => True | _ => False end ->
  forall hasDatabase, exec offset victim hasDatabase ev w = Some w' ->
  exists m, w' = set_mgr m w /\ manager_step offset (mgr w) m /\ (made (mgr w) <= made m)%nat.
Proof.
  destruct ev; intros Hev hasDatabase H; try done; cbn [exec] in H.
  - injection H as <-. eexists. split; [done|]. split; [by apply ms_start|].
    unfold Crawler_Start. etransitivity; [|apply startLocked_made]. by rewrite override_made.
  - destruct (Crawler_Stop offset now (mgr w)) as [[b m]|e|] eqn:E; [|done..]. injection H as <-. exists m.
    split; [done|]. split; [by eapply ms_stop|]. apply stopLocked_made in E. by rewrite E, override_made.
  - destruct (ReconcileSchedule offset now (mgr w)) as [m|e|] eqn:E; [|done..]. injection H as <-. exists m.
    split; [done|]. split; [by eapply ms_reconcile|]. by eapply reconcile_made.
  - destruct (timers (mgr w) !! i) as [[ch due]|] eqn:Hl; [|done]. cbn [mbind option_bind snd fst] in H.
    destruct (Z.leb_spec due now); [|done].
    destruct (stopAfter_fire ch _) as [m|e|] eqn:E; [|done..]. injection H as <-. exists m.
    split; [done|]. split; [by eapply ms_timer|]. unfold stopAfter_fire in E.
    destruct (bool_decide _); [apply stopLocked_snd_made in E; by rewrite E|by injection E as <-].
  - injection H as <-. eexists. split; [done|]. by split; [apply ms_settings|].
Qed.

Lemma with_sink_Some i w f w' :
  with_sink i w f = Some w' -> exists p s, runs w !! i = Some (Crawl p s) /\ f p s = Some w'.
Proof. unfold with_sink. destruct (runs w !! i) as [[|p s]|]; [done| |done]. by exists p, s. Qed.

Lemma world_same_inv c0 w d x :
  world_inv c0 w -> world_inv c0 (mkWorld (mgr w) (cache w) (runs w) d x).
Proof. intros []. by split. Qed.

Lemma download_end_terminated j o s s' : download_end j o s = Some s' -> terminated s = true -> terminated s' = true.
Proof.
  unfold download_end. destruct (Sink.running s !! j) as [d|]; [|done]. cbn [mbind option_bind]. intros H Ht.
  destruct o as [m|].
  - case_decide; [|done]. injection H as <-. unfold flush. cbn [terminated with_threads]. by rewrite Ht.
  - injection H as <-. unfold onLeechError. cbn [terminated with_threads]. by rewrite Ht.
Qed.

Lemma download_start_terminated j s s' : download_start j s = Some s' -> terminated s' = terminated s.
Proof.
  unfold download_start. destruct (waiting s !! j); [|done]. cbn.
  destruct (terminated s) eqn:E; [|destruct (_ <? _); [|done]]; by intros [= <-].
Qed.

Lemma onPeers_terminated k peers s : terminated (onPeers k peers s) = terminated s.
Proof. unfold onPeers. by destruct (_ !! _). Qed.

Lemma exec_inv c0 ev w w' : world_inv c0 w -> exec offset victim true ev w = Some w' -> world_inv c0 w'.
Proof.
  intros Hi H. pose proof (inv_runs _ _ Hi) as Hruns. rewrite Forall_lookup in Hruns.
  pose proof (exec_manager ev w w') as Hmgr.
  assert (forall m, w' = set_mgr m w -> manager_step offset (mgr w) m -> (made (mgr w) <= made m)%nat -> world_inv c0 w') as Hset.
  { intros m -> Hs Hm. apply set_mgr_inv; [done|by eapply manager_step_inv; [apply Hi|]|done]. }
  destruct ev; cbn [exec] in H; try (by destruct (Hmgr I true H) as (m & ? & ? & ?); eapply Hset); clear Hmgr Hset.
  - destruct (runs w !! i) as [[|]|] eqn:Hr; [|done..]. injection H as <-.
    eapply set_run_inv; [done|exact Hr| |apply Hi|].
    + split; [apply NewSink_inv|done].
    + intros h. cbn [held_run crawl_begin]. unfold held, tracked. cbn. rewrite lookup_empty. lia.
  - apply with_sink_Some in H as (p & s & Hr & H). case_decide as Hp; [|done].
    pose proof (fun h => crawl_result_balance now result s (cache w) h (inv_no_expiry _ _ Hi)) as Hb.
    destruct (crawl_result now result s (cache w)) as [s' c']. injection H as <-.
    apply (world_same_inv c0 (set_run i (Crawl p s') c' w)).
    destruct (Hruns _ _ Hr) as (Hsi & Hod & Hf).
    eapply set_run_inv; [done|exact Hr| |apply (Hb [])|intros h; apply Hb].
    destruct (Hb []) as (_ & _ & Hd & Hinv). split; [by apply Hinv|]. split; [congruence|]. intros ->. done.
  - apply with_sink_Some in H as (p & s & Hr & H). case_decide as Hp; [|done].
    destruct (receive s) as [[md s']|] eqn:E; [|done]. injection H as <-.
    apply (world_same_inv c0 (set_run i (Crawl p s') (crawl_metadata true accepted md (cache w)) w)).
    destruct (Hruns _ _ Hr) as (Hsi & Hod & Hf). cbn [crawl_metadata negb andb].
    eapply set_run_inv; [done|exact Hr| |apply Hi|].
    + split; [eapply sink_step_inv; [exact Hsi|by eapply sk_receive]|].
      destruct (receive_held _ _ _ [] E) as [_ ->]. split; [done|]. intros ->. done.
    + intros h. cbn [held_run]. by destruct (receive_held _ _ _ h E) as [-> _].
  - apply with_sink_Some in H as (p & s & Hr & H). case_decide as Hp; [|done]. injection H as <-.
    destruct (Hruns _ _ Hr) as (Hsi & Hod & Hf).
    eapply set_run_inv; [done|exact Hr|by split|apply Hi|done].
  - apply with_sink_Some in H as (p & s & Hr & H). case_decide as Hp; [|done]. injection H as <-.
    destruct (Hruns _ _ Hr) as (Hsi & Hod & Hf). destruct Hp as [_ Hb].
    eapply set_run_inv; [done|exact Hr| |apply Hi|done].
    split; [|done]. eapply sink_step_inv; [exact Hsi|by apply sk_terminate].
  - apply with_sink_Some in H as (p & s & Hr & H). destruct (download_start j s) as [s'|] eqn:E; [|done]. injection H as <-.
    eapply background_inv; [done..|by eapply download_start_discards|by eapply sk_start|].
    by rewrite (download_start_terminated _ _ _ E).
  - apply with_sink_Some in H as (p & s & Hr & H). destruct (Sink.running s !! j) as [d|] eqn:E; [|done]. injection H as <-.
    eapply background_inv; [done..|apply onPeers_discards|by eapply sk_peers|]. by rewrite onPeers_terminated.
  - apply with_sink_Some in H as (p & s & Hr & H). destruct (download_end j outcome s) as [s'|] eqn:E; [|done]. injection H as <-.
    destruct (Hruns _ _ Hr) as (Hsi & Hod & Hf). destruct (download_end_discards _ _ _ _ Hod Hsi E) as [ds Hds].
    eapply background_inv; [done..|exact Hds|by eapply sk_end|]. by eapply download_end_terminated.
  - done.
Qed.

Lemma world_init_inv c c0 : infoHashExpiry c0 = ∅ -> world_inv c0 (init c c0).
Proof. intros He. split; try done. apply NewCrawlerManager_inv. Qed.

(** C6: On a node with a database, whatever crawls are started and stopped: an info
    hash is in the cache exactly when it was there at the start (it was in the
    database), or is held by exactly one run, which is downloading it or has
    downloaded it, once. So no info hash is downloaded twice by two runs or twice
    by one, nor one that was in the database; and a discarded one can be found
    again, because it has left the cache. *)
Theorem crawl_once (c : Configuration) (c0 : Cache) (w : World) (h : list byte) :
  infoHashExpiry c0 = ∅ -> star (world_step offset victim true) (init c c0) w ->
  (total w h + member h c0)%nat = member h (cache w) /\
  (forall i p s, runs w !! i = Some (Crawl p s) ->
     sink_inv s /\ (occ h (log_flushed s) + tracked s h <= 1)%nat /\
     (h ∈ infoHashCache c0 -> occ h (log_flushed s) = 0%nat /\ tracked s h = 0%nat)).
Proof.
  intros He Hs. assert (world_inv c0 w) as Hi.
  { eapply star_inv; [|exact Hs|by apply world_init_inv]. intros w1 w2 Hw [ev Hev]. by eapply exec_inv. }
  split; [by apply (inv_once _ _ Hi)|]. intros i p s Hr.
  pose proof (inv_runs _ _ Hi) as Hruns. rewrite Forall_lookup in Hruns. destruct (Hruns _ _ Hr) as (? & _).
  pose proof (inv_once _ _ Hi h) as Ho. pose proof (sum_list_insert (held_run h) (runs w) i _ Pending Hr) as Hsum.
  unfold total in Ho. cbn [held_run] in Hsum. unfold held in Hsum. pose proof (member_le h (cache w)).
  split; [done|]. split; [lia|]. intros Hin. assert (member h c0 = 1%nat) by (unfold member; by rewrite decide_True). lia.
Qed.

(** A step of a goroutine of the sink. *)
Inductive background (s : Sink) : Sink -> Prop :=
  | bg_none : background s s
  | bg_start j s' : download_start j s = Some s' -> background s s'
  | bg_peers k peers : background s (onPeers k peers s)
  | bg_end j o s' : download_end j o s = Some s' -> background s s'.

(** What can happen to a run that has left its loop. *)
Lemma exec_left hasDatabase ev w w' i p s :
  exec offset victim hasDatabase ev w = Some w' -> runs w !! i = Some (Crawl p s) -> p <> Looping ->
  exists p' s', runs w' !! i = Some (Crawl p' s') /\
    ((p' = p /\ background s s') \/ (blocked s = None /\ p = Leaving /\ p' = Finished /\ s' = Sink_Terminate s)).
Proof.
  intros H Hr Hp.
  assert (forall w1, runs w1 !! i = Some (Crawl p s) -> exists p' s', runs w1 !! i = Some (Crawl p' s') /\
    ((p' = p /\ background s s') \/ (blocked s = None /\ p = Leaving /\ p' = Finished /\ s' = Sink_Terminate s))) as Hsame.
  { intros w1 Hw. exists p, s. split; [done|]. left. split; [done|constructor]. }
  assert (forall k r c, k <> i -> runs (set_run k r c w) !! i = Some (Crawl p s)) as Hother.
  { intros k r c Hk. cbn. by rewrite list_lookup_insert_ne. }
  assert (forall p' s' c, runs (set_run i (Crawl p' s') c w) !! i = Some (Crawl p' s')) as Hself.
  { intros. cbn. apply list_lookup_insert_eq. by eapply lookup_lt_Some. }
  pose proof (exec_manager ev w w') as Hmgr.
  destruct ev; cbn [exec] in H;
    try (destruct (Hmgr I hasDatabase H) as (m & -> & _ & _); apply Hsame; cbn; by apply lookup_app_l_Some); clear Hmgr;
    rename i0 into k || idtac.
  1: destruct (runs w !! k) as [[|]|] eqn:Hk; [|done..]; injection H as <-;
     apply Hsame; apply Hother; intros ->; congruence.
  all: try (apply with_sink_Some in H as (q & t & Hk & H); destruct (decide (k = i)) as [->|Hne];
    [rewrite Hr in Hk; injection Hk as <- <-|apply Hsame]).
  - by case_decide.
  - case_decide; [|done]. destruct (crawl_result _ _ _ _). injection H as <-. exact (Hother k _ (cache w) Hne).
  - by case_decide.
  - case_decide; [|done]. destruct (receive t) as [[]|]; [|done]. injection H as <-. exact (Hother k _ (cache w) Hne).
  - case_decide as Hd; [|done]. by destruct Hd.
  - case_decide; [|done]. injection H as <-. exact (Hother k _ (cache w) Hne).
  - case_decide as Hd; [|done]. injection H as <-. destruct Hd as [-> Hb]. eexists _, _. split; [apply Hself|]. by right.
  - case_decide; [|done]. injection H as <-. exact (Hother k _ (cache w) Hne).
  - destruct (download_start j s) as [s'|] eqn:E; [|done]. injection H as <-. eexists _, _. split; [apply Hself|].
    left. split; [done|]. by eapply bg_start.
  - destruct (download_start j t); [|done]. injection H as <-. exact (Hother k _ (cache w) Hne).
  - destruct (Sink.running s !! j); [|done]. injection H as <-. eexists _, _. split; [apply Hself|].
    left. split; [done|]. apply bg_peers.
  - destruct (Sink.running t !! j); [|done]. injection H as <-. exact (Hother k _ (cache w) Hne).
  - destruct (download_end j outcome s) as [s'|] eqn:E; [|done]. injection H as <-. eexists _, _. split; [apply Hself|].
    left. split; [done|]. by eapply bg_end.
  - destruct (download_end j outcome t); [|done]. injection H as <-. exact (Hother k _ (cache w) Hne).
  - destruct hasDatabase; [done|]. injection H as <-. by apply Hsame.
Qed.

(** After termination the goroutines change nothing that is tracked. *)
Lemma background_terminated s s' h :
  background s s' -> terminated s = true -> terminated s' = true /\ tracked s' h = tracked s h.
Proof.
  intros [|j s1 H|k peers|j o s1 H] Ht.
  - done.
  - rewrite (download_start_terminated _ _ _ H). split; [done|]. unfold download_start in H.
    destruct (waiting s !! j); [|done]. cbn in H. rewrite Ht in H. by injection H as <-.
  - rewrite onPeers_terminated. split; [done|]. unfold onPeers. destruct (incomingInfoHashes s !! k) eqn:Hk; [|done].
    pose proof (requeue_held s k (l ++ peers) (incomingFamilies s) (incomingPeers s) h ltac:(by rewrite Hk)) as Hq.
    unfold held in Hq. cbn [log_flushed with_maps] in Hq. lia.
  - split; [by eapply download_end_terminated|]. unfold download_end in H.
    destruct (Sink.running s !! j) as [d|]; [|done]. cbn [mbind option_bind] in H. destruct o as [m|].
    + case_decide; [|done]. injection H as <-. unfold flush. cbn [terminated with_threads]. by rewrite Ht.
    + injection H as <-. unfold onLeechError. cbn [terminated with_threads]. by rewrite Ht.
Qed.

Lemma background_blocked s s' : background s s' -> blocked s <> None -> blocked s' = blocked s.
Proof.
  intros [|j s1 H|k peers|j o s1 H] Hb.
  - done.
  - unfold download_start in H. destruct (waiting s !! j); [|done]. cbn in H.
    destruct (terminated s); [|destruct (_ <? _); [|done]]; by injection H as <-.
  - unfold onPeers. by destruct (_ !! _).
  - unfold download_end in H. destruct (Sink.running s !! j) as [d|]; [|done]. cbn [mbind option_bind] in H. destruct o as [m|].
    + case_decide as Hd; [|done]. by destruct Hd.
    + injection H as <-. unfold onLeechError. cbn [terminated with_threads incomingInfoHashes].
      destruct (terminated s); [done|]. destruct (incomingInfoHashes s !! d.1) as [[|]|]; try done;
        cbn [hasOnDiscard forget with_maps with_threads]; by destruct (hasOnDiscard s).
Qed.

(** The info hashes a crawl is still downloading when it is stopped stay in the
    cache for the life of the process: no later run ever downloads them, however
    often they are found. *)
Theorem stopped_downloads_are_lost (c : Configuration) (c0 : Cache) (w w' : World) (i : nat) (s : Sink) (h : list byte) :
  infoHashExpiry c0 = ∅ -> star (world_step offset victim true) (init c c0) w ->
  runs w !! i = Some (Crawl Finished s) -> tracked s h = 1%nat ->
  star (world_step offset victim true) w w' ->
  h ∈ infoHashCache (cache w') /\
  forall j p t, runs w' !! j = Some (Crawl p t) -> occ h (log_flushed t) = 0%nat /\ (j <> i -> tracked t h = 0%nat).
Proof.
  intros He Hs Hr Ht Hs'. assert (world_inv c0 w) as Hi.
  { eapply star_inv; [|exact Hs|by apply world_init_inv]. intros w1 w2 Hw [ev Hev]. by eapply exec_inv. }
  pose proof (inv_runs _ _ Hi) as Hruns. rewrite Forall_lookup in Hruns. destruct (Hruns _ _ Hr) as (_ & _ & Hterm).
  specialize (Hterm eq_refl).
  assert (world_inv c0 w' /\ exists s', runs w' !! i = Some (Crawl Finished s') /\ terminated s' = true /\ tracked s' h = 1%nat)
    as (Hi' & s' & Hr' & _ & Ht').
  { refine (star_inv (world_step offset victim true) (fun w => world_inv c0 w /\ exists s', runs w !! i = Some (Crawl Finished s') /\
      terminated s' = true /\ tracked s' h = 1%nat) _ _ _ Hs' _); [|by eauto].
    intros w1 w2 (Hi1 & s1 & Hr1 & Hterm1 & Ht1) [ev Hev]. split; [by eapply exec_inv|].
    destruct (exec_left true ev w1 w2 i Finished s1 Hev Hr1 ltac:(done)) as (p2 & s2 & Hr2 & [[-> Hbg]|(_ & ? & _)]); [|done].
    exists s2. split; [done|]. destruct (background_terminated s1 s2 h Hbg Hterm1) as [? ->]. done. }
  pose proof (inv_once _ _ Hi' h) as Ho. unfold total in Ho.
  pose proof (sum_list_insert (held_run h) (runs w') i _ Pending Hr') as Hsum. cbn [held_run] in Hsum. unfold held in Hsum.
  pose proof (member_le h (cache w')) as Hle. split.
  { unfold member in *. destruct (decide (h ∈ infoHashCache (cache w'))); [done|]. lia. }
  intros j p t Hj. destruct (decide (j = i)) as [->|Hne].
  - rewrite Hr' in Hj. injection Hj as <- <-. split; [lia|done].
  - assert (<[i:=Pending]> (runs w') !! j = Some (Crawl p t)) as Hj' by (by rewrite list_lookup_insert_ne).
    pose proof (sum_list_insert (held_run h) _ j _ Pending Hj') as Hsum'. cbn [held_run] in Hsum'. unfold held in Hsum'. lia.
Qed.

(** A crawl that is stopped while a finished download waits on a full drain
    channel never gets past [Sink.Terminate]: nobody takes from the channel any
    more, and the waiting goroutine holds the lock that Terminate needs. So the
    DHT manager of that run is never terminated. *)
Theorem stop_can_deadlock (hasDatabase : bool) (w w' : World) (i : nat) (s : Sink) :
  runs w !! i = Some (Crawl Leaving s) -> blocked s <> None ->
  star (world_step offset victim hasDatabase) w w' ->
  exists s', runs w' !! i = Some (Crawl Leaving s') /\ blocked s' = blocked s.
Proof.
  intros Hr Hb Hs. refine (star_inv (world_step offset victim hasDatabase)
    (fun w => exists s', runs w !! i = Some (Crawl Leaving s') /\ blocked s' = blocked s) _ _ _ Hs _); [|by exists s].
  intros w1 w2 (s1 & Hr1 & Hb1) [ev Hev].
  destruct (exec_left hasDatabase ev w1 w2 i Leaving s1 Hev Hr1 ltac:(done)) as (p2 & s2 & Hr2 & [[-> Hbg]|(? & _)]); [|congruence].
  exists s2. split; [done|]. rewrite (background_blocked s1 s2 Hbg); [done|congruence].
Qed.
End Theorems.

(** ** Three short histories *)

Module Demo.
Definition t0 : time := at_ 700000 18 45.
Definition hash (n : Z) : list byte := replicate 20 (z2b n).
Definition found (n : Z) : Result := mkResult (hash n) [AddrPortFrom (Addr4 n) 6881] 4.
Definition meta (n : Z) : Metadata := mkMetadata (hash n) 0 "name" 1 2 [mkFile 1 "name"].
Definition no_victim (m : gmap (list byte) time) : list byte := [].
Definition start : World := init demo_config emptyCache.
Definition run (evs : list event) (w : World) : World := default w (exec_all 0 no_victim true evs w).

Definition download (n : Z) : list event := [EResult 0 t0 (found n); EDownload 0 0; EEnd 0 0 (Some (meta n))].
Definition one : list event := [EStart t0; EBegin 0] ++ download 1 ++ [EMetadata 0 true; EResult 0 t0 (found 1)].
Definition stopped : list event := [EStart t0; EBegin 0; EResult 0 t0 (found 1); EStop t0; ELeave 0; ETerminate 0].
Definition again : list event := [EStart t0; EBegin 1; EResult 1 t0 (found 1)].
Definition full : list event :=
  [EStart t0; EBegin 0] ++ concat (download <$> [1; 2; 3; 4; 5; 6; 7; 8; 9; 10; 11]) ++ [EStop t0; ELeave 0].

Definition finished_sink : Sink :=
  match runs (run stopped start) !! 0%nat with Some (Crawl _ s) => s | _ => NewSink 0 0 true end.
Definition full_sink : Sink :=
  match runs (run full start) !! 0%nat with Some (Crawl _ s) => s | _ => NewSink 0 0 true end.

Definition possible (evs : list event) (w : World) : bool :=
  match exec_all 0 no_victim true evs w with Some _ => true | None => false end.

Lemma run_star evs w : possible evs w = true -> star (world_step 0 no_victim true) w (run evs w).
Proof.
  unfold possible, run. destruct (exec_all _ _ _ evs w) eqn:E; [|done]. intros _. by eapply exec_all_star.
Qed.
End Demo.

Theorem crawl_once_witness :
  let w := Demo.run Demo.one Demo.start in
  total w (Demo.hash 1) = 1%nat /\ downloadSucceeded w = 1 /\ discovered w = 2.
Proof.
  cbv zeta. split; [|split; vm_compute; reflexivity].
  pose proof (crawl_once 0 Demo.no_victim demo_config emptyCache (Demo.run Demo.one Demo.start) (Demo.hash 1)
    ltac:(reflexivity) ltac:(apply Demo.run_star; vm_compute; reflexivity)) as [H _].
  assert (member (Demo.hash 1) emptyCache = 0%nat) as E by (vm_compute; reflexivity). rewrite E, Nat.add_0_r in H.
  rewrite H. vm_compute. reflexivity.
Defined.

Theorem stopped_downloads_are_lost_witness :
  Demo.hash 1 ∈ infoHashCache (cache (Demo.run Demo.again (Demo.run Demo.stopped Demo.start))).
Proof.
  apply (stopped_downloads_are_lost 0 Demo.no_victim demo_config emptyCache (Demo.run Demo.stopped Demo.start)
    (Demo.run Demo.again (Demo.run Demo.stopped Demo.start)) 0 Demo.finished_sink (Demo.hash 1)).
  - reflexivity.
  - apply Demo.run_star. vm_compute. reflexivity.
  - vm_compute. reflexivity.
  - vm_compute. reflexivity.
  - apply Demo.run_star. vm_compute. reflexivity.
Defined.

Theorem stop_can_deadlock_witness :
  star (world_step 0 Demo.no_victim true) Demo.start (Demo.run Demo.full Demo.start) /\
  exists s, runs (Demo.run Demo.full Demo.start) !! 0%nat = Some (Crawl Leaving s) /\ blocked s <> None.
Proof.
  assert (blocked Demo.full_sink <> None) as Hb by (intros E; vm_compute in E; discriminate E).
  split; [apply Demo.run_star; vm_compute; reflexivity|].
  destruct (stop_can_deadlock 0 Demo.no_victim true (Demo.run Demo.full Demo.start) (Demo.run Demo.full Demo.start) 0 Demo.full_sink)
    as (s & Hs & Hbs).
  - vm_compute. reflexivity.
  - exact Hb.
  - apply star_refl.
  - exists s. split; [exact Hs|]. rewrite Hbs. exact Hb.
Defined.
