(* ===== verification/Metrics.v ===== *)
(** * What the crawler counts (ui/crawler.go, cluster/transport.go, cmd/dhtc/main.go)

    Every crawl has its own DHT manager, which counts what it drops, rejects and
    deduplicates; [Status] of the crawler manager reports these counts over all crawls:
    the totals that each crawl leaves behind when it ends, and the manager that is
    active. A [Board] puts that beside the world of Crawl.v and the managers of
    Manager.v. The log lines and the health route of a worker show these counts, and
    those of the queue, as rates and differences. *)

From S2P Require Import Prelude NetAddr Codec RoutingTable Requests Protocol Indexing Config Cluster Manager Crawler Crawl.
From Stdlib Require Import Floats.SpecFloat.
Open Scope Z_scope.

(** ** The counters of the managers *)

(** What [crawl] adds to the totals when it ends. *)
Inductive counter : Type := OutputDropped_ | Rejected_ | Deduped_ | SendsDropped_.
#[export] Instance counter_eq_dec : EqDecision counter.
Proof. solve_decision. Defined.

Definition read (k : counter) (m : Manager) : Z :=
  match k with
  | OutputDropped_ => OutputDropped m
  | Rejected_ => RejectedGetPeersRequests m
  | Deduped_ => DedupedGetPeersRequests m
  | SendsDropped_ => DroppedGetPeersSends m
  end.

Record Totals : Type := mkTotals {
  dhtOutputDropped : Z; getPeersRejected : Z; getPeersDeduped : Z; getPeersSendDropped : Z
}.
Definition total_of_counter (k : counter) (t : Totals) : Z :=
  match k with
  | OutputDropped_ => dhtOutputDropped t
  | Rejected_ => getPeersRejected t
  | Deduped_ => getPeersDeduped t
  | SendsDropped_ => getPeersSendDropped t
  end.
(** [Add] of the four atomics, and the [+=] of [Status]. *)
Definition add_counters (m : Manager) (t : Totals) : Totals :=
  mkTotals (u64 (dhtOutputDropped t + OutputDropped m)) (u64 (getPeersRejected t + RejectedGetPeersRequests m))
    (u64 (getPeersDeduped t + DedupedGetPeersRequests m)) (u64 (getPeersSendDropped t + DroppedGetPeersSends m)).

Record Board : Type := mkBoard {
  world : World;
  totals : Totals;
  activeDHTManager : option nat;          (* the crawl whose manager it is *)
  managers : gmap nat Manager;            (* of every crawl that has made one *)
  begun : gset nat;                       (* log: the crawls that set activeDHTManager *)
  ended : gset nat;                       (* log: the crawls that are over *)
  displaced : gset nat                    (* log: those that another one took the place of *)
}.

Definition board_init (c : Configuration) (c0 : Cache.Cache) : Board :=
  mkBoard (Crawl.init c c0) (mkTotals 0 0 0 0) None ∅ ∅ ∅ ∅.

Definition set_world (w : World) (b : Board) : Board :=
  mkBoard w (totals b) (activeDHTManager b) (managers b) (begun b) (ended b) (displaced b).
Definition set_manager (i : nat) (m : Manager) (b : Board) : Board :=
  mkBoard (world b) (totals b) (activeDHTManager b) (<[i := m]> (managers b)) (begun b) (ended b) (displaced b).

(** [m.activeDHTManager = trawlingManager] *)
Definition activate (i : nat) (b : Board) : Board :=
  mkBoard (world b) (totals b) (Some i) (managers b) ({[i]} ∪ begun b) (ended b)
    (match activeDHTManager b with Some j => {[j]} ∪ displaced b | None => displaced b end).

(** The deferred function of [crawl], with the manager of crawl [i]. *)
Definition crawl_deferred (i : nat) (m : Manager) (b : Board) : Board :=
  let mine := bool_decide (activeDHTManager b = Some i) in
  mkBoard (world b) (if mine then add_counters m (totals b) else totals b)
    (if mine then None else activeDHTManager b) (managers b) (begun b) ({[i]} ∪ ended b) (displaced b).

Record CrawlerStatus : Type := mkCrawlerStatus {
  cs_Running : bool; cs_StartedAt : time; cs_AutoStopAt : time; cs_Threads : Z; cs_AutoStopAfter : duration;
  cs_ScheduleEnabled : bool; cs_ScheduleStart : string; cs_ScheduleEnd : string; cs_NextScheduleChange : time;
  cs_ManualOverride : bool; cs_ManualOverrideUntil : time; cs_Discovered : Z; cs_DownloadSucceeded : Z;
  cs_DHTOutputDropped : Z; cs_PendingGetPeers : Z; cs_GetPeersRejected : Z; cs_GetPeersDeduped : Z;
  cs_GetPeersSendDropped : Z
}.

(** [Status]; counting the pending requests makes the services expire old ones. *)
Definition Crawler_Status (offset : duration) (now : time) (b : Board) : CrawlerStatus * Board :=
  let m := mgr (world b) in
  let c := configuration m in
  let '(_, next) := Schedule.scheduleState offset now (CrawlerScheduleStart c) (CrawlerScheduleEnd c) in
  let '(t, pending, b) :=
    match activeDHTManager b ≫= (fun i => (fun d => (i, d)) <$> managers b !! i) with
    | None => (totals b, 0%nat, b)
    | Some (i, d) =>
        let '(pending, d') := PendingGetPeersRequests now d in
        (add_counters d (totals b), pending, set_manager i d' b)
    end in
  (mkCrawlerStatus (Crawler.running m) (startedAt m) (autoStopAt m) (threads m)
     (i64 (CrawlerAutoStopMinutes c * minute)) (CrawlerScheduleEnabled c) (CrawlerScheduleStart c) (CrawlerScheduleEnd c)
     next (manualOverride m) (manualUntil m) (Crawl.discovered (world b)) (Crawl.downloadSucceeded (world b))
     (dhtOutputDropped t) (Z.of_nat pending) (getPeersRejected t) (getPeersDeduped t) (getPeersSendDropped t), b).

Definition status_counter (k : counter) (s : CrawlerStatus) : Z :=
  match k with
  | OutputDropped_ => cs_DHTOutputDropped s
  | Rejected_ => cs_GetPeersRejected s
  | Deduped_ => cs_GetPeersDeduped s
  | SendsDropped_ => cs_GetPeersSendDropped s
  end.

Section Steps.
  Context `{AddrText}.
  Context (SplitHostPort : string -> option (string * string)) (Atoi : string -> option Z)
    (LookupIP : string -> option (list (list byte))) (sha1 : list byte -> list byte).
  Context (offset : duration) (victim : gmap (list byte) time -> list byte) (hasDatabase : bool).

(** A step of the world; a crawl makes its manager, and sets it as the active one; a
    manager does something; a crawl that has left its loop and terminated its sink and
    its manager runs the deferred function. Unless crawls may [overlap], one begins only
    when the deferred function of the last has run. *)
Inductive board_step (overlap : bool) (b : Board) : Board -> Prop :=
  | bs_world ev w : (forall i, ev <> EBegin i) -> exec offset victim hasDatabase ev (world b) = Some w ->
      board_step overlap b (set_world w b)
  | bs_new i e endpoints interval maxNeighbors rateLimit m : runs (world b) !! i = Some Pending -> managers b !! i = None ->
      NewManager e endpoints interval maxNeighbors rateLimit = Ret m -> board_step overlap b (set_manager i m b)
  | bs_begin i w : is_Some (managers b !! i) -> exec offset victim hasDatabase (EBegin i) (world b) = Some w ->
      overlap = true \/ activeDHTManager b = None -> board_step overlap b (activate i (set_world w b))
  | bs_manager i m m' : managers b !! i = Some m -> mg_step SplitHostPort Atoi LookupIP sha1 m m' ->
      board_step overlap b (set_manager i m' b)
  | bs_end i s m : runs (world b) !! i = Some (Crawl Finished s) -> i ∉ ended b ->
      managers b !! i = Some m -> m_done m = true -> board_step overlap b (crawl_deferred i m b).
End Steps.

(** ** A manager that is terminated counts no more *)

(** What the services' tables count. *)
Definition request_counts (rq : requests) : Z * Z * Z := (requestsRejected rq, requestsDeduped rq, requestsSendDropped rq).

(** A service that is done, with these counts. *)
Definition at_rest (c : Z * Z * Z) (s : IndexingService) : Prop := done s = true /\ request_counts (reqs s) = c.

Lemma at_rest_eq c s s' : reqs s' = reqs s -> done s' = done s -> at_rest c s -> at_rest c s'.
Proof. unfold at_rest. by intros -> ->. Qed.
Lemma at_rest_set_reqs c rq s : request_counts rq = request_counts (reqs s) -> at_rest c s -> at_rest c (set_reqs rq s).
Proof. intros E [H1 H2]. split; [done|]. by rewrite <- H2, <- E. Qed.
Lemma at_rest_send c e msg addr s : at_rest c s -> at_rest c (send_ e msg addr s).
Proof. destruct (send_frame e msg addr s) as (_ & ? & _ & _ & _ & ?). by apply at_rest_eq. Qed.
Lemma at_rest_addNode c e id addr s : at_rest c s -> at_rest c (addNode e id addr s).
Proof. destruct (addNode_frame e id addr s) as (? & _ & _ & _ & ?). by apply at_rest_eq. Qed.

Lemma remove_counts t entry rq : request_counts (removeGetPeersRequestLocked t entry rq) = request_counts rq.
Proof. unfold removeGetPeersRequestLocked. by destruct (_ <=? 1). Qed.
Lemma expire_loop_totals cutoff l rq nx : request_counts (expire_loop cutoff l rq nx) = request_counts rq.
Proof.
  revert rq nx. induction l as [|[t entry] l IH]; intros rq nx; cbn [expire_loop]; [done|].
  destruct (_ <=? _); rewrite IH; [apply remove_counts|done].
Qed.
Lemma expire_counts now rq : request_counts (expireOldGetPeersRequestsLocked now rq) = request_counts rq.
Proof. unfold expireOldGetPeersRequestsLocked. destruct (_ && _); [done|apply expire_loop_totals]. Qed.

Section Rest.
  Context `{AddrText}.
  Context (SplitHostPort : string -> option (string * string)) (Atoi : string -> option Z)
    (LookupIP : string -> option (list (list byte))) (sha1 : list byte -> list byte).

Lemma at_rest_receive c e msg addr s : at_rest c s -> at_rest c (receive sha1 e msg addr s).
Proof.
  intros Hr. pose proof (proj1 Hr) as Hd. unfold receive. apply onMessage_inv; [done|]. intros [] f [= <-]; cbn beta.
  - by apply at_rest_send, at_rest_addNode.
  - unfold onFindNodeQuery. destruct (responseNodes _ _ _). by apply at_rest_send, at_rest_addNode.
  - unfold onGetPeersQuery. destruct (responseNodes _ _ _). by apply at_rest_send, at_rest_addNode.
  - unfold onAnnouncePeerQuery. case_match; [done|]. apply at_rest_send. by case_match; [apply (at_rest_eq c s)|].
  - unfold onSampleInfohashesQuery, stopped. by rewrite Hd.
  - unfold onFindNodeResponse, stopped. by rewrite Hd.
  - unfold onGetPeersResponse, stopped. by rewrite Hd.
  - unfold onSampleInfohashesResponse, stopped. by rewrite Hd.
Qed.

Lemma at_rest_maintain c e saved nodes s : at_rest c s -> at_rest c (runMaintenance SplitHostPort Atoi LookupIP e saved nodes s).
Proof.
  intros Hr. pose proof (proj1 Hr) as Hd. unfold runMaintenance. cbv zeta.
  assert (forall l, bootstrap SplitHostPort Atoi LookupIP e l s = s) as Hb.
  { intros l. unfold bootstrap. induction l as [|n l IH]; [done|]. cbn [foldl]. change (done s) with (stopped s) in Hd. by rewrite Hd. }
  assert (findNeighbors e s = s) as Hf by (unfold findNeighbors, stopped; by rewrite Hd).
  assert ((if Len (routingTable s) <? 8 then match nodes with [] => s | _ => bootstrap SplitHostPort Atoi LookupIP e nodes s end else s) = s) as ->.
  { case_match; [|done]. destruct nodes; [done|apply Hb]. }
  rewrite Hf. set (s1 := if 0 <? _ then _ else _).
  assert (at_rest c (expireOldGetPeersRequests e (pruneProbeCache e s1))) as Hx.
  { unfold expireOldGetPeersRequests. apply at_rest_set_reqs; [apply expire_counts|]. apply (at_rest_eq c s); [by unfold s1; case_match..|done]. }
  case_match; [|done]. eapply at_rest_eq; [| |exact Hx]; unfold saveRoutingTable; by repeat case_match.
Qed.

Lemma at_rest_probe c e addr s : at_rest c s -> at_rest c (probeBootstrapCandidate e addr s).
Proof. intros Hr. unfold probeBootstrapCandidate, stopped. by rewrite (proj1 Hr), orb_true_r. Qed.

Lemma at_rest_start c e s s' : Start e s = Ret s' -> at_rest c s -> at_rest c s'.
Proof.
  intros Hs Hr. unfold Start in Hs. destruct (started s); [done|].
  assert (at_rest c (loadRoutingTable e (set_lifecycle true (done s) s))) as Hl.
  { unfold loadRoutingTable. case_match; [|by apply (at_rest_eq c s)].
    apply foldl_inv; [|by apply (at_rest_eq c s)]. intros s1 entry _ H1. unfold loadEntry. repeat (case_match; try done). }
  set (s1 := loadRoutingTable _ _) in *. clearbody s1. destruct (Protocol_Start _); [|done..]. injection Hs as <-. by apply (at_rest_eq c s1).
Qed.

Lemma at_rest_step c s s' : at_rest c s -> is_step SplitHostPort Atoi LookupIP sha1 s s' -> at_rest c s'.
Proof.
  intros Hr [e msg addr _|e saved nodes _|e addr|random|e s'' Hs|saved].
  - by apply at_rest_receive.
  - by apply at_rest_maintain.
  - by apply at_rest_probe.
  - by apply (at_rest_eq c s).
  - by eapply at_rest_start.
  - unfold Terminate. by rewrite (proj1 Hr).
Qed.
End Rest.

(** The counts of a manager, and that it is terminated with all its services. *)
Definition counts_of (m : Manager) : list (Z * Z * Z) := (fun s => request_counts (reqs s)) <$> indexingServices m.
Record quiet (d : Z) (l : list (Z * Z * Z)) (m : Manager) : Prop := {
  quiet_done : m_done m = true;
  quiet_services : Forall (fun s => done s = true) (indexingServices m);
  quiet_dropped : outputDropped m = d;
  quiet_counts : counts_of m = l
}.

Lemma read_counts k m m' : outputDropped m' = outputDropped m -> counts_of m' = counts_of m -> read k m' = read k m.
Proof.
  intros Hd Hc. assert (forall f g, (forall rq, f rq = g (request_counts rq)) -> total_of f m' = total_of f m) as Ht.
  { intros f g Hf. unfold total_of. enough (forall l t, foldl (fun total s => u64 (total + f (reqs s))) t l =
      foldl (fun total c => u64 (total + g c)) t ((fun s => request_counts (reqs s)) <$> l)) as E.
    { rewrite !E. fold (counts_of m'). by rewrite Hc. }
    induction l as [|s l IH]; intros t; [done|]. cbn [foldl fmap list_fmap]. by rewrite IH, Hf. }
  destruct k; [exact Hd|apply (Ht _ (fun c => c.1.1))|apply (Ht _ (fun c => c.1.2))|apply (Ht _ (fun c => c.2))]; done.
Qed.

Section Frozen.
  Context `{AddrText}.
  Context (SplitHostPort : string -> option (string * string)) (Atoi : string -> option Z)
    (LookupIP : string -> option (list (list byte))) (sha1 : list byte -> list byte).

(** A service of a quiet manager may move while its counts stay. *)
Lemma quiet_insert d l m i s s' : quiet d l m -> indexingServices m !! i = Some s ->
  at_rest (request_counts (reqs s)) s' -> quiet d l (set_services (<[i := s']> (indexingServices m)) m).
Proof.
  intros [H1 H2 H3 H4] Hi [Hd Hc]. split; [done|by apply Forall_insert|done|].
  unfold counts_of. cbn [indexingServices set_services]. rewrite list_fmap_insert, Hc, list_insert_id; [done|].
  by rewrite list_lookup_fmap, Hi.
Qed.

Lemma quiet_service d l m i s : quiet d l m -> indexingServices m !! i = Some s -> at_rest (request_counts (reqs s)) s.
Proof. intros [_ H2 _ _] Hi. split; [|done]. rewrite Forall_lookup in H2. by apply (H2 i). Qed.

Lemma quiet_pending d l m nw : quiet d l m -> quiet d l (PendingGetPeersRequests nw m).2.
Proof.
  intros [H1 H2 H3 H4]. unfold PendingGetPeersRequests.
  assert (forall ss, Forall (fun s => done s = true) ss -> Forall (fun s => done s = true) (pending_loop nw ss).2 /\
    ((fun s => request_counts (reqs s)) <$> (pending_loop nw ss).2) = ((fun s => request_counts (reqs s)) <$> ss)) as Hp.
  { induction 1 as [|s ss Hs _ [I1 I2]]; [done|]. cbn [pending_loop]. unfold pendingGetPeersRequests. cbv zeta.
    destruct (pending_loop nw ss) as [total ss']. cbn [snd] in *. split; [by constructor|]. cbn [fmap list_fmap]. 
    f_equal; [apply expire_counts|done]. }
  destruct (Hp _ H2) as [P1 P2]. destruct (pending_loop _ _) as [total ss]. split; try done.
  unfold counts_of in *. cbn [indexingServices set_services snd] in *. by rewrite P2.
Qed.

Lemma quiet_step d l m m' : quiet d l m -> mg_step SplitHostPort Atoi LookupIP sha1 m m' -> quiet d l m'.
Proof.
  intros Hq [choice e i s s' Hi Hs|nw _|res m'' Ho|saved].
  - unfold service_step. apply foldl_inv; [|apply foldl_inv].
    + intros m1 addr _ H1. unfold onBootstrapCandidate. destruct (ipv6Service _) as [j|]; [|done].
      destruct (indexingServices m1 !! j) as [s6|] eqn:Hj; [|done]. destruct (ContainsAddr _ _); [done|].
      eapply quiet_insert; [done|done|]. eapply at_rest_probe, quiet_service; done.
    + intros m1 res _ [H1 H2 H3 H4]. unfold onIndexingResult. rewrite H1.
      destruct (_ <? _)%nat; [destruct choice|]; by split.
    + eapply quiet_insert; [done|done|]. eapply at_rest_step; [by eapply quiet_service|done].
  - by apply quiet_pending.
  - unfold Output in Ho. destruct (output m); [done|]. injection Ho as _ <-. destruct Hq. by split.
  - unfold Manager_Terminate. by rewrite (quiet_done _ _ _ Hq).
Qed.

(** Every manager that is terminated is quiet. *)
Definition settled (m : Manager) : Prop := m_done m = true -> quiet (outputDropped m) (counts_of m) m.

Lemma settled_step m m' : settled m -> mg_step SplitHostPort Atoi LookupIP sha1 m m' -> settled m'.
Proof.
  intros Hm Hs. destruct (m_done m) eqn:Hd.
  - pose proof (quiet_step _ _ _ _ (Hm Hd) Hs) as [H1 H2 H3 H4]. intros _. by split.
  - intros Hd'. destruct Hs as [choice e i s s' Hi Hs|nw Hn|res m'' Ho|saved].
    + enough (m_done (service_step choice e i s s' m) = false) by congruence. clear Hd'. unfold service_step. apply foldl_inv; [|apply foldl_inv].
      * intros m1 addr _ H1. unfold onBootstrapCandidate. by repeat case_match.
      * intros m1 res _ H1. unfold onIndexingResult. rewrite H1. by destruct (_ <? _)%nat.
      * done.
    + unfold PendingGetPeersRequests in Hd'. destruct (pending_loop _ _). cbn in Hd'. congruence.
    + unfold Output in Ho. destruct (output m); [done|]. injection Ho as _ <-. cbn in Hd'. congruence.
    + unfold Manager_Terminate. rewrite Hd. split; try done. cbn [indexingServices]. apply Forall_fmap, Forall_forall. intros s _.
      unfold Terminate, compose. destruct (done s) eqn:E; [done|]. unfold saveRoutingTable. by repeat case_match.
Qed.
End Frozen.

(** ** Sums over finite sets *)

Definition set_sum (f : nat -> Z) (X : gset nat) : Z := foldr (fun i z => f i + z) 0 (elements X).

Lemma set_sum_empty f : set_sum f ∅ = 0.
Proof. done. Qed.
Lemma set_sum_insert f i X : i ∉ X -> set_sum f ({[i]} ∪ X) = f i + set_sum f X.
Proof.
  intros Hi. unfold set_sum. rewrite (foldr_permutation eq (fun i z => f i + z) 0 _ (i :: elements X)); [done|lia|].
  by apply elements_union_singleton.
Qed.
Lemma set_sum_ext f g X : (forall i, i ∈ X -> f i = g i) -> set_sum f X = set_sum g X.
Proof.
  intros Hfg. unfold set_sum. assert (forall i, i ∈ elements X -> f i = g i) as H by (intros i ?%elem_of_elements; auto).
  induction (elements X) as [|i l IH]; [done|]. cbn [foldr]. rewrite H by left. f_equal. apply IH. intros j Hj. apply H. by right.
Qed.

(** ** The accounts of a board *)

Definition counted (k : counter) (b : Board) (i : nat) : Z := match managers b !! i with Some m => read k m | None => 0 end.
Definition crawling (w : World) (i : nat) : Prop := exists p s, runs w !! i = Some (Crawl p s).

Lemma total_add k m t : total_of_counter k (add_counters m t) = u64 (total_of_counter k t + read k m).
Proof. by destruct k. Qed.
Lemma u64_add_l a b : u64 (u64 a + b) = u64 (a + b).
Proof. apply Zplus_mod_idemp_l. Qed.
Lemma u64_add_r a b : u64 (a + u64 b) = u64 (a + b).
Proof. apply Zplus_mod_idemp_r. Qed.

(** The runs that a step of the world sets going. *)
Lemma crawling_set_mgr m w i : crawling (set_mgr m w) i <-> crawling w i.
Proof.
  unfold crawling. cbn [set_mgr runs]. split; intros (p & s & Hr); exists p, s.
  - apply lookup_app_Some in Hr as [Hr|[_ [? _]%lookup_replicate]]; done.
  - by apply lookup_app_l_Some.
Qed.
Lemma crawling_set_run j r p s c w i : runs w !! j = Some r ->
  crawling (set_run j (Crawl p s) c w) i <-> crawling w i \/ i = j.
Proof.
  intros Hj. unfold crawling. cbn [set_run runs]. destruct (decide (i = j)) as [->|Hne].
  - rewrite list_lookup_insert_eq by (by eapply lookup_lt_Some). split; [by right|intros _; by eexists _, _].
  - rewrite list_lookup_insert_ne by done. tauto.
Qed.

Section Runs.
  Context (offset : duration) (victim : gmap (list byte) time -> list byte) (hasDatabase : bool).

Lemma crawling_with_sink j w f w' : with_sink j w f = Some w' -> exists p s, runs w !! j = Some (Crawl p s) /\ f p s = Some w'.
Proof. unfold with_sink. destruct (runs w !! j) as [[|p s]|]; [done| |done]. eauto. Qed.

Lemma exec_crawling ev w w' i : exec offset victim hasDatabase ev w = Some w' ->
  crawling w' i <-> crawling w i \/ ev = EBegin i.
Proof.
  assert (forall j p s p' s' c, runs w !! j = Some (Crawl p s) ->
    crawling (set_run j (Crawl p' s') c w) i <-> crawling w i) as Hset.
  { intros j p s p' s' c Hj. rewrite crawling_set_run by done. split; [|by left]. intros [?| ->]; [done|]. by eexists _, _. }
  destruct ev as [now|now|now|j now|c|j|j now res|j acc|j|j|j d|j d peers|j d o|now h]; cbn [exec]; intros Hx.
  all: try (enough (crawling w' i <-> crawling w i) as -> by (split; [by left|by intros [?|[=]]])).
  all: try (apply crawling_with_sink in Hx as (p & s & Hj & Hx)).
  - injection Hx as <-. apply crawling_set_mgr.
  - destruct (to_option _); [|done]. injection Hx as <-. apply crawling_set_mgr.
  - destruct (to_option _); [|done]. injection Hx as <-. apply crawling_set_mgr.
  - destruct (timers (mgr w) !! j) as [t|]; [|done]. cbn [mbind option_bind] in Hx. destruct (_ <=? _); [|done].
    destruct (to_option _); [|done]. injection Hx as <-. apply crawling_set_mgr.
  - injection Hx as <-. apply crawling_set_mgr.
  - destruct (runs w !! j) as [[|]|] eqn:Hj; [|done..]. injection Hx as <-. unfold crawl_begin. rewrite (crawling_set_run _ Pending) by done.
    split; [intros [?| ->]|intros [?|[= ->]]]; tauto.
  - case_decide; [|done]. destruct (crawl_result _ _ _ _) as [s' c']. injection Hx as <-. exact (Hset j p s p s' (cache w) Hj).
  - case_decide; [|done]. destruct (Sink.receive s) as [[md s']|]; [|done]. injection Hx as <-. exact (Hset j p s p s' (cache w) Hj).
  - case_decide; [|done]. injection Hx as <-. by eapply Hset.
  - case_decide; [|done]. injection Hx as <-. by eapply Hset.
  - destruct (Sink.download_start d s); [|done]. injection Hx as <-. by eapply Hset.
  - destruct (Sink.running s !! d); [|done]. injection Hx as <-. by eapply Hset.
  - destruct (Sink.download_end d o s); [|done]. injection Hx as <-. by eapply Hset.
  - destruct hasDatabase; [done|]. by injection Hx as <-.
Qed.
End Runs.

(** Asking for the status changes nothing but the requests that wait. *)
Lemma Crawler_Status_frame offset now b : world (Crawler_Status offset now b).2 = world b /\
  cs_Running (Crawler_Status offset now b).1 = Crawler.running (mgr (world b)).
Proof.
  unfold Crawler_Status. destruct (Schedule.scheduleState _ _ _ _). destruct (_ ≫= _) as [[i d]|]; [|done].
  by destruct (PendingGetPeersRequests now d).
Qed.

Section Accounts.
  Context `{AddrText}.
  Context (SplitHostPort : string -> option (string * string)) (Atoi : string -> option Z)
    (LookupIP : string -> option (list (list byte))) (sha1 : list byte -> list byte).
  Context (offset : duration) (victim : gmap (list byte) time -> list byte) (hasDatabase : bool).
  Abbreviation step := (board_step SplitHostPort Atoi LookupIP sha1 offset victim hasDatabase).

Record board_inv (b : Board) : Prop := {
  bi_settled : forall i m, managers b !! i = Some m -> settled m;
  bi_known : forall i, i ∈ begun b -> is_Some (managers b !! i);
  bi_begun : forall i, (i ∈ begun b) <-> crawling (world b) i;
  bi_active : forall i, activeDHTManager b = Some i -> (i ∈ begun b) /\ (i ∉ ended b) /\ (i ∉ displaced b);
  bi_where : forall i, i ∈ begun b -> activeDHTManager b = Some i \/ i ∈ displaced b \/ i ∈ ended b;
  bi_logs : displaced b ⊆ begun b /\ ended b ⊆ begun b;
  bi_ended : forall i m, i ∈ ended b -> managers b !! i = Some m -> m_done m = true;
  bi_total : forall k, total_of_counter k (totals b) = u64 (set_sum (counted k b) (ended b ∖ displaced b))
}.

Lemma board_init_inv c c0 : board_inv (board_init c c0).
Proof.
  split; cbn [board_init managers begun ended displaced activeDHTManager world totals]; try done.
  - intros i. split; [by intros ?%not_elem_of_empty|]. by intros (p & s & Hr).
  - intros k. by destruct k.
Qed.

(** A manager moves; one whose crawl is over keeps its counts. *)
Lemma inv_set_manager b i m : board_inv b -> settled m ->
  (forall m0, managers b !! i = Some m0 -> i ∈ ended b -> m_done m = true /\ forall k, read k m = read k m0) ->
  board_inv (set_manager i m b).
Proof.
  intros [H1 H2 H3 H4 H5 H6 H7 H8] Hm Hk. split; cbn [set_manager managers begun ended displaced activeDHTManager world totals]; try done.
  - intros j m'. destruct (decide (j = i)) as [->|]; [rewrite lookup_insert_eq; by intros [= <-]|rewrite lookup_insert_ne by done; apply H1].
  - intros j Hj. destruct (decide (j = i)) as [->|]; [rewrite lookup_insert_eq; eauto|rewrite lookup_insert_ne by done; auto].
  - intros j m' Hj. destruct (decide (j = i)) as [->|]; [rewrite lookup_insert_eq|rewrite lookup_insert_ne by done; eauto].
    intros [= <-]. destruct (H2 i) as [m0 E]; [by apply H6|]. by apply (Hk m0).
  - intros k. rewrite H8. f_equal. apply set_sum_ext. intros j [Hj _]%elem_of_difference. unfold counted. cbn [set_manager managers].
    destruct (decide (j = i)) as [->|]; [rewrite lookup_insert_eq|by rewrite lookup_insert_ne].
    destruct (H2 i) as [m0 E]; [by apply H6|]. rewrite E. symmetry. by apply Hk.
Qed.

Lemma inv_activate b i w : board_inv b -> is_Some (managers b !! i) ->
  exec offset victim hasDatabase (EBegin i) (world b) = Some w -> board_inv (activate i (set_world w b)).
Proof.
  intros [H1 H2 H3 H4 H5 [H6 H6'] H7 H8] Hm Hw.
  assert (i ∉ begun b) as Hi.
  { intros (p & s & Hr)%H3. cbn [exec] in Hw. by rewrite Hr in Hw. }
  split; cbn [activate set_world managers begun ended displaced activeDHTManager world totals]; try done.
  - intros j [->%elem_of_singleton|?]%elem_of_union; auto.
  - intros j. rewrite elem_of_union, elem_of_singleton, H3, (exec_crawling _ _ _ _ _ _ j Hw).
    split; [intros [->|?]; auto|intros [?|[= ->]]; auto].
  - intros j [= <-]. split; [set_solver|]. split; [set_solver|]. destruct (activeDHTManager b) as [j|] eqn:E; [|set_solver].
    destruct (H4 j eq_refl). set_solver.
  - intros j [->%elem_of_singleton|Hj]%elem_of_union; [by left|right].
    destruct (H5 j Hj) as [E|[?|?]]; [|left; case_match; set_solver|by right]. left. rewrite E. set_solver.
  - split; [|set_solver]. destruct (activeDHTManager b) as [j|] eqn:E; [|set_solver]. destruct (H4 j eq_refl). set_solver.
  - intros k. rewrite H8. assert (ended b ∖ match activeDHTManager b with Some j => {[j]} ∪ displaced b | None => displaced b end =
      ended b ∖ displaced b) as ->; [|done].
    destruct (activeDHTManager b) as [j|] eqn:E; [|done]. destruct (H4 j eq_refl) as (_ & ? & _). set_solver.
Qed.

Lemma inv_deferred b i m : board_inv b -> i ∈ begun b -> i ∉ ended b -> managers b !! i = Some m -> m_done m = true ->
  board_inv (crawl_deferred i m b).
Proof.
  intros Hinv Hb Hi Hm Hd. pose proof Hinv as [H1 H2 H3 H4 H5 [H6 H6'] H7 H8]. unfold crawl_deferred.
  assert (forall j m', j ∈ {[i]} ∪ ended b -> managers b !! j = Some m' -> m_done m' = true) as Hdone.
  { intros j m' [->%elem_of_singleton|?]%elem_of_union Hj; [congruence|eauto]. }
  case_bool_decide as Ha; split; cbn [managers begun ended displaced activeDHTManager world totals]; try done.
  - intros j Hj. destruct (H5 j Hj) as [E|?]; set_solver.
  - set_solver.
  - intros k. rewrite total_add, H8, u64_add_l. f_equal. destruct (H4 i Ha) as (_ & _ & Hdis).
    assert (({[i]} ∪ ended b) ∖ displaced b = {[i]} ∪ (ended b ∖ displaced b)) as -> by set_solver.
    rewrite set_sum_insert by set_solver. change (counted k _) with (counted k b). unfold counted at 2. rewrite Hm. lia.
  - intros j E. destruct (H4 j E). set_solver.
  - intros j Hj. destruct (H5 j Hj) as [?|[?|?]]; [by left|set_solver|set_solver].
  - set_solver.
  - intros k. rewrite H8. assert (i ∈ displaced b) as Hdis by (destruct (H5 i Hb) as [?|[?|?]]; done).
    by assert (({[i]} ∪ ended b) ∖ displaced b = ended b ∖ displaced b) as -> by set_solver.
Qed.

Lemma board_step_inv overlap b b' : board_inv b -> step overlap b b' -> board_inv b'.
Proof.
  intros Hi [ev w Hev Hw|i e eps iv mn rl m Hr Hm Hnew|i w Hm Hw _|i m m' Hm Hs|i s m Hr He Hm Hd].
  - destruct Hi as [H1 H2 H3 H4 H5 H6 H7 H8]. split; try done. intros j. cbn [set_world world begun].
    rewrite H3, (exec_crawling _ _ _ _ _ _ j Hw). split; [by left|]. intros [?|E]; [done|by apply Hev in E].
  - apply inv_set_manager; [done| |intros m0 E; congruence]. apply (NewManager_services SplitHostPort Atoi LookupIP sha1) in Hnew as (_ & _ & Hd & _).
    intros Hd'. congruence.
  - by apply inv_activate.
  - pose proof (bi_settled _ Hi i m Hm) as Hset. apply inv_set_manager; [done|by eapply settled_step|].
    intros m0 E Hend. assert (m0 = m) as -> by congruence.
    pose proof (quiet_step _ _ _ _ _ _ _ _ (Hset (bi_ended _ Hi i m Hend Hm)) Hs) as [Q1 _ Q3 Q4]. split; [done|].
    intros k. by apply read_counts.
  - apply inv_deferred; try done. apply (bi_begun _ Hi). by eexists _, _.
Qed.

Lemma board_star_inv overlap c c0 b : star (step overlap) (board_init c c0) b -> board_inv b.
Proof. intros Hs. eapply star_inv; [|exact Hs|apply board_init_inv]. intros b1 b2. apply board_step_inv. Qed.

(** What is reported of a counter. *)
Lemma status_value k b now : status_counter k (Crawler_Status offset now b).1 =
  match activeDHTManager b ≫= (fun i => managers b !! i) with
  | Some m => u64 (total_of_counter k (totals b) + read k m)
  | None => total_of_counter k (totals b)
  end.
Proof.
  unfold Crawler_Status. destruct (Schedule.scheduleState _ _ _ _) as [inside next].
  destruct (activeDHTManager b) as [i|]; cbn [mbind option_bind]; [|by destruct k].
  destruct (managers b !! i) as [m|]; cbn [fmap option_fmap option_map]; [|by destruct k].
  destruct (PendingGetPeersRequests now m) as [n m']. by destruct k.
Qed.

Lemma reported b k now : board_inv b ->
  status_counter k (Crawler_Status offset now b).1 = u64 (set_sum (counted k b) (begun b ∖ displaced b)).
Proof.
  intros Hi. rewrite status_value. destruct (activeDHTManager b) as [i|] eqn:E; cbn [mbind option_bind].
  - destruct (bi_active _ Hi i E) as (Hb & He & Hd). destruct (bi_known _ Hi i Hb) as [m Hm]. rewrite Hm, (bi_total _ Hi), u64_add_l.
    assert (begun b ∖ displaced b = {[i]} ∪ (ended b ∖ displaced b)) as ->.
    { apply set_eq. intros j. rewrite elem_of_union, !elem_of_difference, elem_of_singleton. split.
      - intros [Hj Hn]. destruct (bi_where _ Hi j Hj) as [?|[?|?]]; [left; congruence|done|auto].
      - intros [->|[Hj ?]]; [done|]. split; [by apply (bi_logs _ Hi)|done]. }
    rewrite set_sum_insert by set_solver. unfold counted at 2. rewrite Hm. f_equal. lia.
  - rewrite (bi_total _ Hi). do 2 f_equal. apply set_eq. intros j. rewrite !elem_of_difference. split.
    + intros [Hj ?]. split; [by apply (bi_logs _ Hi)|done].
    + intros [Hj Hn]. destruct (bi_where _ Hi j Hj) as [?|[?|?]]; [congruence|done|done].
Qed.

Lemma serial_displaced c c0 b : star (step false) (board_init c c0) b -> displaced b = ∅.
Proof.
  intros Hs. enough (board_inv b /\ displaced b = ∅) by tauto.
  refine (star_inv (step false) (fun b => board_inv b /\ displaced b = ∅) _ _ _ Hs _); [|split; [apply board_init_inv|done]].
  intros b1 b2 [Hi Hd] Hst. split; [by eapply board_step_inv|].
  destruct Hst as [| |i w Hm Hw [?|Ha]| |]; try done. cbn [activate set_world displaced activeDHTManager]. by rewrite Ha.
Qed.

(** C13: What Status reports of the DHT, for every history of starts, stops and crawls: each
    of the four counters is the sum, on 64 bits, of what the managers of all crawls since
    the process began have counted, those of ended crawls included, but for the crawls
    that were displaced: another crawl made its manager the active one before they ended.
    When every crawl ends before the next one begins there are none. *)
Theorem status_counts (overlap : bool) (c : Configuration) (c0 : Cache.Cache) (b : Board) (k : counter) (now : time) :
  star (step overlap) (board_init c c0) b ->
  status_counter k (Crawler_Status offset now b).1 = u64 (set_sum (counted k b) (begun b ∖ displaced b)) /\
  (forall i, (i ∈ begun b) <-> crawling (world b) i) /\
  (overlap = false -> displaced b = ∅).
Proof.
  intros Hs. pose proof (board_star_inv _ _ _ _ Hs) as Hi. split; [by apply reported|]. split; [apply (bi_begun _ Hi)|].
  intros ->. by eapply serial_displaced.
Qed.
End Accounts.

(** ** The log line of a worker *)

(** float64, its conversion from integers, sum and quotient; Duration.Seconds. *)
Definition float64 : Type := spec_float.
Definition float64_of (z : Z) : float64 := binary_normalize 53 1024 z 0 false.
Definition fadd (x y : float64) : float64 := SFadd 53 1024 x y.
Definition fdiv (x y : float64) : float64 := SFdiv 53 1024 x y.
Definition Seconds (d : duration) : float64 :=
  fadd (float64_of (Z.quot d second)) (fdiv (float64_of (Z.rem d second)) (float64_of 1000000000)).

Record WorkerQueueStats : Type := mkQueueStats {
  qs_Queued : Z; qs_Dropped : Z; qs_Flushed : Z; qs_FlushBatches : Z; qs_FlushRatePerSecond : float64
}.

(** [Stats] of a queue that was made at [started]. *)
Definition WorkerQueue_Stats (started now : time) (q : WorkerQueue) : WorkerQueueStats :=
  let elapsed := Seconds (now - started) in
  let rate := if SFltb (float64_of 0) elapsed then fdiv (float64_of (flushed q)) elapsed else float64_of 0 in
  mkQueueStats (Length q) (dropped q) (flushed q) (flushBatches q) rate.

(** What [logWorkerMetrics] remembers of its last line. *)
Record Previous : Type := mkPrevious {
  previousDiscovered : Z; previousDownloads : Z; previousDHTDropped : Z; previousGetPeersRejected : Z;
  previousGetPeersDeduped : Z; previousGetPeersSendDropped : Z; previousFlushed : Z
}.
Definition no_line : Previous := mkPrevious 0 0 0 0 0 0 0.

Record Line : Type := mkLine {
  discovered_ : Z; discovered_per_second : float64; download_succeeded : Z; downloads_per_second : float64;
  queued : Z; queue_dropped : Z; flushed_ : Z; flush_per_second : float64; flush_batches : Z;
  dht_output_dropped : Z; dht_output_dropped_interval : Z; pending_get_peers : Z;
  get_peers_rejected : Z; get_peers_rejected_interval : Z; get_peers_deduped : Z; get_peers_deduped_interval : Z;
  get_peers_send_dropped : Z; get_peers_send_dropped_interval : Z
}.

Definition per_second (n : Z) : float64 := fdiv (float64_of n) (Seconds minute).

(** One tick of [logWorkerMetrics]. *)
Definition log_tick (prev : Previous) (cs : CrawlerStatus) (qs : WorkerQueueStats) : Line * Previous :=
  (mkLine (cs_Discovered cs) (per_second (u64 (cs_Discovered cs - previousDiscovered prev)))
     (cs_DownloadSucceeded cs) (per_second (u64 (cs_DownloadSucceeded cs - previousDownloads prev)))
     (qs_Queued qs) (qs_Dropped qs) (qs_Flushed qs) (per_second (u64 (qs_Flushed qs - previousFlushed prev))) (qs_FlushBatches qs)
     (cs_DHTOutputDropped cs) (u64 (cs_DHTOutputDropped cs - previousDHTDropped prev)) (cs_PendingGetPeers cs)
     (cs_GetPeersRejected cs) (u64 (cs_GetPeersRejected cs - previousGetPeersRejected prev))
     (cs_GetPeersDeduped cs) (u64 (cs_GetPeersDeduped cs - previousGetPeersDeduped prev))
     (cs_GetPeersSendDropped cs) (u64 (cs_GetPeersSendDropped cs - previousGetPeersSendDropped prev)),
   mkPrevious (cs_Discovered cs) (cs_DownloadSucceeded cs) (cs_DHTOutputDropped cs) (cs_GetPeersRejected cs)
     (cs_GetPeersDeduped cs) (cs_GetPeersSendDropped cs) (qs_Flushed qs)).

(** The lines of the ticks, in order. *)
Fixpoint log_lines (prev : Previous) (ticks : list (CrawlerStatus * WorkerQueueStats)) : list Line :=
  match ticks with
  | [] => []
  | t :: ticks => let '(line, prev) := log_tick prev t.1 t.2 in line :: log_lines prev ticks
  end.

Definition line_interval (k : counter) (l : Line) : Z :=
  match k with
  | OutputDropped_ => dht_output_dropped_interval l
  | Rejected_ => get_peers_rejected_interval l
  | Deduped_ => get_peers_deduped_interval l
  | SendsDropped_ => get_peers_send_dropped_interval l
  end.
Definition previous_counter (k : counter) (p : Previous) : Z :=
  match k with
  | OutputDropped_ => previousDHTDropped p
  | Rejected_ => previousGetPeersRejected p
  | Deduped_ => previousGetPeersDeduped p
  | SendsDropped_ => previousGetPeersSendDropped p
  end.

Lemma tick_counter k prev cs qs : let '(line, prev') := log_tick prev cs qs in
  line_interval k line = u64 (status_counter k cs - previous_counter k prev) /\ previous_counter k prev' = status_counter k cs.
Proof. by destruct k. Qed.

Lemma u64_range z : 0 <= u64 z < 2 ^ 64.
Proof. apply Z.mod_pos_bound. lia. Qed.

Lemma u64_fall a d : 0 <= a < 2 ^ 64 -> 0 < d <= u64 (a + d) -> a = u64 (a + d) - d.
Proof.
  intros Ha Hd. pose proof (u64_range (a + d)). destruct (Z.lt_ge_cases (a + d) (2 ^ 64)); [rewrite (u64_small (a + d)); lia|].
  exfalso. destruct (Z.lt_ge_cases d (2 ^ 64)); [|lia]. unfold u64 in *.
  rewrite <- (Z.mod_add (a + d) (-1)), Z.mod_small in Hd by lia. lia.
Qed.
Lemma u64_neg d : 0 < d < 2 ^ 64 -> u64 (- d) = 2 ^ 64 - d.
Proof. intros. unfold u64. rewrite <- (Z.mod_add _ 1), Z.mod_small by lia. lia. Qed.

(** The differences of the lines add up, on 64 bits, to what the last line reports: what
    one line shows too much, another shows too little. *)
Theorem log_lines_add_up (k : counter) (prev : Previous) (ticks : list (CrawlerStatus * WorkerQueueStats)) :
  let reported := status_counter k <$> ticks.*1 in
  u64 (previous_counter k prev + foldr Z.add 0 (line_interval k <$> log_lines prev ticks)) =
  u64 (default (previous_counter k prev) (last reported)).
Proof.
  cbv zeta. revert prev. induction ticks as [|[cs qs] ticks IH]; intros prev; cbn [log_lines].
  { cbn. by rewrite Z.add_0_r. }
  pose proof (tick_counter k prev cs qs) as Ht. cbn [fst snd]. destruct (log_tick prev cs qs) as [line prev']. destruct Ht as [Hl Hp].
  cbn [fmap list_fmap foldr fst]. rewrite Hl. specialize (IH prev'). rewrite Hp in IH.
  set (z := foldr _ _ _) in *. rewrite Z.add_assoc, <- u64_add_l, u64_add_r, u64_add_l.
  replace (previous_counter k prev + (status_counter k cs - previous_counter k prev) + z) with (status_counter k cs + z) by lia.
  rewrite IH, last_cons. by destruct (last _).
Qed.

Section Overlap.
  Context `{AddrText}.
  Context (SplitHostPort : string -> option (string * string)) (Atoi : string -> option Z)
    (LookupIP : string -> option (list (list byte))) (sha1 : list byte -> list byte).
  Context (offset : duration) (victim : gmap (list byte) time -> list byte) (hasDatabase : bool).
  Abbreviation step := (board_step SplitHostPort Atoi LookupIP sha1 offset victim hasDatabase).

Lemma displaced_stays overlap b b' j : star (step overlap) b b' -> j ∈ displaced b -> j ∈ displaced b'.
Proof.
  intros Hs. refine (star_inv (step overlap) (fun b => j ∈ displaced b) _ _ _ Hs). intros b1 b2 Hj Hst.
  destruct Hst as [| |i w _ _ _| |i s m _ _ _ _]; try done. cbn [activate set_world displaced activeDHTManager].
  case_match; set_solver.
Qed.

(** C39: A crawl that begins before the deferred function of the last one has run makes the
    process forget what that one counted: the reported counter falls by it, the next
    log line shows the fall as a difference of almost 2^64, and no later report counts
    it again. *)
Theorem overlapping_crawl_forgotten (c : Configuration) (c0 : Cache.Cache) (b : Board) (i j : nat) (w : World) (mi mj : Manager)
    (k : counter) (now now' : time) (prev : Previous) (qs qs' : WorkerQueueStats) :
  star (step true) (board_init c c0) b ->
  activeDHTManager b = Some j -> managers b !! j = Some mj -> managers b !! i = Some mi ->
  exec offset victim hasDatabase (EBegin i) (world b) = Some w ->
  let b' := activate i (set_world w b) in
  let before := (Crawler_Status offset now b).1 in
  let after := (Crawler_Status offset now' b').1 in
  read k mi = 0 -> 0 < read k mj <= status_counter k before ->
  step true b b' /\
  status_counter k after = status_counter k before - read k mj /\
  line_interval k (log_tick (log_tick prev before qs).2 after qs').1 = 2 ^ 64 - read k mj /\
  forall b'' now'', star (step true) b' b'' -> j ∈ displaced b'' /\
    status_counter k (Crawler_Status offset now'' b'').1 = u64 (set_sum (counted k b'') (begun b'' ∖ displaced b'')).
Proof.
  intros Hs Ha Hj Hi Hw b' before after Hmi Hmj. pose proof (board_star_inv _ _ _ _ _ _ _ _ _ _ _ Hs) as Hinv.
  assert (step true b b') as Hst by (apply bs_begin; [by eexists|done|by left]).
  assert (star (step true) (board_init c c0) b') as Hs' by (eapply star_trans; [exact Hs|]; eapply star_step; [exact Hst|apply star_refl]).
  assert (status_counter k before < 2 ^ 64) as Hmax.
  { unfold before. rewrite reported by exact Hinv. apply u64_range. }
  assert (status_counter k after = status_counter k before - read k mj) as Hfall.
  { unfold before, after in *. rewrite !status_value in *. rewrite Ha in *. cbn [mbind option_bind] in *. rewrite Hj in *.
    cbn [b' activate set_world activeDHTManager managers totals mbind option_bind]. rewrite Hi, Hmi, Z.add_0_r.
    rewrite (bi_total _ Hinv k) in *. set (z := set_sum _ _) in *. rewrite (u64_small (u64 z)) by apply u64_range.
    apply u64_fall; [apply u64_range|done]. }
  split; [done|]. split; [done|]. split.
  - pose proof (tick_counter k prev before qs) as H1. destruct (log_tick prev before qs) as [l1 p1]. destruct H1 as [_ H1]. cbn [snd].
    pose proof (tick_counter k p1 after qs') as H2. destruct (log_tick p1 after qs') as [l2 p2]. destruct H2 as [H2 _]. cbn [fst].
    rewrite H2, H1, Hfall. replace (_ - _ - _) with (- read k mj) by lia. apply u64_neg. lia.
  - intros b'' now'' Hs''. split.
    + eapply displaced_stays; [exact Hs''|]. cbn [b' activate set_world displaced activeDHTManager]. rewrite Ha. set_solver.
    + apply reported. eapply board_star_inv, star_trans; [exact Hs'|exact Hs''].
Qed.
End Overlap.

(** ** A pause and a resume in quick succession

    A crawl is told the same info hash three times by a sampled node and asks for it
    twice; then the crawler is stopped and started, and the new crawl begins before the
    old one has come to its deferred function. *)

#[local] Existing Instance Indexing.demo_text.

Module MetricsDemo.
Definition new (i : Z) : Manager :=
  match NewManager (demo_env i) [(mkEndpoint "udp4" "0.0.0.0:0" "v4" [], demo_seed)] (10 * second) 100 10 with
  | Ret m => m | _ => mkManager [] [] false 0 [] [] end.
Definition service (m : Manager) : IndexingService := default (demo_new None) (indexingServices m !! 0%nat).
Definition three_samples : Message :=
  Protocol.response aa (mkResp demo_id [] [] [] [] 0 1 (demo_hash ++ demo_hash ++ demo_hash) []).
Definition sampled (m : Manager) : Manager :=
  service_step true (demo_env 1) 0 (service m) (receive demo_sha (demo_env 1) three_samples demo_peer (service m)) m.

Definition run (evs : list event) (b : Board) : Board := set_world (Crawl.Demo.run evs (world b)) b.
Definition begin (i : nat) (b : Board) : Board := activate i (run [EBegin i] b).
Definition started : Board := set_manager 0 (new 0) (run [EStart Crawl.Demo.t0] (board_init demo_config Cache.emptyCache)).
Definition counting : Board := set_manager 0 (sampled (new 0)) (begin 0 started).
Definition stopped : Board := run [EStart Crawl.Demo.t0] (run [EStop Crawl.Demo.t0] counting).
Definition overtaken : Board := set_manager 1 (new 2) stopped.

Definition step (overlap : bool) := board_step no_split no_atoi no_lookup demo_sha 0 Crawl.Demo.no_victim true overlap.

Lemma run_step overlap ev b : (forall i, ev <> EBegin i) -> Crawl.Demo.possible [ev] (world b) = true -> step overlap b (run [ev] b).
Proof.
  intros Hev Hp. apply (bs_world _ _ _ _ _ _ _ _ _ ev); [done|]. unfold Crawl.Demo.possible, Crawl.Demo.run in *. cbn [exec_all] in *.
  by destruct (exec _ _ _ ev (world b)).
Qed.
Lemma begin_step overlap i b : is_Some (managers b !! i) -> Crawl.Demo.possible [EBegin i] (world b) = true ->
  overlap = true \/ activeDHTManager b = None -> step overlap b (begin i b).
Proof.
  intros Hm Hp Ho. unfold begin, run. apply bs_begin; [done| |done]. unfold Crawl.Demo.possible, Crawl.Demo.run in *.
  cbn [exec_all] in *. by destruct (exec _ _ _ (EBegin i) (world b)).
Qed.
Lemma new_step overlap i e b : runs (world b) !! i = Some Pending -> managers b !! i = None ->
  NewManager (demo_env e) [(mkEndpoint "udp4" "0.0.0.0:0" "v4" [], demo_seed)] (10 * second) 100 10 = Ret (new e) ->
  step overlap b (set_manager i (new e) b).
Proof. intros. by eapply bs_new. Qed.

Lemma counting_star overlap : star (step overlap) (board_init demo_config Cache.emptyCache) counting.
Proof.
  eapply star_step; [apply (run_step _ (EStart Crawl.Demo.t0)); [done|vm_compute; reflexivity]|].
  eapply star_step; [apply (new_step _ 0 0); vm_compute; reflexivity|].
  eapply star_step; [apply (begin_step _ 0); [by eexists|vm_compute; reflexivity|by right]|].
  eapply star_step; [|apply star_refl]. apply bs_manager with (m := new 0); [vm_compute; reflexivity|].
  apply (mg_service _ _ _ _ _ true (demo_env 1) 0 (service (new 0))); [vm_compute; reflexivity|].
  apply is_receive. vm_compute. discriminate.
Qed.
Lemma overtaken_star : star (step true) (board_init demo_config Cache.emptyCache) overtaken.
Proof.
  eapply star_trans; [apply counting_star|].
  eapply star_step; [apply (run_step _ (EStop Crawl.Demo.t0)); [done|vm_compute; reflexivity]|].
  eapply star_step; [apply (run_step _ (EStart Crawl.Demo.t0)); [done|vm_compute; reflexivity]|].
  eapply star_step; [apply (new_step _ 1 2); vm_compute; reflexivity|apply star_refl].
Qed.
End MetricsDemo.

Theorem status_counts_witness :
  cs_GetPeersDeduped (Crawler_Status 0 0 MetricsDemo.counting).1 = 1 /\ displaced MetricsDemo.counting = ∅.
Proof.
  destruct (status_counts no_split no_atoi no_lookup demo_sha 0 Crawl.Demo.no_victim true false demo_config Cache.emptyCache
    MetricsDemo.counting Deduped_ 0 (MetricsDemo.counting_star false)) as (Hc & _ & Hd).
  split; [|by apply Hd]. change (status_counter Deduped_ (Crawler_Status 0 0 MetricsDemo.counting).1 = 1). rewrite Hc. vm_compute. reflexivity.
Defined.

Theorem overlapping_crawl_forgotten_witness : exists w,
  exec 0 Crawl.Demo.no_victim true (EBegin 1) (world MetricsDemo.overtaken) = Some w /\
  let b' := activate 1 (set_world w MetricsDemo.overtaken) in
  let qs := mkQueueStats 0 0 0 0 (float64_of 0) in
  cs_GetPeersDeduped (Crawler_Status 0 1 b').1 = 0 /\
  get_peers_deduped_interval (log_tick (log_tick no_line (Crawler_Status 0 0 MetricsDemo.overtaken).1 qs).2 (Crawler_Status 0 1 b').1 qs).1 =
    18446744073709551615.
Proof.
  assert (exists w, exec 0 Crawl.Demo.no_victim true (EBegin 1) (world MetricsDemo.overtaken) = Some w) as [w Hw]
    by (eexists; vm_compute; reflexivity).
  exists w. split; [exact Hw|].
  destruct (overlapping_crawl_forgotten no_split no_atoi no_lookup demo_sha 0 Crawl.Demo.no_victim true demo_config Cache.emptyCache
    MetricsDemo.overtaken 1 0 w (MetricsDemo.new 2) (MetricsDemo.sampled (MetricsDemo.new 0)) Deduped_ 0 1 no_line
    (mkQueueStats 0 0 0 0 (float64_of 0)) (mkQueueStats 0 0 0 0 (float64_of 0))) as (_ & H1 & H2 & _).
  - apply MetricsDemo.overtaken_star.
  - vm_compute. reflexivity.
  - vm_compute. reflexivity.
  - vm_compute. reflexivity.
  - exact Hw.
  - vm_compute. reflexivity.
  - vm_compute. split; [reflexivity|discriminate].
  - split; [exact H1|exact H2].
Defined.
