(* ===== verification/Startup.v ===== *)
(** * Start-up of a node (cmd/dhtc/main.go)

    What [main] and [runWorker] do before they serve: bootstrap nodes, the blacklist
    files, the cache of known info hashes, the crawler and, on a master, the puller;
    over the repository of Repo.v. The theorems put this together with the
    configuration (Config.v), ingestion and the crawler. *)

From S2P Require Import Prelude Text Flags Config Sink Filters Cluster Cache Repo Ingest Crawler Crawl.
From Stdlib Require Import Ascii.
Open Scope Z_scope.

Definition defaultBootstrapNodes : list string :=
  ["router.bittorrent.com:6881"; "router.utorrent.com:6881"; "dht.transmissionbt.com:6881"; "dht.libtorrent.org:25401"]%string.

Definition list_sep (c : ascii) : bool := existsb (Ascii.eqb c) (ascii_of_Z <$> [44; 59; 10; 13; 9; 32]).
Definition splitList (value : string) : list string := FieldsFunc list_sep value.

(** A line that counts: neither empty nor a comment, without the space around it. *)
Definition keep_line (line : string) : option string :=
  let line := TrimSpace line in
  if bool_decide (line = ""%string) || HasPrefix line "#" then None else Some line.

Section Files.
  (** [os.Open] and reading to the end; [None] is a file that cannot be opened. *)
  Context (ReadFile : string -> option string).

Definition ReadFileLines (filePath : string) : list string :=
  if decide (filePath = ""%string) then []
  else match ReadFile filePath with None => [] | Some data => omap keep_line (ScanLines data) end.

Definition bootstrap_nodes (cfg : Configuration) : list string :=
  match ReadFileLines (BootstrapNodeFile cfg) ++ BootstrapIPv4 cfg with
  | [] => defaultBootstrapNodes
  | nodes => nodes
  end.
End Files.

(** ** A worker *)

Record WorkerNode : Type := mkWorkerNode { wn_bootstrap : list string; wn_queue : WorkerQueue; wn_crawler : CrawlerManager }.

Definition default_cache_dir (address : string) : string :=
  ("/tmp/dhtc-worker-" ++ ReplaceAll (ReplaceAll address ":" "_") "/" "_")%string.

Section RunWorker.
  Context (offset : duration).
  (** The records that the queue finds in its cache directory. *)
  Context (cached : string -> option (list Entry)).

(** [runWorker] up to the HTTP server. *)
Definition runWorker (now : time) (cfg : Configuration) (bootstrapNodes : list string) : string + WorkerNode :=
  if decide (TrimSpace (ClusterToken cfg) = ""%string) then inl "cluster token is required in worker mode"%string
  else
    let pushMode := bool_decide (MasterURL cfg <> ""%string) in
    let queue :=
      if pushMode then
        let cacheDir := if decide (WorkerCacheDir cfg = ""%string) then default_cache_dir (Address cfg) else WorkerCacheDir cfg in
        NewWorkerQueue (Config.WorkerID cfg) (Config.WorkerQueue cfg) cacheDir true (cached cacheDir)
      else NewWorkerQueue (Config.WorkerID cfg) (Config.WorkerQueue cfg) "" true None in
    let crawler := NewCrawlerManager cfg in
    let queue :=
      if pushMode
      then StartFlushLoop (WorkerBatch cfg) (WorkerBatch cfg) (SetMaster (MasterURL cfg) (ClusterToken cfg) queue)
      else queue in
    let crawler := if negb (CrawlerScheduleEnabled cfg) then (Crawler_Start offset now crawler).2 else crawler in
    inr (mkWorkerNode bootstrapNodes queue crawler).

(** What it does when it is told to end; [saved] is whether the files could be written. *)
Definition shutdown (saved : bool) (now : time) (node : WorkerNode) : go unit WorkerNode :=
  '(_, crawler) ← Crawler_Stop offset now (wn_crawler node);
  Ret (mkWorkerNode (wn_bootstrap node) (StopFlushLoop saved (wn_queue node)) crawler).
End RunWorker.

(** ** A standalone node or a master *)

Record System (store : Type) : Type := mkSystem {
  sys_database : store;
  sys_cache : Cache;
  sys_bootstrap : list string;
  sys_notifier : option (list Notifier);
  sys_collects : bool;                  (* [collectStats] runs *)
  sys_crawler : CrawlerManager;
  sys_monitor : option MasterPuller
}.
Arguments mkSystem {store}.
Arguments sys_database {store}.
Arguments sys_cache {store}.
Arguments sys_bootstrap {store}.
Arguments sys_notifier {store}.
Arguments sys_collects {store}.
Arguments sys_crawler {store}.
Arguments sys_monitor {store}.

(** What the process is. *)
Inductive process (store : Type) : Type := Serving (s : System store) | Working (w : WorkerNode).
Arguments Serving {store}.
Arguments Working {store}.

Section Main.
  Context {document store : Type} `{Document document, !Clover document store}.
  Context (ReadFile : string -> option string) (offset : duration) (NewBot : string -> option string)
    (Parse : string -> option (string * string)) (cached : string -> option (list Entry)).

(** The goroutine [collectStats], at one tick. *)
Definition collectStats (now : time) (s : store) : option store :=
  InsertStats (mkStats (Truncate now minute) (GetInfoHashCount s) 0 0 0) s.

(** What the cache gets from the database: the info hashes, decoded from hex. *)
Definition known_hashes (s : store) : option (list (option (list byte))) :=
  (fun l : list string => (DecodeString <$> l) : list (option (list byte))) <$> (GetAllInfoHashes s : option (list string)).

(** [main] up to [RunWebServer], with the database that [OpenRepository] opens; a
    fatal error ends the process. A worker has no database. *)
Definition main (now : time) (cfg : Configuration) (opened : option store) : string + process store :=
  let bootstrapNodes := bootstrap_nodes ReadFile cfg in
  if decide (NodeRole cfg = "worker"%string) then
    match runWorker offset cached now cfg bootstrapNodes with inl e => inl e | inr w => inr (Working w) end
  else match opened with
  | None => inl "could not open database"%string
  | Some database =>
      let cache := PopulateInfoHashCacheFromDatabase now (known_hashes database) emptyCache in
      let '(_, database) := AddToBlacklist (ReadFileLines ReadFile (NameBlacklist cfg)) "0" database in
      let '(_, database) := AddToBlacklist (ReadFileLines ReadFile (FileBlacklist cfg)) "1" database in
      let '(notifier, collects) :=
        if OnlyWebServer cfg then (None, false) else (Some (Setup NewBot cfg), Statistics cfg) in
      let crawler := NewCrawlerManager cfg in
      let monitor :=
        if decide (NodeRole cfg = "master"%string)
        then Some (NewMasterPuller Parse (splitList (WorkerURLs cfg)) (ClusterToken cfg)) else None in
      let crawler :=
        if negb (OnlyWebServer cfg) && CrawlerStartOnLaunch cfg && negb (CrawlerScheduleEnabled cfg)
        then (Crawler_Start offset now crawler).2 else crawler in
      inr (Serving (mkSystem database cache bootstrapNodes notifier collects crawler monitor))
  end.
End Main.

(** ** The cache *)

Lemma add_no_expiry now h c : infoHashExpiry c = ∅ ->
  InfoHashCacheAdd now h c = (negb (InfoHashCacheContains h c), mkCache ({[h]} ∪ infoHashCache c) ∅).
Proof. intros He. unfold InfoHashCacheAdd. rewrite He, lookup_empty. unfold set_add. by rewrite He. Qed.

Lemma cache_populated now l c :
  infoHashExpiry c = ∅ ->
  let c' := PopulateInfoHashCacheFromDatabase now (Some l) c in
  infoHashExpiry c' = ∅ /\ forall h, h ∈ infoHashCache c' <-> h ∈ infoHashCache c \/ Some h ∈ l.
Proof.
  cbn [PopulateInfoHashCacheFromDatabase]. revert c. induction l as [|o l IH]; intros c He; cbn [foldl].
  { split; [done|]. intros h. rewrite elem_of_nil. tauto. }
  destruct o as [h0|].
  - rewrite (add_no_expiry now h0 c He). cbn [snd].
    destruct (IH (mkCache ({[h0]} ∪ infoHashCache c) ∅) eq_refl) as [H1 H2]. split; [exact H1|].
    intros h. rewrite H2. cbn [infoHashCache]. rewrite elem_of_cons, elem_of_union, elem_of_singleton.
    assert (Some h = Some h0 <-> h = h0) as -> by (split; [congruence|by intros ->]). tauto.
  - destruct (IH c He) as [H1 H2]. split; [exact H1|]. intros h. rewrite H2, elem_of_cons.
    split; [tauto|]. by intros [|[[=]|]]; [left|right].
Qed.

Lemma add_known now h c : infoHashExpiry c = ∅ -> h ∈ infoHashCache c -> InfoHashCacheAdd now h c = (false, c).
Proof.
  intros He Hh. rewrite add_no_expiry by done. unfold InfoHashCacheContains.
  rewrite bool_decide_eq_true_2 by done. f_equal. destruct c as [s e]. cbn in *. subst e. f_equal. by apply subseteq_union_1_L, singleton_subseteq_l.
Qed.

(** ** What the start leaves behind *)

Section Lists.
  Context {document store : Type} `{Document document, !Clover document store}
    {contents : store -> string -> list document} `{!CloverLaws document store contents}.
  (** Nothing fails: the disk is there and not full. *)
  Context (inserts : forall c fields s, InsertOne c fields s <> None) (finds : forall q s, FindAll q s <> None).

(** A query by a predicate finds something exactly when the collection holds it. *)
Lemma found_some (p : document -> bool) c s :
  match FindAll_ (MatchFunc p (NewQuery c)) s with [] => false | _ => true end = true <->
  exists d, d ∈ contents s c /\ p d = true.
Proof.
  unfold FindAll_. destruct (FindAll _ s) as [l|] eqn:E; [|by apply finds in E].
  apply find_all in E as (m & Hm & _ & ->). unfold window. cbn [q_skip q_limit MatchFunc NewQuery q_match q_collection default from_option] in *.
  unfold id. change (Z.to_nat 0) with 0%nat. rewrite drop_0. split.
  - destruct m as [|d m]; [done|]. intros _. exists d.
    assert (d ∈ filter (fun d => true && p d) (contents s c)) as Hd by (rewrite <- Hm; left).
    apply list_elem_of_filter in Hd as [Hp Hd]. split; [done|]. by apply Is_true_true in Hp.
  - intros (d & Hd & Hp). destruct m; [|done]. apply Permutation_nil in Hm.
    assert (d ∈ filter (fun d => true && p d) (contents s c)) as Hin by (apply list_elem_of_filter; split; [by apply Is_true_true|done]).
    rewrite Hm in Hin. by apply not_elem_of_nil in Hin.
Qed.

Lemma isInBlacklist_spec f ty s : isInBlacklist f ty s = true <-> exists d, d ∈ contents s BlacklistTable /\ is_entry f ty d = true.
Proof. apply found_some. Qed.

Lemma insert_entry f ty s s' :
  InsertOne BlacklistTable [("Type"%string, VString ty); ("Filter"%string, VString f)] s = Some s' ->
  exists d, contents s' BlacklistTable ≡ₚ d :: contents s BlacklistTable /\ is_entry f ty d = true /\
    forall c, c <> BlacklistTable -> contents s' c = contents s c.
Proof.
  intros E. apply insert_ok in E as (d & Hd & _ & Hf & Ho); [|by apply (bool_decide_unpack _)].
  exists d. split; [done|]. split; [|done].
  destruct (Hf "Type"%string (VString ty) ltac:(left)) as [H1 _]. destruct (Hf "Filter"%string (VString f) ltac:(right; left)) as [H2 _].
  cbn [stored] in *. unfold is_entry. rewrite H1, H2. by rewrite !bool_decide_eq_true_2.
Qed.

(** Entries that are already there are passed over. *)
Lemma AddToBlacklist_known filters ty s r :
  (forall f, f ∈ filters -> isInBlacklist f ty s = true) ->
  foldl (add_entry ty) (r, s) filters = (r, s).
Proof.
  revert r. induction filters as [|f filters IH]; intros r Hf; [done|]. cbn [foldl add_entry].
  rewrite Hf by left. cbn [negb]. apply IH. intros f' Hin. apply Hf. by right.
Qed.

Record extends (entries : list string) (ty : string) (s s' : store) : Prop := {
  ext_new : exists new, contents s' BlacklistTable ≡ₚ new ++ contents s BlacklistTable /\
    Forall (fun d => exists f, f ∈ entries /\ is_entry f ty d = true) new;
  ext_all : forall f, f ∈ entries -> isInBlacklist f ty s' = true;
  ext_other : forall c, c <> BlacklistTable -> contents s' c = contents s c
}.

Lemma AddToBlacklist_extends filters ty s : extends filters ty s (AddToBlacklist filters ty s).2.
Proof.
  unfold AddToBlacklist. generalize false as r. revert s. induction filters as [|f filters IH]; intros s r.
  { split; [exists []; by split|by intros f Hf%not_elem_of_nil|done]. }
  cbn [foldl add_entry]. destruct (isInBlacklist f ty s) eqn:Ef; cbn [negb].
  - destruct (IH s r) as [(new & Hn & Hnew) Hall Hoth]. split; [|intros f' [->|Hin]%elem_of_cons; [|by apply Hall]|done].
    + exists new. split; [done|]. eapply Forall_impl; [exact Hnew|]. intros d (f' & Hf' & ?). exists f'. split; [by right|done].
    + apply isInBlacklist_spec in Ef as (d & Hd & He). apply isInBlacklist_spec. exists d. split; [|done]. rewrite Hn. apply elem_of_app. by right.
  - destruct (InsertOne _ _ s) as [s1|] eqn:E1; [|by apply inserts in E1].
    destruct (insert_entry _ _ _ _ E1) as (d & Hd & He & Ho). destruct (IH s1 true) as [(new & Hn & Hnew) Hall Hoth]. split.
    + exists (new ++ [d]). split; [rewrite Hn, Hd, <- app_assoc; done|]. apply Forall_app. split; [|apply Forall_singleton; exists f; split; [left|done]].
      eapply Forall_impl; [exact Hnew|]. intros d' (f' & Hf' & ?). exists f'. split; [by right|done].
    + intros f' [->|Hin]%elem_of_cons; [|by apply Hall]. apply isInBlacklist_spec. exists d. split; [|done]. rewrite Hn, Hd. apply elem_of_app. right. left.
    + intros c Hc. by rewrite Hoth, Ho.
Qed.
End Lists.

Section Theorems.
  Context {document store : Type} `{Document document, !Clover document store}
    {contents : store -> string -> list document} `{!CloverLaws document store contents}.
  Context (inserts : forall c fields s, InsertOne c fields s <> None) (finds : forall q s, FindAll q s <> None).
  Context (ReadFile : string -> option string) (offset : duration) (NewBot : string -> option string)
    (Parse : string -> option (string * string)) (cached : string -> option (list Entry)).
  Context (unicode_lower : string -> string) (order : gset string -> list string) (Han : Z -> bool)
    (Compile : string -> option (string -> bool)) (FormatRFC822 : time -> string).
  Abbreviation main := (main ReadFile offset NewBot Parse cached).

(** The database that the start leaves. *)
Lemma main_database now cfg s : NodeRole cfg <> "worker"%string -> exists sys, main now cfg (Some s) = inr (Serving sys) /\
  sys_database sys = (AddToBlacklist (ReadFileLines ReadFile (FileBlacklist cfg)) "1"
    (AddToBlacklist (ReadFileLines ReadFile (NameBlacklist cfg)) "0" s).2).2 /\
  sys_cache sys = PopulateInfoHashCacheFromDatabase now (known_hashes s) emptyCache /\
  sys_crawler sys = (if negb (OnlyWebServer cfg) && CrawlerStartOnLaunch cfg && negb (CrawlerScheduleEnabled cfg)
                     then (Crawler_Start offset now (NewCrawlerManager cfg)).2 else NewCrawlerManager cfg).
Proof.
  intros Hrole. unfold main. rewrite decide_False by done. do 2 destruct (AddToBlacklist _ _ _) as [? ?]. destruct (if OnlyWebServer cfg then _ else _) as [n c].
  by eexists.
Qed.

Lemma refused_by_entry c md s f ty re :
  EnableBlacklist c = true -> isInBlacklist f ty s = true -> Compile f = Some re ->
  (ty = "0"%string /\ re (md_Name md) = true \/ ty = "1"%string /\ IsFileBlacklisted re md = true) ->
  InsertMetadata_ unicode_lower order Han Compile EncodeToString c md s = (false, s).
Proof.
  intros He (d & Hd & Hen)%(isInBlacklist_spec finds) Hre Hmatch. unfold InsertMetadata_. destruct (_ && _); [done|]. rewrite He. cbn [andb].
  assert (IsBlacklisted Compile md s = true) as ->; [|done].
  apply (found_some finds). exists d. split; [done|]. unfold is_entry in Hen. unfold blacklist_match.
  destruct (Get d "Filter"%string) eqn:Ef; try done. destruct (Get d "Type"%string) eqn:Et; try done.
  apply andb_true_iff in Hen as [->%bool_decide_eq_true ->%bool_decide_eq_true]. cbn [as_string]. rewrite Hre.
  by destruct Hmatch as [[-> ->]|[-> ->]].
Qed.

(** C27: The blacklist files, from the start on: every line of them is an entry, of its
    file's type, and nothing else was added; no other collection changed; starting again
    adds nothing; and a torrent whose name, or one of whose paths, matches a line is
    refused as long as the blacklist is switched on. *)
Theorem blacklist_files_apply (now now' : time) (cfg cfg' cfg'' : Configuration) (md : Metadata) (s : store) :
  NodeRole cfg <> "worker"%string -> NodeRole cfg' <> "worker"%string -> EnableBlacklist cfg'' = true ->
  NameBlacklist cfg' = NameBlacklist cfg -> FileBlacklist cfg' = FileBlacklist cfg ->
  exists sys, main now cfg (Some s) = inr (Serving sys) /\
  let s' := sys_database sys in
  let names := ReadFileLines ReadFile (NameBlacklist cfg) in
  let files := ReadFileLines ReadFile (FileBlacklist cfg) in
  (exists new, contents s' BlacklistTable ≡ₚ new ++ contents s BlacklistTable /\
     Forall (fun d => exists f, f ∈ names /\ is_entry f "0" d = true \/ f ∈ files /\ is_entry f "1" d = true) new) /\
  (forall c, c <> BlacklistTable -> contents s' c = contents s c) /\
  (exists sys', main now' cfg' (Some s') = inr (Serving sys') /\ sys_database sys' = s') /\
  (forall f re, Compile f = Some re ->
     f ∈ names /\ re (md_Name md) = true \/ f ∈ files /\ IsFileBlacklisted re md = true ->
     InsertMetadata_ unicode_lower order Han Compile EncodeToString cfg'' md s' = (false, s')).
Proof.
  intros Hrole Hrole' Hon Hn Hf. destruct (main_database now cfg s Hrole) as (sys & -> & Hs & _). exists sys. split; [done|]. cbv zeta. rewrite Hs. clear Hs.
  set (names := ReadFileLines _ (NameBlacklist cfg)). set (files := ReadFileLines _ (FileBlacklist cfg)).
  set (s1 := (AddToBlacklist names "0" s).2). set (s' := (AddToBlacklist files "1" s1).2).
  destruct (AddToBlacklist_extends inserts finds names "0" s) as [(n1 & H1 & Hn1) A1 O1]. fold s1 in H1, A1, O1.
  destruct (AddToBlacklist_extends inserts finds files "1" s1) as [(n2 & H2 & Hn2) A2 O2]. fold s' in H2, A2, O2.
  assert (forall f, f ∈ names -> isInBlacklist f "0" s' = true) as A1'.
  { intros f Hin. apply (isInBlacklist_spec finds). destruct (proj1 (isInBlacklist_spec finds f "0" s1) (A1 f Hin)) as (d & Hd & He).
    exists d. split; [|done]. rewrite H2. apply elem_of_app. by right. }
  split; [|split; [|split]].
  - exists (n2 ++ n1). split; [rewrite H2, H1, <- app_assoc; done|]. apply Forall_app. split; eapply Forall_impl; eauto; cbn beta.
    + intros d (f & ? & ?). exists f. by right.
    + intros d (f & ? & ?). exists f. by left.
  - intros c Hc. by rewrite O2, O1.
  - destruct (main_database now' cfg' s' Hrole') as (sys' & -> & Hs' & _). exists sys'. split; [done|]. rewrite Hs', Hn, Hf. fold names files.
    unfold AddToBlacklist. rewrite !(AddToBlacklist_known names) by done. cbn [snd]. by rewrite AddToBlacklist_known.
  - intros f re Hre [[Hin Hm]|[Hin Hm]].
    + apply (refused_by_entry cfg'' md s' f "0" re); auto.
    + apply (refused_by_entry cfg'' md s' f "1" re); auto.
Qed.

(** C11: A torrent that is stored is not downloaded again after a restart: once the node has
    started, the cache holds the info hash of every stored torrent and of no other,
    without a time to live, so that a crawl only passes the peers that it finds on. *)
Theorem restart_keeps_known (now : time) (cfg : Configuration) (s : store) :
  NodeRole cfg <> "worker"%string ->
  exists sys, main now cfg (Some s) = inr (Serving sys) /\
  (forall d md, d ∈ contents s TorrentTable -> reads_as unicode_lower order FormatRFC822 EncodeToString d md ->
     InfoHashCacheContains (md_InfoHash md) (sys_cache sys) = true /\
     forall now' res sink, InfoHash res = md_InfoHash md ->
       crawl_result now' res sink (sys_cache sys) = ((AddPeers res sink).2, sys_cache sys)) /\
  (forall h, InfoHashCacheContains h (sys_cache sys) = true ->
     exists d, d ∈ contents s TorrentTable /\ DecodeString (as_string (Get d "InfoHash"%string)) = Some h).
Proof.
  intros Hrole. destruct (main_database now cfg s Hrole) as (sys & -> & _ & Hc & _). exists sys. split; [done|]. rewrite Hc. clear Hc.
  unfold known_hashes, GetAllInfoHashes. destruct (FindAll (NewQuery TorrentTable) s) as [all|] eqn:E; [|by apply finds in E].
  apply find_all in E as (m & Hm & _ & ->). unfold window. cbn [q_skip q_limit NewQuery q_match q_collection] in *.
  change (Z.to_nat 0) with 0%nat. rewrite drop_0. rewrite filter_all in Hm by done.
  cbn [fmap option_fmap option_map]. destruct (cache_populated now (DecodeString <$> ((fun d => as_string (Get d "InfoHash"%string)) <$> m)) emptyCache eq_refl) as [He Hin].
  set (c := PopulateInfoHashCacheFromDatabase _ _ _) in *. split.
  - intros d md Hd [_ Hread].
    assert (md_InfoHash md ∈ infoHashCache c) as Hk.
    { apply Hin. right. rewrite <- list_fmap_compose. apply list_elem_of_fmap. exists d. split; [|by rewrite Hm].
      cbn [compose]. apply (f_equal mt_InfoHash) in Hread. cbn [Document2MetaData mt_InfoHash] in Hread. unfold compose.
      by rewrite Hread, decode_encode_hex. }
    split; [by apply bool_decide_eq_true_2|]. intros now' res sink Hr. unfold crawl_result. by rewrite Hr, add_known.
  - intros h Hh%bool_decide_eq_true. apply Hin in Hh as [Hh|Hh]; [by apply not_elem_of_empty in Hh|].
    rewrite <- list_fmap_compose in Hh. apply list_elem_of_fmap in Hh as (d & Hd & Hdm). exists d. by rewrite <- Hm.
Qed.

(** A schedule that stands only in the file never starts a crawl: started with it,
    without -CrawlerScheduleEnabled and -CrawlerStartOnLaunch on the command line, the
    node does not crawl, however often the schedule is looked at and whatever the time;
    only a command of the user starts it. *)
Theorem file_schedule_never_crawls (Getenv : string -> string) (Unmarshal : string -> option fileConfig)
    (ParseDuration : string -> option duration) (args0 path : string) (args : list string) (toks : list (string * string))
    (cfg : Configuration) (now : time) (s : store) :
  argumentValue "config" (args0 :: args) = Ret path ->
  tokens (flag_of ParseDuration <$> flags Getenv (default_role unicode_lower args0) path) args = Some toks ->
  ParseArguments unicode_lower Getenv ReadFile Unmarshal ParseDuration (args0 :: args) = Ret cfg ->
  last_value "CrawlerScheduleEnabled" toks = None -> last_value "CrawlerStartOnLaunch" toks = None ->
  NodeRole cfg <> "worker"%string ->
  exists sys, main now cfg (Some s) = inr (Serving sys) /\
    forall ts, exists m, reconcile_all offset ts (sys_crawler sys) = Ret m /\ running m = false.
Proof.
  intros Hp Ht Hr H1 H2 Hrole. destruct (switches_not_given _ _ _ _ _ _ _ _ _ _ Hp Ht Hr) as [Hs Hl].
  specialize (Hs H1). specialize (Hl H2). destruct (main_database now cfg s Hrole) as (sys & -> & _ & _ & Hc).
  exists sys. split; [done|]. rewrite Hc, Hl, andb_false_r. cbn [andb]. clear Hc.
  assert (forall ts m, configuration m = cfg -> running m = false ->
    exists m', reconcile_all offset ts m = Ret m' /\ running m' = false) as H'; [|intros ts; by apply H'].
  unfold reconcile_all. intros ts. induction ts as [|t ts IH]; intros m Hm Hrun; [by exists m|].
  cbn [foldl]. rewrite bind_Ret. unfold ReconcileSchedule at 2. rewrite Hm, Hs, orb_true_r. by apply IH.
Qed.
End Theorems.

(** ** The start of a worker *)

Lemma TrimRight_slash_empty s : TrimRight_slash s = ""%string <-> no_char (fun c => negb (Ascii.eqb c "/")) s = true.
Proof.
  induction s as [|c s IH]; [done|]. cbn [TrimRight_slash no_char]. rewrite negb_involutive.
  change (ascii_of_nat 47) with "/"%char. rewrite andb_true_iff, <- IH.
  destruct (TrimRight_slash s); [|by split; [discriminate|intros [_ [=]]]].
  destruct (Ascii.eqb c "/"); split; (done || by intros [[=] _]).
Qed.

Lemma NewWorkerQueue_spec id n path file :
  let q := NewWorkerQueue id n path true file in
  workerID q <> ""%string /\ 1 <= limit q /\ cachePath q = path /\ onAck q = true /\ acked q = [] /\
  items q = (if decide (path = ""%string) then [] else default [] file).
Proof.
  unfold NewWorkerQueue, loadFromCache. cbn [cachePath cacheFile].
  assert ((if String.eqb id "" then "worker"%string else id) <> ""%string) as Hid by (destruct (String.eqb_spec id ""); done).
  assert (1 <= (if n <? 1 then 256 else n)) as Hn by (destruct (Z.ltb_spec n 1); lia).
  destruct (String.eqb_spec path ""); [by rewrite decide_True|rewrite decide_False by done]. by destruct file.
Qed.

(** A worker starts unless its token is blank, and crawls at once unless it has a
    schedule or is told to serve only. Its queue has an identity and room; without a
    master it starts empty and is kept in memory; with one it takes up the records of
    its cache directory and, the URL not being slashes only, it can flush: a master
    that acknowledges what it takes empties it, and every record is reported. *)
Theorem runWorker_spec (offset : duration) (cached : string -> option (list Entry)) (now : time) (cfg : Configuration) (nodes : list string) :
  (forall dir l, cached dir = Some l -> NoDup (ID <$> l)) ->
  (TrimSpace (ClusterToken cfg) = ""%string /\ exists message, runWorker offset cached now cfg nodes = inl message) \/
  exists node, runWorker offset cached now cfg nodes = inr node /\
    let q := wn_queue node in
    running (wn_crawler node) = negb (CrawlerScheduleEnabled cfg) && negb (OnlyWebServer cfg) /\
    workerID q <> ""%string /\ 1 <= limit q /\
    (MasterURL cfg = ""%string -> items q = [] /\ cachePath q = ""%string) /\
    (MasterURL cfg <> ""%string ->
       cachePath q <> ""%string /\ items q = default [] (cached (cachePath q)) /\
       1 <= flushBatch q <= 64 /\ 1 <= flushThreshold q /\
       (no_char (fun c => negb (Ascii.eqb c "/")) (MasterURL cfg) = false ->
          exists q', drainFlush (length (items q)) accepting 0 q = Some q' /\ items q' = [] /\
            acked q' = Metadata_ <$> items q)).
Proof.
  intros Hcached. unfold runWorker. destruct (decide (TrimSpace (ClusterToken cfg) = ""%string)) as [Ht|Ht]; [left; eauto|right].
  assert (ClusterToken cfg <> ""%string) as Htok by (intros Heq; by rewrite Heq in Ht).
  eexists. split; [reflexivity|]. cbn [wn_queue wn_crawler]. cbv zeta. split.
  { destruct (CrawlerScheduleEnabled cfg) eqn:E; [done|]. cbn [negb andb]. unfold Crawler_Start, setManualOverrideAtLocked.
    cbn [configuration NewCrawlerManager]. rewrite E. cbn [negb]. unfold startLocked. cbn [running NewCrawlerManager configuration orb].
    by destruct (OnlyWebServer cfg). }
  destruct (decide (MasterURL cfg = ""%string)) as [Hm|Hm].
  - rewrite bool_decide_eq_false_2 by (by intros []).
    destruct (NewWorkerQueue_spec (Config.WorkerID cfg) (Config.WorkerQueue cfg) "" None) as (H1 & H2 & H3 & _ & _ & H6).
    split; [done|]. split; [done|]. split; [done|]. done.
  - rewrite bool_decide_eq_true_2 by done. set (dir := if decide (WorkerCacheDir cfg = _) then _ else _).
    assert (dir <> ""%string) as Hdir by (unfold dir; by case_decide).
    destruct (NewWorkerQueue_spec (Config.WorkerID cfg) (Config.WorkerQueue cfg) dir (cached dir)) as (H1 & H2 & H3 & H4 & H5 & H6).
    rewrite decide_False in H6 by done. set (q0 := NewWorkerQueue _ _ dir true (cached dir)) in *.
    unfold StartFlushLoop, SetMaster, signalFlush. set (q := if 0 <? _ then _ else _).
    assert (workerID q = workerID q0 /\ limit q = limit q0 /\ cachePath q = dir /\ items q = items q0 /\ onAck q = true /\ acked q = [] /\
      masterURL q = TrimRight_slash (MasterURL cfg) /\ clusterToken q = ClusterToken cfg /\
      1 <= flushBatch q <= 64 /\ 1 <= flushThreshold q) as (-> & -> & E1 & E2 & E3 & E4 & E5 & E6 & E7 & E8).
    { unfold q. destruct (0 <? _); cbn; rewrite ?H3, ?H4, ?H5; repeat (split; [done|]);
        destruct (Z.ltb_spec (WorkerBatch cfg) 1), (Z.ltb_spec 64 (WorkerBatch cfg)); cbn [orb]; lia. }
    split; [done|]. split; [done|]. split; [done|]. intros _. rewrite E1, E2. split; [done|]. split; [done|]. split; [done|]. split; [done|].
    intros Hslash. destruct (drainFlush_accepting q (length (items q0)) 0) as (q' & Hq & Hi & Ha); [| | |by rewrite E2|].
    + rewrite E2, H6. destruct (cached dir) as [l|] eqn:El; [by apply (Hcached dir)|by constructor].
    + rewrite E5. intros Hs%TrimRight_slash_empty. congruence.
    + by rewrite E6.
    + exists q'. split; [done|]. split; [done|]. by rewrite Ha, E4, E3, E2.
Qed.

(** ** The queue of a worker across restarts *)

(** What happens to a queue: a torrent comes in, a master fetches or acknowledges
    records, the loop flushes, the queue is saved. *)
Inductive queue_event : Type :=
  | QEnqueue (md : Metadata)
  | QRequest (r : request (list Z))
  | QDrain (rounds : nat) (http : nat -> Batch -> reply (list Z))
  | QSave (saved : bool).
Definition queue_exec (token : string) (maxBatch : Z) (q : WorkerQueue) (e : queue_event) : WorkerQueue :=
  match e with
  | QEnqueue md => (Enqueue md q).2
  | QRequest r => (Handler token maxBatch r q).2
  | QDrain rounds http => default q (drainFlush rounds http 0 q)
  | QSave saved => saveToCache saved q
  end.

(** A queue that is not dirty is what its file holds, and the file holds what the queue
    was at some time. *)
Record file_inv (before : list (list Entry)) (q : WorkerQueue) : Prop := {
  fi_clean : cacheDirty q = false -> default [] (cacheFile q) = items q;
  fi_file : default [] (cacheFile q) ∈ before
}.

(** What the operations do to the file. *)
Definition same_file (q q' : WorkerQueue) : Prop :=
  cachePath q' = cachePath q /\ cacheFile q' = cacheFile q /\ (q' = q \/ cacheDirty q' = true \/ items q' = items q /\ cacheDirty q' = cacheDirty q).
Lemma same_file_refl q : same_file q q.
Proof. unfold same_file. auto. Qed.
Lemma same_file_trans q q' q'' : same_file q q' -> same_file q' q'' -> same_file q q''.
Proof.
  intros (P1 & F1 & D1) (P2 & F2 & D2). split; [congruence|]. split; [congruence|].
  destruct D2 as [->|[D2|[I2 D2]]]; [done|auto|]. destruct D1 as [->|[D1|[I1 D1]]]; [auto|right; left; congruence|].
  right. right. split; congruence.
Qed.

Lemma same_file_Ack ids q : same_file q (Ack ids q).
Proof. unfold same_file, Ack. cbn. destruct (Metadata_ <$> _); cbn; destruct (onAck q); cbn; auto. Qed.
Lemma same_file_Enqueue md q : same_file q (Enqueue md q).2.
Proof.
  unfold same_file, Enqueue, signalFlush. destruct (limit q <=? Length q); [cbn; split_and!; auto|].
  cbv zeta. cbn [snd]. destruct (_ && _); cbn; auto.
Qed.
Lemma same_file_Flush http q : same_file q (Flush http q).2.
Proof.
  unfold Flush, flush_reply. repeat case_match; cbn [snd]; try apply same_file_refl. apply same_file_Ack.
Qed.
Lemma same_file_drain rounds http n q : same_file q (default q (drainFlush rounds http n q)).
Proof.
  destruct (drainFlush rounds http n q) as [q'|] eqn:E; [|apply same_file_refl]. cbn [default from_option]. unfold id.
  revert n q E. induction rounds as [|rounds IH]; intros n q; cbn [drainFlush]; destruct (Length q <=? 0).
  1, 3: intros [= <-]; apply same_file_refl.
  - done.
  - pose proof (same_file_Flush (http n) q) as Hf. destruct (Flush (http n) q) as [[e|] q1]; cbn [snd] in Hf.
    + by intros [= <-].
    + intros E. eapply same_file_trans; [exact Hf|by apply (IH (S n))].
Qed.
Lemma same_file_Handler token maxBatch r q : same_file q (Handler token maxBatch r q).2.
Proof. unfold Handler. repeat case_match; cbn [snd]; (apply same_file_refl || apply same_file_Ack). Qed.

Lemma queue_exec_inv token maxBatch e before q : cachePath q <> ""%string -> items q ∈ before -> file_inv before q ->
  let q' := queue_exec token maxBatch q e in
  cachePath q' = cachePath q /\ file_inv (before ++ [items q']) q'.
Proof.
  intros Hp Hb [Hc Hf]. assert (forall q', same_file q q' -> cachePath q' = cachePath q /\ file_inv (before ++ [items q']) q') as Hsame.
  { intros q' (P & F & D). split; [done|]. split; [|rewrite F; apply elem_of_app; by left].
    destruct D as [->|[D|[I D]]]; [done|by rewrite D|]. rewrite D, I, F. exact Hc. }
  destruct e as [md|r|rounds http|saved]; cbn [queue_exec].
  - apply Hsame, same_file_Enqueue.
  - apply Hsame, same_file_Handler.
  - apply Hsame, same_file_drain.
  - unfold saveToCache. rewrite (proj2 (String.eqb_neq _ _) Hp). cbn [orb].
    destruct (cacheDirty q) eqn:Ed; cbn [negb]; [|by apply Hsame, same_file_refl].
    destruct saved; cbn; (split; [done|]).
    + split; [done|]. cbn. apply elem_of_app. right. left.
    + split; [done|]. cbn. apply elem_of_app. by left.
Qed.

(** The directory of a worker's queue, and the queue that it starts with. *)
Definition worker_dir (cfg : Configuration) : string :=
  if decide (WorkerCacheDir cfg = ""%string) then default_cache_dir (Address cfg) else WorkerCacheDir cfg.
Lemma runWorker_token offset cached now cfg nodes node : runWorker offset cached now cfg nodes = inr node -> TrimSpace (ClusterToken cfg) <> ""%string.
Proof. unfold runWorker. by case_decide. Qed.
Lemma runWorker_total offset cached now cfg nodes : TrimSpace (ClusterToken cfg) <> ""%string ->
  exists node, runWorker offset cached now cfg nodes = inr node.
Proof. intros Ht. unfold runWorker. rewrite decide_False by done. eauto. Qed.
Lemma runWorker_queue offset cached now cfg nodes node :
  runWorker offset cached now cfg nodes = inr node -> MasterURL cfg <> ""%string ->
  let q := wn_queue node in
  worker_dir cfg <> ""%string /\ cachePath q = worker_dir cfg /\ items q = default [] (cached (worker_dir cfg)) /\
  cacheDirty q = false /\ cacheFile q = cached (worker_dir cfg).
Proof.
  intros E Hm. unfold runWorker in E. case_decide; [done|]. rewrite bool_decide_eq_true_2 in E by done. injection E as <-. cbn [wn_queue].
  fold (worker_dir cfg). assert (worker_dir cfg <> ""%string) as Hdir by (unfold worker_dir; by case_decide).
  destruct (NewWorkerQueue_spec (Config.WorkerID cfg) (Config.WorkerQueue cfg) (worker_dir cfg) (cached (worker_dir cfg))) as (_ & _ & H3 & _ & _ & H6).
  rewrite decide_False in H6 by done. set (q0 := NewWorkerQueue _ _ _ _ _) in *.
  assert (cacheDirty q0 = false /\ cacheFile q0 = cached (worker_dir cfg)) as [Hd Hf].
  { unfold q0, NewWorkerQueue, loadFromCache. cbn [cachePath cacheFile]. rewrite (proj2 (String.eqb_neq _ _) Hdir).
    by destruct (cached (worker_dir cfg)). }
  unfold StartFlushLoop, SetMaster, signalFlush. cbv zeta. destruct (0 <? _); cbn; auto.
Qed.

(** The states of the queue while events happen. *)
Fixpoint history (token : string) (maxBatch : Z) (q : WorkerQueue) (events : list queue_event) : list (list Entry) :=
  items q :: match events with [] => [] | e :: events => history token maxBatch (queue_exec token maxBatch q e) events end.

Lemma history_inv token maxBatch events before q : cachePath q <> ""%string -> items q ∈ before -> file_inv before q ->
  let q' := foldl (queue_exec token maxBatch) q events in
  cachePath q' = cachePath q /\ file_inv (before ++ history token maxBatch q events) q'.
Proof.
  revert before q. induction events as [|e events IH]; intros before q Hp Hb Hi; cbn [foldl history].
  - split; [done|]. destruct Hi as [Hc Hf]. split; [done|]. apply elem_of_app. by left.
  - destruct (queue_exec_inv token maxBatch e before q Hp Hb Hi) as [Hp' Hi']. set (q1 := queue_exec token maxBatch q e) in *.
    destruct (IH (before ++ [items q1]) q1) as [Hp2 [Hc2 Hf2]]; [congruence|apply elem_of_app; right; left|done|].
    split; [congruence|]. split; [done|]. clear -Hf2. rewrite !elem_of_app, elem_of_cons in *.
    destruct Hf2 as [[H|[H|H%not_elem_of_nil]]|H]; [by left|right; right|done|right; by right].
    rewrite H. destruct events; left.
Qed.


(** ** Witnesses *)

Module StartupDemo.
Import Memory.
#[local] Open Scope string_scope.

Definition file (path : string) : option string :=
  if decide (path = "names.txt") then Some ("# names" +:+ string_of_bytes [10] +:+ "  cat " +:+ string_of_bytes [13; 10]) else None.
Definition compile (expr : string) : option (string -> bool) := Some (fun s => Contains s expr).
Definition config : Configuration := ConfigDemo.defaults <| NameBlacklist := "names.txt" |> <| EnableBlacklist := true |>.
Definition cat : Metadata := mkMetadata (be_encode 20 7) 4 "cat.mkv" 6 15000 [mkFile 6 "cat.mkv"].
Definition started (s : mem) : string + process mem := main file 0 (fun _ => None) (fun _ => None) (fun _ => None) 0 config (Some s).

Example lines_of_file : ReadFileLines file "names.txt" = ["cat"].
Proof. reflexivity. Qed.

Lemma inserts c (f : list (string * value)) (s : mem) : InsertOne c f s <> None.
Proof. cbv [InsertOne mem_clover]. congruence. Qed.

Theorem blacklist_files_apply_witness : exists sys, started ∅ = inr (Serving sys) /\
  (InsertMetadata_ id elements (fun _ => false) compile EncodeToString config cat (sys_database sys)).1 = false.
Proof.
  destruct (blacklist_files_apply (contents := contents) inserts Demo.finds file 0 (fun _ => None) (fun _ => None) (fun _ => None)
    id elements (fun _ => false) compile 0 0 config config config cat ∅ ltac:(discriminate) ltac:(discriminate) ltac:(reflexivity) eq_refl eq_refl) as (sys & E & H).
  exists sys. split; [exact E|]. destruct H as (_ & _ & _ & H).
  rewrite (H "cat" (fun s => Contains s "cat") eq_refl); [done|]. left. split; [|reflexivity].
  replace (ReadFileLines file (NameBlacklist config)) with ["cat"] by (vm_compute; reflexivity). left.
Defined.

(** A database that holds the torrent. *)
Definition holding : mem :=
  (InsertMetadata_ id elements (fun _ => false) compile EncodeToString ConfigDemo.defaults cat ∅).2.
Theorem restart_keeps_known_witness : exists sys, started holding = inr (Serving sys) /\
  InfoHashCacheContains (be_encode 20 7) (sys_cache sys) = true.
Proof.
  destruct (restart_keeps_known (contents := contents) Demo.finds file 0 (fun _ => None) (fun _ => None) (fun _ => None)
    id elements (fun _ => "") 0 config holding ltac:(discriminate)) as (sys & E & H & _).
  exists sys. split; [exact E|].
  assert (exists d, contents holding TorrentTable = [d]) as [d Hd] by (eexists; vm_compute; reflexivity).
  refine (proj1 (H d cat ltac:(rewrite Hd; left) _)).
  assert (contents holding TorrentTable = [d]) as Hd' by done. vm_compute in Hd'. injection Hd' as <-.
  split; [|vm_compute; reflexivity]. constructor; vm_compute; eauto.
Defined.

Theorem file_schedule_never_crawls_witness : exists cfg sys,
  ParseArguments id (fun _ => "") file ConfigDemo.yaml (fun _ => None) ["dhtc"; "-config"; "names.txt"] = Ret cfg /\
  main file 0 (fun _ => None) (fun _ => None) (fun _ => None) 0 cfg (Some (∅ : mem)) = inr (Serving sys) /\
  exists m, reconcile_all 0 [23 * hour; 47 * hour] (sys_crawler sys) = Ret m /\ running m = false.
Proof.
  assert (exists cfg, ParseArguments id (fun _ => "") file ConfigDemo.yaml (fun _ => None) ["dhtc"; "-config"; "names.txt"] = Ret cfg)
    as [cfg E] by (eexists; vm_compute; reflexivity).
  destruct (file_schedule_never_crawls file 0 (fun _ => None) (fun _ => None) (fun _ => None) id (fun _ => "") ConfigDemo.yaml (fun _ => None)
    "dhtc" "names.txt" ["-config"; "names.txt"] [("config", "names.txt")] cfg 0 (∅ : mem)) as (sys & Hs & H);
    [reflexivity|vm_compute; reflexivity|exact E|reflexivity|reflexivity| |].
  { vm_compute in E. injection E as <-. discriminate. }
  exists cfg, sys. split; [done|]. split; [exact Hs|]. apply H.
Defined.

Definition worker_config : Configuration :=
  ConfigDemo.defaults <| NodeRole := "worker" |> <| ClusterToken := "token" |> <| MasterURL := "https://master.example.com" |>.
Definition left_over (dir : string) : option (list Entry) := Some [mkEntry 1 cat].
Theorem runWorker_spec_witness : exists node, runWorker 0 left_over 0 worker_config [] = inr node /\
  running (wn_crawler node) = true /\ items (wn_queue node) = [mkEntry 1 cat] /\
  exists q', drainFlush 1 accepting 0 (wn_queue node) = Some q' /\ acked q' = [cat].
Proof.
  destruct (runWorker_spec 0 left_over 0 worker_config []) as [[Ht _]|(node & E & Hr & _ & _ & _ & Hm)].
  - intros dir l [= <-]. repeat constructor. apply not_elem_of_nil.
  - vm_compute in Ht. discriminate.
  - destruct Hm as (_ & Hi & _ & _ & Hd); [discriminate|]. cbn [default left_over from_option] in Hi. unfold id in Hi.
    exists node. split; [exact E|]. split; [rewrite Hr; reflexivity|]. split; [exact Hi|].
    destruct (Hd ltac:(reflexivity)) as (q' & Hq & _ & Ha). exists q'. rewrite Hi in Hq, Ha. split; [exact Hq|exact Ha].
Defined.

(** One record is left from before, one comes in, the queue is saved, another comes in. *)
Definition comes (n : Z) : queue_event := QEnqueue (mkMetadata (be_encode 20 n) 4 "name" 1 2 []).
Definition lasting : Configuration := worker_config <| WorkerCacheDir := "dir" |>.
Definition happening : list queue_event := [comes 8; QSave true; comes 9].
End StartupDemo.
