(* ===== verification/I18n.v ===== *)
(** * Languages of the web pages (ui/i18n.go)

    The table of texts as it is in the source, the choice of the language of a request
    and the look-up of a text. A request is its [lang] parameter, its cookie and its
    Accept-Language header. *)

From S2P Require Import Prelude Text.
From Stdlib Require Import Ascii.

Definition defaultLanguage : string := "en-US".
Definition chineseLanguage : string := "zh-CN".

Definition english : list (string * string) := [
  ("action", "Action");
  ("advanced_filters", "Advanced Filters");
  ("all", "All");
  ("blacklist", "Blacklist");
  ("category_distribution", "Category Distribution");
  ("dashboard", "Dashboard");
  ("date", "Date");
  ("discover", "Discover");
  ("discover_subtitle", "Explore the latest additions to the database");
  ("discovery_timeline", "Discovery Timeline");
  ("download_error", "Error");
  ("ends_with", "ends with");
  ("equals", "equals");
  ("field", "Field");
  ("file_count", "File count");
  ("file_name", "File name");
  ("first_seen", "First seen");
  ("info_hash", "Info hash");
  ("interval", "Interval:");
  ("language", "Language");
  ("limit", "Limit");
  ("latest_hour", "Last Hour (Minutely)");
  ("latest_month", "Last 30 Days (Daily)");
  ("latest_day", "Last 24 Hours (Hourly)");
  ("match_type", "Match Type");
  ("max_size_bytes", "Max Size (bytes)");
  ("min_size_bytes", "Min Size (bytes)");
  ("name", "Name");
  ("new_torrents", "New Torrents");
  ("no_categories", "No categories found");
  ("no_discovery_data", "No discovery data available yet");
  ("unknown_family", "Legacy / unknown");
  ("no_results", "No results found");
  ("no_results_hint", "Try adjusting your search filters or check back later.");
  ("open", "Open");
  ("open_magnet", "Open magnet link");
  ("only_chinese_content", "Only store Chinese content");
  ("only_chinese_content_hint", "Keep torrents when the torrent name or any file path contains Chinese characters.");
  ("overview_activity", "Overview of your DHT crawler activity");
  ("path", "Path");
  ("real_time_trawl", "Real-time Trawl");
  ("randomize", "Randomize");
  ("results", "Results");
  ("search", "Search");
  ("search_placeholder", "Search...");
  ("search_query", "Search Query");
  ("search_subtitle", "Search through the collected torrent metadata");
  ("settings", "Settings");
  ("size", "Size");
  ("start_date", "Start Date");
  ("end_date", "End Date");
  ("starts_with", "starts with");
  ("contains", "contains");
  ("tags", "Tags");
  ("total_size", "Total size");
  ("total_torrents", "Total Torrents");
  ("trawl", "Trawl");
  ("trawl_subtitle", "Live view of incoming torrents from the DHT network");
  ("watches", "Watches");
  ("workers", "Workers");
  ("workers_subtitle", "Monitor public crawler workers and pull queues");
  ("workers_master_only", "Worker management is available when this node runs in master mode.");
  ("workers_total", "Total Workers");
  ("workers_online", "Online");
  ("workers_queued", "Queued");
  ("workers_dropped", "Dropped");
  ("workers_pulled", "Pulled");
  ("workers_last_success", "Last Success");
  ("workers_last_error", "Last Error");
  ("workers_empty", "No Worker URLs are configured.");
  ("workers_restart_hint", "Worker URLs and the cluster token take effect immediately after saving.");
  ("online", "Online");
  ("offline", "Offline");
  ("status", "Status");
  ("appearance", "Appearance");
  ("bot_token", "Bot Token");
  ("bootstrap_nodes_file", "Bootstrap Nodes File");
  ("collect_statistics", "Collect Statistics");
  ("configure_preferences", "Configure your personal preferences and system behavior");
  ("crawler", "Crawler");
  ("crawler_auto_stop_at", "Auto-stop at:");
  ("crawler_auto_stop_hint", "Set 0 to keep crawling until you stop it manually.");
  ("crawler_auto_stop_minutes", "Auto-stop after (minutes)");
  ("crawler_control", "Crawler Control");
  ("crawler_running", "The DHT crawler is running.");
  ("crawler_start_on_launch", "Start crawling when the app launches");
  ("crawler_schedule", "Daily schedule:");
  ("crawler_schedule_enabled", "Enable daily crawler schedule");
  ("crawler_schedule_start", "Start time");
  ("crawler_schedule_end", "Stop time");
  ("crawler_schedule_hint", "Cross-midnight windows are supported, for example 22:00 to 07:00.");
  ("next_schedule_change", "Next change:");
  ("crawler_manual_override", "Manual override active until");
  ("crawler_stopped", "The DHT crawler is stopped.");
  ("crawler_threads", "Crawler Threads");
  ("downloaders", "Downloaders");
  ("drain_timeout", "Drain Timeout");
  ("enable_blacklisting", "Enable Blacklisting");
  ("file_blacklist_file", "File Blacklist File");
  ("general", "General");
  ("interface_theme", "Interface Theme");
  ("json_rpc_url", "JSON-RPC URL");
  ("max_concurrent", "Max. Concurrent Downloads");
  ("max_leeches", "Max. Leeches");
  ("max_neighbors", "Max. Neighbors");
  ("max_saved_torrents", "Max Saved Torrents");
  ("max_saved_torrents_hint", "Deletes oldest torrents after this limit. Set 0 to disable pruning.");
  ("network_mode", "DHT Network");
  ("network_mode_dual", "IPv4 + IPv6");
  ("network_mode_hint", "Choose which IP address families the DHT crawler uses. Restart the crawler after changing this setting.");
  ("network_mode_ipv4", "IPv4 only");
  ("network_mode_ipv6", "IPv6 only");
  ("name_blacklist_file", "Name Blacklist File");
  ("notifications", "Notifications");
  ("password", "Password");
  ("paths", "Paths");
  ("personalize_dashboard", "Personalize the look of your dashboard");
  ("pick_theme", "Pick a theme");
  ("rate_limit", "Rate Limit");
  ("reset_changes", "Reset Changes");
  ("rpc_url", "RPC URL");
  ("safe_mode", "Safe Mode");
  ("save_all_settings", "Save All Settings");
  ("secret_token", "Secret Token");
  ("settings_saved", "Settings saved successfully! Some changes may require a restart to take effect.");
  ("test_connection", "Test connection");
  ("testing_connection", "Testing...");
  ("connection_successful", "Connection successful");
  ("start_crawling", "Start Crawling");
  ("target_username", "Target Username");
  ("stop_crawling", "Stop Crawling");
  ("token", "Token");
  ("url", "URL");
  ("username", "Username");
  ("web_ui_url", "Web UI URL");
  ("webhook_url", "Webhook URL");
  ("add_new_filter", "Add New Filter");
  ("add_new_watch", "Add New Watch");
  ("add_watch", "Add Watch");
  ("blacklist_add_failed", "Could not add blacklist entry.");
  ("blacklist_add_ok", "Blacklist entry added successfully.");
  ("blacklist_delete_failed", "Could not delete blacklist entry.");
  ("blacklist_delete_ok", "Blacklist entry deleted successfully.");
  ("blacklist_empty", "Blacklist is empty");
  ("blacklist_empty_hint", "Add filters to automatically skip torrents or files that match specific patterns.");
  ("blacklist_filter_hint", "Define regex filters to ignore unwanted torrents or files");
  ("content", "Content");
  ("delete", "Delete");
  ("filter", "Filter");
  ("key", "Key");
  ("manage_watches", "Manage automatic notifications for matching torrents");
  ("no_watches", "No watches active");
  ("no_watches_hint", "Define watches to get notified when torrents matching your criteria are discovered.");
  ("regex_filter", "Regex Filter");
  ("type", "Type");
  ("watch_add_failed", "Could not add watch.");
  ("watch_add_ok", "Watch added successfully.");
  ("watch_content_hint", "Content to watch for...");
  ("watch_delete_failed", "Could not delete watch.");
  ("watch_delete_ok", "Watch deleted successfully.");
  ("system_notification", "System Notification");
  ("system_notification_hint", "Notify this device when new torrents are captured.");
  ("danger_zone", "Danger Zone");
  ("clear_data", "Clear Captured Data");
  ("clear_data_hint", "Deletes saved torrents and statistics. Watches, blacklist entries, and settings are kept.");
  ("clear_data_confirm", "Type CLEAR to confirm");
  ("clear_data_prompt", "Clear saved torrents and statistics?");
  ("clear_data_confirm_failed", "Type CLEAR before clearing data.")
].

Definition chinese : list (string * string) := [
  ("action", "操作");
  ("advanced_filters", "高级筛选");
  ("all", "全部");
  ("blacklist", "黑名单");
  ("category_distribution", "分类分布");
  ("dashboard", "仪表盘");
  ("date", "日期");
  ("discover", "发现");
  ("discover_subtitle", "浏览数据库中的最新条目");
  ("discovery_timeline", "发现趋势");
  ("download_error", "错误");
  ("ends_with", "结尾匹配");
  ("equals", "完全匹配");
  ("field", "字段");
  ("file_count", "文件数");
  ("file_name", "文件名");
  ("first_seen", "首次发现");
  ("info_hash", "Info Hash");
  ("interval", "时间粒度：");
  ("language", "语言");
  ("limit", "限制");
  ("latest_hour", "最近 1 小时（按分钟）");
  ("latest_month", "最近 30 天（按天）");
  ("latest_day", "最近 24 小时（按小时）");
  ("match_type", "匹配方式");
  ("max_size_bytes", "最大体积（字节）");
  ("min_size_bytes", "最小体积（字节）");
  ("name", "名称");
  ("new_torrents", "新增种子");
  ("no_categories", "暂无分类数据");
  ("no_discovery_data", "暂无发现数据");
  ("unknown_family", "旧数据 / 未知");
  ("no_results", "没有找到结果");
  ("no_results_hint", "可以调整搜索条件，或稍后再试。");
  ("open", "打开");
  ("open_magnet", "打开磁力链接");
  ("only_chinese_content", "仅保存中文内容");
  ("only_chinese_content_hint", "种子名或任意文件路径包含中文字符时才保存。");
  ("overview_activity", "查看 DHT 爬虫活动概览");
  ("path", "路径");
  ("real_time_trawl", "实时捕获");
  ("randomize", "随机");
  ("results", "结果");
  ("search", "搜索");
  ("search_placeholder", "搜索...");
  ("search_query", "搜索关键词");
  ("search_subtitle", "搜索已采集的种子元数据");
  ("settings", "设置");
  ("size", "大小");
  ("start_date", "开始日期");
  ("end_date", "结束日期");
  ("starts_with", "开头匹配");
  ("contains", "包含");
  ("tags", "标签");
  ("total_size", "总大小");
  ("total_torrents", "种子总数");
  ("trawl", "捕获");
  ("trawl_subtitle", "实时查看从 DHT 网络进入的种子");
  ("watches", "订阅");
  ("workers", "Worker 管理");
  ("workers_subtitle", "监控公网采集节点、队列和拉取状态");
  ("workers_master_only", "只有 Master 模式提供 Worker 管理功能。");
  ("workers_total", "Worker 总数");
  ("workers_online", "在线");
  ("workers_queued", "待拉取");
  ("workers_dropped", "已丢弃");
  ("workers_pulled", "累计拉取");
  ("workers_last_success", "最后成功");
  ("workers_last_error", "最近错误");
  ("workers_empty", "尚未配置 Worker 地址。");
  ("workers_restart_hint", "Worker 地址和集群 Token 保存后立即生效。");
  ("online", "在线");
  ("offline", "离线");
  ("status", "状态");
  ("appearance", "外观");
  ("bot_token", "Bot Token");
  ("bootstrap_nodes_file", "Bootstrap 节点文件");
  ("collect_statistics", "收集统计数据");
  ("configure_preferences", "配置个人偏好和系统行为");
  ("crawler", "爬虫");
  ("crawler_auto_stop_at", "自动停止时间：");
  ("crawler_auto_stop_hint", "设置为 0 表示持续捕获，直到手动停止。");
  ("crawler_auto_stop_minutes", "自动停止时间（分钟）");
  ("crawler_control", "捕获控制");
  ("crawler_running", "DHT 爬虫正在捕获。");
  ("crawler_start_on_launch", "应用启动时自动开始捕获");
  ("crawler_schedule", "每日运行时段：");
  ("crawler_schedule_enabled", "启用每日定时捕获");
  ("crawler_schedule_start", "开始时间");
  ("crawler_schedule_end", "停止时间");
  ("crawler_schedule_hint", "支持跨午夜时段，例如 22:00 到次日 07:00。");
  ("next_schedule_change", "下次状态切换：");
  ("crawler_manual_override", "手动操作优先，持续到");
  ("crawler_stopped", "DHT 爬虫已停止。");
  ("crawler_threads", "爬虫线程数");
  ("downloaders", "下载器");
  ("drain_timeout", "排空超时");
  ("enable_blacklisting", "启用黑名单");
  ("file_blacklist_file", "文件黑名单文件");
  ("general", "通用");
  ("interface_theme", "界面主题");
  ("json_rpc_url", "JSON-RPC URL");
  ("max_concurrent", "最大并发下载数");
  ("max_leeches", "最大 Leeches");
  ("max_neighbors", "最大邻居数");
  ("max_saved_torrents", "最多保存种子数");
  ("max_saved_torrents_hint", "超过该数量后自动删除最旧种子。设置为 0 表示不限制。");
  ("network_mode", "DHT 网络模式");
  ("network_mode_dual", "IPv4 + IPv6 双栈");
  ("network_mode_hint", "选择 DHT 爬虫使用的 IP 地址族。修改后请停止并重新启动爬虫。");
  ("network_mode_ipv4", "仅 IPv4");
  ("name_blacklist_file", "名称黑名单文件");
  ("notifications", "通知");
  ("password", "密码");
  ("paths", "路径");
  ("personalize_dashboard", "自定义仪表盘外观");
  ("pick_theme", "选择主题");
  ("rate_limit", "速率限制");
  ("reset_changes", "重置更改");
  ("rpc_url", "RPC URL");
  ("safe_mode", "安全模式");
  ("save_all_settings", "保存全部设置");
  ("secret_token", "密钥令牌");
  ("settings_saved", "设置已保存。部分更改可能需要重启后生效。");
  ("test_connection", "测试连接");
  ("testing_connection", "正在测试...");
  ("connection_successful", "连接成功");
  ("start_crawling", "开始捕获");
  ("target_username", "目标用户名");
  ("stop_crawling", "停止捕获");
  ("token", "Token");
  ("url", "URL");
  ("username", "用户名");
  ("web_ui_url", "Web UI URL");
  ("webhook_url", "Webhook URL");
  ("add_new_filter", "新增过滤器");
  ("add_new_watch", "新增订阅");
  ("add_watch", "添加订阅");
  ("blacklist_add_failed", "黑名单条目添加失败。");
  ("blacklist_add_ok", "黑名单条目已添加。");
  ("blacklist_delete_failed", "黑名单条目删除失败。");
  ("blacklist_delete_ok", "黑名单条目已删除。");
  ("blacklist_empty", "黑名单为空");
  ("blacklist_empty_hint", "添加过滤器后，会自动跳过匹配指定模式的种子或文件。");
  ("blacklist_filter_hint", "定义正则过滤器，忽略不需要的种子或文件");
  ("content", "内容");
  ("delete", "删除");
  ("filter", "过滤器");
  ("key", "字段");
  ("manage_watches", "管理匹配种子的自动通知");
  ("no_watches", "暂无订阅");
  ("no_watches_hint", "添加订阅后，发现匹配条件的种子时会发送通知。");
  ("regex_filter", "正则过滤器");
  ("type", "类型");
  ("watch_add_failed", "订阅添加失败。");
  ("watch_add_ok", "订阅已添加。");
  ("watch_content_hint", "要订阅的内容...");
  ("watch_delete_failed", "订阅删除失败。");
  ("watch_delete_ok", "订阅已删除。");
  ("system_notification", "系统通知");
  ("system_notification_hint", "捕获到新种子时通知当前设备。");
  ("danger_zone", "危险操作");
  ("clear_data", "清除捕获数据");
  ("clear_data_hint", "删除已保存种子和统计数据。订阅、黑名单和设置会保留。");
  ("clear_data_confirm", "输入 CLEAR 确认");
  ("clear_data_prompt", "确定清除已保存种子和统计数据吗？");
  ("clear_data_confirm_failed", "请先输入 CLEAR 再清除数据。")
].

Definition translations : gmap string (gmap string string) :=
  {[defaultLanguage := list_to_map english; chineseLanguage := list_to_map chinese]}.

Definition translate (lang key : string) : string :=
  match translations !! lang ≫= (fun values => values !! key) with
  | Some value => value
  | None =>
      match translations !! defaultLanguage ≫= (fun values => values !! key) with
      | Some value => value
      | None => key
      end
  end.

Section Language.
  Context (unicode_lower : string -> string).

(** The empty string when the language is not one of the two. *)
Definition normalizeLanguage (lang : string) : string :=
  let lang := TrimSpace (ToLower unicode_lower lang) in
  if decide (lang ∈ ["zh"; "zh-cn"; "zh_hans"; "zh-hans"; "cn"]%string) then chineseLanguage
  else if decide (lang ∈ ["en"; "en-us"; "en-gb"]%string) then defaultLanguage
  else ""%string.

Fixpoint header_loop (parts : list string) : string :=
  match parts with
  | [] => defaultLanguage
  | part :: parts =>
      let lang := normalizeLanguage (hd ""%string (Split ";"%char part)) in
      if decide (lang = ""%string) then header_loop parts else lang
  end.
Definition languageFromAcceptHeader (header : string) : string := header_loop (Split ","%char header).

(** The language and the cookie that is set, if one is. *)
Definition detectLanguage (query : string) (cookie : option string) (header : string) : string * option string :=
  let lang := normalizeLanguage query in
  if decide (lang <> ""%string) then (lang, Some lang)
  else
    match cookie with
    | Some c =>
        let normalized := normalizeLanguage c in
        if decide (normalized <> ""%string) then (normalized, None) else (languageFromAcceptHeader header, None)
    | None => (languageFromAcceptHeader header, None)
    end.

(** ** Theorems *)

Definition supported (lang : string) : Prop := lang = defaultLanguage \/ lang = chineseLanguage.

Lemma normalizeLanguage_cases s : normalizeLanguage s = ""%string \/ supported (normalizeLanguage s).
Proof. unfold normalizeLanguage, supported. repeat case_decide; auto. Qed.
Lemma header_supported parts : supported (header_loop parts).
Proof.
  induction parts as [|p parts IH]; [by left|]. cbn [header_loop]. case_decide as E; [done|].
  by destruct (normalizeLanguage_cases (hd ""%string (Split ";"%char p))).
Qed.
Lemma supported_normal lang : supported lang -> normalizeLanguage lang = lang /\ lang <> ""%string.
Proof. by intros [-> | ->]. Qed.

(** Every request is answered in one of the two languages: in the one of the [lang]
    parameter if that names one, else in the one of the cookie, else in the first one
    of the Accept-Language header, else in English. A language that was chosen by the
    parameter sticks: the cookie that is set makes the following requests choose it. *)
Theorem language_chosen (query : string) (cookie : option string) (header query' header' : string) :
  let '(lang, set) := detectLanguage query cookie header in
  supported lang /\
  (normalizeLanguage query <> ""%string -> lang = normalizeLanguage query /\ set = Some lang) /\
  (normalizeLanguage query = ""%string -> set = None /\
     lang = match normalizeLanguage <$> cookie with
            | Some c => if decide (c = ""%string) then languageFromAcceptHeader header else c
            | None => languageFromAcceptHeader header
            end) /\
  (set = Some lang -> normalizeLanguage query' = ""%string -> detectLanguage query' set header' = (lang, None)).
Proof.
  unfold detectLanguage. destruct (normalizeLanguage_cases query) as [Hq|Hq].
  - rewrite decide_False by auto. rewrite Hq.
    assert (supported (languageFromAcceptHeader header)) as Hh by apply header_supported.
    destruct cookie as [c|]; [|by repeat (split; [done|])]. cbn [fmap option_fmap option_map].
    destruct (normalizeLanguage_cases c) as [Hc|Hc].
    + rewrite decide_False, decide_True by auto. by repeat (split; [done|]).
    + destruct (supported_normal _ Hc) as [_ Hne]. rewrite decide_True, decide_False by done. by repeat (split; [done|]).
  - destruct (supported_normal _ Hq) as [Hn Hne]. rewrite decide_True by done. split; [done|]. split; [done|]. split; [done|].
    intros _ ->. rewrite decide_False by auto. by rewrite Hn, decide_True.
Qed.
End Language.

(** Is every key of the first table in the second? *)
Definition missing (a b : list (string * string)) : list string :=
  filter (fun k => k ∉ b.*1) a.*1.

Lemma translations_default : translations !! defaultLanguage = Some (list_to_map english).
Proof. unfold translations. apply lookup_insert_eq. Qed.
Lemma translations_chinese : translations !! chineseLanguage = Some (list_to_map chinese).
Proof. unfold translations. rewrite lookup_insert_ne by done. apply lookup_singleton_eq. Qed.

Lemma translations_elem lang key v :
  translations !! lang ≫= (fun values => values !! key) = Some v ->
  exists table, table ∈ [english; chinese] /\ (key, v) ∈ table.
Proof.
  destruct (decide (lang = defaultLanguage)) as [->|H1]; [|destruct (decide (lang = chineseLanguage)) as [->|H2]].
  - rewrite translations_default. cbn [mbind option_bind]. intros Hv%elem_of_list_to_map_2. exists english. split; [left|done].
  - rewrite translations_chinese. cbn [mbind option_bind]. intros Hv%elem_of_list_to_map_2. exists chinese. split; [right; left|done].
  - unfold translations. by rewrite lookup_insert_ne, lookup_singleton_ne by done.
Qed.

Lemma no_empty_text table key v : table ∈ [english; chinese] -> (key, v) ∈ table -> v <> ""%string.
Proof.
  assert (forallb (fun t => forallb (fun x => negb (String.eqb x.2 "")) t) [english; chinese] = true) as H by (vm_compute; reflexivity).
  intros Ht%list_elem_of_In Hv%list_elem_of_In. rewrite forallb_forall in H. specialize (H _ Ht).
  rewrite forallb_forall in H. specialize (H _ Hv). cbn [snd] in H. intros ->. discriminate.
Qed.

Lemma keys_english table key v : table ∈ [english; chinese] -> (key, v) ∈ table -> key ∈ english.*1.
Proof.
  assert (forallb (fun t => forallb (fun x => bool_decide (x.1 ∈ english.*1)) t) [english; chinese] = true) as H by (vm_compute; reflexivity).
  intros Ht%list_elem_of_In Hv%list_elem_of_In. rewrite forallb_forall in H. specialize (H _ Ht).
  rewrite forallb_forall in H. specialize (H _ Hv). by apply bool_decide_eq_true in H.
Qed.

Lemma unknown_key lang key : key ∉ english.*1 -> translate lang key = key.
Proof.
  intros Hk. unfold translate.
  destruct (translations !! lang ≫= _) as [v|] eqn:E; [|destruct (translations !! defaultLanguage ≫= _) as [v|] eqn:E'; [|done]].
  - apply translations_elem in E as (table & Ht & Hv). destruct Hk. by apply (keys_english table key v).
  - apply translations_elem in E' as (table & Ht & Hv). destruct Hk. by apply (keys_english table key v).
Qed.

(** The two tables have the same keys but for one, [network_mode_ipv6], that is not
    translated; a key of the English table is never shown raw or empty, in either
    language, and one that no table has, such as the [add_to_blacklist] of the
    blacklist page, is shown as it is. *)
Theorem translations_complete (lang key : string) :
  missing chinese english = [] /\ missing english chinese = ["network_mode_ipv6"]%string /\
  (key ∈ english.*1 -> translate lang key <> ""%string /\
     exists table, table ∈ [english; chinese] /\ (key, translate lang key) ∈ table) /\
  (key ∉ english.*1 -> translate lang key = key) /\
  translate lang "add_to_blacklist" = "add_to_blacklist"%string.
Proof.
  split; [vm_compute; reflexivity|]. split; [vm_compute; reflexivity|]. split; [|split].
  - intros Hk. assert (exists table, table ∈ [english; chinese] /\ (key, translate lang key) ∈ table) as (table & Ht & Hv).
    { unfold translate. destruct (translations !! lang ≫= _) as [v|] eqn:E.
      - by apply translations_elem in E.
      - destruct (translations !! defaultLanguage ≫= _) as [v|] eqn:E'; [by apply translations_elem in E'|].
        exfalso. rewrite translations_default in E'. cbn [mbind option_bind] in E'. by apply not_elem_of_list_to_map_2 in E'. }
    split; [|by exists table]. by apply (no_empty_text table key (translate lang key)).
  - apply unknown_key.
  - apply unknown_key. apply (bool_decide_unpack _). vm_compute. done.
Qed.
