(* ===== verification/Web.v ===== *)
(** * Web handlers (ui/helpers.go, api.go, mcp.go, watch.go, blacklist.go, saved.go)

    The handlers as functions of the request's parameters and of the parts of the
    server they use. [strconv]'s functions return a value even when they fail, and the
    code uses that value, so they are modelled with it. *)

From S2P Require Import Prelude Text Sink Config Filters Repo.
From Stdlib Require Import Ascii.
Open Scope Z_scope.

(** ** strconv *)

Fixpoint digits_loop (l : list ascii) (acc : Z) : option Z :=
  match l with
  | [] => Some acc
  | a :: l => d ← dec_digit a; digits_loop l (acc * 10 + d)
  end.
Definition digits (s : string) : option Z :=
  match String.list_ascii_of_string s with [] => None | l => digits_loop l 0 end.

(** [ParseUint(s, 10, 64)]: the value, which is 0 for a syntax error and the largest
    one when out of range. *)
Definition ParseUint (s : string) : Z :=
  match digits s with None => 0 | Some n => Z.min n (2 ^ 64 - 1) end.

(** [ParseInt(s, 10, 64)], and whether there was no error. *)
Definition ParseInt (s : string) : Z * bool :=
  let '(neg, body) :=
    match s with
    | String "+" s => (false, s)
    | String "-" s => (true, s)
    | _ => (false, s)
    end in
  match digits body with
  | None => (0, false)
  | Some n =>
      if neg then (if 2 ^ 63 <? n then (- 2 ^ 63, false) else (- n, true))
      else (if 2 ^ 63 <=? n then (2 ^ 63 - 1, false) else (n, true))
  end.
(** [strconv.Atoi], for a 64-bit [int]. *)
Definition Atoi : string -> Z * bool := ParseInt.

(** A query parameter: [None] when it is absent; [Query] gives the empty string then. *)
Definition Query (q : option string) : string := default ""%string q.
Definition DefaultQuery (q : option string) (d : string) : string := default d q.

(** ** Pages *)

(** Page, limit and offset, with the offset's wrap-around. *)
Definition parsePagination (page limit : option string) : Z * Z * Z :=
  let page := (Atoi (DefaultQuery page "1")).1 in
  let limit := (Atoi (DefaultQuery limit "50")).1 in
  let page := if page <? 1 then 1 else page in
  let limit := if limit <? 1 then 50 else limit in
  (page, limit, i64 ((page - 1) * limit)).

(** [(total + int64(limit) - 1) / int64(limit)] *)
Definition totalPages (total limit : Z) : Z := i64 (Z.quot (i64 (i64 (total + limit) - 1)) limit).

(** ** Search *)

Record search_query : Type := mkSearchQuery {
  sq_key : option string; sq_match_type : option string; sq_search_input : option string;
  sq_page : option string; sq_limit : option string;
  sq_min_size : option string; sq_max_size : option string;
  sq_start_date_val : option string; sq_end_date_val : option string;
  sq_start_date : option string; sq_end_date : option string
}.
Record SearchParams : Type := mkSearchParams {
  sp_Key : string; sp_MatchType : string; sp_SearchInput : string;
  sp_Page : Z; sp_Limit : Z; sp_Offset : Z; sp_StartDateVal : string; sp_EndDateVal : string;
  sp_Filters : SearchFilters
}.

(** [time.Parse("2006-01-02", v)] and its seconds since 1970; the zero time on an
    error. *)
Definition date_seconds (v : string) : Z := time_Unix (default 0 (Parse_ymd "-"%char v)).

Definition parse_date_param (val : string) (raw : option string) : Z :=
  if decide (val <> ""%string) then date_seconds val else (ParseInt (DefaultQuery raw "0")).1.

Definition parseSearchParams (q : search_query) : SearchParams :=
  let '(page, limit, offset) := parsePagination (sq_page q) (sq_limit q) in
  let startDateVal := Query (sq_start_date_val q) in
  let endDateVal := Query (sq_end_date_val q) in
  mkSearchParams (Query (sq_key q)) (Query (sq_match_type q)) (Query (sq_search_input q)) page limit offset
    startDateVal endDateVal
    (mkFilters (ParseUint (DefaultQuery (sq_min_size q) "0")) (ParseUint (DefaultQuery (sq_max_size q) "0"))
       (parse_date_param startDateVal (sq_start_date q)) (parse_date_param endDateVal (sq_end_date q))).

(** ** Limits of the MCP tools *)

Definition clampLimit (limit fallback : Z) : Z :=
  let limit := if limit <? 1 then fallback else limit in
  if 100 <? limit then 100 else limit.

(** ** The Model Context Protocol endpoint *)

(** The arguments of a tool, decoded; a field that is absent is zero or empty, and
    when decoding fails the fields that were read before keep their values. *)
Record mcp_args : Type := mkArgs {
  a_ok : bool; a_Query : string; a_Key : string; a_MatchType : string; a_Interval : string; a_Limit : Z
}.
(** The parameters of [tools/call]; [None] when they cannot be decoded. *)
Record mcpToolCallParams : Type := mkToolCall { p_Name : string; p_Arguments : mcp_args }.
Record mcpRequest : Type := mkMcp { rq_JSONRPC : string; rq_ID : option Z; rq_Method_ : string; rq_Params : option mcpToolCallParams }.

(** A question to the database. *)
Inductive call : Type :=
  | CSearch (key matchType input : string) (limit offset : Z) (filters : SearchFilters)
  | CLatest (limit offset : Z)
  | CStats (interval : string) (limit : Z)
  | CInfoHashCount
  | CCategories.

Inductive mcp_error : Type :=
  | InvalidParams        (* the error of [json.Unmarshal] *)
  | QueryRequired
  | UnknownTool (name : string)
  | DatabaseError.
Inductive mcp_result : Type :=
  | InitializeResult
  | ToolList
  | Content (questions : list call).   (* the answers to these, as text *)
Inductive mcp_body : Type :=
  | MResult (id : option Z) (r : mcp_result)
  | MError (id : option Z) (code : Z) (e : option mcp_error).
Inductive mcp_response : Type :=
  | StatusOK_               (* the answer to GET *)
  | ParseError_             (* 400 with code -32700 *)
  | Accepted
  | Reply (b : mcp_body).

Section MCP.
  (** Does the database answer the question, or fail? *)
  Context (answers : call -> bool).

(** The questions that were put, and the result. *)
Definition ask (qs : list call) (asked : call) : list call * (mcp_error + mcp_result) :=
  if answers asked then (asked :: qs, inr (Content (asked :: qs))) else ([asked], inl DatabaseError).

Definition noFilters : SearchFilters := mkFilters 0 0 0 0.

Definition mcpSearch (a : mcp_args) : list call * (mcp_error + mcp_result) :=
  if negb (a_ok a) then ([], inl InvalidParams)
  else if decide (a_Query a = ""%string) then ([], inl QueryRequired)
  else
    let key := if decide (a_Key a = ""%string) then "All"%string else a_Key a in
    let matchType := if decide (a_MatchType a = ""%string) then "contains"%string else a_MatchType a in
    ask [] (CSearch key matchType (a_Query a) (clampLimit (a_Limit a) 10) 0 noFilters).
Definition mcpLimit (a : mcp_args) (fallback : Z) : Z := clampLimit (a_Limit a) fallback.
Definition mcpLatest (a : mcp_args) : list call * (mcp_error + mcp_result) := ask [] (CLatest (mcpLimit a 10) 0).
Definition mcpStats (a : mcp_args) : list call * (mcp_error + mcp_result) :=
  let interval := if decide (a_Interval a = ""%string) then "hour"%string else a_Interval a in
  ask [CInfoHashCount] (CStats interval (clampLimit (a_Limit a) 24)).
Definition mcpCategories : list call * (mcp_error + mcp_result) := ask [] CCategories.

Definition handleMCPToolCall (raw : option mcpToolCallParams) : list call * (mcp_error + mcp_result) :=
  match raw with
  | None => ([], inl InvalidParams)
  | Some params =>
      if decide (p_Name params = "search_torrents"%string) then mcpSearch (p_Arguments params)
      else if decide (p_Name params = "latest_torrents"%string) then mcpLatest (p_Arguments params)
      else if decide (p_Name params = "torrent_stats"%string) then mcpStats (p_Arguments params)
      else if decide (p_Name params = "category_distribution"%string) then mcpCategories
      else ([], inl (UnknownTool (p_Name params)))
  end.

(** [body] is the decoded request of a POST. *)
Definition MCP (get : bool) (body : option mcpRequest) : list call * mcp_response :=
  if get then ([], StatusOK_)
  else
    match body with
    | None => ([], ParseError_)
    | Some req =>
        if decide (rq_Method_ req = "initialize"%string) then ([], Reply (MResult (rq_ID req) InitializeResult))
        else if decide (rq_Method_ req = "notifications/initialized"%string) then ([], Accepted)
        else if decide (rq_Method_ req = "tools/list"%string) then ([], Reply (MResult (rq_ID req) ToolList))
        else if decide (rq_Method_ req = "tools/call"%string) then
          let '(asked, r) := handleMCPToolCall (rq_Params req) in
          (asked, Reply match r with
                        | inl e => MError (rq_ID req) (-32602) (Some e)
                        | inr result => MResult (rq_ID req) result
                        end)
        else ([], Reply (MError (rq_ID req) (-32601) None))
    end.
End MCP.

(** ** Handlers that read *)

Section Handlers.
  Context {document store : Type} `{Document document, !Clover document store}.
  Context (unicode_lower : string -> string) (order : gset string -> list string) (FormatRFC822 : time -> string).

(** Results, total, current page and number of pages; [None] is status 500. *)
Definition APISearch (q : search_query) (s : store) : option (list MetaData * Z * Z * Z) :=
  let params := parseSearchParams q in
  '(results, total) ← Search unicode_lower FormatRFC822 (sp_Key params) (sp_MatchType params) (sp_SearchInput params)
      (sp_Limit params) (sp_Offset params) (sp_Filters params) s;
  Some (results, total, sp_Page params, totalPages total (sp_Limit params)).

Definition APILatest (page limit : option string) (s : store) : option (list MetaData * Z * Z * Z) :=
  let '(page, limit, offset) := parsePagination page limit in
  '(results, total) ← GetLatest FormatRFC822 limit offset s;
  Some (results, total, page, totalPages total limit).

(** Statistics, interval, number of torrents and the counts of the families. *)
Definition APIStats (now : time) (limit interval : option string) (s : store)
    : go unit (list Stats * string * Z * (Z * Z * Z)) :=
  let limit := (Atoi (DefaultQuery limit "24")).1 in
  let interval := DefaultQuery interval "hour" in
  match GetStatsByInterval now interval limit s with
  | Panic => Panic
  | Err e => Err e
  | Ret stats => Ret (stats, interval, GetInfoHashCount s, GetFamilyCounts s)
  end.

(** ** Handlers that write *)

(** [opOk] and the state; [status] of a deletion is whether it returned no error. *)
Definition WatchPost (op key matchType searchInput id : string) (s : store) : bool * store :=
  if decide (op = "add"%string) then InsertWatchEntry key matchType searchInput s
  else if decide (op = "delete"%string) then
    match DeleteWatchEntry id s with None => (false, s) | Some s => (true, s) end
  else (false, s).

(** The configuration's [EnableBlacklist] is switched here too. *)
Definition BlacklistPost (op filter type id : string) (enabled : bool) (s : store) : bool * bool * store :=
  if decide (op = "add"%string) then
    let '(ok, s) := AddToBlacklist [filter] type s in (ok, enabled, s)
  else if decide (op = "delete"%string) then
    match DeleteBlacklistItem id s with None => (false, enabled, s) | Some s => (true, enabled, s) end
  else if decide (op = "enable"%string) then (true, true, s)
  else if decide (op = "disable"%string) then (true, false, s)
  else (false, enabled, s).

Inductive clear_response : Type := ConfirmFailed | ClearFailed | Cleared.
(** A deletion that failed may have removed the torrents already. *)
Definition ClearDataPost (confirm : string) (s : store) : clear_response * store :=
  if negb (bool_decide (confirm = "CLEAR"%string)) then (ConfirmFailed, s)
  else
    match Delete (NewQuery TorrentTable) s with
    | None => (ClearFailed, s)
    | Some s1 =>
        match Delete (NewQuery StatsTable) s1 with
        | None => (ClearFailed, s1)
        | Some s2 => (Cleared, s2)
        end
    end.
End Handlers.

(** ** Theorems *)

Lemma digits_loop_nonneg l acc n : 0 <= acc -> digits_loop l acc = Some n -> 0 <= n.
Proof.
  revert acc. induction l as [|a l IH]; intros acc Hacc; cbn [digits_loop]; [by intros [= <-]|].
  destruct (dec_digit a) as [d|] eqn:E; [|done]. cbn [mbind option_bind]. apply IH.
  unfold dec_digit in E. destruct (_ && _) eqn:E'; [|done]. injection E as <-.
  apply andb_true_iff in E' as [?%Z.leb_le _]. lia.
Qed.
Lemma digits_nonneg s n : digits s = Some n -> 0 <= n.
Proof. unfold digits. destruct (String.list_ascii_of_string s) as [|a l]; [done|]. by apply digits_loop_nonneg. Qed.

Lemma ParseUint_range s : 0 <= ParseUint s < 2 ^ 64.
Proof. unfold ParseUint. destruct (digits s) eqn:E; [apply digits_nonneg in E|]; lia. Qed.
Lemma ParseInt_range s : - 2 ^ 63 <= (ParseInt s).1 < 2 ^ 63.
Proof.
  unfold ParseInt. destruct (match s with String "+" s0 => _ | String "-" s0 => _ | _ => _ end) as [neg body].
  destruct (digits body) as [n|] eqn:E; [apply digits_nonneg in E|cbn; lia].
  destruct neg; [destruct (Z.ltb_spec (2 ^ 63) n)|destruct (Z.leb_spec (2 ^ 63) n)]; cbn [fst]; lia.
Qed.

Lemma quot_pages total limit : 0 <= total -> 1 <= limit ->
  let pages := Z.quot (total + limit - 1) limit in (pages - 1) * limit < total <= pages * limit.
Proof.
  intros Ht Hl. cbv zeta. rewrite Z.quot_div_nonneg by lia.
  pose proof (Z.div_mod (total + limit - 1) limit ltac:(lia)). pose proof (Z.mod_pos_bound (total + limit - 1) limit ltac:(lia)).
  nia.
Qed.

(** Whatever the parameters of a request are, page and limit are positive 64-bit
    integers. The offset is their product as long as that fits, and negative when the
    product is between 2^63 and 2^64; the number of pages is the total divided by the
    limit, rounded up, as long as the sum fits, and never positive otherwise. *)
Theorem pagination_bounds (pageParam limitParam : option string) (total : Z) :
  0 <= total < 2 ^ 63 ->
  let '(page, limit, offset) := parsePagination pageParam limitParam in
  1 <= page < 2 ^ 63 /\ 1 <= limit < 2 ^ 63 /\
  ((page - 1) * limit < 2 ^ 63 -> offset = (page - 1) * limit /\ 0 <= offset) /\
  (2 ^ 63 <= (page - 1) * limit < 2 ^ 64 -> offset < 0) /\
  (total + limit - 1 < 2 ^ 63 ->
     let pages := totalPages total limit in (pages - 1) * limit < total <= pages * limit) /\
  (2 ^ 63 <= total + limit - 1 -> totalPages total limit <= 0).
Proof.
  intros Ht. unfold parsePagination. pose proof (ParseInt_range (DefaultQuery pageParam "1")) as Hp.
  pose proof (ParseInt_range (DefaultQuery limitParam "50")) as Hl. unfold Atoi.
  set (page0 := (ParseInt _).1) in Hp |- *. set (limit0 := (ParseInt (DefaultQuery limitParam _)).1) in Hl |- *.
  set (page := if page0 <? 1 then 1 else page0). set (limit := if limit0 <? 1 then 50 else limit0).
  assert (1 <= page < 2 ^ 63) as Hpage by (unfold page; destruct (Z.ltb_spec page0 1); lia).
  assert (1 <= limit < 2 ^ 63) as Hlimit by (unfold limit; destruct (Z.ltb_spec limit0 1); lia).
  clearbody page limit. split; [done|]. split; [done|].
  assert (0 <= (page - 1) * limit) by nia.
  split; [intros Hs; rewrite i64_small by lia; lia|].
  split.
  { intros Hs. unfold i64. rewrite <- (Z.mod_unique ((page - 1) * limit + 2 ^ 63) (2 ^ 64) 1 ((page - 1) * limit + 2 ^ 63 - 2 ^ 64)); lia. }
  unfold totalPages. split; intros Hs.
  - assert (i64 (i64 (total + limit) - 1) = total + limit - 1) as ->.
    { destruct (decide (total + limit < 2 ^ 63)); [rewrite (i64_small (total + limit)) by lia; apply i64_small; lia|].
      assert (total + limit = 2 ^ 63) as -> by lia. vm_compute. reflexivity. }
    pose proof (quot_pages total limit ltac:(lia) ltac:(lia)) as Hq. cbv zeta in *.
    rewrite i64_small; [done|]. rewrite Z.quot_div_nonneg in * by lia.
    pose proof (Z.div_pos (total + limit - 1) limit ltac:(lia) ltac:(lia)).
    pose proof (Z.div_le_upper_bound (total + limit - 1) limit (total + limit - 1) ltac:(lia) ltac:(nia)). lia.
  - assert (i64 (total + limit) = total + limit - 2 ^ 64) as ->.
    { unfold i64. rewrite <- (Z.mod_unique (total + limit + 2 ^ 63) (2 ^ 64) 1 (total + limit + 2 ^ 63 - 2 ^ 64)); lia. }
    rewrite (i64_small (_ - 1)) by lia. set (x := total + limit - 2 ^ 64 - 1).
    assert (x <= 0) by lia. assert (- 2 ^ 63 <= x) by lia.
    rewrite <- (Z.opp_involutive x), Z.quot_opp_l by lia. rewrite Z.quot_div_nonneg by lia.
    pose proof (Z.div_pos (- x) limit ltac:(lia) ltac:(lia)).
    pose proof (Z.div_le_upper_bound (- x) limit (- x) ltac:(lia) ltac:(nia)).
    rewrite i64_small by lia. lia.
Qed.

(** The results on page [p]: what the query of the page keeps of the matches [l]. *)
Definition page_of {A} (l : list A) (p limit : Z) : list A :=
  window (Skip (i64 ((p - 1) * limit)) (Limit limit (NewQuery TorrentTable))) l.

Lemma take_pages {A} (l : list A) (n k : nat) :
  List.concat ((fun i => take k (drop (i * k) l)) <$> seq 0 n) = take (n * k) l.
Proof.
  induction n as [|n IH]; [done|]. rewrite seq_S, fmap_app, List.concat_app, IH. cbn [fmap list_fmap List.concat].
  rewrite app_nil_r, take_take_drop. f_equal. lia.
Qed.

(** The pages from the first to the last one announced show every match exactly once,
    in order. *)
Theorem pages_cover {A} (l : list A) (limit : Z) :
  1 <= limit -> Z.of_nat (length l) + limit - 1 < 2 ^ 63 ->
  List.concat ((fun p => page_of l (Z.of_nat p) limit) <$> seq 1 (Z.to_nat (totalPages (Z.of_nat (length l)) limit))) = l.
Proof.
  intros Hl Hfit. set (total := Z.of_nat (length l)) in *. assert (0 <= total) by lia.
  assert (totalPages total limit = Z.quot (total + limit - 1) limit) as Ep.
  { unfold totalPages. assert (i64 (i64 (total + limit) - 1) = total + limit - 1) as ->.
    { destruct (decide (total + limit < 2 ^ 63)); [rewrite (i64_small (total + limit)) by lia; apply i64_small; lia|].
      assert (total + limit = 2 ^ 63) as -> by lia. vm_compute. reflexivity. }
    apply i64_small. rewrite Z.quot_div_nonneg by lia.
    pose proof (Z.div_pos (total + limit - 1) limit ltac:(lia) ltac:(lia)).
    pose proof (Z.div_le_upper_bound (total + limit - 1) limit (total + limit - 1) ltac:(lia) ltac:(nia)). lia. }
  pose proof (quot_pages total limit ltac:(lia) ltac:(lia)) as Hq. cbv zeta in Hq. rewrite <- Ep in Hq.
  set (pages := totalPages total limit) in *. clearbody pages. clear Ep.
  assert (0 <= pages) by nia. set (k := Z.to_nat limit). set (n := Z.to_nat pages).
  transitivity (take (n * k) l); [|apply take_ge; nia]. rewrite <- take_pages. f_equal.
  rewrite <- (fmap_S_seq 0 n), <- list_fmap_compose. apply list_fmap_ext. intros i x Hx.
  apply lookup_seq in Hx as [-> Hi]. unfold compose, page_of, window. cbn [q_skip q_limit Skip Limit NewQuery].
  assert (0 <= (Z.of_nat (S (0 + i)) - 1) * limit < 2 ^ 63) by nia. rewrite i64_small by lia. f_equal. f_equal. nia.
Qed.

(** ** MCP *)

Definition bounded_call (c : call) : Prop :=
  match c with
  | CSearch key matchType input limit offset filters =>
      key <> ""%string /\ matchType <> ""%string /\ input <> ""%string /\ 1 <= limit <= 100 /\ offset = 0 /\ filters = noFilters
  | CLatest limit offset => 1 <= limit <= 100 /\ offset = 0
  | CStats interval limit => interval <> ""%string /\ 1 <= limit <= 100
  | CInfoHashCount | CCategories => True
  end.

Lemma clampLimit_range limit fallback : 1 <= fallback <= 100 -> 1 <= clampLimit limit fallback <= 100.
Proof. unfold clampLimit. destruct (limit <? 1) eqn:?; [destruct (100 <? fallback) eqn:?|destruct (100 <? limit) eqn:?]; lia. Qed.

Definition methods : list string := ["initialize"; "notifications/initialized"; "tools/list"; "tools/call"]%string.

(** What a call of a tool does. *)
Definition tool_outcome (answers : call -> bool) (x : list call * (mcp_error + mcp_result)) : Prop :=
  Forall bounded_call x.1 /\
  match x.2 with
  | inr r => r = Content x.1 /\ x.1 <> []
  | inl e => e = DatabaseError /\ (exists c, x.1 = [c] /\ answers c = false) \/ e <> DatabaseError /\ x.1 = []
  end.

Lemma ask_outcome answers qs c : Forall bounded_call qs -> bounded_call c -> tool_outcome answers (ask answers qs c).
Proof.
  intros Hq Hc. unfold tool_outcome, ask. destruct (answers c) eqn:E; cbn [fst snd].
  - split; [by constructor|done].
  - split; [by repeat constructor|]. left. split; [done|]. by exists c.
Qed.
Lemma refused_outcome answers e : e <> DatabaseError -> tool_outcome answers ([], inl e).
Proof. intros He. split; [done|]. by right. Qed.

Lemma handleMCPToolCall_outcome answers raw : tool_outcome answers (handleMCPToolCall answers raw).
Proof.
  unfold handleMCPToolCall. destruct raw as [[name a]|]; [|by apply refused_outcome]. cbn [p_Name p_Arguments].
  repeat match goal with |- context [decide (name = ?m)] => destruct (decide (name = m)) as [->|] end.
  - unfold mcpSearch. destruct (a_ok a); cbn [negb]; [|by apply refused_outcome].
    destruct (decide (a_Query a = ""%string)); [by apply refused_outcome|]. apply ask_outcome; [done|].
    cbn [bounded_call]. split; [by case_decide|]. split; [by case_decide|]. split; [done|].
    split; [by apply clampLimit_range|done].
  - apply ask_outcome; [done|]. split; [by apply clampLimit_range|done].
  - apply ask_outcome; [by repeat constructor|]. split; [by case_decide|by apply clampLimit_range].
  - by apply ask_outcome.
  - by apply refused_outcome.
Qed.

(** C20: Whatever a client sends, no MCP request asks the database for anything but a
    bounded number of entries from the first one on; an answer echoes the id of its
    request, and has code -32601 exactly for an unknown method and -32602 only for a
    failed call of a tool, with nothing asked if the tool or the arguments are bad. *)
Theorem mcp_bounded (answers : call -> bool) (get : bool) (body : option mcpRequest) :
  let '(asked, resp) := MCP answers get body in
  Forall bounded_call asked /\
  match resp with
  | StatusOK_ => get = true
  | ParseError_ => get = false /\ body = None
  | Accepted => exists req, body = Some req /\ rq_Method_ req = "notifications/initialized"%string
  | Reply (MResult id r) => exists req, body = Some req /\ id = rq_ID req /\ rq_Method_ req ∈ methods /\
      match r with Content qs => qs = asked /\ qs <> [] /\ rq_Method_ req = "tools/call"%string | _ => asked = [] end
  | Reply (MError id code e) => exists req, body = Some req /\ id = rq_ID req /\
      (code = -32601 /\ e = None /\ rq_Method_ req ∉ methods \/
       code = -32602 /\ rq_Method_ req = "tools/call"%string /\
         (e = Some DatabaseError /\ (exists c, asked = [c] /\ answers c = false) \/ e <> Some DatabaseError /\ asked = []))
  end.
Proof.
  unfold MCP. destruct get; [done|]. destruct body as [req|]; [|done].
  repeat match goal with |- context [decide (rq_Method_ req = ?m)] => destruct (decide (rq_Method_ req = m)) as [?Em|?Em] end.
  - split; [done|]. exists req. rewrite Em. repeat (split; [done|]). split; [by left|done].
  - split; [done|]. by exists req.
  - split; [done|]. exists req. rewrite Em1. repeat (split; [done|]). split; [by right; right; left|done].
  - pose proof (handleMCPToolCall_outcome answers (rq_Params req)) as [Hb Hr].
    destruct (handleMCPToolCall answers (rq_Params req)) as [asked r]. cbn [fst snd] in *. split; [done|].
    destruct r as [e|r]; exists req.
    + repeat (split; [done|]). right. repeat (split; [done|]). destruct Hr as [[-> Hc]|[He ->]]; [by left|right].
      split; [congruence|done].
    + destruct Hr as [-> Hne]. repeat (split; [done|]). rewrite Em2. split; [by right; right; right; left|by repeat (split; [done|])].
  - split; [done|]. exists req. repeat (split; [done|]). left. repeat (split; [done|]).
    unfold methods. rewrite !not_elem_of_cons. repeat (split; [done|]). apply not_elem_of_nil.
Qed.

(** ** Searching between two dates *)

Lemma Parse_ymd_days sep v t : Parse_ymd sep v = Some t -> exists k, t = k * 86400 * second.
Proof.
  unfold Parse_ymd, two, mbind, option_bind. intros Hp. repeat (case_match; try discriminate).
  injection Hp as <-. eexists. unfold day, hour, minute. rewrite <- Z.mul_assoc. reflexivity.
Qed.

Lemma parse_date_param_spec v d : v <> ""%string ->
  match Parse_ymd "-"%char v with
  | Some t => Unix (parse_date_param v d) = t
  | None => parse_date_param v d < 0
  end.
Proof.
  intros Hv. unfold parse_date_param. rewrite decide_True by done. unfold date_seconds.
  destruct (Parse_ymd "-"%char v) as [t|] eqn:E; [|reflexivity]. cbn [default from_option]. unfold id.
  apply Parse_ymd_days in E as [k ->]. unfold Unix, time_Unix, epoch. rewrite Z.div_mul by done. lia.
Qed.

(** A guard that returns false. *)
Lemma guarded (b1 b2 r : bool) : (if b1 && b2 then false else r) = true <-> (b1 = true -> b2 = false) /\ r = true.
Proof. destruct b1, b2, r; cbn; intuition congruence. Qed.

Section SearchSpec.
  Context {document : Type} `{Document document} (unicode_lower : string -> string).

(** A search between two dates finds exactly the matching torrents of the right size
    that were discovered from the start of the first date to the very start of the
    last: of the last date's own torrents it finds none after midnight, so a search
    from a date to the same date finds next to nothing. A date that cannot be read
    does not restrict the search. *)
Theorem date_search (q : search_query) (start stop : string) (doc : document) :
  sq_start_date_val q = Some start -> start <> ""%string -> sq_end_date_val q = Some stop -> stop <> ""%string ->
  let p := parseSearchParams q in
  let size := as_uint64 (Get doc "TotalSize"%string) in
  search_match unicode_lower (sp_Key p) (sp_MatchType p) (sp_SearchInput p) (sp_Filters p) doc = true <->
  Matches unicode_lower doc (sp_Key p) (sp_MatchType p) (sp_SearchInput p) = true /\
  (0 < MinSize (sp_Filters p) -> MinSize (sp_Filters p) <= size) /\
  (0 < MaxSize (sp_Filters p) -> size <= MaxSize (sp_Filters p)) /\
  (forall t, Parse_ymd "-"%char start = Some t -> Unix 0 < t -> t <= Unix (discovered doc)) /\
  (forall t, Parse_ymd "-"%char stop = Some t -> Unix 0 < t -> Unix (discovered doc) <= t).
Proof.
  intros Hs Hs' He He'. cbv zeta. unfold search_match. fold (discovered doc).
  unfold parseSearchParams. destruct (parsePagination _ _) as [[page limit] offset]. cbn [sp_Filters sp_Key sp_MatchType sp_SearchInput MinSize MaxSize StartDate EndDate].
  rewrite Hs, He. cbn [Query default from_option]. unfold Query. cbn [default from_option]. unfold id.
  pose proof (parse_date_param_spec start (sq_start_date q) Hs') as H1. pose proof (parse_date_param_spec stop (sq_end_date q) He') as H2.
  set (lo := parse_date_param start _) in *. set (hi := parse_date_param stop _) in *. clearbody lo hi.
  assert ((0 < lo -> lo <= discovered doc) <->
    (forall t, Parse_ymd "-"%char start = Some t -> Unix 0 < t -> t <= Unix (discovered doc))) as <-.
  { destruct (Parse_ymd "-"%char start) as [t|]; [subst t|split; [done|lia]].
    unfold Unix, second. split; [intros Ht ? [= <-] ?; lia|intros Ht ?; specialize (Ht _ eq_refl); lia]. }
  assert ((0 < hi -> discovered doc <= hi) <->
    (forall t, Parse_ymd "-"%char stop = Some t -> Unix 0 < t -> Unix (discovered doc) <= t)) as <-.
  { destruct (Parse_ymd "-"%char stop) as [t|]; [subst t|split; [done|lia]].
    unfold Unix, second. split; [intros Ht ? [= <-] ?; lia|intros Ht ?; specialize (Ht _ eq_refl); lia]. }
  destruct (Matches _ _ _ _ _); cbn [negb]; [|by split; [|intros [? _]]].
  set (mn := ParseUint _). set (mx := ParseUint (DefaultQuery (sq_max_size q) _)). set (size := as_uint64 _).
  rewrite !guarded, !Z.ltb_lt, !Z.ltb_ge. tauto.
Qed.
End SearchSpec.

(** ** Limits that nothing checks *)

Section Unchecked.
  Context {document store : Type} `{Document document, !Clover document store}.
  Context (FormatRFC822 : time -> string).

(** The limit of the statistics API is not checked: with
    a negative one the statistics handler panics; with any other
    one the statistics have as many entries as asked for. *)
Theorem negative_limits_panic (now : time) (interval : option string) (limit : string) (s : store) :
  FindAll (MatchFunc (since_match (time_Unix (Truncate now (GetIntervalDuration (DefaultQuery interval "hour")) +
     i64 (- (Atoi limit).1 * GetIntervalDuration (DefaultQuery interval "hour"))))) (NewQuery TorrentTable)) s <> None ->
  (APIStats now (Some limit) interval s = Panic <-> (Atoi limit).1 < 0) /\
  (forall r, APIStats now (Some limit) interval s = Ret r -> Z.of_nat (length r.1.1.1) = (Atoi limit).1).
Proof.
  intros Hf. unfold APIStats, GetStatsByInterval. change (DefaultQuery (Some limit) "24") with limit.
  destruct (FindAll _ s) as [docs|]; [|done]. destruct (Z.ltb_spec (Atoi limit).1 0).
  - split; [done|]. by intros r.
  - split; [split; [done|lia]|]. intros r [= <-]. cbn [fst]. rewrite length_fmap, length_seq. lia.
Qed.
End Unchecked.

(** ** Witnesses *)

Module WebDemo.
Import Memory.

Theorem pagination_bounds_witness :
  parsePagination (Some "3000000000000000000") (Some "5") = (3000000000000000000, 5, -3446744073709551621) /\
  (let '(_, _, offset) := parsePagination (Some "3000000000000000000") (Some "5") in offset < 0).
Proof.
  split; [vm_compute; reflexivity|].
  pose proof (pagination_bounds (Some "3000000000000000000") (Some "5") 7 ltac:(lia)) as H.
  destruct (parsePagination _ _) as [[page limit] offset] eqn:E. vm_compute in E. injection E as <- <- <-.
  destruct H as (_ & _ & _ & H & _). apply H. lia.
Defined.

Theorem pages_cover_witness :
  List.concat ((fun p => page_of [1; 2; 3; 4; 5] (Z.of_nat p) 2) <$> seq 1 3) = [1; 2; 3; 4; 5].
Proof. exact (pages_cover [1; 2; 3; 4; 5] 2 ltac:(lia) ltac:(cbn; lia)). Defined.

(** A torrent of the afternoon of May 10th, 2024. *)
Definition afternoon : row :=
  (1%positive, [("Name", VString "x"); ("DiscoveredOn", VInt64 1715350000); ("TotalSize", VUint64 9)]%string).
Definition that_day : search_query :=
  mkSearchQuery (Some "Name") (Some "contains") (Some "x") None None None None (Some "2024-05-10") (Some "2024-05-10") None None.

Theorem date_search_witness :
  let p := parseSearchParams that_day in
  FoundOnDate (Unix (discovered afternoon)) "2024.05.10" = true /\
  search_match id (sp_Key p) (sp_MatchType p) (sp_SearchInput p) (sp_Filters p) afternoon <> true.
Proof.
  split; [vm_compute; reflexivity|]. intros H.
  apply (date_search id that_day "2024-05-10" "2024-05-10" afternoon eq_refl ltac:(done) eq_refl ltac:(done)) in H.
  destruct H as (_ & _ & _ & _ & H). destruct (Parse_ymd "-"%char "2024-05-10") as [t|] eqn:E; [|discriminate].
  vm_compute in E. injection E as <-. specialize (H _ eq_refl). vm_compute in H. by apply H.
Defined.

Theorem negative_limits_panic_witness :
  APIStats (Unix 14500) (Some "-1") None Demo.torrents = Panic.
Proof. by apply (negative_limits_panic (Unix 14500) None "-1" Demo.torrents ltac:(apply Demo.finds)). Defined.
End WebDemo.
