(* ===== verification/Server.v ===== *)
(** * Settings and control (ui/settings.go, ui/workers.go, cluster/transport.go, cmd/dhtc/main.go)

    [SettingsPost] replaces the configuration that the parts of the server share and
    tells them; the pause and resume buttons of the workers page become requests to the
    control route of a worker, which starts and stops its crawler. *)

From S2P Require Import Prelude Text Config Cluster Repo Ingest Downloader Crawler.
From Stdlib Require Import Ascii.
Open Scope Z_scope.

Definition list_separator (c : ascii) : bool :=
  existsb (Ascii.eqb c) (ascii_of_Z <$> [44; 59; 10; 13; 9; 32]).
Definition splitWorkerURLs (value : string) : list string := FieldsFunc list_separator value.

(** ** The settings *)

(** What the handlers share; every part holds a pointer to the one configuration. *)
Record Web : Type := mkWeb {
  w_config : Configuration;
  w_notifier : option (list Notifier);
  w_crawler : option CrawlerManager;
  w_monitor : option MasterPuller
}.
(** The crawler sees the same configuration. *)
Definition shared (w : Web) : Prop := forall m, w_crawler w = Some m -> configuration m = w_config w.

Definition with_mode (c : Configuration) (mode : string) : Configuration :=
  c <| NetworkMode := mode |>.

Inductive settings_response : Type :=
  | BindFailed
  | ScheduleInvalid
  | DownloaderFailed (name : string) (e : derror)
  | Saved.

Section Settings.
  Context {server : Type} (serve : hreq -> server -> option hresp * server).
  Context (unicode_lower : string -> string) (offset : duration) (NewBot : string -> option string)
    (Parse : string -> option (string * string)).

(** The checks of a schedule that is switched on. *)
Definition schedule_ok (c : Configuration) : bool :=
  if CrawlerScheduleEnabled c then
    match Schedule.Parse_15_04 (CrawlerScheduleStart c), Schedule.Parse_15_04 (CrawlerScheduleEnd c) with
    | Some start, Some stop => negb (bool_decide (start = stop))
    | _, _ => false
    end
  else true.

(** Everything after the checks. *)
Definition apply_settings (now : time) (candidate : Configuration) (w : Web) : go unit Web :=
  let notifier := (fun _ => Setup NewBot candidate) <$> w_notifier w in
  crawler ← match w_crawler w with
            | None => Ret None
            | Some m => m ← ReconcileSchedule offset now (set_configuration candidate m); Ret (Some m)
            end;
  let monitor := Configure Parse (splitWorkerURLs (WorkerURLs candidate)) (ClusterToken candidate) <$> w_monitor w in
  Ret (mkWeb candidate notifier crawler monitor).

(** [bind] is the form of the request, put over the current configuration. *)
Definition SettingsPost (now : time) (bind : Configuration -> option Configuration) (w : Web)
    (st : server * list exchange) : (settings_response * go unit Web) * (server * list exchange) :=
  match bind (w_config w) with
  | None => ((BindFailed, Ret w), st)
  | Some candidate =>
      let candidate := with_mode candidate (NormalizeNetworkMode unicode_lower (NetworkMode candidate)) in
      if negb (schedule_ok candidate) then ((ScheduleInvalid, Ret w), st)
      else
        let '(e, st) := testConfiguredDownloaders serve candidate st in
        match e with
        | Some (name, e) => ((DownloaderFailed name e, Ret w), st)
        | None => ((Saved, apply_settings now candidate w), st)
        end
  end.

(** ** Theorems *)

(** A configuration that the parts can work with. *)
Definition valid_config (c : Configuration) : Prop :=
  NetworkMode c ∈ [NetworkModeIPv4; NetworkModeDual] /\
  (CrawlerScheduleEnabled c = true -> exists start stop, Schedule.Parse_15_04 (CrawlerScheduleStart c) = Some start /\
     Schedule.Parse_15_04 (CrawlerScheduleEnd c) = Some stop /\ start <> stop).

Lemma schedule_ok_window c : schedule_ok c = true -> CrawlerScheduleEnabled c = true ->
  exists start stop, Schedule.Parse_15_04 (CrawlerScheduleStart c) = Some start /\
    Schedule.Parse_15_04 (CrawlerScheduleEnd c) = Some stop /\ start <> stop.
Proof.
  unfold schedule_ok. intros Hok Hon. rewrite Hon in Hok. destruct (Schedule.Parse_15_04 (CrawlerScheduleStart c)) as [start|]; [|done].
  destruct (Schedule.Parse_15_04 (CrawlerScheduleEnd c)) as [stop|]; [|done].
  apply negb_true_iff, bool_decide_eq_false in Hok. by exists start, stop.
Qed.

(** A request that changes nothing. *)
Ltac unchanged := eexists; split; [reflexivity|]; split; [done|]; split; [done|]; split; [done|discriminate].

(** Reconciling neither panics nor changes the configuration. *)
Lemma reconcile_total now m : manager_inv m ->
  exists m', ReconcileSchedule offset now m = Ret m' /\ manager_inv m' /\ configuration m' = configuration m.
Proof.
  intros Hi. destruct (OnlyWebServer (configuration m) || negb (CrawlerScheduleEnabled (configuration m))) eqn:E.
  - unfold ReconcileSchedule. rewrite E. eexists. split; [done|]. split; [by apply set_override_inv|done].
  - apply orb_false_iff in E as [Ho Hs%negb_false_iff].
    destruct (reconcile_spec offset now m Hi Ho Hs) as (m' & ? & ? & _ & ? & _). by exists m'.
Qed.

(** C26: Saving the settings is all or nothing: when the form cannot be read, the schedule
    is not two different times of day or a configured downloader fails its test, no
    part changes. Otherwise the new configuration, valid, with the mode normalised, is
    the one every part works with: the notifiers are those it names, the crawler has
    its schedule applied, and the master pulls from the workers it lists; nothing
    panics, and what the parts keep true stays true. *)
Theorem settings_all_or_nothing (now : time) (bind : Configuration -> option Configuration) (w : Web)
    (st : server * list exchange) :
  shared w -> (forall m, w_crawler w = Some m -> manager_inv m) ->
  let '((resp, r), _) := SettingsPost now bind w st in
  exists w', r = Ret w' /\ shared w' /\ (forall m, w_crawler w' = Some m -> manager_inv m) /\
    (resp <> Saved -> w' = w) /\
    (resp = Saved -> valid_config (w_config w') /\
       (exists candidate, bind (w_config w) = Some candidate /\
          w_config w' = with_mode candidate (NormalizeNetworkMode unicode_lower (NetworkMode candidate))) /\
       (testConfiguredDownloaders serve (w_config w') st).1 = None /\
       w_notifier w' = (fun _ => Setup NewBot (w_config w')) <$> w_notifier w /\
       (forall m, w_crawler w = Some m -> exists m', w_crawler w' = Some m' /\
          ReconcileSchedule offset now (set_configuration (w_config w') m) = Ret m') /\
       (forall p, w_monitor w = Some p -> exists p', w_monitor w' = Some p' /\
          workers p' = omap (accept_worker Parse) (splitWorkerURLs (WorkerURLs (w_config w'))))).
Proof.
  intros Hsh Hinv. unfold SettingsPost. destruct (bind (w_config w)) as [c0|] eqn:Eb.
  2:{ unchanged. }
  set (c := with_mode c0 _). destruct (schedule_ok c) eqn:Es; cbn [negb].
  2:{ unchanged. }
  destruct (testConfiguredDownloaders serve c st) as [[[name e]|] st'] eqn:Et.
  { unchanged. }
  assert (valid_config c) as Hv.
  { split; [|intros Hon; by apply schedule_ok_window]. change (NetworkMode c) with (NormalizeNetworkMode unicode_lower (NetworkMode c0)). destruct (NormalizeNetworkMode_cases unicode_lower (NetworkMode c0)) as [-> | ->]; [left|right; left]. }
  unfold apply_settings. destruct (w_crawler w) as [m|] eqn:Em.
  - assert (manager_inv (set_configuration c m)) as Hi by (destruct (Hinv m eq_refl); by split).
    destruct (reconcile_total now (set_configuration c m) Hi) as (m' & Er & Hi' & Hc').
    rewrite Er. cbn [mbind go_bind]. eexists. split; [reflexivity|].
    split; [by intros ? [= <-]|]. split; [by intros ? [= <-]|]. split; [done|]. intros _.
    split; [done|]. split; [by exists c0|]. cbn [w_config w_notifier w_crawler w_monitor]. rewrite Et.
    split; [done|]. split; [done|]. split; [intros ? [= <-]; by exists m'|]. intros p ->. by eexists.
  - cbn [mbind go_bind]. eexists. split; [reflexivity|].
    split; [done|]. split; [done|]. split; [done|]. intros _.
    split; [done|]. split; [by exists c0|]. cbn [w_config w_notifier w_crawler w_monitor]. rewrite Et.
    split; [done|]. split; [done|]. split; [done|]. intros p ->. by eexists.
Qed.
End Settings.

(** ** Pausing and resuming a worker *)

Definition ControlPath : string := "/api/worker/v1/control".

Inductive control_response : Type :=
  | CUnauthorized | CMethodNotAllowed | CInvalidRequest | CUnknownAction | COk (running : bool).
Definition status_code (r : control_response) : Z :=
  match r with
  | CUnauthorized => 401 | CMethodNotAllowed => 405 | CInvalidRequest | CUnknownAction => 400 | COk _ => 200
  end.

Section Control.
  Context (offset : duration).

(** The worker's control route; the body is the decoded action. *)
Definition control (token : string) (r : request string) (now : time) (m : CrawlerManager)
    : go unit (control_response * CrawlerManager) :=
  if negb (authorized token (r_auth r)) then Ret (CUnauthorized, m)
  else
    match r_method r with
    | POST =>
        match r_body r with
        | None => Ret (CInvalidRequest, m)
        | Some action =>
            if decide (action = "pause"%string) then
              '(_, m) ← Crawler_Stop offset now m; Ret (COk (running m), m)
            else if decide (action = "resume"%string) then
              let '(_, m) := Crawler_Start offset now m in Ret (COk (running m), m)
            else Ret (CUnknownAction, m)
        end
    | _ => Ret (CMethodNotAllowed, m)
    end.

Inductive control_error : Type := ControlFailed | ControlStatus (code : Z).

(** The request of [sendControl] and what its answer means. *)
Definition control_request (token action : string) : request string :=
  mkRequest POST ("Bearer " +:+ token) (Some action).
Definition control_outcome (status : option Z) : option control_error :=
  match status with
  | None => Some ControlFailed
  | Some code => if status_ok code then None else Some (ControlStatus code)
  end.

(** The URL and the request that are sent; [http] is the status that comes back. *)
Definition sendControl (http : string -> request string -> option Z) (p : MasterPuller) (workerURL action : string)
    : list (string * request string) * option control_error :=
  let url := workerURL +:+ ControlPath in
  let req := control_request (Cluster.token p) action in
  ([(url, req)], control_outcome (http url req)).
Definition PauseWorker http (p : MasterPuller) (workerURL : string) := sendControl http p workerURL "pause".
Definition ResumeWorker http (p : MasterPuller) (workerURL : string) := sendControl http p workerURL "resume".

Inductive button_response : Type := NotMaster | URLRequired | ButtonFailed (e : control_error) | ButtonOK.

(** [APIWorkerPause] and [APIWorkerResume] differ in the action; [body] is the decoded
    URL. *)
Definition APIWorker (action : string) (http : string -> request string -> option Z) (w : Web) (body : option string)
    : list (string * request string) * button_response :=
  match w_monitor w with
  | None => ([], NotMaster)
  | Some p =>
      if negb (bool_decide (NodeRole (w_config w) = "master"%string)) then ([], NotMaster)
      else
        match body with
        | None => ([], URLRequired)
        | Some url =>
            if decide (url = ""%string) then ([], URLRequired)
            else
              let '(sent, e) := sendControl http p url action in
              (sent, match e with Some e => ButtonFailed e | None => ButtonOK end)
        end
  end.
Definition APIWorkerPause := APIWorker "pause".
Definition APIWorkerResume := APIWorker "resume".

Lemma override_configuration now run m : configuration (setManualOverrideAtLocked offset now run m) = configuration m.
Proof. unfold setManualOverrideAtLocked. by repeat case_match. Qed.

Lemma TrimPrefix_bearer t : TrimPrefix ("Bearer " +:+ t) "Bearer " = t.
Proof.
  change (TrimPrefix ("Bearer " +:+ t) "Bearer ") with
    (if String.prefix "" t then String.substring 0 (String.length t - 0) t else "Bearer " +:+ t).
  rewrite Nat.sub_0_r, substring_full. by destruct t.
Qed.
Lemma authorized_bearer token t : authorized token ("Bearer " +:+ t) = bool_decide (token <> ""%string /\ t = token).
Proof.
  unfold authorized. rewrite TrimPrefix_bearer.
  destruct (String.eqb_spec token ""%string) as [->|]; [by rewrite bool_decide_false by tauto|].
  destruct (String.eqb_spec t token) as [->|]; [by rewrite bool_decide_true|by rewrite bool_decide_false by tauto].
Qed.

(** The master and a worker agree on the buttons: with the same token, not empty,
    pausing is answered 200 and leaves the worker's crawler stopped, resuming leaves
    it running unless the process only serves pages; nothing panics and the
    crawler's invariant is kept. With another token the worker refuses, the master
    sees the status and nothing changes. *)
Theorem control_agrees (token : string) (p : MasterPuller) (action : string) (now : time) (m : CrawlerManager) :
  manager_inv m -> action = "pause"%string \/ action = "resume"%string ->
  exists resp m', control token (control_request (Cluster.token p) action) now m = Ret (resp, m') /\ manager_inv m' /\
    configuration m' = configuration m /\
    if decide (token <> ""%string /\ Cluster.token p = token) then
      control_outcome (Some (status_code resp)) = None /\ resp = COk (running m') /\
      running m' = (if decide (action = "pause"%string) then false else running m || negb (OnlyWebServer (configuration m)))
    else control_outcome (Some (status_code resp)) = Some (ControlStatus 401) /\ m' = m.
Proof.
  intros Hi Ha. unfold control, control_request. cbn [r_auth r_method r_body]. rewrite authorized_bearer.
  destruct (decide (token <> ""%string /\ Cluster.token p = token)) as [Ht|Ht].
  2:{ rewrite bool_decide_false by done. cbn [negb]. by exists CUnauthorized, m. }
  rewrite bool_decide_true by done. cbn [negb].
  destruct Ha as [-> | ->].
  - rewrite !decide_True by done. unfold Crawler_Stop.
    destruct (stopLocked_spec _ (setManualOverride_inv offset now false m Hi)) as (b & m' & -> & ? & Hr & _ & _ & _ & _ & Hc & _).
    cbn [mbind go_bind]. exists (COk (running m')), m'. split; [done|]. split; [done|].
    split; [rewrite Hc; apply override_configuration|done].
  - rewrite decide_False, decide_True, decide_False by done. unfold Crawler_Start.
    set (m1 := setManualOverrideAtLocked offset now true m).
    assert (configuration m1 = configuration m) as Hc1 by apply override_configuration.
    assert (running m1 = running m) as Hr1.
    { unfold m1, setManualOverrideAtLocked. repeat case_match; done. }
    destruct (startLocked_frame now m1) as (Hc & _). 
    pose proof (startLocked_inv now m1 (setManualOverride_inv offset now true m Hi)) as Hi'.
    destruct (startLocked now m1) as [b m'] eqn:E. cbn [snd] in *. exists (COk (running m')), m'.
    split; [done|]. split; [done|]. split; [congruence|]. split; [done|]. split; [done|].
    unfold startLocked in E. rewrite Hr1, Hc1 in E. destruct (running m) eqn:Er; [injection E as _ <-; cbn; congruence|].
    destruct (OnlyWebServer (configuration m)); injection E as _ <-; cbn; congruence.
Qed.

(** A button of the workers page sends the cluster's token to whatever URL the
    request names, a worker of the configuration or not, as long as this node is a
    master; on other nodes, and without a URL, nothing is sent. *)
Theorem token_sent_anywhere (action : string) (http : string -> request string -> option Z) (w : Web) (body : option string) :
  (APIWorker action http w body).1 =
  match w_monitor w, body with
  | Some p, Some url =>
      if decide (NodeRole (w_config w) = "master"%string /\ url <> ""%string)
      then [(url +:+ ControlPath, mkRequest POST ("Bearer " +:+ Cluster.token p) (Some action))] else []
  | _, _ => []
  end.
Proof.
  unfold APIWorker. destruct (w_monitor w) as [p|]; [|done].
  destruct (decide (NodeRole (w_config w) = "master"%string)) as [E|E].
  - rewrite bool_decide_true by done. cbn [negb]. destruct body as [url|]; [|done].
    destruct (decide (url = ""%string)); [by rewrite decide_False by tauto|]. by rewrite decide_True.
  - rewrite bool_decide_false by done. cbn [negb]. destruct body; [|done]. by rewrite decide_False by tauto.
Qed.
End Control.

(** ** Witnesses *)

Module ServerDemo.
Definition offline (r : hreq) (s : unit) : option hresp * unit := (None, s).
Definition Parse (url : string) : option (string * string) := Some ("http", "h")%string.
Definition puller : MasterPuller := mkPuller [] "token" ∅ [].
Definition web : Web := mkWeb demo_config (Some []) (Some demo_manager) (Some puller).

Theorem settings_all_or_nothing_witness :
  exists w', (SettingsPost offline id 0 (fun _ => None) Parse (at_ 700000 23 0) Some web (tt, [])).1 = (Saved, Ret w') /\
    valid_config (w_config w').
Proof.
  pose proof (settings_all_or_nothing offline id 0 (fun _ => None) Parse (at_ 700000 23 0) Some web (tt, [])
    ltac:(by intros ? [= <-]) ltac:(intros ? [= <-]; apply NewCrawlerManager_inv)) as H.
  destruct (SettingsPost _ _ _ _ _ _ _ _ _) as [[resp r] st] eqn:E.
  destruct H as (w' & -> & _ & _ & _ & H). exists w'. cbn [fst].
  assert (resp = Saved) as ->.
  { assert ((SettingsPost offline id 0 (fun _ => None) Parse (at_ 700000 23 0) Some web (tt, [])).1.1 = Saved) as H'
      by (vm_compute; reflexivity). by rewrite E in H'. }
  split; [done|]. by apply H.
Defined.

Theorem control_agrees_witness :
  exists m', control 0 "token" (control_request "token" "pause") (at_ 700000 23 0) demo_started = Ret (COk false, m') /\
    running demo_started = true.
Proof.
  destruct (control_agrees 0 "token" puller "pause" (at_ 700000 23 0) demo_started) as (resp & m' & E & _ & _ & H).
  - apply startLocked_inv, NewCrawlerManager_inv.
  - by left.
  - destruct (decide _) as [_|Hn] in H; [|destruct Hn; split; [discriminate|reflexivity]].
    destruct H as (_ & Hresp & Hr). destruct (decide _) as [_|Hn] in Hr; [|by destruct Hn].
    exists m'. rewrite Hr in Hresp. rewrite Hresp in E. split; [exact E|vm_compute; reflexivity].
Defined.
End ServerDemo.
