(* ===== verification/Worker.v ===== *)
(** * A worker node (cmd/dhtc/main.go, function runWorker)

    On a worker the crawl loop has no database: what it downloads goes into the queue
    for the master, and the acknowledgement of a record gives its info hash a time to
    live in the cache. This file puts the crawl (Crawl.v), the cache (Cache.v) and the
    queue (Cluster.v) together. *)

From S2P Require Import Prelude NetAddr Sink Cache Config Crawler Crawl Cluster.
Open Scope Z_scope.

Record Node : Type := mkNode { world : World; queue : WorkerQueue }.

Definition recrawlAfter : duration := 12 * hour.

Inductive node_event : Type :=
  | NCrawl (ev : event)                    (* a step of the crawler that does not concern the queue *)
  | NMetadata (i : nat)                    (* the loop of run [i] takes a download and enqueues it *)
  | NAck (now : time) (ids : list Z).      (* the master acknowledges *)

Section NodeExec.
  Context (offset : duration) (victim : gmap (list byte) time -> list byte).

(** The calls of [onAck]. *)
Definition ack_all (now : time) (mds : list Metadata) (w : World) : option World :=
  exec_all offset victim false ((fun md => EAck now (md_InfoHash md)) <$> mds) w.

Definition node_exec (ev : node_event) (n : Node) : option Node :=
  match ev with
  | NCrawl (EMetadata _ _) | NCrawl (EAck _ _) => None
  | NCrawl ev => w ← exec offset victim false ev (world n); Some (mkNode w (queue n))
  | NMetadata i =>
      match runs (world n) !! i with
      | Some (Crawl _ s) =>
          '(md, _) ← receive s;
          let '(ok, q) := Enqueue md (queue n) in
          w ← exec offset victim false (EMetadata i ok) (world n);
          Some (mkNode w q)
      | _ => None
      end
  | NAck now ids =>
      w ← ack_all now (Metadata_ <$> filter (fun item => ID item ∈ ids) (items (queue n))) (world n);
      Some (mkNode w (Ack ids (queue n)))
  end.
Definition node_step (n n' : Node) : Prop := exists ev, node_exec ev n = Some n'.

(** A worker starts with an empty cache. *)
Definition new_node (c : Configuration) (workerID : string) (limit : Z) (cachePath : string) (file : option (list Entry)) : Node :=
  mkNode (init c emptyCache) (NewWorkerQueue workerID limit cachePath true file).
End NodeExec.

(** ** What is on its way

    An info hash is pending in a sink while it is downloaded and until the loop has
    taken the result. *)

Definition drained (s : Sink) (h : list byte) : nat := occ h (md_InfoHash <$> (drain s ++ option_list (blocked s))).
Definition pend (s : Sink) (h : list byte) : nat := drained s h + tracked s h.
Definition pend_run (h : list byte) (r : Run) : nat := match r with Pending => 0%nat | Crawl _ s => pend s h end.
Definition pending (w : World) (h : list byte) : nat := sum_list (pend_run h <$> runs w).
Definition queued (q : WorkerQueue) (h : list byte) : nat := occ h ((fun e => md_InfoHash (Metadata_ e)) <$> items q).
(** In the cache for good. *)
Definition locked (h : list byte) (c : Cache) : nat :=
  if decide (h ∈ infoHashCache c /\ infoHashExpiry c !! h = None) then 1 else 0.

(** What the channel holds and what was handed to it grow together. *)
Definition balanced (s s' : Sink) : Prop :=
  forall h, (occ h (log_flushed s') + drained s h)%nat = (occ h (log_flushed s) + drained s' h)%nat.

Lemma balanced_same s s' : log_flushed s' = log_flushed s -> drain s' = drain s -> blocked s' = blocked s -> balanced s s'.
Proof. intros H1 H2 H3 h. unfold drained. by rewrite H1, H2, H3. Qed.

Lemma pend_of_held s s' h x y :
  balanced s s' -> (held s' h + x)%nat = (held s h + y)%nat -> (pend s' h + x)%nat = (pend s h + y)%nat.
Proof. intros Hb. specialize (Hb h). unfold held, pend. lia. Qed.

Lemma Sink_balanced res s : balanced s (Sink_ res s).2.
Proof. unfold Sink_. repeat case_match; by apply balanced_same. Qed.
Lemma AddPeers_balanced res s : balanced s (AddPeers res s).2.
Proof. unfold AddPeers. repeat case_match; by apply balanced_same. Qed.
Lemma onPeers_balanced k peers s : balanced s (onPeers k peers s).
Proof. unfold onPeers. case_match; by apply balanced_same. Qed.
Lemma download_start_balanced j s s' : download_start j s = Some s' -> balanced s s'.
Proof.
  unfold download_start. destruct (waiting s !! j); [|done]. cbn.
  destruct (terminated s); [|destruct (_ <? _); [|done]]; intros [= <-]; by apply balanced_same.
Qed.
Lemma flush_balanced m s : blocked s = None -> balanced s (flush m s).
Proof.
  intros Hb h. unfold flush. destruct (terminated s); [lia|]. unfold drained. rewrite Hb.
  destruct (_ <? _)%nat; cbn [log_flushed drain blocked with_drain with_logs forget with_maps option_list];
    rewrite ?app_nil_r, ?fmap_app, ?occ_app; unfold option_list; cbn [option_rect fmap list_fmap md_InfoHash]; lia.
Qed.
Lemma onLeechError_balanced k s : balanced s (onLeechError k s).
Proof. unfold onLeechError. repeat case_match; by apply balanced_same. Qed.
Lemma download_end_balanced j o s s' : download_end j o s = Some s' -> balanced s s'.
Proof.
  unfold download_end. destruct (Sink.running s !! j) as [d|]; [|done]. cbn [mbind option_bind]. destruct o as [m|].
  - case_decide as Hm; [|done]. intros [= <-].
    exact (flush_balanced m (with_threads s (waiting s) (remove_at j (Sink.running s))) (proj1 Hm)).
  - intros [= <-]. exact (onLeechError_balanced d.1 (with_threads s (waiting s) (remove_at j (Sink.running s)))).
Qed.

Lemma receive_pend s md s' h :
  receive s = Some (md, s') -> (pend s' h + (if decide (md_InfoHash md = h) then 1 else 0))%nat = pend s h.
Proof.
  unfold receive. destruct (drain s) as [|m l] eqn:E; [done|]. intros [= <- <-]. unfold pend, drained, tracked.
  cbn [drain blocked with_drain incomingInfoHashes option_list]. rewrite E, app_nil_r. cbn [app fmap list_fmap].
  change (md_InfoHash m :: ?l) with ([md_InfoHash m] ++ l). rewrite occ_app, occ_one. lia.
Qed.

(** ** The cache *)

Lemma locked_le h c : (locked h c <= 1)%nat.
Proof. unfold locked. case_decide; lia. Qed.

Lemma locked_remove h h' c : locked h' (InfoHashCacheRemove h c) = if decide (h = h') then 0%nat else locked h' c.
Proof.
  unfold locked, InfoHashCacheRemove. cbn [infoHashCache infoHashExpiry]. destruct (decide (h = h')) as [<-|Hne].
  - rewrite decide_False; [done|]. intros [[_ Hn]%elem_of_difference _]. by apply Hn, elem_of_singleton.
  - rewrite lookup_delete_ne by done. apply decide_ext. rewrite elem_of_difference, elem_of_singleton. intuition congruence.
Qed.

(** Adding either locks a hash that was not locked, or changes nothing. *)
Lemma locked_add now h c :
  cache_inv c ->
  let '(new, c') := InfoHashCacheAdd now h c in
  if new then locked h c = 0%nat /\ forall h', locked h' c' = if decide (h = h') then 1%nat else locked h' c
  else forall h', locked h' c' = locked h' c.
Proof.
  intros Hi. unfold InfoHashCacheAdd. destruct (infoHashExpiry c !! h) as [t|] eqn:E.
  - assert (locked h c = 0%nat) as Hl by (unfold locked; rewrite decide_False; [done|intros [_ ?]; congruence]).
    destruct (now <? t); cbn [negb].
    + assert (h ∈ infoHashCache c) as Hin by (apply (inv_expiry _ Hi), elem_of_dom; eauto).
      unfold set_add, InfoHashCacheContains. rewrite bool_decide_true by done. cbn [negb]. intros h'.
      unfold locked. cbn [infoHashCache infoHashExpiry]. apply decide_ext. rewrite elem_of_union, elem_of_singleton.
      intuition congruence.
    + unfold set_add, InfoHashCacheContains, InfoHashCacheRemove. cbn [infoHashCache infoHashExpiry].
      rewrite bool_decide_false by set_solver. cbn [negb]. split; [done|]. intros h'. unfold locked. cbn [infoHashCache infoHashExpiry].
      destruct (decide (h = h')) as [<-|Hne].
      * rewrite decide_True; [done|]. split; [set_solver|apply lookup_delete_eq].
      * rewrite lookup_delete_ne by done. apply decide_ext. set_solver.
  - unfold set_add, InfoHashCacheContains. destruct (decide (h ∈ infoHashCache c)) as [Hin|Hin].
    + rewrite bool_decide_true by done. cbn [negb]. intros h'. unfold locked. cbn [infoHashCache infoHashExpiry].
      apply decide_ext. set_solver.
    + rewrite bool_decide_false by done. cbn [negb]. split; [unfold locked; rewrite decide_False by tauto; done|].
      intros h'. unfold locked. cbn [infoHashCache infoHashExpiry]. destruct (decide (h = h')) as [<-|Hne].
      * rewrite decide_True; [done|]. split; [set_solver|done].
      * apply decide_ext. set_solver.
Qed.

Section NodeInv.
  Context (offset : duration) (victim : gmap (list byte) time -> list byte).
  (** A [range] loop over a map yields one of its keys. *)
  Context (victim_key : forall m, m <> ∅ -> victim m ∈ dom m).

Lemma locked_expire now h ttl c :
  cache_inv c -> locked h c = 1%nat ->
  let c' := InfoHashCacheExpireAfter victim now h ttl c in
  cache_inv c' /\ forall h', h' <> h -> (locked h' c <= locked h' c')%nat.
Proof.
  intros Hi Hl. unfold locked in Hl. destruct (decide _) as [[Hin He]|]; [|done].
  destruct (expire_after_spec victim c h now ttl Hi victim_key Hin) as (c3 & -> & Hi3 & Hd & Hs & Hroom). cbv zeta.
  assert (infoHashExpiry c3 !! h = None) as He3.
  { apply not_elem_of_dom. intros Hx%Hd. by apply not_elem_of_dom in He. }
  split.
  - split; cbn [infoHashCache infoHashExpiry].
    + clear - Hi3 Hs Hin He. rewrite dom_insert_L. pose proof (inv_expiry _ Hi3). assert (h ∈ infoHashCache c3) by (apply Hs; [by apply not_elem_of_dom|done]). set_solver.
    + rewrite map_size_insert_None by done. lia.
  - intros h' Hne. unfold locked. destruct (decide (h' ∈ infoHashCache c /\ _)) as [[Hin' He']|]; [|lia].
    rewrite decide_True; [done|]. cbn [infoHashCache infoHashExpiry]. rewrite lookup_insert_ne by done.
    split; [apply Hs; [by apply not_elem_of_dom|done]|]. apply not_elem_of_dom. intros Hx%Hd. by apply not_elem_of_dom in He'.
Qed.

(** [rest] is what the other runs and the queue hold. *)
Lemma crawl_result_live now res s c rest :
  cache_inv c -> (forall h, (pend s h + rest h <= locked h c)%nat) ->
  let '(s', c') := crawl_result now res s c in
  cache_inv c' /\ (forall h, (pend s' h + rest h <= locked h c')%nat) /\
  hasOnDiscard s' = hasOnDiscard s /\ (sink_inv s -> sink_inv s').
Proof.
  intros Hi Hl. unfold crawl_result. pose proof (locked_add now (InfoHash res) c Hi) as Ha.
  pose proof (add_inv now (InfoHash res) c Hi) as Hi1. destruct (InfoHashCacheAdd now (InfoHash res) c) as [new c1]. cbn [snd] in Hi1.
  destruct new.
  - destruct Ha as [Hl0 Hl1]. pose proof (fun h => Sink_held res s h) as Hs. pose proof (Sink_inv s res) as Hinv.
    pose proof (Sink_balanced res s) as Hb. destruct (Sink_ res s) as [ok s']. cbn [snd] in *.
    assert (forall h, pend s' h = pend s h + if ok then if decide (InfoHash res = h) then 1 else 0 else 0)%nat as Hp.
    { intros h. pose proof (pend_of_held s s' h 0 (if ok then if decide (InfoHash res = h) then 1 else 0 else 0) Hb) as Hp.
      rewrite !Nat.add_0_r in Hp. apply Hp, Hs. }
    split; [destruct ok; cbn [negb]; [done|by apply remove_inv]|]. split; [|split; [apply (Hs []) |done]].
    intros h. rewrite Hp. specialize (Hl h). destruct ok; cbn [negb].
    + rewrite Hl1. destruct (decide (InfoHash res = h)) as [<-|]; lia.
    + rewrite locked_remove, Hl1. destruct (decide (InfoHash res = h)) as [<-|]; lia.
  - split; [done|]. split; [|split; [apply (AddPeers_held res s [])|apply AddPeers_inv]].
    intros h. rewrite Ha. specialize (Hl h).
    pose proof (pend_of_held s _ h 0 0 (AddPeers_balanced res s)) as Hp. rewrite !Nat.add_0_r in Hp.
    rewrite Hp; [done|]. by apply AddPeers_held.
Qed.

Lemma on_discard_live s s' ds c rest :
  discards s s' ds -> balanced s s' -> cache_inv c -> (forall h, (pend s h + rest h <= locked h c)%nat) ->
  let c' := on_discard s s' c in
  cache_inv c' /\ forall h, (pend s' h + rest h <= locked h c')%nat.
Proof.
  intros (Hds & Hlen & Hh & _) Hb Hi Hl. unfold on_discard. rewrite Hds, drop_app_length.
  assert (forall h, (pend s' h + occ h ds = pend s h)%nat) as Hp.
  { intros h. pose proof (pend_of_held s s' h (occ h ds) 0 Hb) as Hp. rewrite !Nat.add_0_r in Hp. by apply Hp. }
  destruct ds as [|d [|? ?]]; [|cbn [foldl]|cbn in Hlen; lia].
  - split; [done|]. intros h. specialize (Hp h). specialize (Hl h). cbn [foldl]. change (occ h []) with 0%nat in Hp. lia.
  - split; [by apply remove_inv|]. intros h. specialize (Hp h). specialize (Hl h). rewrite occ_one in Hp.
    rewrite locked_remove. pose proof (locked_le h c). destruct (decide (d = h)); lia.
Qed.

Record node_inv (n : Node) : Prop := {
  ni_mgr : manager_inv (mgr (world n));
  ni_made : length (runs (world n)) = made (mgr (world n));
  ni_runs : Forall run_ok (runs (world n));
  ni_cache : cache_inv (cache (world n));
  ni_live : forall h, (pending (world n) h + queued (queue n) h <= locked h (cache (world n)))%nat
}.

(** The runs but one. *)
Definition others (i : nat) (w : World) (h : list byte) : nat := sum_list (pend_run h <$> <[i := Pending]> (runs w)).
Lemma pending_split w i r h : runs w !! i = Some r -> pending w h = (pend_run h r + others i w h)%nat.
Proof.
  intros Hr. pose proof (sum_list_insert (pend_run h) (runs w) i r Pending Hr) as Hs. cbn [pend_run] in Hs.
  unfold pending, others. lia.
Qed.
Lemma pending_set_run w i r r' c h : runs w !! i = Some r -> pending (set_run i r' c w) h = (pend_run h r' + others i w h)%nat.
Proof.
  intros Hr. pose proof (sum_list_insert (pend_run h) (runs w) i r r' Hr) as Hs. pose proof (pending_split w i r h Hr).
  unfold pending in *. cbn [runs set_run]. lia.
Qed.

(** A step of one run. *)
Lemma set_run_node n i r r' c' q' :
  node_inv n -> runs (world n) !! i = Some r -> run_ok r' -> cache_inv c' ->
  (forall h, (pend_run h r' + (others i (world n) h + queued q' h) <= locked h c')%nat) ->
  node_inv (mkNode (set_run i r' c' (world n)) q').
Proof.
  intros [H1 H2 H3 H4 H5] Hr Hok Hc Hl. split; cbn [world queue]; try done.
  - cbn. by rewrite length_insert.
  - apply Forall_insert; [done|exact Hok].
  - intros h. rewrite (pending_set_run _ i r) by done. cbn [cache set_run]. specialize (Hl h). lia.
Qed.

Lemma ni_split n i r :
  node_inv n -> runs (world n) !! i = Some r ->
  forall h, (pend_run h r + (others i (world n) h + queued (queue n) h) <= locked h (cache (world n)))%nat.
Proof. intros Hi Hr h. pose proof (ni_live _ Hi h) as Hl. rewrite (pending_split _ i r) in Hl by done. lia. Qed.

Lemma counts_node w d x q : node_inv (mkNode w q) -> node_inv (mkNode (mkWorld (mgr w) (cache w) (runs w) d x) q).
Proof. intros []. by split. Qed.

Lemma set_mgr_node n m : node_inv n -> manager_inv m -> (made (mgr (world n)) <= made m)%nat -> node_inv (mkNode (set_mgr m (world n)) (queue n)).
Proof.
  intros [H1 H2 H3 H4 H5] Hm Hle. split; cbn [world queue]; try done.
  - cbn. rewrite length_app, length_replicate. lia.
  - cbn. apply Forall_app. split; [done|]. by apply Forall_replicate.
  - intros h. unfold pending. cbn [runs set_mgr]. rewrite fmap_app, fmap_replicate, sum_list_pending. apply H5.
Qed.

(** A step of a goroutine of the sink of run [i]. *)
Lemma background_node n i p s s' ds :
  node_inv n -> runs (world n) !! i = Some (Crawl p s) -> discards s s' ds -> balanced s s' -> sink_step s s' ->
  (terminated s = true -> terminated s' = true) ->
  node_inv (mkNode (set_run i (Crawl p s') (on_discard s s' (cache (world n))) (world n)) (queue n)).
Proof.
  intros Hi Hr Hd Hb Hs Ht. pose proof (ni_runs _ Hi) as Hruns. rewrite Forall_lookup in Hruns.
  destruct (Hruns _ _ Hr) as (Hsi & Hod & Hf). pose proof (ni_split n i _ Hi Hr) as Hl.
  destruct (on_discard_live s s' ds (cache (world n)) (fun h => others i (world n) h + queued (queue n) h)%nat Hd Hb (ni_cache _ Hi) Hl) as [Hc' Hl'].
  eapply set_run_node; [done|exact Hr| |exact Hc'|exact Hl'].
  split; [by eapply sink_step_inv|]. split; [|auto]. destruct Hd as (_ & _ & _ & ->). done.
Qed.

(** A step of the crawler. *)
Lemma crawl_node ev n w' :
  match ev with EMetadata _ _ | EAck _ _ => False | _ => True end ->
  node_inv n -> exec offset victim false ev (world n) = Some w' -> node_inv (mkNode w' (queue n)).
Proof.
  intros Hev Hi H. pose proof (ni_runs _ Hi) as Hruns. rewrite Forall_lookup in Hruns.
  pose proof (exec_manager offset victim ev (world n) w') as Hmgr.
  assert (forall m, w' = set_mgr m (world n) -> manager_step offset (mgr (world n)) m -> (made (mgr (world n)) <= made m)%nat ->
    node_inv (mkNode w' (queue n))) as Hset.
  { intros m -> Hs Hm. apply set_mgr_node; [done|by eapply manager_step_inv; [apply Hi|]|done]. }
  destruct ev; try done; cbn [exec] in H; try (by destruct (Hmgr I false H) as (m & ? & ? & ?); eapply Hset); clear Hmgr Hset.
  - destruct (runs (world n) !! i) as [[|]|] eqn:Hr; [|done..]. injection H as <-.
    eapply set_run_node; [done|exact Hr| |apply Hi|].
    + split; [apply NewSink_inv|done].
    + intros h. pose proof (ni_split n i _ Hi Hr h) as Hl. cbn [pend_run crawl_begin] in *. 
      unfold pend, drained, tracked. cbn [NewSink drain blocked incomingInfoHashes]. rewrite lookup_empty. cbn. lia.
  - apply with_sink_Some in H as (p & s & Hr & H). case_decide as Hp; [|done].
    pose proof (crawl_result_live now result s (cache (world n)) _ (ni_cache _ Hi) (ni_split n i _ Hi Hr)) as Hl.
    destruct (crawl_result now result s (cache (world n))) as [s' c']. injection H as <-. destruct Hl as (Hc & Hl & Hd & Hinv).
    apply (counts_node (set_run i (Crawl p s') c' (world n))). destruct (Hruns _ _ Hr) as (Hsi & Hod & Hf).
    eapply set_run_node; [done|exact Hr| |exact Hc|exact Hl].
    split; [by apply Hinv|]. split; [congruence|]. intros ->. done.
  - apply with_sink_Some in H as (p & s & Hr & H). case_decide as Hp; [|done]. injection H as <-.
    destruct (Hruns _ _ Hr) as (Hsi & Hod & Hf).
    eapply set_run_node; [done|exact Hr|by split|apply Hi|exact (ni_split n i _ Hi Hr)].
  - apply with_sink_Some in H as (p & s & Hr & H). case_decide as Hp; [|done]. injection H as <-.
    destruct (Hruns _ _ Hr) as (Hsi & Hod & Hf). destruct Hp as [_ Hb].
    eapply set_run_node; [done|exact Hr| |apply Hi|exact (ni_split n i _ Hi Hr)].
    split; [|done]. eapply sink_step_inv; [exact Hsi|by apply sk_terminate].
  - apply with_sink_Some in H as (p & s & Hr & H). destruct (download_start j s) as [s'|] eqn:E; [|done]. injection H as <-.
    eapply background_node; [done..|by eapply download_start_discards|by eapply download_start_balanced|by eapply sk_start|].
    by rewrite (download_start_terminated _ _ _ E).
  - apply with_sink_Some in H as (p & s & Hr & H). destruct (Sink.running s !! j) as [d|] eqn:E; [|done]. injection H as <-.
    eapply background_node; [done..|apply onPeers_discards|apply onPeers_balanced|by eapply sk_peers|]. by rewrite onPeers_terminated.
  - apply with_sink_Some in H as (p & s & Hr & H). destruct (download_end j outcome s) as [s'|] eqn:E; [|done]. injection H as <-.
    destruct (Hruns _ _ Hr) as (Hsi & Hod & Hf). destruct (download_end_discards _ _ _ _ Hod Hsi E) as [ds Hds].
    eapply background_node; [done..|exact Hds|by eapply download_end_balanced|by eapply sk_end|]. by eapply download_end_terminated.
Qed.

Lemma queued_enqueue md q :
  let '(ok, q') := Enqueue md q in
  forall h, queued q' h = (queued q h + if ok then if decide (md_InfoHash md = h) then 1 else 0 else 0)%nat.
Proof.
  pose proof (Enqueue_spec md q) as He. destruct (Enqueue md q) as [ok q']. destruct He as (_ & _ & He).
  intros h. unfold queued. destruct ok.
  - destruct He as (_ & -> & _). rewrite fmap_app, occ_app. cbn [fmap list_fmap Metadata_]. by rewrite occ_one.
  - destruct He as (_ & -> & _). lia.
Qed.

(** The loop takes a download and enqueues it. *)
Lemma metadata_node i n n' : node_inv n -> node_exec offset victim (NMetadata i) n = Some n' -> node_inv n'.
Proof.
  intros Hi H. cbn [node_exec] in H. pose proof (ni_runs _ Hi) as Hruns. rewrite Forall_lookup in Hruns.
  destruct (runs (world n) !! i) as [[|p s]|] eqn:Hr; [done| |done].
  destruct (receive s) as [[md s']|] eqn:E; [|done]. cbn [mbind option_bind] in H.
  pose proof (queued_enqueue md (queue n)) as Hq. destruct (Enqueue md (queue n)) as [ok q].
  cbn [exec] in H. unfold with_sink in H. rewrite Hr in H. case_decide as Hp; [|done]. rewrite E in H. cbn [mbind option_bind] in H.
  injection H as <-. apply (counts_node (set_run i (Crawl p s') (crawl_metadata false ok md (cache (world n))) (world n))).
  destruct (Hruns _ _ Hr) as (Hsi & Hod & Hf). pose proof (ni_split n i _ Hi Hr) as Hl.
  eapply set_run_node; [done|exact Hr| | |].
  - split; [eapply sink_step_inv; [exact Hsi|by eapply sk_receive]|].
    destruct (receive_held _ _ _ [] E) as [_ ->]. split; [done|]. intros ->. done.
  - unfold crawl_metadata. destruct ok; cbn [negb andb]; [apply Hi|apply remove_inv, Hi].
  - intros h. specialize (Hl h). pose proof (receive_pend _ _ _ h E) as Hrp. specialize (Hq h). cbn [pend_run] in *.
    pose proof (locked_le h (cache (world n))).
    unfold crawl_metadata. destruct ok; cbn [negb andb]; [|rewrite locked_remove];
      destruct (decide (md_InfoHash md = h)); lia.
Qed.

(** Acknowledged records get a time to live, one after the other. *)
Lemma ack_all_live now mds w w' rest :
  ack_all offset victim now mds w = Some w' ->
  cache_inv (cache w) -> (forall h, (rest h + occ h (md_InfoHash <$> mds) <= locked h (cache w))%nat) ->
  mgr w' = mgr w /\ runs w' = runs w /\ cache_inv (cache w') /\ forall h, (rest h <= locked h (cache w'))%nat.
Proof.
  unfold ack_all. revert w. induction mds as [|md mds IH]; intros w; cbn [fmap list_fmap exec_all].
  - intros [= <-] Hc Hl. split; [done|]. split; [done|]. split; [done|]. intros h. specialize (Hl h). lia.
  - cbn [exec mbind option_bind]. intros H Hc Hl.
    set (h0 := md_InfoHash md) in *.
    assert (forall h, occ h (h0 :: (md_InfoHash <$> mds)) = (if decide (h0 = h) then 1 else 0) + occ h (md_InfoHash <$> mds))%nat as Ho.
    { intros h. change (h0 :: ?l) with ([h0] ++ l). by rewrite occ_app, occ_one. }
    assert (locked h0 (cache w) = 1%nat) as Hl0.
    { specialize (Hl h0). rewrite Ho, decide_True in Hl by done. pose proof (locked_le h0 (cache w)). lia. }
    destruct (locked_expire now h0 recrawlAfter (cache w) Hc Hl0) as [Hc' Hle].
    apply IH in H; [|exact Hc'|].
    + destruct H as (H1 & H2 & H3 & H4). split; [exact H1|]. split; [exact H2|]. split; [exact H3|exact H4].
    + intros h. cbn [cache]. specialize (Hl h). rewrite Ho in Hl. destruct (decide (h0 = h)) as [<-|Hne].
      * lia.
      * specialize (Hle h ltac:(congruence)). unfold recrawlAfter in Hle. lia.
Qed.

Lemma queued_ack ids q h :
  (queued (Ack ids q) h + occ h (md_InfoHash <$> (Metadata_ <$> filter (fun item => ID item ∈ ids) (items q))))%nat = queued q h.
Proof.
  unfold queued. destruct (Ack_spec ids q) as (-> & _). induction (items q) as [|e l IH]; [done|].
  rewrite !filter_cons. cbn [fmap list_fmap]. 
  assert (forall x l, occ h (x :: l) = (if decide (x = h) then 1 else 0) + occ h l)%nat as Ho.
  { intros x k. change (x :: k) with ([x] ++ k). by rewrite occ_app, occ_one. }
  destruct (decide (ID e ∈ ids)) as [Hin|Hin].
  - rewrite decide_False by tauto. cbn [fmap list_fmap]. rewrite !Ho. lia.
  - rewrite decide_True by done. cbn [fmap list_fmap]. rewrite !Ho. lia.
Qed.

Lemma ack_node now ids n n' : node_inv n -> node_exec offset victim (NAck now ids) n = Some n' -> node_inv n'.
Proof.
  intros Hi H. cbn [node_exec] in H.
  destruct (ack_all _ _ _ _ _) as [w'|] eqn:E; [|done]. injection H as <-.
  apply (ack_all_live _ _ _ _ (fun h => pending (world n) h + queued (Ack ids (queue n)) h)%nat) in E as (H1 & H2 & H3 & H4).
  - destruct Hi as [G1 G2 G3 G4 G5]. split; cbn [world queue]; rewrite ?H1, ?H2; try done.
    intros h. unfold pending. rewrite H2. apply H4.
  - apply Hi.
  - intros h. pose proof (ni_live _ Hi h). pose proof (queued_ack ids (queue n) h). lia.
Qed.

Lemma node_step_inv n n' : node_inv n -> node_step offset victim n n' -> node_inv n'.
Proof.
  intros Hi [ev H]. destruct ev as [ev|i|now ids]; [|by eapply metadata_node|by eapply ack_node].
  destruct ev; cbn [node_exec] in H; try done;
    (destruct (exec _ _ _ _ _) as [w'|] eqn:E; [|done]; injection H as <-; refine (crawl_node _ n w' _ Hi E); exact I).
Qed.

Lemma new_node_inv c id limit path : node_inv (new_node c id limit path None).
Proof.
  split; cbn [world new_node].
  - apply NewCrawlerManager_inv.
  - done.
  - constructor.
  - split; [done|]. cbn. rewrite map_size_empty. unfold maxExpiringInfoHashes. lia.
  - intros h. assert (items (NewWorkerQueue id limit path true None) = []) as E.
    { unfold NewWorkerQueue, loadFromCache. cbn [cachePath cacheFile]. by destruct (String.eqb path ""). }
    unfold queued. cbn [queue new_node]. rewrite E. cbn. lia.
Qed.

Lemma occ_elem h l : h ∈ l -> (1 <= occ h l)%nat.
Proof.
  intros Hin. unfold occ. assert (h ∈ filter (fun x => x = h) l) as Hf by (by apply list_elem_of_filter).
  destruct (filter _ l); [by apply not_elem_of_nil in Hf|cbn; lia].
Qed.
Lemma occ_nodup l : (forall h, (occ h l <= 1)%nat) -> NoDup l.
Proof.
  induction l as [|x l IH]; intros Hl; [constructor|].
  assert (forall h, occ h (x :: l) = (if decide (x = h) then 1 else 0) + occ h l)%nat as Ho.
  { intros h. change (x :: l) with ([x] ++ l). by rewrite occ_app, occ_one. }
  constructor.
  - intros Hx%occ_elem. specialize (Hl x). rewrite Ho, decide_True in Hl by done. lia.
  - apply IH. intros h. specialize (Hl h). rewrite Ho in Hl. lia.
Qed.

(** What a run tracks is pending. *)
Lemma pending_tracked w i p s h : runs w !! i = Some (Crawl p s) -> is_Some (incomingInfoHashes s !! h) -> (1 <= pending w h)%nat.
Proof.
  intros Hr [x Hx]. rewrite (pending_split w i _ h Hr). cbn [pend_run]. unfold pend, tracked. rewrite Hx. lia.
Qed.
Lemma locked_known now h c : locked h c = 1%nat -> (InfoHashCacheAdd now h c).1 = false.
Proof.
  unfold locked. destruct (decide _) as [[Hin He]|]; [|done]. intros _. unfold InfoHashCacheAdd. rewrite He.
  unfold set_add, InfoHashCacheContains. cbn [fst]. by rewrite bool_decide_true.
Qed.

(** C8: On a worker, whatever is crawled, started, stopped, enqueued and acknowledged, an
    info hash is on its way at most once: it waits in the queue once at most, and while
    it does no run is downloading it; it is downloaded by one run at most; and as long as
    either holds it stays in the cache without a time to live, so that no result of the
    DHT starts another download. *)
Theorem worker_once (c : Configuration) (workerID : string) (limit : Z) (cachePath : string) (n : Node) (h : list byte) :
  star (node_step offset victim) (new_node c workerID limit cachePath None) n ->
  NoDup ((fun e => md_InfoHash (Metadata_ e)) <$> items (queue n)) /\
  (forall e, e ∈ items (queue n) -> md_InfoHash (Metadata_ e) = h ->
     forall i p s, runs (world n) !! i = Some (Crawl p s) -> incomingInfoHashes s !! h = None) /\
  (forall i j p q s t, runs (world n) !! i = Some (Crawl p s) -> runs (world n) !! j = Some (Crawl q t) ->
     is_Some (incomingInfoHashes s !! h) -> is_Some (incomingInfoHashes t !! h) -> i = j) /\
  ((exists e, e ∈ items (queue n) /\ md_InfoHash (Metadata_ e) = h) \/
   (exists i p s, runs (world n) !! i = Some (Crawl p s) /\ is_Some (incomingInfoHashes s !! h)) ->
   forall now, (InfoHashCacheAdd now h (cache (world n))).1 = false).
Proof.
  intros Hs. assert (node_inv n) as Hi by (eapply star_inv; [exact node_step_inv|exact Hs|apply new_node_inv]).
  pose proof (ni_live _ Hi) as Hl. pose proof (fun h => locked_le h (cache (world n))) as Hle.
  assert (forall e, e ∈ items (queue n) -> (1 <= queued (queue n) (md_InfoHash (Metadata_ e)))%nat) as Hq.
  { intros e He. apply occ_elem. by apply (list_elem_of_fmap_2 (fun e => md_InfoHash (Metadata_ e))). }
  split; [apply occ_nodup; intros x; specialize (Hl x); specialize (Hle x); unfold queued in Hl; lia|]. split; [|split].
  - intros e He <- i p s Hr. destruct (incomingInfoHashes s !! md_InfoHash (Metadata_ e)) eqn:E; [|done].
    pose proof (pending_tracked (world n) i p s _ Hr (mk_is_Some _ _ E)). specialize (Hq e He).
    specialize (Hl (md_InfoHash (Metadata_ e))). specialize (Hle (md_InfoHash (Metadata_ e))). lia.
  - intros i j p q s t Hri Hrj [x Hx] Ht. destruct (decide (i = j)) as [|Hne]; [done|exfalso].
    specialize (Hl h). specialize (Hle h). rewrite (pending_split _ i _ h Hri) in Hl. cbn [pend_run] in Hl.
    unfold pend, tracked in Hl. rewrite Hx in Hl.
    assert (1 <= others i (world n) h)%nat; [|lia].
    apply (pending_tracked (mkWorld (mgr (world n)) (cache (world n)) (<[i := Pending]> (runs (world n))) 0 0) j q t h);
      [|done].
    change (<[i := Pending]> (runs (world n)) !! j = Some (Crawl q t)). by rewrite list_lookup_insert_ne.
  - intros Hh now. apply locked_known. specialize (Hl h). specialize (Hle h).
    destruct Hh as [(e & He & <-)|(i & p & s & Hr & Ht)].
    + specialize (Hq e He). lia.
    + pose proof (pending_tracked (world n) i p s h Hr Ht). lia.
Qed.
End NodeInv.

(** ** Two short histories *)

Module WorkerDemo.
Import Crawl.Demo.

Definition first_key (m : gmap (list byte) time) : list byte := default [] (head (map_to_list m).*1).
Lemma first_key_in m : m <> ∅ -> first_key m ∈ dom m.
Proof.
  intros Hm. unfold first_key. destruct (map_to_list m) as [|[k v] l] eqn:E; [by apply map_to_list_empty_iff in E|].
  cbn [fmap list_fmap head default from_option fst]. unfold id. apply elem_of_dom. exists v.
  apply elem_of_map_to_list. rewrite E. left.
Qed.

Fixpoint node_exec_all (evs : list node_event) (n : Node) : option Node :=
  match evs with [] => Some n | ev :: evs => n ← node_exec 0 first_key ev n; node_exec_all evs n end.
Lemma node_exec_all_star evs n n' : node_exec_all evs n = Some n' -> star (node_step 0 first_key) n n'.
Proof.
  revert n. induction evs as [|ev evs IH]; intros n; cbn [node_exec_all]; [intros [= ->]; apply star_refl|].
  destruct (node_exec 0 first_key ev n) as [n1|] eqn:E; [|done]. intros H. eapply star_step; [by exists ev|by apply IH].
Qed.

Definition node : Node := new_node demo_config "w" 4 "" None.
(** The same info hash is found twice, and a record is acknowledged. *)
Definition history : list node_event :=
  (NCrawl <$> [EStart t0; EBegin 0] ++ download 1) ++ [NMetadata 0] ++ (NCrawl <$> [EResult 0 t0 (found 1)] ++ download 2) ++
  [NMetadata 0; NAck t0 [1]; NCrawl (EResult 0 t0 (found 2))].
Definition after (evs : list node_event) (n : Node) : Node := default n (node_exec_all evs n).

Theorem worker_once_witness :
  NoDup ((fun e => md_InfoHash (Metadata_ e)) <$> items (queue (after history node))) /\
  length (items (queue (after history node))) = 1%nat /\
  (InfoHashCacheAdd t0 (hash 2) (cache (world (after history node)))).1 = false.
Proof.
  assert (star (node_step 0 first_key) node (after history node)) as Hs.
  { apply (node_exec_all_star history). unfold after.
    destruct (node_exec_all history node) as [n|] eqn:E; [done|exfalso].
    assert (match node_exec_all history node with Some _ => true | None => false end = true) as H by (vm_compute; reflexivity).
    by rewrite E in H. }
  destruct (worker_once 0 first_key first_key_in demo_config "w" 4 "" (after history node) (hash 2) Hs) as (Hn & _ & _ & Hk).
  split; [exact Hn|]. split; [vm_compute; reflexivity|]. apply Hk. left.
  exists (mkEntry 2 (mkMetadata (hash 2) 4 "name" 1 2 [mkFile 1 "name"])). split; [|reflexivity].
  assert (items (queue (after history node)) = [mkEntry 2 (mkMetadata (hash 2) 4 "name" 1 2 [mkFile 1 "name"])]) as ->
    by (vm_compute; reflexivity). left.
Defined.

(** A worker that restores its queue from the disk does not put its info hashes into
    the cache, and so downloads and enqueues them again. *)
Definition restored : Node := new_node demo_config "w" 4 "dir" (Some [mkEntry 1 (meta 1)]).
Theorem restored_queue_is_crawled_again :
  (fun e => md_InfoHash (Metadata_ e)) <$>
    items (queue (after ((NCrawl <$> [EStart t0; EBegin 0] ++ download 1) ++ [NMetadata 0]) restored)) = [hash 1; hash 1].
Proof. vm_compute. reflexivity. Qed.
End WorkerDemo.
