(* ===== verification/Serve.v ===== *)
(** * The HTTP server of a worker (runWorker of cmd/dhtc/main.go)

    The three routes that a worker serves to its master (the queue of Cluster.v, the
    control route of Server.v and the health page) over one state: the crawler with its
    counters (the board of Metrics.v) and the queue. A path that is none of the three
    patterns is not found; net/http cleans the path of a request before that. The server
    runs until a signal or a failed listener ends it. *)

From S2P Require Import Prelude Text Config Cluster Crawler Crawl Metrics Startup Server.
From Stdlib Require Import Floats.SpecFloat.
Open Scope Z_scope.

(** ** The health page *)

Inductive json : Type := JString (s : string) | JBool (b : bool) | JInt (n : Z) | JFloat (x : float64).

Definition health (crawlerStatus : CrawlerStatus) (queueStats : WorkerQueueStats) : list (string * json) :=
  [("status", JString "ok"); ("role", JString "worker"); ("paused", JBool (negb (cs_Running crawlerStatus)));
   ("discovered", JInt (cs_Discovered crawlerStatus)); ("download_succeeded", JInt (cs_DownloadSucceeded crawlerStatus));
   ("dht_output_dropped", JInt (cs_DHTOutputDropped crawlerStatus)); ("pending_get_peers", JInt (cs_PendingGetPeers crawlerStatus));
   ("get_peers_rejected", JInt (cs_GetPeersRejected crawlerStatus)); ("get_peers_deduped", JInt (cs_GetPeersDeduped crawlerStatus));
   ("get_peers_send_dropped", JInt (cs_GetPeersSendDropped crawlerStatus)); ("queued", JInt (qs_Queued queueStats));
   ("queue_dropped", JInt (qs_Dropped queueStats)); ("dropped", JInt (qs_Dropped queueStats));
   ("flushed", JInt (qs_Flushed queueStats)); ("flush_batches", JInt (qs_FlushBatches queueStats));
   ("flush_rate_per_second", JFloat (qs_FlushRatePerSecond queueStats))]%string.

(** ** The routes *)

(** A request: its path, method and Authorization header, and its body as the queue's
    route and as the control route decode it. *)
Record http_request : Type := mkHttp {
  h_path : string; h_method : method; h_auth : string; h_ids : option (list Z); h_action : option string
}.

Inductive http_response : Type :=
  | RQueue (r : worker_response)
  | RControl (r : control_response)
  | RHealth (fields : list (string * json))
  | RNotFound.

Definition response_code (r : http_response) : Z :=
  match r with
  | RQueue r =>
      match r with Unauthorized => 401 | BatchBody _ | QueuedBody _ => 200 | BadRequest => 400 | MethodNotAllowed => 405 end
  | RControl r => Server.status_code r
  | RHealth _ => 200
  | RNotFound => 404
  end.

Record Served : Type := mkServed { sv_board : Board; sv_queue : WorkerQueue; sv_startedAt : time }.

Definition with_crawler (m : CrawlerManager) (s : Served) : Served :=
  mkServed (set_world (set_mgr m (world (sv_board s))) (sv_board s)) (sv_queue s) (sv_startedAt s).
Definition crawler_of (s : Served) : CrawlerManager := mgr (world (sv_board s)).

(** A worker that [runWorker] has set up, with an empty cache of info hashes. *)
Definition serving (cfg : Configuration) (startedAt : time) (node : WorkerNode) : Served :=
  with_crawler (wn_crawler node) (mkServed (board_init cfg Cache.emptyCache) (wn_queue node) startedAt).

Section Serve.
  Context (offset : duration) (cfg : Configuration).

(** [mux], with the handlers that [runWorker] registers. *)
Definition serve (now : time) (r : http_request) (s : Served) : go unit (http_response * Served) :=
  if decide (h_path r = QueuePath) then
    let '(resp, q) := Handler (ClusterToken cfg) (WorkerBatch cfg) (mkRequest (h_method r) (h_auth r) (h_ids r)) (sv_queue s) in
    Ret (RQueue resp, mkServed (sv_board s) q (sv_startedAt s))
  else if decide (h_path r = "/health"%string) then
    let '(crawlerStatus, b) := Crawler_Status offset now (sv_board s) in
    let queueStats := WorkerQueue_Stats (sv_startedAt s) now (sv_queue s) in
    Ret (RHealth (health crawlerStatus queueStats), mkServed b (sv_queue s) (sv_startedAt s))
  else if decide (h_path r = ControlPath) then
    '(resp, m) ← control offset (ClusterToken cfg) (mkRequest (h_method r) (h_auth r) (h_action r)) now (crawler_of s);
    Ret (RControl resp, with_crawler m s)
  else Ret (RNotFound, s).

(** What happens to a worker that serves: a request, or what ends it. *)
Inductive life_event : Type :=
  | Served_ (now : time) (r : http_request)
  | Signal                     (* os.Interrupt or SIGTERM *)
  | ListenerFailed.            (* ListenAndServe returned an error: cancel() *)

(** What follows [<-ctx.Done()]. *)
Definition end_worker (saved : bool) (now : time) (s : Served) : go unit Served :=
  '(_, m) ← Crawler_Stop offset now (crawler_of s);
  let s := with_crawler m s in
  Ret (mkServed (sv_board s) (StopFlushLoop saved (sv_queue s)) (sv_startedAt s)).

(** The answers until the end, and the state left; [None] while nothing ends the worker. *)
Fixpoint worker_life (saved : bool) (now : time) (events : list life_event) (s : Served)
    : go unit (list http_response * option Served) :=
  match events with
  | [] => Ret ([], None)
  | Served_ t r :: events =>
      '(resp, s) ← serve t r s;
      '(rest, out) ← worker_life saved now events s;
      Ret (resp :: rest, out)
  | _ :: _ => s ← end_worker saved now s; Ret ([], Some s)
  end.

(** ** Theorems *)

Lemma control_total now r m : manager_inv m -> exists resp m', control offset (ClusterToken cfg) r now m = Ret (resp, m') /\ manager_inv m' /\
  (authorized (ClusterToken cfg) (r_auth r) = false -> resp = CUnauthorized /\ m' = m) /\
  (m' <> m -> r_method r = POST /\ (r_body r = Some "pause"%string \/ r_body r = Some "resume"%string)).
Proof.
  intros Hi. unfold control. destruct (authorized _ _); cbn [negb]; [|by exists CUnauthorized, m].
  destruct (r_method r); [by exists CMethodNotAllowed, m| |by exists CMethodNotAllowed, m].
  destruct (r_body r) as [action|]; [|by exists CInvalidRequest, m].
  destruct (decide (action = "pause"%string)) as [->|].
  - unfold Crawler_Stop. destruct (stopLocked_spec _ (setManualOverride_inv offset now false m Hi)) as (b & m' & -> & ? & _).
    cbn [mbind go_bind]. exists (COk (running m')), m'. split_and!; [done..|by auto].
  - destruct (decide (action = "resume"%string)) as [->|]; [|by exists CUnknownAction, m]. unfold Crawler_Start.
    pose proof (startLocked_inv now _ (setManualOverride_inv offset now true m Hi)). destruct (startLocked _ _) as [b m'].
    exists (COk (running m')), m'. split_and!; [done..|by auto].
Qed.

Lemma authorized_iff token auth : authorized token auth = false <-> token = ""%string \/ TrimPrefix auth "Bearer " <> token.
Proof.
  unfold authorized. destruct (String.eqb_spec token ""), (String.eqb_spec (TrimPrefix auth "Bearer ") token); cbn; intuition congruence.
Qed.

Lemma serve_total now r s : manager_inv (crawler_of s) -> exists resp s', serve now r s = Ret (resp, s') /\ manager_inv (crawler_of s').
Proof.
  intros Hi. unfold serve. destruct (decide _); [|destruct (decide _); [|destruct (decide _)]]; [| | |eauto].
  - destruct (Handler _ _ _ _). eauto.
  - destruct (Crawler_Status_frame offset now (sv_board s)) as [Hw _]. destruct (Crawler_Status _ _ _) as [cs b].
    eexists _, _. split; [done|]. unfold crawler_of in *. cbn in *. by rewrite Hw.
  - destruct (control_total now (mkRequest (h_method r) (h_auth r) (h_action r)) (crawler_of s) Hi) as (resp & m' & -> & Hi' & _).
    cbn [mbind go_bind]. eauto.
Qed.

(** C29: The server of a worker, for every request: nothing panics. Without the cluster's
    token a request changes neither the queue nor the crawler, and is answered with
    401, 404 or the health page, which is a list of counters. Records are handed out to
    a GET of the queue only, at most 64; a record leaves the queue only by a POST that
    names it; the crawler starts and stops only by a POST of pause or resume to the
    control route; and the health page tells whether the crawler runs and how many
    records wait. *)
Theorem worker_server_guarded (now : time) (r : http_request) (s : Served) :
  manager_inv (crawler_of s) ->
  exists resp s', serve now r s = Ret (resp, s') /\ manager_inv (crawler_of s') /\
  (authorized (ClusterToken cfg) (h_auth r) = false ->
     sv_queue s' = sv_queue s /\ crawler_of s' = crawler_of s /\
     (response_code resp ∈ [401; 404] \/ h_path r = "/health"%string /\ exists fields, resp = RHealth fields)) /\
  (forall b, resp = RQueue (BatchBody b) ->
     h_path r = QueuePath /\ h_method r = GET /\ Items b `prefix_of` items (sv_queue s) /\ (length (Items b) <= 64)%nat) /\
  (forall e, e ∈ items (sv_queue s) -> (e ∉ items (sv_queue s')) ->
     h_path r = QueuePath /\ h_method r = POST /\ exists ids, h_ids r = Some ids /\ ID e ∈ ids) /\
  (crawler_of s' <> crawler_of s ->
     h_path r = ControlPath /\ h_method r = POST /\ (h_action r = Some "pause"%string \/ h_action r = Some "resume"%string)) /\
  (h_path r = "/health"%string -> exists fields, resp = RHealth fields /\
     ("paused"%string, JBool (negb (running (crawler_of s)))) ∈ fields /\ ("queued"%string, JInt (Length (sv_queue s))) ∈ fields).
Proof.
  intros Hi. unfold serve. destruct (decide (h_path r = QueuePath)) as [Hp|Hp]; [|destruct (decide (h_path r = _)) as [Hh|Hh]].
  - pose proof (handler_serves (ClusterToken cfg) (WorkerBatch cfg) (mkRequest (h_method r) (h_auth r) (h_ids r)) (sv_queue s)) as H.
    destruct (Handler _ _ _ _) as [resp q]. destruct H as (Hauth & Hun & H). cbn [r_auth r_method r_body] in *.
    rewrite <- authorized_iff in Hauth. eexists _, _. split; [done|]. split; [done|]. unfold crawler_of. cbn [sv_queue sv_board].
    split; [|split; [|split; [|split; [done|by rewrite Hp]]]].
    + intros Ha. apply Hauth in Ha as ->. split; [by apply Hun|]. split; [done|]. left. left.
    + intros b [= ->]. tauto.
    + intros e He Hn. destruct resp; try (by rewrite H in Hn); [by destruct H as (_ & -> & _)|].
      destruct H as (Hm & _ & ids & Hids & Hf). split; [done|]. split; [done|]. exists ids. split; [done|].
      rewrite Hf in Hn. destruct (decide (ID e ∈ ids)); [done|]. exfalso. apply Hn, list_elem_of_filter. done.
  - destruct (Crawler_Status_frame offset now (sv_board s)) as [Hw Hr].
    destruct (Crawler_Status offset now (sv_board s)) as [cs b]. cbn [fst snd] in *.
    assert (crawler_of (mkServed b (sv_queue s) (sv_startedAt s)) = crawler_of s) as Hc by (unfold crawler_of; cbn; by rewrite Hw).
    eexists _, _. split; [done|]. rewrite Hc. split; [done|]. split; [eauto 6|]. split; [done|]. split; [done|]. split; [done|].
    intros _. eexists. split; [done|]. unfold health, crawler_of. rewrite Hr. cbn [WorkerQueue_Stats qs_Queued]. split; [do 2 right; left|do 10 right; left].
  - destruct (decide (h_path r = ControlPath)) as [Hc|Hc].
    + destruct (control_total now (mkRequest (h_method r) (h_auth r) (h_action r)) (crawler_of s) Hi) as (resp & m' & -> & Hi' & Ha & Hm).
      cbn [mbind go_bind r_auth r_method r_body] in *. eexists _, _. split; [done|]. split; [done|]. cbn [with_crawler sv_queue].
      change (crawler_of (with_crawler m' s)) with m'. split; [|split; [done|split; [done|split; [|done]]]].
      * intros Hun. destruct (Ha Hun) as [-> ->]. split; [done|]. split; [done|]. left. left.
      * intros Hne. by destruct (Hm Hne).
    + eexists _, _. split; [done|]. split; [done|]. split; [|split; [done|split; [done|split; [done|done]]]].
      intros _. split; [done|]. split; [done|]. left. right. left.
Qed.

(** ** A worker from the first request to its end *)

Fixpoint requests_until_end (events : list life_event) : nat :=
  match events with Served_ _ _ :: events => S (requests_until_end events) | _ => 0%nat end.

(** A queue that is kept in a directory, in step with its file. *)
Definition kept (q : WorkerQueue) : Prop := cachePath q <> ""%string /\ exists before, items q ∈ before /\ file_inv before q.

Lemma serve_queue now r s resp s' : serve now r s = Ret (resp, s') ->
  sv_queue s' = sv_queue s \/
  sv_queue s' = queue_exec (ClusterToken cfg) (WorkerBatch cfg) (sv_queue s) (QRequest (mkRequest (h_method r) (h_auth r) (h_ids r))).
Proof.
  unfold serve. destruct (decide _); [|destruct (decide _); [|destruct (decide _)]]; intros E.
  - right. cbn [queue_exec]. destruct (Handler _ _ _ _). by injection E as _ <-.
  - left. destruct (Crawler_Status _ _ _). by injection E as _ <-.
  - left. destruct (control _ _ _ _ _) as [[]| |]; [|done..]. by injection E as _ <-.
  - left. by injection E as _ <-.
Qed.

Lemma serve_kept now r s resp s' : serve now r s = Ret (resp, s') -> kept (sv_queue s) -> kept (sv_queue s').
Proof.
  intros [-> | -> ]%serve_queue Hk; [done|]. destruct Hk as (Hp & before & Hb & Hi).
  destruct (queue_exec_inv (ClusterToken cfg) (WorkerBatch cfg) (QRequest (mkRequest (h_method r) (h_auth r) (h_ids r))) before _ Hp Hb Hi) as [Hp' Hi'].
  split; [congruence|]. eexists. split; [|exact Hi']. apply elem_of_app. right. left.
Qed.

Lemma saved_queue q : kept q -> default [] (cacheFile (StopFlushLoop true q)) = items (StopFlushLoop true q).
Proof.
  intros (Hp & before & _ & [Hc _]). unfold StopFlushLoop, saveToCache. rewrite (proj2 (String.eqb_neq _ _) Hp). cbn [orb].
  destruct (cacheDirty q); [done|by apply Hc].
Qed.

(** What [runWorker] sets up is ready to serve. *)
Lemma serving_ready cached now nodes node : runWorker offset cached now cfg nodes = inr node ->
  let s := serving cfg now node in
  manager_inv (crawler_of s) /\ (MasterURL cfg <> ""%string -> kept (sv_queue s)).
Proof.
  intros E. split.
  - unfold runWorker in E. destruct (decide _); [done|]. injection E as <-. cbn. case_match; [|apply NewCrawlerManager_inv].
    apply startLocked_inv, setManualOverride_inv, NewCrawlerManager_inv.
  - intros Hm. destruct (runWorker_queue _ _ _ _ _ _ E Hm) as (Hdir & Hp & Hit & Hd & Hf). cbn [serving with_crawler sv_queue].
    split; [congruence|]. exists [items (wn_queue node)]. split; [left|]. split; [intros _; by rewrite Hf, Hit|].
    rewrite Hf, <- Hit. left.
Qed.

Lemma life_ends (saved : bool) (now : time) (events : list life_event) (s : Served) :
  manager_inv (crawler_of s) ->
  exists resps out, worker_life saved now events s = Ret (resps, out) /\
    length resps = requests_until_end events /\
    (out = None <-> requests_until_end events = length events) /\
    forall s', out = Some s' -> running (crawler_of s') = false /\
      (saved = true -> kept (sv_queue s) -> default [] (cacheFile (sv_queue s')) = items (sv_queue s')).
Proof.
  revert s. induction events as [|[t r| |] events IH]; intros s Hi; cbn [worker_life requests_until_end].
  { by exists [], None. }
  2, 3: unfold end_worker, Crawler_Stop;
    destruct (stopLocked_spec _ (setManualOverride_inv offset now false _ Hi)) as (b & m' & -> & _ & Hr & _);
    cbn [mbind go_bind]; eexists [], (Some _); (split; [done|]; split; [done|]; split; [done|]);
    intros s' [= <-]; (split; [done|]); intros -> Hk; by apply saved_queue.
  destruct (serve_total t r s Hi) as (resp & s1 & E & Hi1). rewrite E. cbn [mbind go_bind].
  destruct (IH s1 Hi1) as (resps & out & -> & Hl & Hn & Hout). cbn [mbind go_bind]. exists (resp :: resps), out.
  split; [done|]. split; [cbn [length]; by f_equal|]. split; [rewrite Hn; cbn [length]; lia|].
  intros s' Hs'. destruct (Hout s' Hs') as [Hr Hk]. split; [done|]. intros Hsv Hq. apply Hk; [done|]. by eapply serve_kept.
Qed.

End Serve.

(** ** A worker that is asked for its records, paused and ended *)

Module ServeDemo.
#[local] Open Scope string_scope.
Definition config : Configuration := StartupDemo.lasting.
Definition queue : WorkerQueue := (Enqueue StartupDemo.cat (NewWorkerQueue "w" 4 "dir" true (Some [mkEntry 1 StartupDemo.cat]))).2.
Definition served : Served := mkServed (board_init config Cache.emptyCache) queue 0.
Definition pause : http_request := mkHttp ControlPath POST "Bearer token" None (Some "pause").
Definition acknowledge : http_request := mkHttp QueuePath POST "Bearer token" (Some [1]) None.
Definition stranger : http_request := mkHttp QueuePath POST "Bearer guess" (Some [1; 2]) None.
Definition started : string + WorkerNode := runWorker 0 StartupDemo.left_over 0 config [].
Definition node : WorkerNode := match started with inr node => node | inl _ => mkWorkerNode [] queue (NewCrawlerManager config) end.
Definition events : list life_event := [Served_ 5 stranger; Served_ 5 pause; Served_ 6 acknowledge; Signal; Served_ 7 stranger].
End ServeDemo.

Theorem worker_server_guarded_witness : exists resp s', serve 0 ServeDemo.config 5 ServeDemo.stranger ServeDemo.served = Ret (resp, s') /\
  response_code resp = 401 /\ items (sv_queue s') = items (sv_queue ServeDemo.served).
Proof.
  destruct (worker_server_guarded 0 ServeDemo.config 5 ServeDemo.stranger ServeDemo.served (NewCrawlerManager_inv _)) as (resp & s' & E & _ & Ha & _).
  destruct (Ha ltac:(reflexivity)) as (Hq & _ & Hc). exists resp, s'. split; [exact E|]. split; [|by rewrite Hq].
  vm_compute in E. injection E as <- _. reflexivity.
Defined.

