(* ===== verification/Pages.v ===== *)
(** * Pages, forms and routes (ui/ui.go, search.go, discover.go, dashboard.go, watch.go, blacklist.go, workers.go, crawler_controls.go, i18n.go)

    What the pages of the web server show, as the values that a handler gives its
    template; the search form's redirect and the links that switch the language, as
    query strings; and the table of routes of [RunWebServer] behind the basic
    authentication. *)

From S2P Require Import Prelude Text Url Config Metrics Sink Filters Repo Cluster Ingest Crawler I18n Web Server Frontend.
From Stdlib Require Import Ascii.
Open Scope Z_scope.

(** ** The search form *)

(** The fields of the form; an absent one is empty. *)
Record search_form : Type := mkForm {
  f_key : string; f_match_type : string; f_search_input : string; f_min_size : string; f_max_size : string;
  f_start_date_val : string; f_end_date_val : string
}.
Definition add_unless (empty : list string) (k x : string) (v : Values) : Values :=
  if decide (x ∈ empty) then v else add_value k x v.
Definition form_values (f : search_form) : Values :=
  let params := add_value "search-input" (f_search_input f)
    (add_value "match-type" (f_match_type f) (add_value "key" (f_key f) ∅)) in
  let params := add_unless ["0"; ""]%string "min-size" (f_min_size f) params in
  let params := add_unless ["0"; ""]%string "max-size" (f_max_size f) params in
  let params := add_unless [""%string] "start-date-val" (f_start_date_val f) params in
  add_unless [""%string] "end-date-val" (f_end_date_val f) params.
(** The location of the redirect. *)
Definition SearchPost (f : search_form) : string := "/search?" +:+ Encode (form_values f).

(** The parameters that the search page and the API read. *)
Definition query_of (v : Values) : search_query :=
  mkSearchQuery (first_value v "key") (first_value v "match-type") (first_value v "search-input")
    (first_value v "page") (first_value v "limit") (first_value v "min-size") (first_value v "max-size")
    (first_value v "start-date-val") (first_value v "end-date-val") (first_value v "start-date") (first_value v "end-date").

(** The link to the same page in another language. *)
Definition languageURL (path rawQuery lang : string) : string :=
  let values := Set_ "lang" lang (ParseQuery rawQuery) in
  let path := if decide (path = ""%string) then "/"%string else path in
  path +:+ "?" +:+ Encode values.

(** ** Pages *)

Section Pages.
  Context {document store : Type} `{Document document, !Clover document store}.
  Context (unicode_lower : string -> string) (FormatRFC822 : time -> string) (offset : duration).

(** Results, total, number of pages and the parameters that are shown again; [None] is
    the empty page. An error of the database shows as no result. *)
Definition SearchGet (q : search_query) (s : store) : option (list MetaData * Z * Z * SearchParams) :=
  let params := parseSearchParams q in
  if decide (sp_SearchInput params = ""%string) then None
  else
    let '(results, total) := default ([], 0) (Search unicode_lower FormatRFC822 (sp_Key params) (sp_MatchType params)
      (sp_SearchInput params) (sp_Limit params) (sp_Offset params) (sp_Filters params) s) in
    Some (results, total, totalPages total (sp_Limit params), params).

(** Results, total, current page, number of pages and limit. *)
Definition DiscoverGet (page limit : option string) (s : store) : list MetaData * Z * Z * Z * Z :=
  let '(page, limit, offset) := parsePagination page limit in
  let '(results, total) := default ([], 0) (GetLatest FormatRFC822 limit offset s) in
  (results, total, page, totalPages total limit, limit).
Definition DiscoverPost (limit : string) (draw : nat -> nat) (s : store) : go unit (list MetaData) :=
  let '(N, ok) := Atoi limit in
  GetNRandomEntries FormatRFC822 (if ok then N else 50) draw s.

Record dashboard : Type := mkDashboard {
  d_catDist : gmap string Z; d_info_hash_count : Z; d_families : Z * Z * Z; d_statistics : bool; d_crawler : option CrawlerStatus
}.
(** The crawler with its counters is the board [b]. *)
Definition Dashboard (now : time) (b : Board) (w : Web) (s : store) : dashboard :=
  mkDashboard (default ∅ (GetCategoryDistribution s)) (GetInfoHashCount s) (GetFamilyCounts s)
    (Statistics (w_config w)) ((fun _ => (Crawler_Status offset now b).1) <$> w_crawler w).

Definition WatchGet (s : store) : list WatchEntry := GetWatchEntries_ s.
Definition BlacklistGet (s : store) : list BlacklistEntry := GetBlacklistEntries s.
(** Is this the master, and the workers. *)
Definition Workers (now : time) (w : Web) : bool * list WorkerStatus :=
  (bool_decide (NodeRole (w_config w) = "master"%string), default [] (Status now <$> w_monitor w)).
Definition APIWorkers (now : time) (w : Web) : list WorkerStatus :=
  if bool_decide (NodeRole (w_config w) = "master"%string) then default [] (Status now <$> w_monitor w) else [].
Definition APICategories (s : store) : option (gmap string Z) := GetCategoryDistribution s.

Definition CrawlerStart (now : time) (w : Web) : Web :=
  mkWeb (w_config w) (w_notifier w) ((fun m => (Crawler_Start offset now m).2) <$> w_crawler w) (w_monitor w).
Definition CrawlerStop (now : time) (w : Web) : go unit Web :=
  match w_crawler w with
  | None => Ret w
  | Some m => '(_, m) ← Crawler_Stop offset now m; Ret (mkWeb (w_config w) (w_notifier w) (Some m) (w_monitor w))
  end.
End Pages.

(** ** Routes *)

Inductive handler : Type :=
  | HDashboard | HWorkers | HSearchGet | HSearchPost | HDiscoverGet | HDiscoverPost | HClearDataPost
  | HWatchGet | HWatchPost | HBlacklistGet | HBlacklistPost | HSettingsGet | HSettingsPost
  | HCrawlerStart | HCrawlerStop | HTrawl | HWebSocket
  | HSendToTransmission | HSendToAria2 | HSendToDeluge | HSendToQBittorrent | HTestDownloader
  | HHealth | HMasterFlush | HMCP
  | HAPISearch | HAPIStats | HAPICategories | HAPILatest | HAPIWorkers | HAPIWorkerPause | HAPIWorkerResume
  | HStatic.
#[export] Instance handler_eq_dec : EqDecision handler.
Proof. solve_decision. Defined.
#[export] Instance method_eq_dec : EqDecision method.
Proof. solve_decision. Defined.

(** The patterns of gin that are used: a path, one with a last segment that is
    anything but empty, and one with anything behind it. *)
Inductive pattern : Type := Exact (path : string) | Segment (prefix : string) | Under (prefix : string).
Definition path_matches (p : pattern) (path : string) : bool :=
  match p with
  | Exact x => String.eqb x path
  | Segment x => HasPrefix path x && negb (String.eqb x path) &&
      no_char (fun c => Ascii.eqb c "/") (TrimPrefix path x)
  | Under x => HasPrefix path x
  end.

(** With or without the flush route. *)
Definition route_table (flush : bool) : list (method * pattern * handler) :=
  [(GET, Exact "/", HDashboard); (GET, Exact "/dashboard", HDashboard); (GET, Exact "/workers", HWorkers);
   (GET, Exact "/search", HSearchGet); (POST, Exact "/search", HSearchPost);
   (GET, Exact "/discover", HDiscoverGet); (POST, Exact "/discover", HDiscoverPost);
   (POST, Exact "/data/clear", HClearDataPost);
   (GET, Exact "/watches", HWatchGet); (POST, Exact "/watches", HWatchPost);
   (GET, Exact "/blacklist", HBlacklistGet); (POST, Exact "/blacklist", HBlacklistPost);
   (GET, Exact "/settings", HSettingsGet); (POST, Exact "/settings", HSettingsPost);
   (POST, Exact "/crawler/start", HCrawlerStart); (POST, Exact "/crawler/stop", HCrawlerStop);
   (GET, Exact "/trawl", HTrawl); (GET, Exact "/ws/trawl", HWebSocket);
   (GET, Exact "/download/transmission", HSendToTransmission); (GET, Exact "/download/aria2", HSendToAria2);
   (GET, Exact "/download/deluge", HSendToDeluge); (GET, Exact "/download/qbittorrent", HSendToQBittorrent);
   (POST, Segment "/download/test/", HTestDownloader);
   (GET, Exact "/health", HHealth)]%string ++
  (if flush then [(POST, Exact FlushPath, HMasterFlush)] else []) ++
  [(GET, Exact "/mcp", HMCP); (POST, Exact "/mcp", HMCP);
   (GET, Exact "/api/search", HAPISearch); (GET, Exact "/api/stats", HAPIStats);
   (GET, Exact "/api/categories", HAPICategories); (GET, Exact "/api/latest", HAPILatest);
   (GET, Exact "/api/workers", HAPIWorkers); (POST, Exact "/api/workers/pause", HAPIWorkerPause);
   (POST, Exact "/api/workers/resume", HAPIWorkerResume);
   (GET, Under "/css/", HStatic); (GET, Under "/js/", HStatic)]%string.

Definition routes (cfg : Configuration) : list (method * pattern * handler) :=
  route_table (bool_decide (NodeRole cfg = "master"%string) && bool_decide (ClusterToken cfg <> ""%string)).

Definition find_in (table : list (method * pattern * handler)) (m : method) (path : string) : option handler :=
  snd <$> head (filter (fun r => r.1.1 = m /\ path_matches r.1.2 path = true) table).
Definition find_route (cfg : Configuration) (m : method) (path : string) : option handler := find_in (routes cfg) m path.

Inductive outcome : Type := Unauthorized | NoRoute | Handled (h : handler).
(** [basicAuth] is [gin.BasicAuth]: does it let a request with this header through? *)
Definition RunWebServer (basicAuth : string -> string -> string -> bool) (cfg : Configuration)
    (m : method) (path auth : string) : outcome :=
  if bool_decide (AuthUser cfg <> ""%string) && bool_decide (AuthPass cfg <> ""%string) &&
     negb (basicAuth (AuthUser cfg) (AuthPass cfg) auth) then Unauthorized
  else match find_route cfg m path with None => NoRoute | Some h => Handled h end.

(** ** Templates *)

(** A view and the files that it is parsed from. [view] and [include] are the entries of
    the two directories, a view with whether it is a directory itself. *)
Definition loadTemplates (view : list (string * bool)) (include : list string) : list (string * list string) :=
  let includeFiles := (fun f => "templates/include/" +:+ f)%string <$> include in
  omap (fun '(viewFileName, isDir) =>
    if isDir : bool then None
    else
      let viewName := if HasSuffix viewFileName ".html"
        then String.substring 0 (String.length viewFileName - 5) viewFileName else viewFileName in
      Some (viewName, includeFiles ++ ["templates/view/" +:+ viewFileName]%string)) view.

(** ** Theorems *)

Lemma add_unless_proper empty k x v : proper v -> proper (add_unless empty k x v).
Proof. intros Hv. unfold add_unless. case_decide; [done|by apply add_proper]. Qed.

Lemma form_values_proper f : proper (form_values f).
Proof. repeat apply add_unless_proper. repeat apply add_proper. intros k. by rewrite lookup_empty. Qed.

Lemma parse_proper raw : proper (ParseQuery raw).
Proof.
  unfold ParseQuery. apply foldl_inv; [|intros k; by rewrite lookup_empty]. intros m piece _ Hm. unfold parse_piece.
  destruct (negb _); [done|]. case_decide; [done|]. destruct (Cut _ _) as [k x].
  destruct (QueryUnescape k); [|done]. destruct (QueryUnescape x); [|done]. by apply add_proper.
Qed.

(** What a key holds after a value is added to it, or to another. *)
Lemma first_add_ne k x v k' : k <> k' -> first_value (add_value k x v) k' = first_value v k'.
Proof. intros Hne. unfold first_value, add_value. by rewrite lookup_insert_ne. Qed.
Lemma first_unless_ne empty k x v k' : k <> k' -> first_value (add_unless empty k x v) k' = first_value v k'.
Proof. intros Hne. unfold add_unless. case_decide; [done|]. by apply first_add_ne. Qed.
Lemma first_unless_eq empty k x v : v !! k = None ->
  first_value (add_unless empty k x v) k = if decide (x ∈ empty) then None else Some x.
Proof.
  intros Hv. unfold add_unless, first_value. case_decide; [by rewrite Hv|]. unfold add_value. by rewrite Hv, lookup_insert_eq.
Qed.
Lemma unless_none empty k x v k' : k <> k' -> v !! k' = None -> add_unless empty k x v !! k' = None.
Proof. intros Hne Hv. unfold add_unless. case_decide; [done|]. unfold add_value. by rewrite lookup_insert_ne. Qed.
Lemma add_none k x v k' : k <> k' -> v !! k' = None -> add_value k x v !! k' = None.
Proof. intros Hne Hv. unfold add_value. by rewrite lookup_insert_ne. Qed.
Ltac other_keys := repeat first [rewrite first_unless_ne by done|rewrite first_add_ne by done].
Ltac absent := repeat first [apply unless_none; [done|]|apply add_none; [done|]]; apply lookup_empty.

(** The query that the search page gets from the form. *)
Lemma form_query (f : search_form) :
  let optional empty x := if decide (x ∈ empty) then None else Some x in
  query_of (form_values f) = mkSearchQuery (Some (f_key f)) (Some (f_match_type f)) (Some (f_search_input f)) None None
    (optional ["0"; ""]%string (f_min_size f)) (optional ["0"; ""]%string (f_max_size f))
    (optional [""%string] (f_start_date_val f)) (optional [""%string] (f_end_date_val f)) None None.
Proof.
  cbv zeta. unfold query_of, form_values. f_equal; other_keys; try done; apply first_unless_eq; absent.
Qed.

(** C24: What is typed into the search form is what the search page searches for, on its
    first page: no byte of it is lost or changed on the way through the redirect. *)
Theorem search_form_roundtrip (f : search_form) :
  exists query, SearchPost f = ("/search?" +:+ query)%string /\
    let date v := if decide (v = ""%string) then 0 else date_seconds v in
    parseSearchParams (query_of (ParseQuery query)) =
      mkSearchParams (f_key f) (f_match_type f) (f_search_input f) 1 50 0 (f_start_date_val f) (f_end_date_val f)
        (mkFilters (ParseUint (f_min_size f)) (ParseUint (f_max_size f)) (date (f_start_date_val f)) (date (f_end_date_val f))).
Proof.
  exists (Encode (form_values f)). split; [done|]. cbv zeta. rewrite parse_encode by apply form_values_proper.
  rewrite form_query. unfold parseSearchParams.
  cbn [sq_page sq_limit sq_key sq_match_type sq_search_input sq_min_size sq_max_size sq_start_date_val sq_end_date_val sq_start_date sq_end_date].
  assert (forall x, ParseUint (DefaultQuery (if decide (x ∈ ["0"; ""]%string) then None else Some x) "0") = ParseUint x) as Hsize.
  { intros x. case_decide as Hx; [|done]. apply elem_of_cons in Hx as [->|Hx]; [done|]. by apply list_elem_of_singleton in Hx as ->. }
  assert (forall v, Query (if decide (v ∈ [""%string]) then None else Some v) = v) as Hdate.
  { intros v. case_decide as Hv; [|done]. by apply list_elem_of_singleton in Hv as ->. }
  assert (forall v, parse_date_param v None = if decide (v = ""%string) then 0 else date_seconds v) as Hparse.
  { intros v. unfold parse_date_param. destruct (decide (v = ""%string)) as [->|Hv]; [by rewrite decide_False by auto|by rewrite decide_True]. }
  by rewrite !Hsize, !Hdate, !Hparse.
Qed.

(** A link to another language keeps every parameter of the page but the language, and
    the page behind it is in that language whatever cookie and header say. *)
Theorem language_link (unicode_lower : string -> string) (path rawQuery lang header : string) (cookie : option string) :
  supported lang ->
  exists query, languageURL path rawQuery lang = ((if decide (path = "") then "/" else path) +:+ "?" +:+ query)%string /\
    ParseQuery query = Set_ "lang" lang (ParseQuery rawQuery) /\
    query_of (ParseQuery query) = query_of (ParseQuery rawQuery) /\
    (detectLanguage unicode_lower (Query (first_value (ParseQuery query) "lang")) cookie header).1 = lang.
Proof.
  intros Hl. eexists. split; [reflexivity|]. rewrite parse_encode.
  2: { intros k. unfold Set_. destruct (decide ("lang" = k)%string) as [<-|Hne]; [by rewrite lookup_insert_eq|].
       rewrite lookup_insert_ne by done. apply parse_proper. }
  split; [done|]. split.
  - unfold query_of, first_value, Set_. by rewrite !lookup_insert_ne by done.
  - unfold first_value, Set_. rewrite lookup_insert_eq. cbn [mbind option_bind head Query default from_option].
    unfold id, detectLanguage. destruct (supported_normal unicode_lower lang Hl) as [Hn Hne]. by rewrite Hn, decide_True.
Qed.

Lemma flush_in_table b m : find_in (route_table b) m FlushPath =
  if b then match m with POST => Some HMasterFlush | _ => None end else None.
Proof. destruct b, m; vm_compute; reflexivity. Qed.

(** No route of a fixed path is hidden by one that stands before it. *)
Lemma table_reached b m p h : (m, Exact p, h) ∈ route_table b -> find_in (route_table b) m p = Some h.
Proof.
  assert (forallb (fun r : method * pattern * handler =>
    match r.1.2 with Exact p => bool_decide (find_in (route_table b) r.1.1 p = Some r.2) | _ => true end) (route_table b) = true) as Ht
    by (destruct b; vm_compute; reflexivity).
  intros Hin%list_elem_of_In. apply (proj1 (forallb_forall _ _) Ht) in Hin. cbn [fst snd] in Hin. by apply bool_decide_eq_true in Hin.
Qed.


(** The styles are built from every template: the pattern of tailwind.config.js, whose
    directory is that of the module, matches each file that a page is parsed from. *)
Theorem templates_are_scanned (glob_match : string -> string -> bool)
    (view : list (string * bool)) (include : list string) (name : string) (files : list string) (file : string) :
  (forall dir f, no_char (fun c => Ascii.eqb c "/") f = true ->
     glob_match "./ui/templates/**/*.html" ("./ui/templates/" +:+ dir +:+ "/" +:+ f +:+ ".html") = true) ->
  (forall f, f ∈ view.*1 ++ include -> exists base, f = (base +:+ ".html")%string /\ no_char (fun c => Ascii.eqb c "/") base = true) ->
  (name, files) ∈ loadTemplates view include -> file ∈ files ->
  existsb (fun pattern => glob_match pattern ("./ui/" +:+ file)%string) (Tailwind.content Tailwind.exports) = true.
Proof.
  intros Hglob Hnames Hin Hfile. cbn [Tailwind.content Tailwind.exports existsb]. rewrite orb_false_r.
  unfold loadTemplates in Hin. apply list_elem_of_omap in Hin as ([v isDir] & Hv & Hin). destruct isDir; [done|]. injection Hin as _ <-.
  assert (exists dir f, file = ("templates/" +:+ dir +:+ "/" +:+ f)%string /\ f ∈ view.*1 ++ include) as (dir & f & -> & Hf).
  { apply elem_of_app in Hfile as [(f & -> & Hf)%list_elem_of_fmap| ->%list_elem_of_singleton].
    - exists "include"%string, f. split; [done|]. apply elem_of_app. by right.
    - exists "view"%string, v. split; [done|]. apply elem_of_app. left. apply list_elem_of_fmap. by exists (v, false). }
  destruct (Hnames f Hf) as (base & -> & Hb). exact (Hglob dir base Hb).
Qed.

(** ** Witnesses *)

Module PagesDemo.
(** A matcher for patterns of one double star, which stands for any directories. *)
Definition demo_glob (pattern path : string) : bool :=
  String.eqb pattern "./ui/templates/**/*.html" && HasPrefix path "./ui/templates/" && HasSuffix path ".html".
Theorem templates_are_scanned_witness :
  demo_glob "./ui/templates/**/*.html" "./ui/templates/view/search.html" = true.
Proof.
  assert (existsb (fun pattern => demo_glob pattern "./ui/templates/view/search.html") (Tailwind.content Tailwind.exports) = true) as H.
  { apply (templates_are_scanned demo_glob [("search.html", false)]%string ["base.html"]%string "search"
      ["templates/include/base.html"; "templates/view/search.html"]%string "templates/view/search.html").
    - intros dir f _. unfold demo_glob. rewrite String.eqb_refl. cbn [andb]. apply andb_true_iff. split; [apply app_prefix|].
      apply HasSuffix_spec. exists ("./ui/templates/" +:+ dir +:+ "/" +:+ f)%string. by rewrite !string_app_assoc.
    - intros f [->|Hf]%elem_of_cons; [by exists "search"%string|]. apply list_elem_of_singleton in Hf as ->. by exists "base"%string.
    - vm_compute. left.
    - right. left. }
  cbn [existsb Tailwind.content Tailwind.exports] in H. by rewrite orb_false_r in H.
Defined.

Definition demo_config : Configuration := ConfigDemo.defaults <| AuthUser := "me"%string |> <| AuthPass := "secret"%string |>.
#[local] Instance no_repository : Repository unit := {
  InsertMetadata _ r := (false, r); GetWatchEntries _ := []; FindBy _ _ _ _ := []
}.

Theorem language_link_witness :
  languageURL "/search" "key=Name&search-input=a%26b&lang=en" chineseLanguage = "/search?key=Name&lang=zh-CN&search-input=a%26b"%string /\
  first_value (ParseQuery "key=Name&lang=zh-CN&search-input=a%26b") "search-input" = Some "a&b"%string.
Proof.
  destruct (language_link id "/search" "key=Name&search-input=a%26b&lang=en" chineseLanguage "" None (or_intror eq_refl))
    as (query & Hq & _ & Hsame & _).
  assert (query = "key=Name&lang=zh-CN&search-input=a%26b"%string) as ->.
  { vm_compute in Hq. injection Hq as <-. reflexivity. }
  split; [vm_compute; reflexivity|]. apply (f_equal sq_search_input) in Hsame. cbn [sq_search_input query_of] in Hsame.
  rewrite Hsame. vm_compute. reflexivity.
Defined.
End PagesDemo.
